(* ===== verification/_CoqProject ===== *)
-Q . S2P
Prelude.v
Layout.v
Unicode.v
Disk.v
Xtree.v
BufCache.v
Sample.v
BufRace.v
Imap.v
FileRead.v
DirRead.v
Headers.v
Node.v
Interleave.v
Clients.v
Dir.v
LookupSteps.v
Listing.v
Pager.v
Volume.v
BtStack.v
Translator.v
Server.v
Session.v
Reading.v
Service.v
PagerSteps.v
PagerThreads.v
Concurrent.v
Linear.v
Phase.v
Walkers.v
Epochs.v
