(* ===== verification/Prelude.v ===== *)
(** * A verified model of the GNU Hurd JFS translator

    The program is a read-only file system server for IBM's JFS on the GNU Hurd:
    it maps a device into memory, walks the on-disk B+-trees, and answers the
    callbacks of libdiskfs and libpager.  This library is a shallow embedding of
    its C code in Rocq: every C function becomes a function on explicit state,
    with the same guards in the same order, and the theorems state what the code
    does on every branch, the faulty ones included.

    ** Parts, bottom up

    - Prelude: outcomes of C code ([res]), machine integers with their
      wrap-around ([wrapU], [wrapS]), shifts that can be undefined, little-endian
      memory objects ([mem], [get_u], [get_s]).
    - Layout (jfs_types.h, jfs_xtree.h, jfs_dtree.h, jfs_dinode.h, jfs_superblock.h,
      jfs_imap.h, jfs_dirread.h): decoders of the on-disk structures and the
      macros that build and read their 40-bit addresses and offsets.
    - Unicode (jfs_unicode.c, jfs_unicode.h): the UTF-8 encoder, the conversion of
      names, [UniStrncpy].
    - Disk ([ujfs_read_diskblocks], [xRead] of jfs_inode.c, hyper.c): the mapped
      device is a byte function with a size; [env] holds the globals [disk_image]
      and [jfs_sb] and an oracle that says which malloc sizes succeed.
    - Xtree: the binary search of an extent page that jfs_inode.c and
      jfs_fileread.c both write out, and the specification of an extent tree
      ([xtree], [ext_find]).
    - BufCache ([bRead], [bAllocate], [bRelease] of jfs_fileread.c): the free list
      of page buffers in a heap.
    - Sample: a small concrete volume; the witnesses evaluate the model on it.
    - BufRace: the accesses of [bRead] and [bRelease] to the free list as single
      steps ([read_step]), and threads that interleave them ([readers_step]).
    - Imap ([find_iag], [find_inode], [get_inode] of jfs_inode.c): from an inode
      number to the address of the inode.
    - FileRead ([xt_Lookup], [get_file] of jfs_fileread.c): from a file block to a
      disk block.
    - DirRead (jfs_dirread.c): names spread over slots, [readndir], [directory].
    - Headers: the C types of all on-disk structures ([ctype]) with the layout rule of
      i386, and the constants and macros of the headers that no code uses.
    - Node (dir.c): the node cache, a hash table of doubly linked chains in a heap
      of nodes, [read_node], [diskfs_cached_lookup], [diskfs_node_norefs].
    - Interleave: [diskfs_cached_lookup] and [read_node] cut into the steps between
      which other threads run ([thread_step]), and any number of threads that look
      numbers up in one cache ([conf_step]).
    - Clients: the same with clients that give back the references they were given
      ([client_step]).
    - Dir (dir.c): [diskfs_get_directs], [diskfs_lookup_hard], [diskfs_set_statfs],
      on top of DirRead and Node.
    - LookupSteps (dir.c): [diskfs_lookup_hard] cut into the steps between which other
      threads run ([hard_step]), those of [diskfs_cached_lookup] among them.
    - Listing: a client that reads a whole directory through [diskfs_get_directs].
    - Pager (pager.c): reading a page through FileRead, the life of a node's pager,
      [diskfs_pager_users].
    - Volume: an abstract volume (directories as lists of entries, files as sizes
      and extents) and the composition of lookup, pager creation and page read on
      it.
    - BtStack (jfs_btree.h): the traversal-stack macros and those for its pages.
    - Translator (jfs.c, callbacks.c, storeinfo.c): start-up, [parse_opt], and the
      constant callbacks.
    - Server: the running translator as a state machine.  [server] is all of its
      state; [serve] is one call of any handler that changes it, or one of the
      things the libraries do to nodes themselves (lock, unlock, count references,
      forget); [serves] are sequences of calls after [main] ([booted]).
    - Session: what a client sees in every state of that machine, stated over the
      abstract volume: paths and pages.
    - Reading: a client that walks a path, opens the file and reads it to its end
      ([read_path]).
    - Service: the translator as one function from requests to replies ([handle]),
      what the libraries may ask for ([allowed]) and the answers the abstract volume
      gives ([answers]).
    - PagerSteps, PagerThreads (pager.c): [diskfs_get_filemap] and
      [pager_clear_user_data] cut into the steps between which other threads run
      ([pager_step]), and threads that make and end pagers, in any interleaving and
      with pagers that die at any time ([paging_step]).
    - Concurrent: both kinds of threads over the same nodes, with clients that ask for
      the memory objects of the nodes their lookups returned ([system_step]).
    - Linear: histories of calls and returns of such a run ([history]) and the atomic
      lookup-or-insert they are compared with ([lookup_spec], [linearization]).
    - Phase: what a run of Concurrent that starts from a state of Server returns and
      leaves.
    - Walkers: clients that walk paths at the same time, as libdiskfs does for them
      ([walking_step]).
    - Epochs: single calls (Server), phases of overlapping calls (Phase) and of walks
      (Walkers), in any order ([epoch]).

    The calls go down this list: libdiskfs calls Dir and Node, libpager calls
    Pager; Dir calls DirRead and Node, Node and DirRead call Imap, Pager calls Imap
    and FileRead, and all of them read the device through Disk.

    ** State and outcomes

    State is passed explicitly: [bcache] (BufCache), [nstate] (Node), [pstate]
    (Pager), [server] (Server, all of them).  A computation returns [Ret] with the values the C function returns
    and stores, [Err] with its error code when it returns one and has stored
    nothing that matters, [Fault] when it goes wrong (a read outside an object, a
    write past one, an indeterminate value, an undefined shift, a null pointer, a
    failed assertion, exit, a lock taken twice) and [NoFuel] when it is still
    running at the bound of the model.  Where a function keeps its state on an
    error, the error is part of the returned value.  A function that stores through
    a pointer an earlier value survives in ([*gotinum], [*npp], the name buffer)
    takes that value as an argument; [None] is a variable nothing was stored in.

    Interfaces are type classes: [WfEnv] (a mounted volume of consistent block
    size and whole blocks, with memory), [InodeMap] (its inode map is a well-formed
    extent tree), [HurdLaws], [LibDiskfsLaws], [DirentLaws], [PagerLibLaws] and
    [StoreLaws] (documented behaviour of libraries that are not in the repository);
    [WorldLaws] collects those a running translator needs, and [HoldsVolume] relates
    the device to an abstract volume.  Each has an instance, used by the witnesses.

    ** What the theorems show

    - Reading: [xRead] is transparent, and what it does for ranges that the device does
      not have and without memory is exactly known ([xRead_in_bounds]); [find_iag], [find_inode] and
      [xt_Lookup] refine the abstract maps from group, inode number and file block
      given by well-formed extent trees, with fuel above the height of the tree;
      [pager_read_page] delivers the file's page.
    - The whole: [read_path_contents], reading a file by its path gives the bytes the
      abstract volume says it has ([file_contents]), and [epochs_served], no allowed
      request fails, waits for ever or gets another answer than the volume's, in any
      state the translator can reach, phases of overlapping calls included
      ([every_request_served] for single calls only); [phase_results] says what lookups
      return while such a phase is running.  [concurrent_walks]: clients that walk paths
      at the same time, each with the mutex of the directory it searches, do not block
      each other for ever, and each ends where its path leads.
    - Serving: [server_invariant] holds in every state after start-up whatever the
      libraries call.  From it, [path_lookup]: a walk along a path of any length
      ends at the object the path denotes in the abstract volume, cached or not;
      [pages_of_the_volume]: every pager delivers its file's pages;
      [clear_last_pager]: pagers are forgotten without leaving a pointer behind, and
      nodes would be; and [nodes_are_kept_forever]: no node ever is, because of a
      reference nobody owns.
    - Directories: [readndir] and [directory] refine the list of entries a tree
      holds ([dir_contents]), listing and looking up agree on ASCII names that are
      listed before the names they begin, and [diskfs_get_directs] and
      [diskfs_lookup_hard] are characterised in terms of that list; a client that asks again until it gets no record sees the list
      ([list_directory_complete]).
    - Threads: a thread that runs alone is the sequential function
      ([run_alone_is_cached_lookup], [lookup_hard_alone], [read_alone_is_bRead],
      [pagers_alone]).  Making and
      ending pagers concurrently is safe and ends ([interleaved_pagers_safe],
      [interleaved_pagers_end]): the do-while loop meets a dying pager at most once, and
      the light references are balanced again when all threads have returned.  Both hold
      among concurrent lookups too ([concurrent_translator_safe],
      [concurrent_translator_ends]), if clients wait until their nodes have been read
      ([unread_node_opened]).  Concurrent lookups are linearizable
      ([lookups_linearizable]): what they return is what an atomic lookup-or-insert on
      the finite map of the cache returns in some order compatible with their calls and
      returns, and [cached_lookup_atomic] is the same of the sequential function.  They
      end, waiting for nothing but the mutexes of nodes; but a node can be returned
      before it is read, and references can be lost, so that a node is freed while a
      lookup waits for it ([node_freed_in_use]), and two clients can be left with one
      node, both as if they had its mutex ([two_owners]).  The free list of page buffers has no lock, and
      two reads can be given one buffer.
    - Shared state: without overlapping calls no page buffer is lost or duplicated; the node cache's
      chains stay doubly linked, partitioned by hash and free of duplicates under
      lookup and removal, and represent a finite map; each node's file pager
      belongs to it, and references are balanced.
    - Errors: the paths on which the code does not do what it means to, each as a
      theorem about the same definitions: lookups that accept prefixes, names that
      are never found, lost locks, overrun buffers, loops that do not end.
    - Layout: the decoders read the fields where the C structures have them, bit fields
      included ([decoders_follow_layout]), and the structures have the sizes the code and the
      comments assume ([structure_sizes]), one excepted.
    - Encodings: the macros and byte layouts are inverse to each other, and the
      UTF-8 conversion agrees with the encoding and decodes back.

    ** Bounds and fuel

    Descents and leaf walks follow block addresses of the disk, so that on a
    corrupt volume they need not end; their fuel counts the pages visited, theorems
    ask for more fuel than the tree is high or the chain long, and the divergence
    theorems show that no fuel helps on a cycle.  The page search gets 17 rounds
    ([search_fuel]), which [xt_search_terminates] shows to decide it for every 16-bit
    count, those below the two reserved entries included, with which it can run for ever;
    a chain of name slots gets 128 ([slot_fuel]), more than the 17 slots a name of
    255 units needs; [diskfs_get_directs] runs thirty rounds, its own limit; the
    hash walk is bounded by the number of nodes and the pager loop by two rounds,
    both proved enough.  Interleavings have no bound: their length is bounded by a
    theorem, 8 steps for a lookup, 17 for a memory object, 7 for the end of a pager, and 14
    for every name of a path.

    ** What is not modelled

    The machine is a little-endian 32-bit one with the i386 structure layout; a
    field access is checked against the memory object (inode, page, buffer) rather
    than the declared bound of an inner array.  In the sequential definitions one thread
    runs at a time, and a lock that is already held is a fault; the interleavings of
    [diskfs_cached_lookup] with itself, of [bRead] and [bRelease] with themselves and
    of [diskfs_get_filemap] with [pager_clear_user_data] are modelled on their own, the
    first and the last together, and [diskfs_lookup_hard] with itself.  [diskfs_node_norefs] runs between the steps of
    lookups in Clients, as a whole, and nowhere between those of pagers; the page buffers
    are not interleaved with the rest; in Server calls do not overlap, and in Epochs a
    phase of overlapping calls ends before the next single call.  Mutexes of nodes have no
    owner, so that a client that got a node unlocked (a first lookup) can unlock it under
    another ([two_owners]); clients in Walkers keep the references they are given while they walk.  The interleaved steps
    assume sequentially consistent memory.
    The theorems over the abstract volume are for blocks of 4096 bytes, as
    [pager_read_page] assumes.
    [diskfs_catch_exception] returns a value and does not return twice.
    [jfs_info] logs nothing (DEBUG and LOGFILE are not defined) and its arguments
    have no effect, so that its calls are left out of the functions.  The entry
    counter of [readndir] is not wrapped at 2^31, which it does not reach for a
    position that is an [int] and not negative ([readndir_counter]).  Not modelled either:
    the libraries themselves, whose documented behaviour is in the classes named above.
    Of the structures no code reads there are the C types only, no decoders. *)

From Stdlib Require Export Strings.Byte ZArith Lia ZifyBool.
From stdpp Require Export base option numbers list.

#[global] Open Scope Z_scope.

(** ** Outcomes of C code

    Error numbers are kept symbolic: [Erc n] is a literal return code of the
    source ([return 1]), the others are the <errno.h> names it returns. *)

Inductive error_t :=
| Erc (n : Z)
| EROFS
| EOPNOTSUPP
| ENOENT
| ENOMEM
| EIO
| EAGAIN.

(** Why an execution stops without returning. *)
Inductive fault :=
| OutOfBounds     (* a read outside the object, or of the mapped disk *)
| BufferOverflow  (* a write outside the destination object *)
| Uninitialised   (* use of an indeterminate value *)
| BadShift        (* a shift whose count or result C leaves undefined *)
| NullDeref       (* a null or dangling pointer is dereferenced *)
| AssertFailed    (* assert() *)
| AbortCalled     (* abort() *)
| ExitCalled (n : Z)  (* exit(n) *)
| SelfDeadlock.   (* a lock this thread already holds is taken again *)

(** [Ret] is a normal return with the values the code writes, [Err] a return
    with an error code, [Fault] an execution that goes wrong or leaves, and
    [NoFuel] one that is still running when the loop bound of the model is
    used up. *)
Inductive res (A : Type) :=
| Ret (a : A)
| Err (e : error_t)
| Fault (f : fault)
| NoFuel.
Arguments Ret {A} a.
Arguments Err {A} e.
Arguments Fault {A} f.
Arguments NoFuel {A}.

#[export] Instance error_t_eq_dec : EqDecision error_t.
Proof. solve_decision. Defined.
#[export] Instance fault_eq_dec : EqDecision fault.
Proof. solve_decision. Defined.
#[export] Instance res_eq_dec {A} `{EqDecision A} : EqDecision (res A).
Proof. solve_decision. Defined.
#[export] Instance byte_eq_dec : EqDecision byte := Byte.byte_eq_dec.

Definition res_bind {A B} (m : res A) (k : A -> res B) : res B :=
  match m with
  | Ret a => k a
  | Err e => Err e
  | Fault f => Fault f
  | NoFuel => NoFuel
  end.

(** [if (call) return e;] : any error code of the call becomes [e]. *)
Definition res_try {A B} (m : res A) (e : error_t) (k : A -> res B) : res B :=
  match m with
  | Ret a => k a
  | Err _ => Err e
  | Fault f => Fault f
  | NoFuel => NoFuel
  end.

Declare Scope c_scope.
Delimit Scope c_scope with c.
#[global] Open Scope c_scope.

Notation "'let*' x := m 'in' k" := (res_bind m (fun x => k))
  (at level 10, x name, m at level 100, k at level 200) : c_scope.
Notation "'let*' ' p := m 'in' k" := (res_bind m (fun x => match x with p => k end))
  (at level 10, p strict pattern, m at level 100, k at level 200) : c_scope.
Notation "'let!' x := m 'orelse' e 'in' k" := (res_try m e (fun x => k))
  (at level 10, x name, m at level 100, e at level 100, k at level 200) : c_scope.
Notation "'let!' ' p := m 'orelse' e 'in' k" := (res_try m e (fun x => match x with p => k end))
  (at level 10, p strict pattern, m at level 100, e at level 100, k at level 200) : c_scope.

Definition guard_res (b : bool) (f : fault) : res unit :=
  if b then Ret tt else Fault f.

Definition of_option {A} (f : fault) (o : option A) : res A :=
  match o with Some a => Ret a | None => Fault f end.

Lemma res_bind_Ret {A B} (a : A) (k : A -> res B) : res_bind (Ret a) k = k a.
Proof. reflexivity. Qed.

Lemma res_try_Ret {A B} (a : A) e (k : A -> res B) : res_try (Ret a) e k = k a.
Proof. reflexivity. Qed.

Lemma res_bind_inv {A B} (m : res A) (k : A -> res B) b :
  res_bind m k = Ret b -> exists a, m = Ret a /\ k a = Ret b.
Proof. destruct m; simpl; intros; try discriminate; eauto. Qed.

Lemma res_try_inv {A B} (m : res A) e (k : A -> res B) b :
  res_try m e k = Ret b -> exists a, m = Ret a /\ k a = Ret b.
Proof. destruct m; simpl; intros; try discriminate; eauto. Qed.

Lemma of_option_inv {A} f (o : option A) a : of_option f o = Ret a -> o = Some a.
Proof. destruct o; simpl; congruence. Qed.

Lemma guard_res_inv b f u : guard_res b f = Ret u -> b = true.
Proof. destruct b; simpl; congruence. Qed.

Lemma guard_res_true b f : b = true -> guard_res b f = Ret tt.
Proof. intros ->; reflexivity. Qed.

(** Take apart hypotheses that say a bind returned. *)
Ltac res_inv :=
  repeat match goal with
  | H : Ret _ = Ret _ |- _ => injection H; clear H; intros; subst
  | H : Err _ = Ret _ |- _ => discriminate H
  | H : Fault _ = Ret _ |- _ => discriminate H
  | H : NoFuel = Ret _ |- _ => discriminate H
  | H : res_bind _ _ = Ret _ |- _ =>
      apply res_bind_inv in H; destruct H as (? & ? & ?); cbv beta in *
  | H : res_try _ _ _ = Ret _ |- _ =>
      apply res_try_inv in H; destruct H as (? & ? & ?); cbv beta in *
  | H : of_option _ _ = Ret _ |- _ => apply of_option_inv in H
  | H : guard_res _ _ = Ret _ |- _ => apply guard_res_inv in H
  end.

(** [lia] with the Euclidean equations of every division and remainder. *)
Ltac zlia := intros; Z.to_euclidean_division_equations; lia.

(** ** Machine integers *)

Definition wrapU (w x : Z) : Z := x mod 2 ^ w.
Definition wrapS (w x : Z) : Z := (x + 2 ^ (w - 1)) mod 2 ^ w - 2 ^ (w - 1).

Abbreviation u8 := (wrapU 8).
Abbreviation u16 := (wrapU 16).
Abbreviation u32 := (wrapU 32).
Abbreviation u64 := (wrapU 64).
Abbreviation s8 := (wrapS 8).
Abbreviation s16 := (wrapS 16).
Abbreviation s32 := (wrapS 32).
Abbreviation s64 := (wrapS 64).

Lemma wrapU_range w x : 0 <= w -> 0 <= wrapU w x < 2 ^ w.
Proof. intros. apply Z.mod_pos_bound. lia. Qed.

Lemma wrapU_small w x : 0 <= x < 2 ^ w -> wrapU w x = x.
Proof. apply Z.mod_small. Qed.

Lemma pow2_half w : 0 < w -> 2 ^ w = 2 * 2 ^ (w - 1).
Proof. intros. rewrite <- Z.pow_succ_r by lia. f_equal. lia. Qed.

Lemma wrapS_range w x : 0 < w -> - 2 ^ (w - 1) <= wrapS w x < 2 ^ (w - 1).
Proof.
  intros. unfold wrapS. pose proof (pow2_half w H).
  pose proof (Z.mod_pos_bound (x + 2 ^ (w - 1)) (2 ^ w) ltac:(lia)). lia.
Qed.

Lemma wrapS_small w x : 0 < w -> - 2 ^ (w - 1) <= x < 2 ^ (w - 1) -> wrapS w x = x.
Proof.
  intros. unfold wrapS. pose proof (pow2_half w H).
  rewrite Z.mod_small by lia. lia.
Qed.

(** [x << n] on a 64-bit signed operand: undefined when the count is out of
    range, the operand negative or the result not representable. *)
Definition shl_s64 (x n : Z) : res Z :=
  if (0 <=? n) && (n <? 64) && (0 <=? x) && (x * 2 ^ n <? 2 ^ 63)
  then Ret (Z.shiftl x n) else Fault BadShift.

(** [x << n] on a 32-bit unsigned operand. *)
Definition shl_u32 (x n : Z) : res Z :=
  if (0 <=? n) && (n <? 32) then Ret (u32 (Z.shiftl x n)) else Fault BadShift.

(** [x << n] and [x >> n] on a 32-bit signed operand. *)
Definition shl_s32 (x n : Z) : res Z :=
  if (0 <=? n) && (n <? 32) && (0 <=? x) && (x * 2 ^ n <? 2 ^ 31)
  then Ret (Z.shiftl x n) else Fault BadShift.

Definition shr_s32 (x n : Z) : res Z :=
  if (0 <=? n) && (n <? 32) then Ret (Z.shiftr x n) else Fault BadShift.

Lemma shl_s32_ok x n :
  0 <= n < 32 -> 0 <= x -> x * 2 ^ n < 2 ^ 31 -> shl_s32 x n = Ret (x * 2 ^ n).
Proof.
  intros. unfold shl_s32.
  replace (_ && _) with true by (symmetry; rewrite !andb_true_iff; lia).
  by rewrite Z.shiftl_mul_pow2 by lia.
Qed.

Lemma shr_s32_ok x n : 0 <= n < 32 -> shr_s32 x n = Ret (x / 2 ^ n).
Proof.
  intros. unfold shr_s32.
  replace (_ && _) with true by (symmetry; rewrite !andb_true_iff; lia).
  by rewrite Z.shiftr_div_pow2 by lia.
Qed.

Lemma shl_s64_ok x n :
  0 <= n < 64 -> 0 <= x -> x * 2 ^ n < 2 ^ 63 -> shl_s64 x n = Ret (x * 2 ^ n).
Proof.
  intros. unfold shl_s64.
  replace (_ && _) with true by (symmetry; rewrite !andb_true_iff; lia).
  by rewrite Z.shiftl_mul_pow2 by lia.
Qed.

Lemma shl_s64_inv x n y :
  shl_s64 x n = Ret y -> 0 <= n < 64 /\ 0 <= x /\ y = x * 2 ^ n /\ y < 2 ^ 63.
Proof.
  unfold shl_s64. case_match eqn:E; [|discriminate].
  rewrite !andb_true_iff in E. intros [= <-].
  rewrite Z.shiftl_mul_pow2 by lia. lia.
Qed.

(** ** Bits *)

Lemma land_low_mod x k : 0 <= k -> Z.land x (2 ^ k - 1) = x mod 2 ^ k.
Proof.
  intros. replace (2 ^ k - 1) with (Z.ones k) by (rewrite Z.ones_equiv; lia).
  by apply Z.land_ones.
Qed.

(** Clearing the low [k] bits with [~(2^k - 1)]. *)
Lemma land_lnot_low x k : 0 <= k -> Z.land x (Z.lnot (2 ^ k - 1)) = x - x mod 2 ^ k.
Proof.
  intros Hk. replace (2 ^ k - 1) with (Z.ones k) by (rewrite Z.ones_equiv; lia).
  rewrite <- Z.ldiff_land, Z.ldiff_ones_r, Z.shiftl_mul_pow2, Z.shiftr_div_pow2 by lia.
  pose proof (Z.div_mod x (2 ^ k)). lia.
Qed.

Lemma testbit_above lo k n : 0 <= k <= n -> 0 <= lo < 2 ^ k -> Z.testbit lo n = false.
Proof. intros. rewrite <- (Z.mod_small lo (2 ^ k)) by lia. apply Z.mod_pow2_bits_high. lia. Qed.

(** [(hi << k) | lo] when [lo] fits in [k] bits. *)
Lemma lor_shiftl_add hi lo k :
  0 <= k -> 0 <= lo < 2 ^ k -> Z.lor (Z.shiftl hi k) lo = hi * 2 ^ k + lo.
Proof.
  intros Hk Hlo.
  assert (Z.land (Z.shiftl hi k) lo = 0) as Hd.
  { apply Z.bits_inj'. intros n Hn. rewrite Z.land_spec, Z.bits_0.
    destruct (decide (n < k)).
    - by rewrite Z.shiftl_spec_low by lia.
    - rewrite (testbit_above lo k) by lia. by rewrite andb_false_r. }
  rewrite <- Z.lxor_lor, <- Z.add_nocarry_lxor, Z.shiftl_mul_pow2 by done. done.
Qed.

(** ** Bytes and memory objects

    An object of the C program (a stack variable, a malloc'ed buffer, the part
    of an inode behind a cast pointer) is the list of its bytes. *)

Abbreviation mem := (list byte).

Definition byteZ (b : byte) : Z := Z.of_N (Byte.to_N b).
Definition byte_of (z : Z) : byte := default Byte.x00 (Byte.of_N (Z.to_N (wrapU 8 z))).

Lemma byteZ_range b : 0 <= byteZ b < 256.
Proof. unfold byteZ. pose proof (Byte.to_N_bounded b). lia. Qed.

Lemma byteZ_of z : byteZ (byte_of z) = u8 z.
Proof.
  unfold byte_of, byteZ. pose proof (wrapU_range 8 z ltac:(lia)) as Hr.
  destruct (Byte.of_N _) eqn:E; simpl.
  - apply Byte.to_of_N in E. rewrite E, Z2N.id; lia.
  - apply Byte.of_N_None_iff in E. change (2 ^ 8) with 256 in Hr. lia.
Qed.

Lemma byteZ_inj a b : byteZ a = byteZ b -> a = b.
Proof.
  unfold byteZ. intros H%N2Z.inj.
  pose proof (Byte.of_to_N a). pose proof (Byte.of_to_N b). congruence.
Qed.

Lemma byte_of_byteZ b : byte_of (byteZ b) = b.
Proof. apply byteZ_inj. rewrite byteZ_of. apply wrapU_small, byteZ_range. Qed.

(** Little-endian value of a byte string, and its inverse. *)
Fixpoint le_value (l : mem) : Z :=
  match l with
  | [] => 0
  | b :: l' => byteZ b + 256 * le_value l'
  end.

Fixpoint le_bytes (n : nat) (v : Z) : mem :=
  match n with
  | O => []
  | S n' => byte_of v :: le_bytes n' (v / 256)
  end.

Lemma length_le_bytes n v : length (le_bytes n v) = n.
Proof. revert v. induction n; simpl; auto. Qed.

Lemma le_value_range l : 0 <= le_value l < 2 ^ (8 * Z.of_nat (length l)).
Proof.
  induction l as [|b l IH]; simpl length; cbn [le_value]; [done|].
  pose proof (byteZ_range b).
  replace (8 * Z.of_nat (S (length l))) with (8 + 8 * Z.of_nat (length l)) by lia.
  rewrite Z.pow_add_r by lia. change (2 ^ 8) with 256. lia.
Qed.

Lemma le_value_le_bytes n v : le_value (le_bytes n v) = v mod 2 ^ (8 * Z.of_nat n).
Proof.
  revert v. induction n as [|n IH]; intros v; cbn [le_bytes le_value].
  { by rewrite Z.mod_1_r. }
  rewrite byteZ_of, IH. unfold wrapU.
  replace (8 * Z.of_nat (S n)) with (8 + 8 * Z.of_nat n) by lia.
  rewrite Z.pow_add_r by lia. change (2 ^ 8) with 256.
  rewrite Z.rem_mul_r by lia. lia.
Qed.

(** The [n] bytes at offset [off] of an object. *)
Definition bytes_at (m : mem) (off n : Z) : option mem :=
  if (0 <=? off) && (0 <=? n) && (off + n <=? Z.of_nat (length m))
  then Some (take (Z.to_nat n) (drop (Z.to_nat off) m)) else None.

Lemma bytes_at_inv m off n l :
  bytes_at m off n = Some l ->
  0 <= off /\ 0 <= n /\ off + n <= Z.of_nat (length m) /\
  l = take (Z.to_nat n) (drop (Z.to_nat off) m) /\ Z.of_nat (length l) = n.
Proof.
  unfold bytes_at. case_match eqn:E; [|discriminate].
  rewrite !andb_true_iff in E. intros [= <-].
  rewrite length_take, length_drop. repeat split; lia.
Qed.

Lemma bytes_at_Some m off n :
  0 <= off -> 0 <= n -> off + n <= Z.of_nat (length m) ->
  bytes_at m off n = Some (take (Z.to_nat n) (drop (Z.to_nat off) m)).
Proof.
  intros. unfold bytes_at.
  by replace (_ && _) with true by (symmetry; rewrite !andb_true_iff; lia).
Qed.

Lemma bytes_at_mid a b c :
  bytes_at (a ++ b ++ c) (Z.of_nat (length a)) (Z.of_nat (length b)) = Some b.
Proof.
  rewrite bytes_at_Some by (rewrite ?length_app; lia).
  rewrite !Nat2Z.id. by rewrite drop_app_length, take_app_length.
Qed.

(** Reading an unsigned or signed little-endian field of [n] bytes. *)
Definition get_u (m : mem) (off n : Z) : res Z :=
  let* l := of_option OutOfBounds (bytes_at m off n) in Ret (le_value l).

Definition get_s (m : mem) (off n : Z) : res Z :=
  let* v := get_u m off n in Ret (wrapS (8 * n) v).

Lemma get_u_inv m off n v :
  get_u m off n = Ret v ->
  0 <= off /\ 0 <= n /\ off + n <= Z.of_nat (length m) /\ 0 <= v < 2 ^ (8 * n).
Proof.
  unfold get_u. intros. res_inv.
  apply bytes_at_inv in H as (? & ? & ? & _ & <-).
  pose proof (le_value_range x). lia.
Qed.

Lemma get_u_total m off n :
  0 <= off -> 0 <= n -> off + n <= Z.of_nat (length m) ->
  exists v, get_u m off n = Ret v /\ 0 <= v < 2 ^ (8 * n).
Proof.
  intros. unfold get_u. rewrite bytes_at_Some by done. simpl. eexists; split; [done|].
  match goal with |- 0 <= le_value ?l < _ => pose proof (le_value_range l) as Hr end.
  rewrite length_take, length_drop in Hr.
  rewrite Nat.min_l in Hr by lia. rewrite Z2Nat.id in Hr by lia. lia.
Qed.

Lemma get_s_inv m off n v :
  0 < n -> get_s m off n = Ret v -> - 2 ^ (8 * n - 1) <= v < 2 ^ (8 * n - 1).
Proof. unfold get_s. intros. res_inv. apply wrapS_range. lia. Qed.

Lemma get_u_oob m off n :
  Z.of_nat (length m) < off + n -> get_u m off n = Fault OutOfBounds.
Proof.
  intros. unfold get_u, bytes_at.
  by replace (_ && _) with false by (symmetry; rewrite !andb_false_iff; lia).
Qed.

#[export] Instance byte_inhabited : Inhabited byte := populate Byte.x00.

(** ** Lists of integers and lists of optional values *)

Lemma seqZ_split a n k : 0 <= k <= n -> seqZ a n = seqZ a k ++ seqZ (a + k) (n - k).
Proof. intros. replace n with (k + (n - k)) at 1 by lia. apply seqZ_app; lia. Qed.

Lemma seqZ_range a n i : i ∈ seqZ a n -> a <= i < a + n.
Proof. rewrite elem_of_seqZ. lia. Qed.

Lemma mapM_app_option {A B} (f : A -> option B) l k :
  mapM f (l ++ k) = (x ← mapM f l; y ← mapM f k; Some (x ++ y)).
Proof.
  induction l as [|a l IH]; cbn; [by destruct (mapM f k)|]. destruct (f a); [|done]. cbn.
  rewrite IH. destruct (mapM f l); [|done]. cbn. by destruct (mapM f k).
Qed.

Lemma mapM_ext_in {A B} (f g : A -> option B) l : (forall x, x ∈ l -> f x = g x) -> mapM f l = mapM g l.
Proof.
  induction l as [|a l IH]; intros H; [done|]. cbn. rewrite (H a) by left. destruct (g a); [|done]. cbn.
  rewrite IH; [done|]. intros. apply H. by right.
Qed.

Lemma mapM_total {A B} (f : A -> option B) (g : A -> B) l :
  (forall x, x ∈ l -> f x = Some (g x)) -> mapM f l = Some (g <$> l).
Proof.
  induction l as [|a l IH]; intros H; [done|]. cbn. rewrite (H a) by left. cbn.
  rewrite IH; [done|]. intros. apply H. by right.
Qed.

Lemma sum_list_with_insert {A} (f : A -> nat) (l : list A) (i : nat) x y :
  l !! i = Some x -> (sum_list_with f (<[i := y]> l) + f x = sum_list_with f l + f y)%nat.
Proof.
  intros Hi. rewrite <- (take_drop_middle l i _ Hi) at 2.
  rewrite insert_take_drop by (by eapply lookup_lt_Some).
  rewrite !sum_list_with_app. cbn [sum_list_with]. lia.
Qed.

Lemma sum_list_with_zero {A} (f : A -> nat) (l : list A) :
  (forall x, x ∈ l -> f x = 0%nat) -> sum_list_with f l = 0%nat.
Proof.
  induction l as [|x l IH]; intros H; [done|]. cbn. rewrite (H x) by left.
  rewrite IH; [done|]. intros y Hy. apply H. by right.
Qed.

(** A list with a new last element. *)
Lemma exists_snoc {A} (P : A -> Prop) (l : list A) y : (exists x, x ∈ l /\ P x) -> exists x, x ∈ l ++ [y] /\ P x.
Proof. intros (x & Hx & HP). exists x. split; [|done]. apply elem_of_app. by left. Qed.

Lemma lookup_snoc_cases {A} (l : list A) y i x :
  (l ++ [y]) !! i = Some x -> l !! i = Some x \/ i = length l /\ x = y.
Proof.
  intros [?|[? Hx]]%lookup_app_Some; [by left|right].
  apply list_lookup_singleton_Some in Hx as [? <-]. split; [lia|done].
Qed.

(** A list property that one changed element keeps. *)
Lemma exists_insert {A} (P : A -> Prop) (l : list A) (i : nat) x y :
  l !! i = Some x -> (exists z, z ∈ l /\ P z) -> (P x -> P y) -> exists z, z ∈ <[i := y]> l /\ P z.
Proof.
  intros Hi (z & Hz & HP) Hxy. apply list_elem_of_lookup in Hz as [j Hj]. destruct (decide (i = j)) as [->|Hij].
  - exists y. split; [|apply Hxy; congruence]. eapply list_elem_of_lookup_2. apply list_lookup_insert_eq.
    by eapply lookup_lt_Some.
  - exists z. split; [|done]. eapply list_elem_of_lookup_2. by rewrite list_lookup_insert_ne by done.
Qed.

Create HintDb jfs.
Create Rewrite HintDb jfs.
#[export] Hint Resolve byteZ_range wrapU_range wrapS_range le_value_range : jfs.
#[export] Hint Rewrite @res_bind_Ret @res_try_Ret length_le_bytes le_value_le_bytes byteZ_of : jfs.
