(* ===== verification/Layout.v ===== *)
(** * On-disk layout: extent descriptors, inodes, superblock

    The structures of jfs_types.h, jfs_xtree.h, jfs_dinode.h and
    jfs_superblock.h, as records decoded from the bytes of the object a C
    pointer designates (little-endian, i386 structure layout), with the macros
    that build and read their split 40-bit fields. *)

From S2P Require Import Prelude.

(** ** Extent descriptors *)

(** [lxd_t]: logical extent descriptor. *)
Record lxd_t := Lxd { lxd_len : Z; lxd_off1 : Z; lxd_off2 : Z }.

(** [pxd_t]: physical extent descriptor. *)
Record pxd_t := Pxd { pxd_len : Z; pxd_addr1 : Z; pxd_addr2 : Z }.

(** [dxd_t]: data extent descriptor. *)
Record dxd_t := Dxd {
  dxd_flag : Z; dxd_rsrvd : Z; dxd_size : Z;
  dxd_len : Z; dxd_addr1 : Z; dxd_addr2 : Z }.

(** [xad_t]: extent allocation descriptor, an entry of an xtree page. *)
Record xad_t := Xad {
  xad_flag : Z; xad_rsvrd : Z; xad_off1 : Z; xad_off2 : Z;
  xad_len : Z; xad_addr1 : Z; xad_addr2 : Z }.

(** [dasd_t]: DASD limit information of a directory inode. *)
Record dasd_t := Dasd {
  thresh : Z; delta : Z; limit_hi : Z; limit_lo : Z; used_hi : Z; used_lo : Z }.

(** [dir_table_slot_t]: slot of the persistent directory index. *)
Record dir_table_slot_t := DirTableSlot {
  dts_flag : Z; dts_slot : Z; dts_addr1 : Z; dts_addr2 : Z }.

(** [struct timestruc_t]. *)
Record timestruc_t := Timestruc { tv_sec : Z; tv_nsec : Z }.

#[export] Instance xad_t_eq_dec : EqDecision xad_t.
Proof. solve_decision. Defined.
#[export] Instance pxd_t_eq_dec : EqDecision pxd_t.
Proof. solve_decision. Defined.

(** Field widths: what a value of the structure can hold. *)
Definition lxd_ok (x : lxd_t) : Prop :=
  0 <= lxd_len x < 2 ^ 24 /\ 0 <= lxd_off1 x < 2 ^ 8 /\ 0 <= lxd_off2 x < 2 ^ 32.
Definition pxd_ok (x : pxd_t) : Prop :=
  0 <= pxd_len x < 2 ^ 24 /\ 0 <= pxd_addr1 x < 2 ^ 8 /\ 0 <= pxd_addr2 x < 2 ^ 32.
Definition xad_ok (x : xad_t) : Prop :=
  0 <= xad_flag x < 2 ^ 8 /\ 0 <= xad_rsvrd x < 2 ^ 16 /\
  0 <= xad_off1 x < 2 ^ 8 /\ 0 <= xad_off2 x < 2 ^ 32 /\
  0 <= xad_len x < 2 ^ 24 /\ 0 <= xad_addr1 x < 2 ^ 8 /\ 0 <= xad_addr2 x < 2 ^ 32.

(** ** Decoding *)

Definition get_pxd (m : mem) (off : Z) : res pxd_t :=
  let* len := get_u m off 3 in
  let* a1 := get_u m (off + 3) 1 in
  let* a2 := get_u m (off + 4) 4 in
  Ret (Pxd len a1 a2).

Definition get_dxd (m : mem) (off : Z) : res dxd_t :=
  let* flag := get_u m off 1 in
  let* rsrvd := get_u m (off + 1) 3 in
  let* size := get_u m (off + 4) 4 in
  let* len := get_u m (off + 8) 3 in
  let* a1 := get_u m (off + 11) 1 in
  let* a2 := get_u m (off + 12) 4 in
  Ret (Dxd flag rsrvd size len a1 a2).

Definition get_xad (m : mem) (off : Z) : res xad_t :=
  let* flag := get_u m off 1 in
  let* rsvrd := get_u m (off + 1) 2 in
  let* o1 := get_u m (off + 3) 1 in
  let* o2 := get_u m (off + 4) 4 in
  let* len := get_u m (off + 8) 3 in
  let* a1 := get_u m (off + 11) 1 in
  let* a2 := get_u m (off + 12) 4 in
  Ret (Xad flag rsvrd o1 o2 len a1 a2).

Definition get_timestruc (m : mem) (off : Z) : res timestruc_t :=
  let* sec := get_u m off 4 in
  let* nsec := get_u m (off + 4) 4 in
  Ret (Timestruc sec nsec).

(** The byte images of the descriptors, as the bit-field layout places them. *)
Definition pxd_bytes (x : pxd_t) : mem :=
  le_bytes 3 (pxd_len x) ++ le_bytes 1 (pxd_addr1 x) ++ le_bytes 4 (pxd_addr2 x).

Definition xad_bytes (x : xad_t) : mem :=
  le_bytes 1 (xad_flag x) ++ le_bytes 2 (xad_rsvrd x) ++ le_bytes 1 (xad_off1 x) ++
  le_bytes 4 (xad_off2 x) ++ le_bytes 3 (xad_len x) ++ le_bytes 1 (xad_addr1 x) ++
  le_bytes 4 (xad_addr2 x).

(** ** Field construction and extraction macros *)

Definition le16_to_cpu (x : Z) : Z := u16 x.
Definition le24_to_cpu (x : Z) : Z := u32 x.
Definition le32_to_cpu (x : Z) : Z := u32 x.

Definition LXDlength (x : lxd_t) (length32 : Z) : lxd_t :=
  Lxd (wrapU 24 length32) (lxd_off1 x) (lxd_off2 x).
Definition LXDoffset (x : lxd_t) (offset64 : Z) : lxd_t :=
  Lxd (lxd_len x) (u8 (Z.shiftr (s64 offset64) 32)) (u32 (Z.land offset64 0xffffffff)).
Definition lengthLXD (x : lxd_t) : Z := lxd_len x.
Definition offsetLXD (x : lxd_t) : Z := Z.lor (Z.shiftl (lxd_off1 x) 32) (lxd_off2 x).

Definition lengthPXD (x : pxd_t) : Z := le24_to_cpu (pxd_len x).
Definition addressPXD (x : pxd_t) : Z :=
  Z.lor (Z.shiftl (pxd_addr1 x) 32) (le32_to_cpu (pxd_addr2 x)).
Definition lengthDXD (x : dxd_t) : Z := le24_to_cpu (dxd_len x).
Definition addressDXD (x : dxd_t) : Z :=
  Z.lor (Z.shiftl (dxd_addr1 x) 32) (le32_to_cpu (dxd_addr2 x)).

Definition addressXAD (x : xad_t) : Z :=
  Z.lor (Z.shiftl (xad_addr1 x) 32) (le32_to_cpu (xad_addr2 x)).
Definition lengthXAD (x : xad_t) : Z := le24_to_cpu (xad_len x).
Definition offsetXAD (x : xad_t) : Z :=
  Z.lor (Z.shiftl (xad_off1 x) 32) (le32_to_cpu (xad_off2 x)).

Definition addressDTS (x : dir_table_slot_t) : Z :=
  Z.lor (Z.shiftl (dts_addr1 x) 32) (le32_to_cpu (dts_addr2 x)).

Definition DASDLIMIT (x : dasd_t) : Z :=
  Z.shiftl (limit_hi x) 32 + le32_to_cpu (limit_lo x).
Definition DASDUSED (x : dasd_t) : Z :=
  Z.shiftl (used_hi x) 32 + le32_to_cpu (used_lo x).

(** The headers build fields through the host's [__cpu_to_le24] and
    [__cpu_to_le32], which are not defined in the repository. *)
Section Builders.
Variables cpu_to_le24 cpu_to_le32 : Z -> Z.

Definition PXDlength (x : pxd_t) (length32 : Z) : pxd_t :=
  Pxd (wrapU 24 (cpu_to_le24 length32)) (pxd_addr1 x) (pxd_addr2 x).
Definition PXDaddress (x : pxd_t) (address64 : Z) : pxd_t :=
  Pxd (pxd_len x) (u8 (Z.shiftr (s64 address64) 32))
      (u32 (cpu_to_le32 (Z.land address64 0xffffffff))).

Definition XADoffset (x : xad_t) (offset64 : Z) : xad_t :=
  Xad (xad_flag x) (xad_rsvrd x) (u8 (Z.shiftr (u64 offset64) 32))
      (u32 (cpu_to_le32 (Z.land offset64 0xffffffff)))
      (xad_len x) (xad_addr1 x) (xad_addr2 x).
Definition XADaddress (x : xad_t) (address64 : Z) : xad_t :=
  Xad (xad_flag x) (xad_rsvrd x) (xad_off1 x) (xad_off2 x) (xad_len x)
      (u8 (Z.shiftr (u64 address64) 32))
      (u32 (cpu_to_le32 (Z.land address64 0xffffffff))).
Definition XADlength (x : xad_t) (length32 : Z) : xad_t :=
  Xad (xad_flag x) (xad_rsvrd x) (xad_off1 x) (xad_off2 x)
      (wrapU 24 (cpu_to_le24 length32)) (xad_addr1 x) (xad_addr2 x).

Definition DTSaddress (x : dir_table_slot_t) (address64 : Z) : dir_table_slot_t :=
  DirTableSlot (dts_flag x) (dts_slot x) (u8 (Z.shiftr (u64 address64) 32))
    (u32 (cpu_to_le32 (Z.land address64 0xffffffff))).

Definition setDASDLIMIT (x : dasd_t) (limit : Z) : dasd_t :=
  Dasd (thresh x) (delta x) (u8 (Z.shiftr (u64 limit) 32)) (u32 (cpu_to_le32 limit))
    (used_hi x) (used_lo x).
Definition setDASDUSED (x : dasd_t) (used : Z) : dasd_t :=
  Dasd (thresh x) (delta x) (limit_hi x) (limit_lo x)
    (u8 (Z.shiftr (u64 used) 32)) (u32 (cpu_to_le32 used)).
End Builders.

(** ** The on-disk inode ([struct dinode], 512 bytes) *)

Record dinode_t := Dinode {
  di_inostamp : Z; di_fileset : Z; di_number : Z; di_gen : Z;
  di_ixpxd : pxd_t;
  di_size : Z; di_nblocks : Z;
  di_nlink : Z; di_uid : Z; di_gid : Z; di_mode : Z;
  di_atime : timestruc_t; di_ctime : timestruc_t;
  di_mtime : timestruc_t; di_otime : timestruc_t;
  di_acl : dxd_t; di_ea : dxd_t;
  di_next_index : Z; di_acltype : Z;
  di_u : mem  (* the 384-byte extension area *) }.

Definition sizeof_dinode : Z := 512.

Definition get_dinode (m : mem) : res dinode_t :=
  let* inostamp := get_u m 0 4 in
  let* fileset := get_s m 4 4 in
  let* number := get_u m 8 4 in
  let* gen := get_u m 12 4 in
  let* ixpxd := get_pxd m 16 in
  let* size := get_s m 24 8 in
  let* nblocks := get_s m 32 8 in
  let* nlink := get_u m 40 4 in
  let* uid := get_u m 44 4 in
  let* gid := get_u m 48 4 in
  let* mode := get_u m 52 4 in
  let* atime := get_timestruc m 56 in
  let* ctime := get_timestruc m 64 in
  let* mtime := get_timestruc m 72 in
  let* otime := get_timestruc m 80 in
  let* acl := get_dxd m 88 in
  let* ea := get_dxd m 104 in
  let* next_index := get_u m 120 4 in
  let* acltype := get_s m 124 4 in
  let* u := of_option OutOfBounds (bytes_at m 128 384) in
  Ret (Dinode inostamp fileset number gen ixpxd size nblocks nlink uid gid mode
         atime ctime mtime otime acl ea next_index acltype u).

(** [di_btroot] ([di_xtroot]) and [_dtroot]: the 288 bytes after the 96-byte
    directory table, read as an xtree root or as a dtree root. *)
Definition di_btroot (di : dinode_t) : mem := drop 96 (di_u di).

(** ** The aggregate superblock ([struct jfs_superblock]) *)

Record jfs_superblock := Superblock {
  s_magic : mem; s_version : Z; s_size : Z; s_bsize : Z; s_l2bsize : Z;
  s_l2bfactor : Z; s_pbsize : Z; s_l2pbsize : Z; s_agsize : Z; s_flag : Z;
  s_state : Z; s_compress : Z; s_ait2 : pxd_t; s_aim2 : pxd_t;
  s_logdev : Z; s_logserial : Z; s_logpxd : pxd_t; s_fsckpxd : pxd_t;
  s_time : timestruc_t; s_fsckloglen : Z; s_fscklog : Z; s_fpack : mem;
  s_xsize : Z; s_xfsckpxd : pxd_t; s_xlogpxd : pxd_t;
  s_uuid : mem; s_label : mem; s_loguuid : mem }.

Definition sizeof_superblock : Z := 184.

Definition get_superblock (m : mem) : res jfs_superblock :=
  let* magic := of_option OutOfBounds (bytes_at m 0 4) in
  let* version := get_u m 4 4 in
  let* size := get_s m 8 8 in
  let* bsize := get_s m 16 4 in
  let* l2bsize := get_s m 20 2 in
  let* l2bfactor := get_s m 22 2 in
  let* pbsize := get_s m 24 4 in
  let* l2pbsize := get_s m 28 2 in
  let* agsize := get_u m 32 4 in
  let* flag := get_u m 36 4 in
  let* state := get_u m 40 4 in
  let* compress := get_s m 44 4 in
  let* ait2 := get_pxd m 48 in
  let* aim2 := get_pxd m 56 in
  let* logdev := get_u m 64 4 in
  let* logserial := get_s m 68 4 in
  let* logpxd := get_pxd m 72 in
  let* fsckpxd := get_pxd m 80 in
  let* time := get_timestruc m 88 in
  let* fsckloglen := get_s m 96 4 in
  let* fscklog := get_s m 100 1 in
  let* fpack := of_option OutOfBounds (bytes_at m 101 11) in
  let* xsize := get_s m 112 8 in
  let* xfsckpxd := get_pxd m 120 in
  let* xlogpxd := get_pxd m 128 in
  let* uuid := of_option OutOfBounds (bytes_at m 136 16) in
  let* label := of_option OutOfBounds (bytes_at m 152 16) in
  let* loguuid := of_option OutOfBounds (bytes_at m 168 16) in
  Ret (Superblock magic version size bsize l2bsize l2bfactor pbsize l2pbsize agsize
         flag state compress ait2 aim2 logdev logserial logpxd fsckpxd time
         fsckloglen fscklog fpack xsize xfsckpxd xlogpxd uuid label loguuid).

(** ** Constants *)

Definition BT_ROOT : Z := 0x01.
Definition BT_LEAF : Z := 0x02.
Definition BT_INTERNAL : Z := 0x04.

Definition XTENTRYSTART : Z := 2.
Definition XTROOTMAXSLOT : Z := 18.
Definition PSIZE : Z := 4096.
Definition PAGESIZE : Z := 4096.
Definition L2PSIZE : Z := 12.

Definition L2INOSPEREXT : Z := 5.
Definition INOSPEREXT : Z := 32.
Definition INOSPERIAG : Z := 4096.
Definition L2INOSPERIAG : Z := 12.
Definition EXTSPERIAG : Z := 128.

Definition FILESYSTEM_I : Z := 16.
Definition AGGREGATE_I : Z := 1.
Definition AGGREGATE_2ND_I : Z := -1.

Definition SIZE_OF_SUPER : Z := PSIZE.
Definition SIZE_OF_MAP_PAGE : Z := 4096.
Definition SUPER1_OFF : Z := 0x8000.
Definition AIMAP_OFF : Z := SUPER1_OFF + SIZE_OF_SUPER.
Definition AITBL_OFF : Z := AIMAP_OFF + Z.shiftl SIZE_OF_MAP_PAGE 1.
Definition AGGR_INODE_TABLE_START : Z := AITBL_OFF.

Definition IFMT : Z := 0xF000.
Definition IFDIR : Z := 0x4000.

Definition DTSLOTSIZE : Z := 32.
Definition DTSLOTDATALEN : Z := 15.
Definition DTLHDRDATALEN : Z := 11.

(** ** Inode numbers and slot counts *)

(** Operands of [uint32_t] type. *)
Definition INOTOIAG (ino : Z) : Z := Z.shiftr ino L2INOSPERIAG.
Definition IAGTOLBLK (iagno l2nbperpg : Z) : res Z := shl_u32 (u32 (iagno + 1)) l2nbperpg.

(** Number of dtree slots of an entry whose name has [klen] characters. *)
Definition NDTINTERNAL (klen : Z) : Z := Z.quot ((4 + klen) + (15 - 1)) 15.
Definition NDTLEAF_LEGACY (klen : Z) : Z := Z.quot ((2 + klen) + (15 - 1)) 15.

(** ** Page headers *)

(** [xtpage_t]: header fields and entry [i] of the [xad] array. *)
Definition xt_flag (p : mem) : res Z := get_u p 16 1.
Definition xt_nextindex (p : mem) : res Z := get_s p 18 2.
Definition xt_xad (p : mem) (i : Z) : res xad_t := get_xad p (16 * i).

(** [dtroot_t]: header of the directory root inlined in the inode. *)
Definition dtr_flag (p : mem) : res Z := get_u p 16 1.
Definition dtr_nextindex (p : mem) : res Z := get_u p 17 1.
Definition dtr_idotdot (p : mem) : res Z := get_u p 20 4.
Definition dtr_stbl (p : mem) (i : Z) : res Z := get_s p (24 + i) 1.

(** [dtpage_t]: header of a directory page, and its sorted entry table, the
    bytes that start at slot [stblindex]. *)
Definition sizeof_dtpage : Z := 4096.
Definition dt_next (p : mem) : res Z := get_s p 0 8.
Definition dt_flag (p : mem) : res Z := get_u p 16 1.
Definition dt_nextindex (p : mem) : res Z := get_u p 17 1.
Definition dt_stblindex (p : mem) : res Z := get_u p 21 1.
Definition dt_stbl (p : mem) (i : Z) : res Z :=
  let* si := dt_stblindex p in get_u p (DTSLOTSIZE * si + i) 1.

(** [iag_t]: inode extent [i] of an inode allocation group page. *)
Definition sizeof_iag : Z := 4096.
Definition iag_inoext (m : mem) (i : Z) : res pxd_t := get_pxd m (3072 + 8 * i).

(** ** Lemmas: split fields *)

Lemma addr40_add hi lo : 0 <= lo < 2 ^ 32 -> Z.lor (Z.shiftl hi 32) (u32 lo) = hi * 2 ^ 32 + lo.
Proof. intros. rewrite wrapU_small by done. by apply lor_shiftl_add. Qed.

Lemma addr40_range hi lo :
  0 <= hi < 2 ^ 8 -> 0 <= lo < 2 ^ 32 -> 0 <= Z.lor (Z.shiftl hi 32) (u32 lo) < 2 ^ 40.
Proof. intros. rewrite addr40_add by done. lia. Qed.

Lemma split40_hi a : 0 <= a < 2 ^ 40 -> u8 (Z.shiftr a 32) = a / 2 ^ 32.
Proof.
  intros. rewrite Z.shiftr_div_pow2 by lia. apply wrapU_small.
  split; [apply Z.div_pos; lia | apply Z.div_lt_upper_bound; lia].
Qed.

Lemma split40_lo a : u32 (Z.land a 0xffffffff) = a mod 2 ^ 32.
Proof.
  replace 0xffffffff with (2 ^ 32 - 1) by done.
  rewrite land_low_mod by lia. apply wrapU_small, Z.mod_pos_bound. lia.
Qed.

Lemma join40 a : 0 <= a < 2 ^ 40 -> Z.lor (Z.shiftl (a / 2 ^ 32) 32) (u32 (a mod 2 ^ 32)) = a.
Proof.
  intros. rewrite addr40_add by (apply Z.mod_pos_bound; lia).
  pose proof (Z.div_mod a (2 ^ 32)). lia.
Qed.

Lemma offsetXAD_range x : xad_ok x -> 0 <= offsetXAD x < 2 ^ 40.
Proof. unfold xad_ok, offsetXAD, le32_to_cpu. intros. apply addr40_range; lia. Qed.

Lemma addressXAD_range x : xad_ok x -> 0 <= addressXAD x < 2 ^ 40.
Proof. unfold xad_ok, addressXAD, le32_to_cpu. intros. apply addr40_range; lia. Qed.

Lemma lengthXAD_eq x : xad_ok x -> lengthXAD x = xad_len x.
Proof. unfold xad_ok. intros. apply wrapU_small. lia. Qed.

Lemma lengthXAD_range x : xad_ok x -> 0 <= lengthXAD x < 2 ^ 24.
Proof. intros H. rewrite lengthXAD_eq by done. unfold xad_ok in H. lia. Qed.

Lemma addressPXD_range x : pxd_ok x -> 0 <= addressPXD x < 2 ^ 40.
Proof. unfold pxd_ok, addressPXD, le32_to_cpu. intros. apply addr40_range; lia. Qed.

(** ** Lemmas: decoding *)

(** Harvest the range of every field a decoder returned. *)
Ltac field_ranges :=
  repeat match goal with
  | H : get_u _ _ _ = Ret ?v |- _ =>
      lazymatch goal with
      | _ : 0 <= v < _ |- _ => fail
      | _ => let Hr := fresh "Hr" in
             pose proof (proj2 (proj2 (proj2 (get_u_inv _ _ _ _ H)))) as Hr;
             cbn [Z.mul Pos.mul Pos.add] in Hr
      end
  end.

Lemma get_xad_ok m off x : get_xad m off = Ret x -> xad_ok x.
Proof. unfold get_xad. intros. res_inv. field_ranges. unfold xad_ok; cbn. lia. Qed.

Lemma get_pxd_ok m off x : get_pxd m off = Ret x -> pxd_ok x.
Proof. unfold get_pxd. intros. res_inv. field_ranges. unfold pxd_ok; cbn. lia. Qed.

(** Every field of an in-bounds structure can be read. *)
Ltac read_fields :=
  unfold get_xad, get_dxd, get_pxd, get_timestruc, get_s, res_bind in *;
  repeat match goal with
  | |- context [get_u ?m ?o ?n] =>
      destruct (get_u_total m o n) as (? & -> & ?); [lia|lia|lia|]
  end.

Lemma get_xad_total m off :
  0 <= off -> off + 16 <= Z.of_nat (length m) -> exists x, get_xad m off = Ret x /\ xad_ok x.
Proof.
  intros. assert (exists x, get_xad m off = Ret x) as [x Hx] by (read_fields; eauto).
  eauto using get_xad_ok.
Qed.

Lemma get_pxd_total m off :
  0 <= off -> off + 8 <= Z.of_nat (length m) -> exists x, get_pxd m off = Ret x /\ pxd_ok x.
Proof.
  intros. assert (exists x, get_pxd m off = Ret x) as [x Hx] by (read_fields; eauto).
  eauto using get_pxd_ok.
Qed.

Lemma get_dinode_total m :
  Z.of_nat (length m) = sizeof_dinode ->
  exists di, get_dinode m = Ret di /\ length (di_u di) = 384%nat /\
             di_btroot di = drop 224 m.
Proof.
  unfold sizeof_dinode. intros. unfold get_dinode.
  rewrite bytes_at_Some by lia. read_fields. simpl.
  eexists; split; [done|]. unfold di_btroot; simpl di_u.
  split; [rewrite length_take, length_drop; lia|].
  rewrite skipn_firstn_comm, drop_drop, take_ge; [done|].
  rewrite length_drop. lia.
Qed.

Lemma get_u_app a m off n :
  0 <= off -> get_u (a ++ m) (Z.of_nat (length a) + off) n = get_u m off n.
Proof.
  intros. unfold get_u, bytes_at. rewrite length_app.
  replace (Z.to_nat (Z.of_nat (length a) + off)) with (length a + Z.to_nat off)%nat by lia.
  rewrite <- drop_drop, drop_app_length.
  do 2 case_match; try done; rewrite ?andb_true_iff, ?andb_false_iff in *; lia.
Qed.

Lemma get_u_head n v m :
  get_u (le_bytes n v ++ m) 0 (Z.of_nat n) = Ret (v mod 2 ^ (8 * Z.of_nat n)).
Proof.
  unfold get_u. pose proof (bytes_at_mid [] (le_bytes n v) m) as E.
  rewrite length_le_bytes in E. change (Z.of_nat (length [])) with 0 in E.
  cbn [app] in E. rewrite E. simpl.
  by rewrite le_value_le_bytes.
Qed.

(** A field behind [k] bytes: [get_u_skip] walks over the fields before it. *)
Lemma get_u_skip k v m off n :
  Z.of_nat k <= off -> get_u (le_bytes k v ++ m) off n = get_u m (off - Z.of_nat k) n.
Proof.
  intros. rewrite <- (get_u_app (le_bytes k v) m (off - Z.of_nat k) n) by lia.
  rewrite length_le_bytes. f_equal. lia.
Qed.

Lemma get_u_here n v m k :
  k = Z.of_nat n -> 0 <= v < 2 ^ (8 * k) -> get_u (le_bytes n v ++ m) 0 k = Ret v.
Proof. intros -> ?. rewrite get_u_head. by rewrite Z.mod_small. Qed.

(** Read the next field of a concatenation of encoded fields. *)
Ltac skip_fields :=
  repeat first
    [ rewrite get_u_here by (cbn; lia)
    | rewrite get_u_skip by (cbn; lia) ]; cbn [res_bind].

Lemma get_xad_bytes x rest : xad_ok x -> get_xad (xad_bytes x ++ rest) 0 = Ret x.
Proof.
  intros (? & ? & ? & ? & ? & ? & ?). unfold get_xad, xad_bytes. rewrite <- !app_assoc.
  skip_fields. by destruct x.
Qed.

Lemma get_pxd_bytes x rest : pxd_ok x -> get_pxd (pxd_bytes x ++ rest) 0 = Ret x.
Proof.
  intros (? & ? & ?). unfold get_pxd, pxd_bytes. rewrite <- !app_assoc.
  skip_fields. by destruct x.
Qed.

Lemma shiftr_wrap_hi w a : 40 <= w -> 0 <= a < 2 ^ 40 -> Z.shiftr (wrapU w a) 32 = Z.shiftr a 32.
Proof.
  intros. rewrite wrapU_small; [done|].
  pose proof (Z.pow_le_mono_r 2 40 w). lia.
Qed.

(** The common core of every 40-bit field: the 8-bit high part and the 32-bit
    low part a builder stores join to the value it was given. *)
Lemma build40 (c : Z -> Z) a :
  (forall v, u32 (c v) = u32 v) -> 0 <= a < 2 ^ 40 ->
  Z.lor (Z.shiftl (u8 (Z.shiftr (u64 a) 32)) 32)
        (u32 (u32 (c (Z.land a 0xffffffff)))) = a.
Proof.
  intros Hc Ha. rewrite shiftr_wrap_hi, split40_hi, Hc, split40_lo by lia. by apply join40.
Qed.

Lemma s64_small40 a : 0 <= a < 2 ^ 40 -> s64 a = u64 a.
Proof. intros. rewrite wrapS_small, wrapU_small by lia. done. Qed.

(** ** Round trips of the field macros *)

Section Roundtrips.
Variables cpu_to_le24 cpu_to_le32 : Z -> Z.
(** On a little-endian host the conversions only truncate. *)
Hypothesis le24 : forall v, wrapU 24 (cpu_to_le24 v) = wrapU 24 v.
Hypothesis le32 : forall v, u32 (cpu_to_le32 v) = u32 v.

(** The xtree entry macros are inverse to each other and independent:
    after [XADlength], [XADaddress] and [XADoffset], in that order, the
    three extraction macros return the 24-bit length and the 40-bit
    address and offset that were stored. *)
Theorem XAD_macros_roundtrip (x : xad_t) (o a n : Z) :
  0 <= o < 2 ^ 40 -> 0 <= a < 2 ^ 40 -> 0 <= n < 2 ^ 24 ->
  let y := XADoffset cpu_to_le32 (XADaddress cpu_to_le32 (XADlength cpu_to_le24 x n) a) o in
  offsetXAD y = o /\ addressXAD y = a /\ lengthXAD y = n.
Proof.
  intros. unfold offsetXAD, addressXAD, lengthXAD, le32_to_cpu, le24_to_cpu; simpl.
  rewrite !build40, le24 by done. rewrite !wrapU_small by (rewrite ?wrapU_small; lia). done.
Qed.

(** The physical extent macros, which are also the ones of [dxd_t], the
    logical extent macros, the directory index macros and the DASD macros
    return what was stored, for 40-bit addresses, offsets and limits. *)
Theorem PXD_LXD_DTS_DASD_roundtrip (p : pxd_t) (l : lxd_t) (d : dir_table_slot_t)
    (q : dasd_t) (a : Z) :
  0 <= a < 2 ^ 40 ->
  addressPXD (PXDaddress cpu_to_le32 p a) = a /\
  lengthPXD (PXDlength cpu_to_le24 p a) = a mod 2 ^ 24 /\
  offsetLXD (LXDoffset l a) = a /\
  addressDTS (DTSaddress cpu_to_le32 d a) = a /\
  DASDLIMIT (setDASDUSED cpu_to_le32 (setDASDLIMIT cpu_to_le32 q a) 0) = a /\
  DASDUSED (setDASDLIMIT cpu_to_le32 (setDASDUSED cpu_to_le32 q a) 0) = a.
Proof.
  intros Ha. unfold addressPXD, lengthPXD, offsetLXD, addressDTS, DASDLIMIT, DASDUSED,
    le32_to_cpu, le24_to_cpu; simpl.
  rewrite !s64_small40, !build40, le24, !le32 by done.
  rewrite shiftr_wrap_hi, !split40_hi by lia.
  split; [done|]. split.
  { pose proof (wrapU_range 24 a). by rewrite (wrapU_small 32) by lia. }
  split. { rewrite split40_lo, <- (wrapU_small 32 (a mod 2 ^ 32)) by (apply Z.mod_pos_bound; lia).
    by apply join40. }
  split; [done|].
  rewrite Z.shiftl_mul_pow2 by lia.
  replace (u32 (u32 a)) with (a mod 2 ^ 32)
    by (rewrite wrapU_small; [done|apply Z.mod_pos_bound; lia]).
  pose proof (Z.div_mod a (2 ^ 32)). lia.
Qed.
End Roundtrips.

(** [NDTINTERNAL] is the least number of slots that holds a name: the
    head slot has room for 11 characters and each further slot for 15. *)
Theorem NDTINTERNAL_least (klen : Z) :
  0 <= klen ->
  1 <= NDTINTERNAL klen /\
  klen <= DTLHDRDATALEN + DTSLOTDATALEN * (NDTINTERNAL klen - 1) /\
  forall n, 1 <= n -> klen <= DTLHDRDATALEN + DTSLOTDATALEN * (n - 1) -> NDTINTERNAL klen <= n.
Proof.
  intros. unfold NDTINTERNAL, DTLHDRDATALEN, DTSLOTDATALEN.
  rewrite Z.quot_div_nonneg by lia.
  pose proof (Z.div_mod (4 + klen + (15 - 1)) 15).
  pose proof (Z.mod_pos_bound (4 + klen + (15 - 1)) 15). repeat split; intros; lia.
Qed.

(** ** Witnesses *)

Lemma XAD_macros_roundtrip_witness :
  let y := XADoffset id (XADaddress id (XADlength id (Xad 0 0 9 9 9 9 9) 5) 0x1200000034)
             0xff00000001 in
  offsetXAD y = 0xff00000001 /\ addressXAD y = 0x1200000034 /\ lengthXAD y = 5.
Proof.
  apply (XAD_macros_roundtrip id id (fun _ => eq_refl) (fun _ => eq_refl)
           (Xad 0 0 9 9 9 9 9) 0xff00000001 0x1200000034 5); vm_compute; split; congruence.
Defined.

Lemma PXD_LXD_DTS_DASD_roundtrip_witness :
  addressPXD (PXDaddress id (Pxd 1 2 3) 0x1200000034) = 0x1200000034 /\
  offsetLXD (LXDoffset (Lxd 1 2 3) 0x1200000034) = 0x1200000034.
Proof.
  destruct (PXD_LXD_DTS_DASD_roundtrip id id (fun _ => eq_refl) (fun _ => eq_refl)
    (Pxd 1 2 3) (Lxd 1 2 3) (DirTableSlot 1 2 3 4) (Dasd 1 2 3 4 5 6) 0x1200000034)
    as (? & ? & ? & ?); [vm_compute; split; congruence|done].
Defined.

Lemma NDTINTERNAL_least_witness :
  1 <= NDTINTERNAL 27 /\ 27 <= DTLHDRDATALEN + DTSLOTDATALEN * (NDTINTERNAL 27 - 1).
Proof. destruct (NDTINTERNAL_least 27) as (? & ? & ?); [lia|done]. Defined.
