(* ===== verification/Unicode.v ===== *)
(** * UCS-2 names and their UTF-8 conversion

    jfs_unicode.c and jfs_unicode.h: the table-driven encoder of one 16-bit
    unit, the conversion of a unit string, and [UniStrncpy].  A unit array is a
    list; an element [None] of the source of the conversion is an array cell
    the program has not written. *)

From S2P Require Import Prelude.

(** ** Definitions *)

Record utf8_row := Utf8Row {
  cmask : Z; cval : Z; shift : Z; lmask : Z; lval : Z }.

Definition utf8_table : list utf8_row :=
  [ Utf8Row 0x80 0x00 (0*6) 0x7F       0;
    Utf8Row 0xE0 0xC0 (1*6) 0x7FF      0x80;
    Utf8Row 0xF0 0xE0 (2*6) 0xFFFF     0x800;
    Utf8Row 0xF8 0xF0 (3*6) 0x1FFFFF   0x10000;
    Utf8Row 0xFC 0xF8 (4*6) 0x3FFFFFF  0x200000;
    Utf8Row 0xFE 0xFC (5*6) 0x7FFFFFFF 0x4000000;
    Utf8Row 0    0    0     0          0 ].

(** [while (c > 0) { c -= 6; s++; *s = 0x80 | ((l >> c) & 0x3F); }], with the
    number of six-bit groups left as the decreasing argument. *)
Fixpoint utf8_continuation (groups : nat) (l c : Z) : list Z :=
  match groups with
  | O => []
  | S g =>
      if 0 <? c then
        let c := c - 6 in
        u8 (Z.lor 0x80 (Z.land (Z.shiftr l c) 0x3F)) :: utf8_continuation g l c
      else []
  end.

(** The [for] loop over the table: the return value and the bytes written. *)
Fixpoint utf8_search (t : list utf8_row) (l nc maxlen : Z) : Z * list Z :=
  match t with
  | [] => (-1, [])
  | row :: t' =>
      if (cmask row =? 0) || (maxlen =? 0) then (-1, [])
      else
        let nc := nc + 1 in
        if l <=? lmask row then
          let c := shift row in
          (nc, u8 (Z.lor (cval row) (Z.shiftr l c)) :: utf8_continuation (Z.to_nat (c / 6)) l c)
        else utf8_search t' l nc (maxlen - 1)
  end.

(** [s] is false for a null destination. *)
Definition Unicode_Character_to_UTF8_Character (s : bool) (wc maxlen : Z) : Z * list Z :=
  if negb s then (0, []) else utf8_search utf8_table wc 0 maxlen.

(** The bytes written at [s]; the C function returns how many they are. *)
Fixpoint Unicode_String_to_UTF8_String (pwcs : list (option Z)) (maxlen : Z) : res (list Z) :=
  match pwcs with
  | [] => Fault OutOfBounds
  | None :: _ => Fault Uninitialised
  | Some c :: ip =>
      if (c =? 0) || (maxlen <=? 0) then Ret []
      else if 0x7f <? c then
        let '(size, bs) := Unicode_Character_to_UTF8_Character true c maxlen in
        if size =? -1 then Unicode_String_to_UTF8_String ip (maxlen - 1)
        else let* rest := Unicode_String_to_UTF8_String ip (maxlen - size) in Ret (bs ++ rest)
      else let* rest := Unicode_String_to_UTF8_String ip (maxlen - 1) in Ret (u8 c :: rest)
  end.

(** The [n] units [UniStrncpy] stores: a copy up to the first null unit of the
    source, then nulls. *)
Fixpoint UniStrncpy (ucs2 : list Z) (n : nat) : res (list Z) :=
  match n with
  | O => Ret []
  | S n' =>
      match ucs2 with
      | [] => Fault OutOfBounds
      | c :: ucs2' =>
          if c =? 0 then Ret (replicate n 0)
          else let* rest := UniStrncpy ucs2' n' in Ret (c :: rest)
      end
  end.

(** ** Reference definitions *)

(** UTF-8 of a code point below 2^16, as the encoding is specified. *)
Definition utf8_enc (c : Z) : list Z :=
  if c <? 0x80 then [c]
  else if c <? 0x800 then [0xC0 + c / 64; 0x80 + c mod 64]
  else [0xE0 + c / 4096; 0x80 + c / 64 mod 64; 0x80 + c mod 64].

Definition utf8_len (c : Z) : Z := Z.of_nat (length (utf8_enc c)).

Definition utf8_encode (cs : list Z) : list Z := concat (utf8_enc <$> cs).

(** A decoder of one to three byte sequences. *)
Fixpoint utf8_decode (l : list Z) : list Z :=
  match l with
  | [] => []
  | b0 :: l0 =>
      if b0 <? 0x80 then b0 :: utf8_decode l0
      else match l0 with
           | [] => []
           | b1 :: l1 =>
               if b0 <? 0xE0 then ((b0 - 0xC0) * 64 + (b1 - 0x80)) :: utf8_decode l1
               else match l1 with
                    | [] => []
                    | b2 :: l2 =>
                        ((b0 - 0xE0) * 4096 + (b1 - 0x80) * 64 + (b2 - 0x80)) :: utf8_decode l2
                    end
           end
  end.

(** A unit that can occur inside a name: 16 bits wide and not the terminator. *)
Definition name_unit (c : Z) : Prop := 0 < c < 2 ^ 16.

(** ** Lemmas *)

Lemma lor_lead lead k x :
  0 <= k -> 0 <= x < 2 ^ k -> Z.lor (lead * 2 ^ k) x = lead * 2 ^ k + x.
Proof. intros. rewrite <- (Z.shiftl_mul_pow2 lead k) at 1 by done. by apply lor_shiftl_add. Qed.

Lemma u8_continuation x : u8 (Z.lor 0x80 (Z.land x 0x3F)) = 0x80 + x mod 64.
Proof.
  change 0x3F with (2 ^ 6 - 1). rewrite land_low_mod by lia. change (2 ^ 6) with 64.
  pose proof (Z.mod_pos_bound x 64).
  change 0x80 with (2 * 2 ^ 6). rewrite lor_lead by lia.
  apply wrapU_small. lia.
Qed.

Lemma utf8_len_cases c : utf8_len c = (if c <? 0x80 then 1 else if c <? 0x800 then 2 else 3).
Proof. unfold utf8_len, utf8_enc. by repeat case_match. Qed.

Lemma utf8_search_enc c maxlen :
  0 <= c < 2 ^ 16 -> 0 <= maxlen ->
  utf8_search utf8_table c 0 maxlen =
  if utf8_len c <=? maxlen then (utf8_len c, utf8_enc c) else (-1, []).
Proof.
  intros Hc Hm. rewrite utf8_len_cases. unfold utf8_enc.
  cbn [utf8_search utf8_table cmask cval shift lmask Z.eqb orb Z.mul].
  destruct (Z.eqb_spec maxlen 0).
  { subst. by repeat case_match. }
  destruct (Z.leb_spec c 0x7F).
  { replace (c <? 0x80) with true by lia. replace (1 <=? maxlen) with true by lia.
    change (0 * 6) with 0. rewrite Z.lor_0_l, Z.shiftr_0_r, wrapU_small by lia. done. }
  replace (c <? 0x80) with false by lia.
  destruct (Z.eqb_spec (maxlen - 1) 0).
  { destruct (c <? 0x800); by replace (_ <=? maxlen) with false by lia. }
  destruct (Z.leb_spec c 0x7FF).
  { replace (c <? 0x800) with true by lia. replace (2 <=? maxlen) with true by lia.
    change (1 * 6) with 6. change (Z.to_nat (6 / 6)) with 1%nat. cbn [utf8_continuation].
    change (0 <? 6) with true. cbv iota. rewrite u8_continuation.
    change (6 - 6) with 0. rewrite Z.shiftr_0_r, Z.shiftr_div_pow2 by lia.
    change 0xC0 with (6 * 2 ^ 5). change (2 ^ 6) with 64.
    rewrite lor_lead by zlia. rewrite wrapU_small by zlia. done. }
  replace (c <? 0x800) with false by lia.
  destruct (Z.eqb_spec (maxlen - 1 - 1) 0).
  { by replace (_ <=? maxlen) with false by lia. }
  replace (c <=? 0xFFFF) with true by lia. replace (3 <=? maxlen) with true by lia.
  change (2 * 6) with 12. change (Z.to_nat (12 / 6)) with 2%nat. cbn [utf8_continuation].
  change (0 <? 12) with true. change (0 <? 12 - 6) with true. cbv iota.
  rewrite !u8_continuation.
  change (12 - 6 - 6) with 0. change (12 - 6) with 6.
  rewrite Z.shiftr_0_r, !Z.shiftr_div_pow2 by lia.
  change 0xE0 with (14 * 2 ^ 4). change (2 ^ 12) with 4096. change (2 ^ 6) with 64.
  rewrite lor_lead by zlia. rewrite wrapU_small by zlia. done.
Qed.

Lemma Unicode_Character_enc c maxlen :
  0 <= c < 2 ^ 16 -> 0 <= maxlen ->
  Unicode_Character_to_UTF8_Character true c maxlen =
  if utf8_len c <=? maxlen then (utf8_len c, utf8_enc c) else (-1, []).
Proof. apply utf8_search_enc. Qed.

Lemma utf8_len_pos c : 1 <= utf8_len c <= 3.
Proof. rewrite utf8_len_cases. repeat case_match; lia. Qed.

Lemma utf8_len_ascii c : utf8_len c = 1 <-> c < 0x80.
Proof. rewrite utf8_len_cases. repeat case_match; lia. Qed.

Lemma utf8_enc_bytes c : 0 <= c < 2 ^ 16 -> Forall (fun b => 0 <= b < 256) (utf8_enc c).
Proof. intros. unfold utf8_enc. repeat case_match; repeat constructor; zlia. Qed.

Lemma utf8_encode_cons c cs : utf8_encode (c :: cs) = utf8_enc c ++ utf8_encode cs.
Proof. done. Qed.

Lemma length_utf8_encode_ge cs : (length cs <= length (utf8_encode cs))%nat.
Proof.
  induction cs as [|c cs IH]; simpl; [lia|].
  rewrite utf8_encode_cons, length_app. pose proof (utf8_len_pos c). unfold utf8_len in *. lia.
Qed.

Lemma length_utf8_encode_ascii cs :
  (length (utf8_encode cs) <= length cs)%nat -> Forall (fun c => c < 0x80) cs.
Proof.
  induction cs as [|c cs IH]; [constructor|].
  rewrite utf8_encode_cons, length_app; simpl. intros.
  pose proof (utf8_len_pos c). pose proof (length_utf8_encode_ge cs).
  constructor; [apply utf8_len_ascii; unfold utf8_len in *; lia|].
  apply IH. unfold utf8_len in *; lia.
Qed.

Lemma utf8_encode_ascii cs : Forall (fun c => c < 0x80) cs -> utf8_encode cs = cs.
Proof.
  induction 1; [done|]. rewrite utf8_encode_cons. unfold utf8_enc.
  replace (x <? 0x80) with true by lia. simpl. by f_equal.
Qed.

Lemma utf8_decode_enc c l :
  0 <= c < 2 ^ 16 -> utf8_decode (utf8_enc c ++ l) = c :: utf8_decode l.
Proof.
  intros. unfold utf8_enc. case_match.
  { simpl. by replace (c <? 0x80) with true by lia. }
  case_match.
  - cbn [app utf8_decode].
    replace (_ <? 0x80) with false by zlia. replace (_ <? 0xE0) with true by zlia.
    f_equal. zlia.
  - cbn [app utf8_decode].
    replace (_ <? 0x80) with false by zlia. replace (_ <? 0xE0) with false by zlia.
    f_equal. zlia.
Qed.

Lemma utf8_decode_encode cs :
  Forall (fun c => 0 <= c < 2 ^ 16) cs -> utf8_decode (utf8_encode cs) = cs.
Proof.
  induction 1; [done|]. rewrite utf8_encode_cons, utf8_decode_enc by done. by f_equal.
Qed.

(** One step of the string conversion, on a unit that is not the terminator
    while there is room left. *)
Lemma Unicode_String_step c ip maxlen :
  name_unit c -> 0 < maxlen ->
  Unicode_String_to_UTF8_String (Some c :: ip) maxlen =
  if utf8_len c <=? maxlen
  then let* rest := Unicode_String_to_UTF8_String ip (maxlen - utf8_len c) in
       Ret (utf8_enc c ++ rest)
  else Unicode_String_to_UTF8_String ip (maxlen - 1).
Proof.
  unfold name_unit. intros. cbn [Unicode_String_to_UTF8_String].
  replace (c =? 0) with false by lia. replace (maxlen <=? 0) with false by lia. cbn [orb].
  destruct (Z.ltb_spec 0x7f c).
  - rewrite Unicode_Character_enc by lia. pose proof (utf8_len_pos c).
    destruct (utf8_len c <=? maxlen); [|done].
    by replace (utf8_len c =? -1) with false by lia.
  - assert (utf8_len c = 1) as -> by (apply utf8_len_ascii; lia).
    replace (1 <=? maxlen) with true by lia.
    unfold utf8_enc. replace (c <? 0x80) with true by lia.
    by rewrite wrapU_small by lia.
Qed.

Lemma Unicode_String_stop pwcs maxlen :
  maxlen <= 0 -> Unicode_String_to_UTF8_String (Some <$> pwcs ++ [0]) maxlen = Ret [].
Proof.
  intros. destruct pwcs; simpl; replace (maxlen <=? 0) with true by lia.
  - done.
  - by rewrite orb_true_r.
Qed.

Lemma Unicode_String_full cs maxlen :
  Forall name_unit cs -> Z.of_nat (length (utf8_encode cs)) <= maxlen ->
  Unicode_String_to_UTF8_String (Some <$> cs ++ [0]) maxlen = Ret (utf8_encode cs).
Proof.
  intros Hcs. revert maxlen. induction Hcs as [|c cs Hc Hcs IH]; intros maxlen Hm; [done|].
  rewrite utf8_encode_cons, length_app in Hm. pose proof (utf8_len_pos c).
  unfold utf8_len in *. simpl fmap.
  rewrite Unicode_String_step by (done || lia). unfold utf8_len.
  replace (_ <=? maxlen) with true by lia. rewrite IH by lia. done.
Qed.

Lemma Unicode_String_bounded cs maxlen :
  Forall name_unit cs -> 0 <= maxlen ->
  exists out, Unicode_String_to_UTF8_String (Some <$> cs ++ [0]) maxlen = Ret out /\
    Z.of_nat (length out) <= maxlen /\ Forall (fun b => 0 <= b < 256) out.
Proof.
  intros Hcs. revert maxlen. induction Hcs as [|c cs Hc Hcs IH]; intros maxlen Hm.
  { exists []. simpl. repeat split; [lia|constructor]. }
  destruct (decide (maxlen = 0)) as [->|].
  { exists []. rewrite Unicode_String_stop by done. repeat split; [simpl; lia|constructor]. }
  change (Some <$> (c :: cs) ++ [0]) with (Some c :: (Some <$> cs ++ [0])).
  rewrite Unicode_String_step by (done || lia). pose proof (utf8_len_pos c).
  destruct (Z.leb_spec (utf8_len c) maxlen).
  - destruct (IH (maxlen - utf8_len c)) as (out & -> & ? & ?); [lia|].
    exists (utf8_enc c ++ out). rewrite length_app. unfold utf8_len, name_unit in *.
    repeat split; [lia|]. apply Forall_app; split; [|done]. apply utf8_enc_bytes. lia.
  - destruct (IH (maxlen - 1)) as (out & -> & ? & ?); [lia|]. exists out. repeat split; [lia|done].
Qed.

Lemma utf8_enc_nonzero c : name_unit c -> Forall (fun b => b <> 0) (utf8_enc c).
Proof. unfold name_unit, utf8_enc. intros. repeat case_match; repeat constructor; zlia. Qed.

Lemma Unicode_String_nonzero cs maxlen out :
  Forall name_unit cs -> Unicode_String_to_UTF8_String (Some <$> cs ++ [0]) maxlen = Ret out ->
  Forall (fun b => b <> 0) out.
Proof.
  intros Hcs. revert maxlen out. induction Hcs as [|c cs Hc Hcs IH]; intros maxlen out.
  { simpl. intros [= <-]. constructor. }
  destruct (decide (maxlen <= 0)).
  { rewrite Unicode_String_stop by done. intros [= <-]. constructor. }
  change (Some <$> (c :: cs) ++ [0]) with (Some c :: (Some <$> cs ++ [0])).
  rewrite Unicode_String_step by (done || lia). case_match; [|apply IH]. intros Hout.
  apply res_bind_inv in Hout as (rest & Hrest & [= <-]).
  apply Forall_app. split; [by apply utf8_enc_nonzero|by eapply IH].
Qed.

Lemma UniStrncpy_total ucs2 n :
  (n <= length ucs2)%nat ->
  exists l, UniStrncpy ucs2 n = Ret l /\ length l = n /\
    (Forall (fun c => c <> 0) (take n ucs2) -> l = take n ucs2).
Proof.
  revert n. induction ucs2 as [|c ucs2 IH]; intros [|n] Hn; simpl in *; try lia; eauto.
  destruct (Z.eqb_spec c 0).
  - exists (replicate (S n) 0). rewrite length_replicate. repeat split.
    intros [? _]%Forall_cons_1. congruence.
  - destruct (IH n) as (l & -> & ? & Hl); [lia|].
    exists (c :: l). simpl. repeat split; [congruence|].
    intros [_ ?]%Forall_cons_1. f_equal. auto.
Qed.

(** ** Properties *)

(** The table-driven encoder agrees with the UTF-8 encoding of a 16-bit
    unit: given room for it, it writes that encoding and returns its length,
    and given less room it returns -1 and writes nothing. *)
Theorem Unicode_Character_utf8 (c maxlen : Z) :
  0 <= c < 2 ^ 16 -> 0 <= maxlen ->
  Unicode_Character_to_UTF8_Character true c maxlen =
  (if utf8_len c <=? maxlen then (utf8_len c, utf8_enc c) else (-1, [])) /\
  Forall (fun b => 0 <= b < 256) (utf8_enc c) /\ utf8_decode (utf8_enc c) = [c].
Proof.
  intros. split; [by apply Unicode_Character_enc|]. split; [by apply utf8_enc_bytes|].
  rewrite <- (app_nil_r (utf8_enc c)). by rewrite utf8_decode_enc.
Qed.

(** C35: the string conversion never writes more than [maxlen] bytes, and when
    [maxlen] covers the encoding of a terminated name the bytes written decode
    back to the name. *)
Theorem Unicode_String_roundtrip (cs : list Z) (maxlen : Z) :
  Forall name_unit cs -> 0 <= maxlen ->
  exists out, Unicode_String_to_UTF8_String (Some <$> cs ++ [0]) maxlen = Ret out /\
    Z.of_nat (length out) <= maxlen /\
    (Z.of_nat (length (utf8_encode cs)) <= maxlen -> utf8_decode out = cs).
Proof.
  intros Hcs Hm. destruct (Unicode_String_bounded cs maxlen) as (out & Hout & ? & ?); try done.
  exists out. split; [done|]. split; [done|]. intros Hlen.
  rewrite Unicode_String_full in Hout by done. injection Hout as <-.
  apply utf8_decode_encode. eapply Forall_impl; [exact Hcs|]. unfold name_unit; simpl; lia.
Qed.

(** Called the way the directory code calls it, with the number of units
    of the name as [maxlen], the conversion is complete exactly for ASCII
    names; any other name loses characters. *)
Theorem Unicode_String_namlen_truncates (cs : list Z) :
  Forall name_unit cs ->
  Unicode_String_to_UTF8_String (Some <$> cs ++ [0]) (Z.of_nat (length cs)) = Ret (utf8_encode cs)
  <-> Forall (fun c => c < 0x80) cs.
Proof.
  intros Hcs. split; intros H.
  - destruct (Unicode_String_bounded cs (Z.of_nat (length cs))) as (out & Hout & ? & _); [done|lia|].
    apply length_utf8_encode_ascii. rewrite H in Hout. injection Hout as <-. lia.
  - apply Unicode_String_full; [done|]. by rewrite utf8_encode_ascii.
Qed.

(** ** Witnesses *)

Lemma Unicode_Character_utf8_witness :
  Unicode_Character_to_UTF8_Character true 0x20AC 3 = (3, [0xE2; 0x82; 0xAC]) /\
  Unicode_Character_to_UTF8_Character true 0x20AC 2 = (-1, []).
Proof.
  split.
  - exact (proj1 (Unicode_Character_utf8 0x20AC 3 ltac:(lia) ltac:(lia))).
  - exact (proj1 (Unicode_Character_utf8 0x20AC 2 ltac:(lia) ltac:(lia))).
Defined.

Lemma Unicode_String_roundtrip_witness :
  exists out, Unicode_String_to_UTF8_String (Some <$> [0x61; 0xE9; 0x20AC] ++ [0]) 6 = Ret out /\
    Z.of_nat (length out) <= 6 /\
    (Z.of_nat (length (utf8_encode [0x61; 0xE9; 0x20AC])) <= 6 ->
     utf8_decode out = [0x61; 0xE9; 0x20AC]).
Proof.
  apply (Unicode_String_roundtrip [0x61; 0xE9; 0x20AC] 6); [|lia].
  repeat constructor; unfold name_unit; lia.
Defined.

Lemma Unicode_String_namlen_truncates_witness :
  Unicode_String_to_UTF8_String (Some <$> [0x61; 0xE9] ++ [0]) 2 <> Ret (utf8_encode [0x61; 0xE9]).
Proof.
  intros H. apply (Unicode_String_namlen_truncates [0x61; 0xE9]) in H.
  - inversion H as [|? ? ? H2]; inversion H2; lia.
  - repeat constructor; unfold name_unit; lia.
Defined.
