(* ===== verification/Disk.v ===== *)
(** * The mapped disk and the block reader

    [ujfs_read_diskblocks] and [xRead] of jfs_inode.c and [get_hypermetadata]
    of hyper.c.  The store is mapped in memory ([disk_image], created by
    [create_disk_pager]), so that a disk read is a bounds-checked copy; reading
    past the mapping is a fault. *)

From S2P Require Import Prelude Layout.

(** ** Definitions *)

Record image := Image { img_size : Z; img_at : Z -> byte }.

Definition img_bytes (img : image) (off n : Z) : mem := img_at img <$> seqZ off n.

(** The globals the readers use: the mapping, the superblock behind [jfs_sb],
    and which allocation sizes malloc can satisfy. *)
Record env := Env {
  disk_image : image;
  jfs_sb : jfs_superblock;
  malloc_ok : Z -> bool }.

(** [cap] is the size of the object [data_buffer] points to.  The C function
    tests the result of memcpy against NULL; memcpy returns its destination, so
    the error return of the source is never taken. *)
Definition ujfs_read_diskblocks (img : image) (disk_offset disk_count cap : Z) : res mem :=
  let disk_offset := u64 disk_offset in
  let disk_count := u32 disk_count in
  if img_size img <? disk_offset + disk_count then Fault OutOfBounds
  else if cap <? disk_count then Fault BufferOverflow
  else Ret (img_bytes img disk_offset disk_count).

Definition xRead (e : env) (address count cap : Z) : res mem :=
  let bsize := s_bsize (jfs_sb e) in
  let offset := u32 (Z.land address (bsize - 1)) in
  let length := Z.land (u32 (offset + u32 count + bsize - 1)) (u32 (Z.lnot (bsize - 1))) in
  if (offset =? 0) && (length =? u32 count)
  then ujfs_read_diskblocks (disk_image e) address count cap
  else
    let block_address := address - offset in
    if negb (malloc_ok e length) then Err (Erc 1)
    else
      let! block_buffer :=
        ujfs_read_diskblocks (disk_image e) block_address length length orelse Erc 1 in
      if cap <? u32 count then Fault BufferOverflow
      else of_option OutOfBounds (bytes_at block_buffer offset (u32 count)).

(** strncmp on byte strings given as unsigned char values. *)
Fixpoint strncmp (a b : list Z) (n : nat) : res Z :=
  match n with
  | O => Ret 0
  | S n' =>
      match a, b with
      | x :: a', y :: b' =>
          if x =? y then (if x =? 0 then Ret 0 else strncmp a' b' n') else Ret (x - y)
      | _, _ => Fault OutOfBounds
      end
  end.

(** "JFS1" *)
Definition JFS_MAGIC : list Z := [0x4A; 0x46; 0x53; 0x31; 0].

(** Reads the superblock through the mapping; a wrong magic word ends the
    translator with exit(0).  The result of diskfs_catch_exception is stored
    and not used. *)
Definition get_hypermetadata (img : image) : res jfs_superblock :=
  let* raw := ujfs_read_diskblocks img SUPER1_OFF sizeof_superblock sizeof_superblock in
  let* sb := get_superblock raw in
  let* c := strncmp JFS_MAGIC (byteZ <$> s_magic sb) 4 in
  if negb (c =? 0) then Fault (ExitCalled 0) else Ret sb.

(** A mounted environment: a block size that the superblock states consistently
    and the page-based code can use, a device of whole blocks, and memory. *)
Class WfEnv (e : env) : Prop := {
  wf_l2bsize : 9 <= s_l2bsize (jfs_sb e) <= 12;
  wf_bsize : s_bsize (jfs_sb e) = 2 ^ s_l2bsize (jfs_sb e);
  wf_size : 0 <= img_size (disk_image e) < 2 ^ 62;
  wf_whole : img_size (disk_image e) mod s_bsize (jfs_sb e) = 0;
  wf_malloc : forall n, malloc_ok e n = true }.

(** The bytes [address, address + count) exist on the device. *)
Definition on_disk (e : env) (address count : Z) : Prop :=
  0 <= address /\ 0 <= count /\ address + count <= img_size (disk_image e).

#[export] Instance on_disk_dec e address count : Decision (on_disk e address count).
Proof. unfold on_disk. apply _. Defined.

(** The range begins and ends where blocks do; the size of the blocks it touches. *)
Definition whole_blocks (e : env) (address count : Z) : Prop :=
  address mod s_bsize (jfs_sb e) = 0 /\ count mod s_bsize (jfs_sb e) = 0.
Definition rounded (e : env) (address count : Z) : Z :=
  let b := s_bsize (jfs_sb e) in
  let total := address mod b + count + b - 1 in total - total mod b.

#[export] Instance whole_blocks_dec e address count : Decision (whole_blocks e address count).
Proof. unfold whole_blocks. apply _. Defined.

(** The 4096-byte page at block [a], when the device has it. *)
Definition page_at (e : env) (a : Z) : option mem :=
  let off := a * 2 ^ s_l2bsize (jfs_sb e) in
  if (0 <=? a) && (off + PSIZE <=? img_size (disk_image e))
  then Some (img_bytes (disk_image e) off PSIZE) else None.

(** ** Lemmas *)

Lemma length_img_bytes img off n : 0 <= n -> Z.of_nat (length (img_bytes img off n)) = n.
Proof. intros. unfold img_bytes. rewrite length_fmap, length_seqZ. lia. Qed.

Lemma img_bytes_sub img off n o k :
  0 <= o -> 0 <= k -> o + k <= n ->
  bytes_at (img_bytes img off n) o k = Some (img_bytes img (off + o) k).
Proof.
  intros. rewrite bytes_at_Some by (rewrite ?length_img_bytes; lia).
  f_equal. unfold img_bytes. rewrite <- fmap_drop, <- fmap_take. f_equal.
  replace n with (o + (k + (n - o - k))) by lia.
  rewrite seqZ_app by lia. rewrite drop_app_length'; [|rewrite length_seqZ; lia].
  rewrite seqZ_app by lia. rewrite take_app_length'; [|rewrite length_seqZ; lia]. done.
Qed.

Lemma ujfs_read_ok img off n cap :
  0 <= off -> 0 <= n < 2 ^ 32 -> off + n <= img_size img -> img_size img < 2 ^ 64 -> n <= cap ->
  ujfs_read_diskblocks img off n cap = Ret (img_bytes img off n).
Proof.
  intros. unfold ujfs_read_diskblocks. rewrite !wrapU_small by lia.
  replace (img_size img <? off + n) with false by lia.
  by replace (cap <? n) with false by lia.
Qed.

Lemma ujfs_read_never_errs img off n cap e : ujfs_read_diskblocks img off n cap <> Err e.
Proof. unfold ujfs_read_diskblocks. by repeat case_match. Qed.

Lemma ujfs_read_length img off n cap bs :
  ujfs_read_diskblocks img off n cap = Ret bs ->
  Z.of_nat (length bs) = u32 n /\ u32 n <= cap.
Proof.
  unfold ujfs_read_diskblocks. do 2 (case_match; [done|]). intros [= <-].
  pose proof (wrapU_range 32 n). rewrite length_img_bytes; lia.
Qed.

Lemma page_at_inv e a p :
  page_at e a = Some p ->
  0 <= a /\ a * 2 ^ s_l2bsize (jfs_sb e) + PSIZE <= img_size (disk_image e) /\
  p = img_bytes (disk_image e) (a * 2 ^ s_l2bsize (jfs_sb e)) PSIZE.
Proof. unfold page_at. case_match; [|done]. intros [= <-]. split_and!; done || lia. Qed.

Lemma bsize_pos e `{WfEnv e} : 512 <= s_bsize (jfs_sb e) <= 4096.
Proof.
  rewrite wf_bsize. pose proof wf_l2bsize.
  pose proof (Z.pow_le_mono_r 2 9 (s_l2bsize (jfs_sb e))).
  pose proof (Z.pow_le_mono_r 2 (s_l2bsize (jfs_sb e)) 12). lia.
Qed.

(** The rounding [xRead] performs, for a power-of-two block size. *)
Lemma xRead_rounding l2 address count :
  0 <= l2 <= 12 -> 0 <= count < 2 ^ 31 ->
  let bsize := 2 ^ l2 in
  let offset := u32 (Z.land address (bsize - 1)) in
  let length := Z.land (u32 (offset + u32 count + bsize - 1)) (u32 (Z.lnot (bsize - 1))) in
  let total := offset + count + bsize - 1 in
  offset = address mod bsize /\ length = total - total mod bsize.
Proof.
  intros Hl2 Hc bsize offset length total.
  assert (0 < bsize <= 4096).
  { subst bsize. split; [lia|]. change 4096 with (2 ^ 12). apply Z.pow_le_mono_r; lia. }
  pose proof (Z.mod_pos_bound address bsize).
  assert (offset = address mod bsize) as Ho.
  { subst offset bsize. rewrite land_low_mod by lia. apply wrapU_small. lia. }
  split; [done|]. subst length.
  assert (0 <= total < 2 ^ 32) by (subst total; lia).
  rewrite (wrapU_small 32 count) by lia.
  rewrite (wrapU_small 32 (offset + count + bsize - 1)) by lia.
  fold total. replace (u32 (Z.lnot (bsize - 1))) with (Z.land (Z.lnot (bsize - 1)) (Z.ones 32))
    by (rewrite Z.land_ones by lia; done).
  rewrite Z.land_assoc. subst bsize. rewrite land_lnot_low by lia.
  rewrite Z.land_ones by lia. apply Z.mod_small.
  pose proof (Z.mod_pos_bound total (2 ^ l2)).
  pose proof (Z.mod_le total (2 ^ l2)). lia.
Qed.

(** On a device of whole blocks the rounded range ends where the device has ended
    already exactly when the range does, and contains it. *)
Lemma round_up_on_device b size address count :
  0 < b -> size mod b = 0 ->
  let total := address mod b + count + b - 1 in
  (address - address mod b + (total - total mod b) <= size <-> address + count <= size) /\
  address mod b + count <= total - total mod b < address mod b + count + b.
Proof.
  intros Hb Hs total.
  pose proof (Z.div_mod address b). pose proof (Z.div_mod total b).
  pose proof (Z.div_mod size b). pose proof (Z.mod_pos_bound total b).
  assert (total = address mod b + count + b - 1) as Ht by done. clearbody total.
  split; [|lia]. split; [lia|]. intros Hle.
  assert (address / b + total / b < size / b + 1) by (apply (Z.mul_lt_mono_pos_l b); lia).
  assert (b * (address / b + total / b) <= b * (size / b)) by (apply Z.mul_le_mono_nonneg_l; lia).
  lia.
Qed.

(** A range is rounded to itself exactly when its ends are those of blocks. *)
Lemma round_up_whole b count : 0 < b -> count mod b = 0 <-> count + b - 1 - (count + b - 1) mod b = count.
Proof.
  intros Hb. pose proof (Z.div_mod (count + b - 1) b). pose proof (Z.mod_pos_bound (count + b - 1) b). split; intros E.
  - pose proof (Z.div_mod count b). replace (count + b - 1) with (b - 1 + count / b * b) by lia.
    rewrite Z.mod_add, Z.mod_small by lia. lia.
  - replace count with ((count + b - 1) / b * b) by lia. apply Z.mod_mul. lia.
Qed.

Lemma strncmp_total a b n :
  (n <= length a)%nat -> (n <= length b)%nat -> Forall (fun x => x <> 0) (take n a) ->
  exists c, strncmp a b n = Ret c /\ (c = 0 <-> take n a = take n b).
Proof.
  revert a b. induction n as [|n IH]; intros [|x a] [|y b] Ha Hb Hnz; simpl in *; try lia; eauto.
  all: try (exists 0; done).
  apply Forall_cons_1 in Hnz as [Hx Hnz]. destruct (Z.eqb_spec x y) as [->|].
  - replace (y =? 0) with false by lia.
    destruct (IH a b) as (c & -> & Hc); [lia|lia|done|]. exists c. split; [done|].
    rewrite Hc. split; [by intros ->|by intros [= ->]].
  - exists (x - y). split; [done|]. split; [lia|intros [= ]; lia].
Qed.

Lemma get_superblock_magic m sb : get_superblock m = Ret sb -> length (s_magic sb) = 4%nat.
Proof.
  unfold get_superblock. intros H. apply res_bind_inv in H as (magic & Hm & H).
  apply of_option_inv, bytes_at_inv in Hm. res_inv. simpl. lia.
Qed.

Lemma ujfs_read_eq img off n cap :
  - 2 ^ 63 <= off < 2 ^ 63 -> 0 <= n < 2 ^ 32 -> 0 <= img_size img < 2 ^ 62 -> n <= cap ->
  ujfs_read_diskblocks img off n cap =
  if decide (0 <= off /\ off + n <= img_size img) then Ret (img_bytes img off n) else Fault OutOfBounds.
Proof.
  intros Hoff Hn Hs Hcap. case_decide as H; [apply ujfs_read_ok; lia|].
  unfold ujfs_read_diskblocks. rewrite (wrapU_small 32 n) by lia.
  assert (img_size img < u64 off + n) as Hout.
  { destruct (decide (0 <= off)); [rewrite wrapU_small by lia; lia|].
    unfold wrapU. replace off with (off + 2 ^ 64 + -1 * 2 ^ 64) by lia.
    rewrite Z.mod_add, Z.mod_small by lia. lia. }
  by replace (img_size img <? u64 off + n) with true by lia.
Qed.

(** What [xRead] does with any address and any count of a signed integer. *)
Section XRead.
Context (e : env) (address count cap : Z).
Context (Hl2 : 0 <= s_l2bsize (jfs_sb e) <= 12) (Hbsize : s_bsize (jfs_sb e) = 2 ^ s_l2bsize (jfs_sb e)).
Context (Hsize : 0 <= img_size (disk_image e) < 2 ^ 62) (Hwhole : img_size (disk_image e) mod s_bsize (jfs_sb e) = 0).
Context (Haddress : - 2 ^ 63 <= address < 2 ^ 63) (Hcount : 0 <= count < 2 ^ 31) (Hcap : count <= cap).

Lemma xRead_eq :
  xRead e address count cap =
  if decide (~ whole_blocks e address count /\ malloc_ok e (rounded e address count) = false) then Err (Erc 1)
  else if decide (on_disk e address count) then Ret (img_bytes (disk_image e) address count)
  else Fault OutOfBounds.
Proof.
  unfold xRead, rounded. pose proof (xRead_rounding (s_l2bsize (jfs_sb e)) address count Hl2 Hcount) as [Ho Hr].
  rewrite <- Hbsize in Ho, Hr. rewrite Hr, Ho. clear Ho Hr. set (b := s_bsize (jfs_sb e)) in *.
  assert (0 < b <= 4096) as Hb.
  { rewrite Hbsize. split; [lia|]. change 4096 with (2 ^ 12). apply Z.pow_le_mono_r; lia. }
  destruct (round_up_on_device b (img_size (disk_image e)) address count) as [Hend Hround]; [lia|done|].
  set (total := address mod b + count + b - 1) in *. pose proof (Z.mod_pos_bound address b).
  rewrite (wrapU_small 32 count) by lia. case_match eqn:E.
  - apply andb_true_iff in E as [Eo%Z.eqb_eq El%Z.eqb_eq].
    assert (count mod b = 0) by (apply round_up_whole; [lia|]; subst total; rewrite Eo in El; exact El).
    rewrite decide_False by (unfold whole_blocks; tauto). rewrite ujfs_read_eq by lia.
    apply decide_ext. unfold on_disk. lia.
  - assert (~ whole_blocks e address count) as Hnot.
    { intros [Eo Ec]. fold b in Eo, Ec. apply (round_up_whole b count) in Ec; [|lia].
      subst total. rewrite Eo in E. rewrite Z.add_0_l, Ec, !Z.eqb_refl in E. done. }
    destruct (malloc_ok e _); cbn [negb]; [rewrite decide_False by (intros [_ ?]; done)|by rewrite decide_True].
    pose proof (Z.div_mod address b). assert (- 2 ^ 63 <= address - address mod b).
    { assert (- 2 ^ 63 / b <= address / b) by (apply Z.div_le_mono; lia).
      assert (b * (- 2 ^ 63 / b) = - 2 ^ 63); [|nia].
      symmetry. apply Z.div_exact; [lia|]. rewrite Hbsize. apply Z.mod_divide; [lia|]. apply Z.divide_opp_r.
      exists (2 ^ (63 - s_l2bsize (jfs_sb e))). rewrite <- Z.pow_add_r by lia. f_equal. lia. }
    rewrite ujfs_read_eq by lia. unfold on_disk.
    case_decide as Hd.
    + cbn [res_try]. replace (cap <? count) with false by lia.
      rewrite img_bytes_sub by lia. rewrite decide_True.
      * cbn. do 2 f_equal. lia.
      * split_and!; try tauto || lia.
    + rewrite decide_False; [done|]. intros (Ha & _ & Hle). apply Hd. split; [|tauto].
      pose proof (Z.mod_le address b). lia.
Qed.

End XRead.

Lemma xRead_ok (e : env) (address count cap : Z) :
  WfEnv e ->
  on_disk e address count -> count < 2 ^ 31 -> count <= cap ->
  xRead e address count cap = Ret (img_bytes (disk_image e) address count).
Proof.
  intros Hwf Hon Hc31 Hcap. pose proof Hon as (Ha & Hc & Hle). pose proof wf_l2bsize. pose proof wf_size.
  rewrite xRead_eq; try apply Hwf; try lia.
  rewrite decide_False by (rewrite wf_malloc; by intros [_ ?]). by rewrite decide_True.
Qed.

Lemma xRead_page e a p :
  WfEnv e -> page_at e a = Some p ->
  xRead e (a * 2 ^ s_l2bsize (jfs_sb e)) PSIZE PSIZE = Ret p.
Proof.
  intros Hwf (Ha & Hr & ->)%page_at_inv. unfold PSIZE in *.
  apply xRead_ok; [done| |lia|lia]. unfold on_disk. pose proof wf_l2bsize. lia.
Qed.

Lemma length_page_at e a p : page_at e a = Some p -> Z.of_nat (length p) = 4096.
Proof. intros (_ & _ & ->)%page_at_inv. by rewrite length_img_bytes. Qed.

(** ** Properties *)

(** C20: on a well-formed volume [xRead] returns exactly the bytes
    [address, address + count) of the device, for every range the device has,
    aligned or not: rounding to whole blocks and copying back is transparent. *)
Theorem xRead_reads (e : env) (address count cap : Z) :
  WfEnv e -> on_disk e address count -> count < 2 ^ 31 -> count <= cap ->
  xRead e address count cap = Ret (img_bytes (disk_image e) address count).
Proof. apply xRead_ok. Qed.

(** C36: everything [xRead] can do, for any address and any count of a signed
    integer, on a device of whole blocks and with room for [count] bytes at the
    destination.  It reports an error exactly when the range is not whole blocks and
    there is no memory for the blocks around it.  Otherwise it touches memory outside
    the mapping exactly when the range itself is not on the device: rounding to whole
    blocks adds nothing that the device does not have.  And otherwise it delivers the
    bytes of the range. *)
Theorem xRead_in_bounds (e : env) (address count cap : Z) :
  0 <= s_l2bsize (jfs_sb e) <= 12 -> s_bsize (jfs_sb e) = 2 ^ s_l2bsize (jfs_sb e) ->
  0 <= img_size (disk_image e) < 2 ^ 62 -> img_size (disk_image e) mod s_bsize (jfs_sb e) = 0 ->
  - 2 ^ 63 <= address < 2 ^ 63 -> 0 <= count < 2 ^ 31 -> count <= cap ->
  xRead e address count cap =
  if decide (~ whole_blocks e address count /\ malloc_ok e (rounded e address count) = false) then Err (Erc 1)
  else if decide (on_disk e address count) then Ret (img_bytes (disk_image e) address count)
  else Fault OutOfBounds.
Proof. apply xRead_eq. Qed.

(** [get_hypermetadata] returns the superblock found at byte 0x8000 exactly
    when its magic word is JFS1, and ends the translator otherwise. *)
Theorem get_hypermetadata_magic (img : image) (sb : jfs_superblock) :
  SUPER1_OFF + sizeof_superblock <= img_size img < 2 ^ 64 ->
  get_superblock (img_bytes img SUPER1_OFF sizeof_superblock) = Ret sb ->
  get_hypermetadata img =
  if decide ((byteZ <$> s_magic sb) = [0x4A; 0x46; 0x53; 0x31]) then Ret sb
  else Fault (ExitCalled 0).
Proof.
  intros Hsz Hsb. pose proof (get_superblock_magic _ _ Hsb) as Hlen. unfold get_hypermetadata.
  unfold SUPER1_OFF, sizeof_superblock in *.
  rewrite ujfs_read_ok by lia. cbn [res_bind]. rewrite Hsb. cbn [res_bind].
  destruct (strncmp_total JFS_MAGIC (byteZ <$> s_magic sb) 4) as (c & -> & Hc).
  { simpl; lia. } { by rewrite length_fmap, Hlen. } { repeat constructor; lia. }
  rewrite (take_ge (byteZ <$> _)) in Hc by (rewrite length_fmap; lia).
  cbn [take JFS_MAGIC res_bind] in *.
  assert (c = 0 <-> (byteZ <$> s_magic sb) = [0x4A; 0x46; 0x53; 0x31]) as Hc'
    by (rewrite Hc; split; intros E; symmetry; exact E).
  case_decide as Hd; destruct (Z.eqb_spec c 0); simpl; try done; tauto.
Qed.

(** ** Witnesses *)

(** A superblock with the given block size, and the volume of four 4 KiB blocks
    whose byte at address [a] is [a mod 256]. *)
Definition demo_sb (l2 : Z) : jfs_superblock :=
  Superblock (byte_of <$> [0x4A; 0x46; 0x53; 0x31]) 2 32 (2 ^ l2) l2 3 512 9 8192 0 0 0
    (Pxd 0 0 0) (Pxd 0 0 0) 0 0 (Pxd 0 0 0) (Pxd 0 0 0) (Timestruc 0 0) 0 0 [] 0
    (Pxd 0 0 0) (Pxd 0 0 0) [] [] [].

Definition demo_env : env := Env (Image 16384 byte_of) (demo_sb 12) (fun _ => true).

#[export] Instance demo_env_wf : WfEnv demo_env.
Proof. constructor; vm_compute; try done; split; congruence. Defined.

Lemma xRead_reads_witness :
  xRead demo_env 4094 4 4 = Ret (byte_of <$> [254; 255; 0; 1]).
Proof.
  rewrite (xRead_reads demo_env 4094 4 4 demo_env_wf);
    [reflexivity | vm_compute; repeat split; congruence | lia | lia].
Defined.

(** The last four bytes of the device, four bytes that begin there, with no memory
    for a block, and four bytes before the device. *)
Lemma xRead_in_bounds_witness :
  xRead demo_env 16380 4 4 = Ret (byte_of <$> [252; 253; 254; 255]) /\
  xRead demo_env 16382 4 4 = Fault OutOfBounds /\
  xRead (Env (disk_image demo_env) (jfs_sb demo_env) (fun n => n <? 4096)) 16380 4 4 = Err (Erc 1) /\
  xRead demo_env (-4) 4 4 = Fault OutOfBounds.
Proof.
  split_and!.
  - rewrite (xRead_in_bounds demo_env 16380 4 4); (vm_compute; done) || (vm_compute; split; congruence).
  - rewrite (xRead_in_bounds demo_env 16382 4 4); (vm_compute; done) || (vm_compute; split; congruence).
  - rewrite (xRead_in_bounds (Env _ _ _) 16380 4 4); (vm_compute; done) || (vm_compute; split; congruence).
  - rewrite (xRead_in_bounds demo_env (-4) 4 4); (vm_compute; done) || (vm_compute; split; congruence).
Defined.

(** A blank device with only the magic word written. *)
Definition demo_blank : image :=
  Image 65536 (fun a => if (0x8000 <=? a) && (a <? 0x8004)
                        then byte_of (default 0 ([0x4A; 0x46; 0x53; 0x31] !! Z.to_nat (a - 0x8000)))
                        else Byte.x00).

Lemma get_hypermetadata_magic_witness :
  exists sb, get_hypermetadata demo_blank = Ret sb.
Proof.
  assert (exists sb, get_superblock (img_bytes demo_blank SUPER1_OFF sizeof_superblock) = Ret sb /\
            (byteZ <$> s_magic sb) = [0x4A; 0x46; 0x53; 0x31]) as (sb & Hsb & Hm).
  { eexists. split; vm_compute; reflexivity. }
  exists sb. rewrite (get_hypermetadata_magic demo_blank sb); [|by vm_compute; split|done].
  by rewrite decide_True by done.
Defined.
