(* ===== verification/Xtree.v ===== *)
(** * Extent B+-trees

    The binary search over the entries of an xtree page that jfs_fileread.c
    ([xt_Lookup]) and jfs_inode.c ([find_iag]) both contain, the abstract
    extent tree a set of pages represents, and the lemmas about one search step
    that the two descents share. *)

From S2P Require Import Prelude Layout.

(** ** Definitions *)

(** [XT_CMP], and [XT_CMP_4] which names its temporary. *)
Definition XT_CMP (K : Z) (x : xad_t) : Z :=
  if K >=? offsetXAD x + lengthXAD x then 1
  else if K <? offsetXAD x then -1 else 0.

(** How the [for] loop over a page ends: an entry whose range contains the key,
    or [lim = 0] with the final [base] and the last comparison. *)
Inductive search_result :=
| Hit (index : Z)
| Miss (base cmp : Z).

Fixpoint xt_search (fuel : nat) (p : mem) (K base lim cmp : Z) : res search_result :=
  match fuel with
  | O => NoFuel
  | S fuel' =>
      if lim =? 0 then Ret (Miss base cmp)
      else
        let index := base + Z.shiftr lim 1 in
        let* x := xt_xad p index in
        let cmp := XT_CMP K x in
        if cmp =? 0 then Ret (Hit index)
        else if 0 <? cmp
             then xt_search fuel' p K (index + 1) (Z.shiftr (lim - 1) 1) cmp
             else xt_search fuel' p K base (Z.shiftr lim 1) cmp
  end.

(** [nextindex] has 16 bits, so that [lim] is halved at most 16 times. *)
Definition search_fuel : nat := 17.

(** ** The abstract tree *)

Definition covers (K : Z) (x : xad_t) : Prop :=
  offsetXAD x <= K < offsetXAD x + lengthXAD x.

#[export] Instance covers_dec K x : Decision (covers K x).
Proof. unfold covers. apply _. Defined.

(** The extent that holds block [K] of a file whose extents are [es]. *)
Fixpoint ext_find (K : Z) (es : list xad_t) : option xad_t :=
  match es with
  | [] => None
  | x :: es' => if decide (covers K x) then Some x else ext_find K es'
  end.

(** Entries in increasing order, without overlap. *)
Definition xad_sorted (es : list xad_t) : Prop :=
  forall i j x y, (i < j)%nat -> es !! i = Some x -> es !! j = Some y ->
  offsetXAD x + lengthXAD x <= offsetXAD y.

(** Page [p] has flag byte [flag] and entries [es]. *)
Definition xt_page (p : mem) (flag : Z) (es : list xad_t) : Prop :=
  xt_flag p = Ret flag /\
  xt_nextindex p = Ret (XTENTRYSTART + Z.of_nat (length es)) /\
  forall i x, es !! i = Some x -> xt_xad p (XTENTRYSTART + Z.of_nat i) = Ret x.

(** [xtree pages h lo p exts]: page [p] is the root of a tree of height [h]
    whose leaves hold [exts], for keys from [lo] on; [pages] gives the page
    stored at a block address. *)
Fixpoint xtree (pages : Z -> option mem) (h : nat) (lo : Z) (p : mem)
    (exts : list xad_t) : Prop :=
  exists flag es, xt_page p flag es /\ xad_sorted es /\
  match h with
  | O => Z.land flag BT_LEAF <> 0 /\ Z.land flag BT_INTERNAL = 0 /\ exts = es
  | S h' =>
      Z.land flag BT_LEAF = 0 /\ Z.land flag BT_INTERNAL <> 0 /\
      (exists x, es !! 0%nat = Some x /\ offsetXAD x <= lo) /\
      exists css, exts = concat css /\
      Forall2 (fun x cs => cs <> [] /\
        exists cp, pages (addressXAD x) = Some cp /\ xtree pages h' (offsetXAD x) cp cs) es css /\
      (forall i cs y, css !! i = Some cs -> y ∈ cs ->
        (forall x, es !! i = Some x -> offsetXAD x <= offsetXAD y) /\
        (forall x, es !! S i = Some x -> offsetXAD y + lengthXAD y <= offsetXAD x))
  end.

(** ** Lemmas: comparison and lookup *)

Lemma XT_CMP_spec K x :
  (XT_CMP K x = 1 /\ offsetXAD x + lengthXAD x <= K) \/
  (XT_CMP K x = 0 /\ covers K x) \/
  (XT_CMP K x = -1 /\ K < offsetXAD x /\ K < offsetXAD x + lengthXAD x).
Proof. unfold XT_CMP, covers. repeat case_match; lia. Qed.

Lemma ext_find_app K es1 es2 :
  ext_find K (es1 ++ es2) =
  match ext_find K es1 with Some x => Some x | None => ext_find K es2 end.
Proof. induction es1; simpl; [done|]. by case_decide. Qed.

Lemma ext_find_None K es : (forall x, x ∈ es -> ~ covers K x) -> ext_find K es = None.
Proof.
  induction es as [|x es IH]; intros H; simpl; [done|].
  rewrite decide_False by (apply H; left). apply IH. intros. apply H. by right.
Qed.

Lemma ext_find_sorted K es i x :
  xad_sorted es -> es !! i = Some x -> covers K x -> ext_find K es = Some x.
Proof.
  intros Hs Hi Hc. pose proof (take_drop_middle es i x Hi) as Heq.
  rewrite <- Heq, ext_find_app, ext_find_None; simpl.
  - by rewrite decide_True.
  - intros y (j & Hj)%list_elem_of_lookup Hy.
    apply lookup_take_Some in Hj as [Hj ?].
    pose proof (Hs j i y x ltac:(lia) Hj Hi). unfold covers in *. lia.
Qed.

Lemma ext_find_Some K es x : ext_find K es = Some x -> x ∈ es /\ covers K x.
Proof.
  induction es as [|y es IH]; simpl; [done|].
  case_decide; [intros [= ->]; split; [left|done]|].
  intros (? & ?)%IH. split; [by right|done].
Qed.

Lemma xad_page_ok p flag es x : xt_page p flag es -> x ∈ es -> xad_ok x.
Proof.
  intros (_ & _ & Hx) (i & Hi)%list_elem_of_lookup.
  apply Hx in Hi. by eapply get_xad_ok.
Qed.

(** ** Lemmas: the search loop *)

Lemma halve_shiftr n : Z.shiftr n 1 = n / 2.
Proof. by rewrite Z.shiftr_div_pow2 by lia. Qed.

Lemma xt_search_step fuel p K base lim cmp :
  xt_search (S fuel) p K base lim cmp =
  if lim =? 0 then Ret (Miss base cmp)
  else
    let* x := xt_xad p (base + lim / 2) in
    if XT_CMP K x =? 0 then Ret (Hit (base + lim / 2))
    else if 0 <? XT_CMP K x
         then xt_search fuel p K (base + lim / 2 + 1) ((lim - 1) / 2) (XT_CMP K x)
         else xt_search fuel p K base (lim / 2) (XT_CMP K x).
Proof. cbn [xt_search]. by rewrite !halve_shiftr. Qed.

(** The loop ends on every page, sorted or not, for a non-negative count. *)
Lemma xt_search_fuel fuel p K base lim cmp :
  0 <= lim < 2 ^ Z.of_nat fuel -> xt_search (S fuel) p K base lim cmp <> NoFuel.
Proof.
  revert base lim cmp. induction fuel as [|f IH]; intros base lim cmp Hlim.
  { change (2 ^ Z.of_nat 0) with 1 in Hlim. by replace lim with 0 by lia. }
  rewrite Nat2Z.inj_succ, Z.pow_succ_r in Hlim by lia.
  rewrite xt_search_step. destruct (Z.eqb_spec lim 0); [done|].
  destruct (xt_xad p _) eqn:Ex; cbn [res_bind]; try done.
  - destruct (_ =? 0); [done|]. destruct (0 <? _); apply IH; zlia.
  - unfold xt_xad, get_xad, get_u in Ex.
    repeat match type of Ex with context [bytes_at ?a ?b ?c] =>
      destruct (bytes_at a b c); simpl in Ex; try done end.
Qed.

Lemma half_spec n : (2 * (n / 2) <= n < 2 * (n / 2) + 2)%nat.
Proof. pose proof (Nat.div_mod_eq n 2). pose proof (Nat.mod_upper_bound n 2). lia. Qed.

(** The first [n] entries end at or before block [K]; the entries from [n] on
    start after it. *)
Definition ends_before (K : Z) (es : list xad_t) (n : nat) : Prop :=
  forall i x, es !! i = Some x -> (i < n)%nat -> offsetXAD x + lengthXAD x <= K.
Definition starts_after (K : Z) (es : list xad_t) (n : nat) : Prop :=
  forall i x, es !! i = Some x -> (n <= i)%nat -> K < offsetXAD x.

Lemma ends_before_step K es k x :
  xad_sorted es -> es !! k = Some x -> xad_ok x -> offsetXAD x + lengthXAD x <= K ->
  ends_before K es (S k).
Proof.
  intros Hs Hx Hok Hc i y Hi ?. destruct (decide (i = k)) as [->|]; [by simplify_eq|].
  pose proof (Hs i k y x ltac:(lia) Hi Hx). pose proof (lengthXAD_range x Hok). lia.
Qed.

Lemma starts_after_step K es k x :
  xad_sorted es -> es !! k = Some x -> xad_ok x -> K < offsetXAD x -> starts_after K es k.
Proof.
  intros Hs Hx Hok Hc i y Hi ?. destruct (decide (i = k)) as [->|]; [by simplify_eq|].
  pose proof (Hs k i x y ltac:(lia) Hx Hi). pose proof (lengthXAD_range x Hok). lia.
Qed.

(** What the loop returns on a page with sorted entries, started with [m]
    entries left from entry [b] on: the entry that covers the key, or the
    position that separates the entries before the key from those after it. *)
Lemma xt_search_entries fuel p flag es K b m cmp :
  xt_page p flag es -> xad_sorted es ->
  Z.of_nat m < 2 ^ Z.of_nat fuel -> (b + m <= length es)%nat ->
  ends_before K es b -> starts_after K es (b + m) ->
  (exists i x, es !! i = Some x /\ covers K x /\
     xt_search (S fuel) p K (XTENTRYSTART + Z.of_nat b) (Z.of_nat m) cmp =
     Ret (Hit (XTENTRYSTART + Z.of_nat i))) \/
  (exists n c, (n <= length es)%nat /\ ends_before K es n /\ starts_after K es n /\
     (c = cmp /\ m = 0%nat \/ c <> 0) /\
     xt_search (S fuel) p K (XTENTRYSTART + Z.of_nat b) (Z.of_nat m) cmp =
     Ret (Miss (XTENTRYSTART + Z.of_nat n) c)).
Proof.
  intros Hp Hs. pose proof (proj2 (proj2 Hp)) as Hget. revert b m cmp.
  induction fuel as [|f IH]; intros b m cmp Hm Hb Hlow Hhigh;
    rewrite xt_search_step; destruct (decide (m = 0%nat)) as [->|Hm0].
  1, 3: right; exists b, cmp; rewrite Nat.add_0_r in *; by eauto 10.
  { change (2 ^ Z.of_nat 0) with 1 in Hm. lia. }
  rewrite Nat2Z.inj_succ, Z.pow_succ_r in Hm by lia.
  replace (Z.of_nat m =? 0) with false by lia.
  change 2 with (Z.of_nat 2). rewrite <- Nat2Z.inj_div.
  pose proof (half_spec m). pose proof (half_spec (m - 1)). set (k := (b + m / 2)%nat).
  destruct (lookup_lt_is_Some_2 es k) as [x Hx]; [lia|].
  replace (XTENTRYSTART + _ + _) with (XTENTRYSTART + Z.of_nat k) by lia.
  rewrite (Hget _ _ Hx). cbn [res_bind]. pose proof (get_xad_ok _ _ _ (Hget _ _ Hx)).
  destruct (XT_CMP_spec K x) as [[-> Hc]|[[-> Hc]|[-> Hc]]]; cbn [Z.eqb Z.ltb Z.compare].
  - replace (XTENTRYSTART + Z.of_nat k + 1) with (XTENTRYSTART + Z.of_nat (S k)) by lia.
    replace ((Z.of_nat m - 1) / Z.of_nat 2) with (Z.of_nat ((m - 1) / 2))
      by (rewrite Nat2Z.inj_div; f_equal; lia).
    destruct (IH (S k) ((m - 1) / 2)%nat 1) as [?|(n & c & ? & ? & ? & ? & ?)]; [lia|lia| | |by left|].
    + by eapply ends_before_step.
    + intros i y Hi ?. apply (Hhigh i y Hi). lia.
    + right. exists n, c. split_and!; done || lia.
  - left. eauto.
  - destruct (IH b (m / 2)%nat (-1)) as [?|(n & c & ? & ? & ? & ? & ?)];
      [lia|lia|done|apply (starts_after_step K es k x); tauto|by left|].
    right. exists n, c. split_and!; done || lia.
Qed.

(** ** Lemmas: one page of the tree *)

Lemma xt_page_small p flag es : xt_page p flag es -> Z.of_nat (length es) < 2 ^ Z.of_nat 16.
Proof.
  intros (_ & Hn & _). unfold xt_nextindex in Hn. apply get_s_inv in Hn; [|lia].
  unfold XTENTRYSTART in Hn. change (2 ^ (8 * 2 - 1)) with 32768 in Hn.
  change (2 ^ Z.of_nat 16) with 65536. lia.
Qed.

(** A search over a whole page, as both callers start it. *)
Lemma xt_search_page p flag es K cmp :
  xt_page p flag es -> xad_sorted es ->
  let r := xt_search search_fuel p K XTENTRYSTART (Z.of_nat (length es)) cmp in
  (exists i x, es !! i = Some x /\ covers K x /\ r = Ret (Hit (XTENTRYSTART + Z.of_nat i))) \/
  (exists n c, (n <= length es)%nat /\ ends_before K es n /\ starts_after K es n /\
     (c = cmp /\ es = [] \/ c <> 0) /\ r = Ret (Miss (XTENTRYSTART + Z.of_nat n) c)).
Proof.
  intros Hp Hs r. subst r. pose proof (xt_page_small _ _ _ Hp).
  destruct (xt_search_entries 16 p flag es K 0 (length es) cmp)
    as [?|(n & c & ? & ? & ? & [[? ?%length_zero_iff_nil]|?] & ?)];
    [done|done|lia|lia|intros i x ? ?; lia| |by left|right..].
  - intros i x Hi%lookup_lt_Some ?. lia.
  - exists n, c. split_and!; eauto.
  - exists n, c. split_and!; eauto.
Qed.

Lemma ext_find_separated K es n :
  ends_before K es n -> starts_after K es n -> ext_find K es = None.
Proof.
  intros Hl Hh. apply ext_find_None. intros x (i & Hi)%list_elem_of_lookup [? ?].
  destruct (decide (i < n)%nat); [pose proof (Hl i x Hi)|pose proof (Hh i x Hi)]; lia.
Qed.

(** The outcome of a search on a leaf. *)
Lemma xtree_leaf_search pages lo p exts K cmp :
  xtree pages 0 lo p exts ->
  exists flag n, 0 <= n /\ xt_flag p = Ret flag /\ Z.land flag BT_LEAF <> 0 /\
    Z.land flag BT_INTERNAL = 0 /\ xt_nextindex p = Ret (XTENTRYSTART + n) /\
    let r := xt_search search_fuel p K XTENTRYSTART n cmp in
    (exists i x, r = Ret (Hit i) /\ xt_xad p i = Ret x /\ xad_ok x /\ covers K x /\
       ext_find K exts = Some x) \/
    (exists b c, r = Ret (Miss b c) /\ ext_find K exts = None /\
       (c = cmp /\ exts = [] \/ c <> 0)).
Proof.
  intros (flag & es & Hp & Hs & Hleaf & Hint & ->).
  pose proof Hp as (Hflag & Hnext & Hget).
  exists flag, (Z.of_nat (length es)). split; [lia|]. do 4 (split; [done|]).
  destruct (xt_search_page p flag es K cmp Hp Hs)
    as [(i & x & Hi & Hc & ->)|(n & c & Hn & Hl & Hh & Hcmp & ->)].
  - left. exists (XTENTRYSTART + Z.of_nat i), x. split_and!; try done; eauto using ext_find_sorted.
    eapply xad_page_ok, list_elem_of_lookup_2; eauto.
  - right. exists (XTENTRYSTART + Z.of_nat n), c.
    split_and!; [done|eapply ext_find_separated; eauto|done].
Qed.

(** In a list of children that follow the keys of their parents' entries, only
    the child at the last key not after [K] can cover [K]. *)
Lemma ext_find_child K es css i cs x :
  (forall j cs y, css !! j = Some cs -> y ∈ cs ->
     (forall z, es !! j = Some z -> offsetXAD z <= offsetXAD y) /\
     (forall z, es !! S j = Some z -> offsetXAD y + lengthXAD y <= offsetXAD z)) ->
  length es = length css -> xad_sorted es -> (forall y, y ∈ es -> xad_ok y) ->
  es !! i = Some x -> css !! i = Some cs -> offsetXAD x <= K -> starts_after K es (S i) ->
  ext_find K (concat css) = ext_find K cs.
Proof.
  intros Hr Hlen Hs Hok Hx Hcs HxK Hafter.
  rewrite <- (take_drop_middle css i cs Hcs), concat_app, concat_cons, !ext_find_app.
  assert (forall j l y, css !! j = Some l -> y ∈ l -> covers K y -> j = i) as Huniq.
  { intros j l y Hl Hy [? ?]. destruct (Hr j l y Hl Hy) as [Hlo Hhi].
    destruct (lookup_lt_is_Some_2 es j) as [z Hz];
      [rewrite Hlen; by eapply lookup_lt_Some|].
    pose proof (Hlo z Hz). destruct (lt_eq_lt_dec j i) as [[?|?]|?]; [|done|].
    - destruct (lookup_lt_is_Some_2 es (S j)) as [z' Hz'];
        [apply lookup_lt_Some in Hx; lia|].
      pose proof (Hhi z' Hz'). destruct (decide (S j = i)) as [<-|]; [simplify_eq; lia|].
      pose proof (Hs (S j) i z' x ltac:(lia) Hz' Hx).
      pose proof (lengthXAD_range z' (Hok z' (list_elem_of_lookup_2 _ _ _ Hz'))). lia.
    - pose proof (Hafter j z Hz ltac:(lia)). lia. }
  rewrite (ext_find_None K (concat (take i css))), (ext_find_None K (concat (drop (S i) css))).
  - by destruct (ext_find K cs).
  - intros y (l & Hl & Hy)%list_elem_of_In%in_concat Hc.
    apply list_elem_of_In, list_elem_of_lookup in Hl as (j & Hl).
    rewrite lookup_drop in Hl. apply list_elem_of_In in Hy.
    pose proof (Huniq _ _ _ Hl Hy Hc). lia.
  - intros y (l & Hl & Hy)%list_elem_of_In%in_concat Hc.
    apply list_elem_of_In, list_elem_of_lookup in Hl as (j & Hl).
    apply lookup_take_Some in Hl as [Hl ?]. apply list_elem_of_In in Hy.
    pose proof (Huniq _ _ _ Hl Hy Hc). lia.
Qed.

(** The outcome of a search on an internal page: an entry whose child answers
    for the whole tree. *)
Lemma xtree_node_search pages h lo p exts K cmp :
  xtree pages (S h) lo p exts -> lo <= K ->
  exists flag n, 0 <= n /\ xt_flag p = Ret flag /\ Z.land flag BT_LEAF = 0 /\
    Z.land flag BT_INTERNAL <> 0 /\ xt_nextindex p = Ret (XTENTRYSTART + n) /\
    exists r x cp cs, xt_search search_fuel p K XTENTRYSTART n cmp = Ret r /\
      (match r with Hit i => xt_xad p i = Ret x | Miss b _ => b <> 0 /\ xt_xad p (b - 1) = Ret x end) /\
      xad_ok x /\ offsetXAD x <= K /\ pages (addressXAD x) = Some cp /\
      xtree pages h (offsetXAD x) cp cs /\ cs <> [] /\ ext_find K exts = ext_find K cs.
Proof.
  intros (flag & es & Hp & Hs & Hleaf & Hint & (x0 & Hx0 & Hlo) & css & -> & Hall & Hr) HK.
  pose proof Hp as (Hflag & Hnext & Hget).
  pose proof (fun y => xad_page_ok p flag es y Hp) as Hok.
  exists flag, (Z.of_nat (length es)). split; [lia|]. do 4 (split; [done|]).
  assert (exists i x r, es !! i = Some x /\ offsetXAD x <= K /\ starts_after K es (S i) /\
    xt_search search_fuel p K XTENTRYSTART (Z.of_nat (length es)) cmp = Ret r /\
    match r with Hit j => j = XTENTRYSTART + Z.of_nat i
               | Miss b _ => b = XTENTRYSTART + Z.of_nat i + 1 end) as (i & x & r & Hx & HxK & Hafter & -> & Hri).
  { destruct (xt_search_page p flag es K cmp Hp Hs)
      as [(i & x & Hi & [? ?] & ->)|([|n] & c & Hn & Hl & Hh & _ & ->)].
    - exists i, x, (Hit (XTENTRYSTART + Z.of_nat i)). split_and!; try done.
      intros j y Hj ?. pose proof (Hs i j x y ltac:(lia) Hi Hj). lia.
    - pose proof (Hh 0%nat x0 Hx0). lia.
    - destruct (lookup_lt_is_Some_2 es n) as [x Hx]; [lia|].
      exists n, x, (Miss (XTENTRYSTART + Z.of_nat (S n)) c). split_and!; try done; [|lia].
      pose proof (Hl n x Hx). pose proof (lengthXAD_range x (Hok x (list_elem_of_lookup_2 _ _ _ Hx))). lia. }
  destruct (Forall2_lookup_l _ _ _ _ _ Hall Hx) as (cs & Hcs & Hne & cp & Hcp & Htree).
  exists r, x, cp, cs. split_and!; try done.
  - destruct r; subst; [by apply Hget|]. split; [unfold XTENTRYSTART; lia|].
    rewrite Z.add_simpl_r. by apply Hget.
  - eapply Hok, list_elem_of_lookup_2; eauto.
  - eapply ext_find_child; eauto. by eapply Forall2_length.
Qed.

(** A search whose count is negative never runs out of entries. *)
Lemma xt_search_negative fuel p K base lim cmp b c :
  lim < 0 -> xt_search fuel p K base lim cmp <> Ret (Miss b c).
Proof.
  revert base lim cmp. induction fuel as [|f IH]; intros base lim cmp Hlim; [done|].
  rewrite xt_search_step. destruct (Z.eqb_spec lim 0); [lia|].
  destruct (xt_xad _ _); cbn [res_bind]; try done.
  destruct (_ =? 0); [done|]. destruct (0 <? _); apply IH; zlia.
Qed.

(** More rounds do not change an outcome. *)
Lemma xt_search_more fuel fuel' p K base lim cmp :
  xt_search fuel p K base lim cmp <> NoFuel -> (fuel <= fuel')%nat ->
  xt_search fuel' p K base lim cmp = xt_search fuel p K base lim cmp.
Proof.
  revert fuel' base lim cmp. induction fuel as [|f IH]; intros [|f'] base lim cmp Hr Hle; [done|done|lia|].
  rewrite !xt_search_step in *. destruct (lim =? 0); [done|].
  destruct (xt_xad _ _); cbn [res_bind] in *; try done.
  destruct (_ =? 0); [done|]. destruct (0 <? _); (apply IH; [done|lia]).
Qed.

(** A count of -1 or -2 stays what it is or becomes -1, and the entry before [base] is
    compared again and again. *)
Lemma xt_search_stuck fuel p K base lim cmp x :
  -2 <= lim < 0 -> xt_xad p (base - 1) = Ret x -> ~ covers K x -> xt_search fuel p K base lim cmp = NoFuel.
Proof.
  intros Hlim Hx Hc. revert lim cmp Hlim. induction fuel as [|f IH]; intros lim cmp Hlim; [done|].
  rewrite xt_search_step. replace (lim =? 0) with false by lia.
  replace (base + lim / 2) with (base - 1) by zlia. rewrite Hx. cbn [res_bind].
  destruct (XT_CMP_spec K x) as [[-> ?]|[[_ ?]|[-> ?]]]; [|done|]; cbn [Z.eqb Z.ltb Z.compare];
    [replace (base - 1 + 1) with base by lia|]; apply IH; zlia.
Qed.

(** A negative count is down to -2 after as many rounds as it has bits; what has not
    ended then does not end. *)
Lemma xt_search_forever f fuel p K base lim cmp :
  - (2 ^ Z.of_nat f + 1) <= lim < 0 -> xt_search (S f) p K base lim cmp = NoFuel ->
  xt_search fuel p K base lim cmp = NoFuel.
Proof.
  revert fuel base lim cmp. induction f as [|f IH]; intros fuel base lim cmp Hlim Hr; destruct fuel as [|fuel]; try done;
    rewrite xt_search_step in Hr.
  - change (2 ^ Z.of_nat 0) with 1 in Hlim. replace (lim =? 0) with false in Hr by lia.
    replace (base + lim / 2) with (base - 1) in Hr by zlia.
    destruct (xt_xad p (base - 1)) as [x| | |] eqn:Hx; cbn [res_bind] in Hr; try done.
    + apply (xt_search_stuck _ _ _ _ _ _ x); [lia|done|].
      destruct (XT_CMP_spec K x) as [[_ ?]|[[E _]|[_ ?]]]; unfold covers; [lia| |lia].
      by rewrite E in Hr.
    + rewrite xt_search_step. replace (lim =? 0) with false by lia.
      replace (base + lim / 2) with (base - 1) by zlia. by rewrite Hx.
  - rewrite Nat2Z.inj_succ, Z.pow_succ_r in Hlim by lia. rewrite xt_search_step.
    replace (lim =? 0) with false in * by lia.
    destruct (xt_xad _ _); cbn [res_bind] in *; try done.
    destruct (_ =? 0); [done|]. destruct (0 <? _); (apply IH; [zlia|done]).
Qed.

(** ** Properties *)

(** C40: the page search, for every entry count a page header can hold.  Seventeen
    rounds decide it: more of them change nothing.  With the two reserved entries
    counted ([XTENTRYSTART <= n]) it ends within them, whatever the page contains.  With
    a smaller count it never runs out of entries, and for the counts 0 and 1 its fate is
    entry 1, which overlays the header: it is the hit if it covers the key, and
    otherwise the loop runs for ever. *)
Theorem xt_search_terminates (p : mem) (K cmp n : Z) :
  xt_nextindex p = Ret n ->
  let run fuel := xt_search fuel p K XTENTRYSTART (n - XTENTRYSTART) cmp in
  (forall fuel, (search_fuel <= fuel)%nat -> run fuel = run search_fuel) /\
  (XTENTRYSTART <= n -> run search_fuel <> NoFuel) /\
  (n < XTENTRYSTART -> forall fuel b c, run fuel <> Ret (Miss b c)) /\
  (0 <= n < XTENTRYSTART -> forall x fuel, xt_xad p 1 = Ret x ->
     run (S fuel) = if decide (covers K x) then Ret (Hit 1) else NoFuel).
Proof.
  intros Hn run. unfold xt_nextindex in Hn. apply get_s_inv in Hn; [|lia].
  change (2 ^ (8 * 2 - 1)) with 32768 in Hn. subst run. cbv beta. unfold XTENTRYSTART in *.
  assert (2 <= n -> xt_search search_fuel p K 2 (n - 2) cmp <> NoFuel) as Hend.
  { intros. apply (xt_search_fuel 16). change (2 ^ Z.of_nat 16) with 65536. lia. }
  split_and!; [|done|intros; apply xt_search_negative; lia|].
  - intros fuel Hf. destruct (xt_search search_fuel p K 2 (n - 2) cmp) eqn:E;
      try (rewrite <- E; apply xt_search_more; [by rewrite E|done]).
    destruct (decide (2 <= n)) as [?|?]; [by destruct Hend|].
    apply (xt_search_forever 16); [change (2 ^ Z.of_nat 16) with 65536; lia|done].
  - intros Hn2 x fuel Hx. case_decide as Hc; [|apply (xt_search_stuck _ _ _ _ _ _ x); [lia|exact Hx|done]].
    rewrite xt_search_step. replace (n - 2 =? 0) with false by lia.
    replace (2 + (n - 2) / 2) with 1 by zlia. rewrite Hx. cbn [res_bind].
    destruct (XT_CMP_spec K x) as [[_ ?]|[[-> _]|[_ ?]]]; unfold covers in Hc; [lia|done|lia].
Qed.

(** ** Witnesses *)

(** A page of zeros, but for the number of entries its header counts. *)
Definition blank_page (n : byte) : mem := <[18%nat := n]> (replicate 64 Byte.x00).

(** One entry is searched; a count of 0 is searched for ever. *)
Lemma xt_search_terminates_witness :
  xt_search search_fuel (blank_page Byte.x03) 5 XTENTRYSTART (3 - XTENTRYSTART) 1 <> NoFuel /\
  xt_search 1000 (blank_page Byte.x00) 5 XTENTRYSTART (0 - XTENTRYSTART) 1 = NoFuel.
Proof.
  split.
  - apply (xt_search_terminates (blank_page Byte.x03) 5 1 3); [reflexivity|unfold XTENTRYSTART; lia].
  - destruct (xt_search_terminates (blank_page Byte.x00) 5 1 0 eq_refl) as (_ & _ & _ & H).
    rewrite (H ltac:(unfold XTENTRYSTART; lia) (Xad 0 0 0 0 0 0 0) 999%nat) by (vm_compute; reflexivity).
    rewrite decide_False by (vm_compute; intros [H1 H2]; by apply H1). reflexivity.
Defined.
