(* ===== verification/BufCache.v ===== *)
(** * The page buffers of the file reader

    [bRead], [bAllocate] and [bRelease] of jfs_fileread.c: a free list of page
    buffers linked through [b_next], refilled eight at a time. *)

From stdpp Require Import gmap.
From S2P Require Import Prelude Layout Disk.

(** ** Definitions *)

(** [buf_t].  A buffer is named by its position in allocation order; [b_data]
    is the initialised prefix of its PAGESIZE bytes. *)
Record buf_t := Buf { b_next : option nat; b_data : mem }.

(** The globals [bCachelist] and [nBuffer] and the buffers allocated so far. *)
Record bcache := BCache {
  bCachelist : option nat;
  bufs : gmap nat buf_t;
  fresh_buf : nat;
  nBuffer : Z }.

Definition bcache_init : bcache := BCache None ∅ 0 0.

Definition NBUFFER : nat := 8.
Definition sizeof_buf : Z := 8.

Definition bRelease (st : bcache) (bp : nat) : bcache :=
  BCache (Some bp)
    (alter (fun b => Buf (bCachelist st) (b_data b)) bp (bufs st))
    (fresh_buf st) (nBuffer st).

(** The initialisation loop: each new buffer is pushed on the free list. *)
Fixpoint bAllocate_loop (n : nat) (st : bcache) : bcache :=
  match n with
  | O => st
  | S n' =>
      bAllocate_loop n'
        (BCache (Some (fresh_buf st))
           (<[fresh_buf st := Buf (bCachelist st) []]> (bufs st))
           (S (fresh_buf st)) (nBuffer st))
  end.

Definition bAllocate (e : env) (st : bcache) : res bcache :=
  if negb (malloc_ok e (Z.of_nat NBUFFER * sizeof_buf)) then Fault (ExitCalled 0)
  else if negb (malloc_ok e (Z.of_nat NBUFFER * PAGESIZE)) then Fault (ExitCalled 0)
  else
    let st := bAllocate_loop NBUFFER st in
    Ret (BCache (bCachelist st) (bufs st) (fresh_buf st) (nBuffer st + Z.of_nat NBUFFER)).

(** Returns the new state, [rc], and the buffer stored through [bpp], if any. *)
Definition bRead (e : env) (st : bcache) (xaddr xlen : Z) : res (bcache * Z * option nat) :=
  let* st := match bCachelist st with None => bAllocate e st | Some _ => Ret st end in
  let* bp := of_option NullDeref (bCachelist st) in
  let* b := of_option NullDeref (bufs st !! bp) in
  let st := BCache (b_next b) (bufs st) (fresh_buf st) (nBuffer st) in
  let* off := shl_s64 xaddr (s_l2bsize (jfs_sb e)) in
  let* len := shl_s32 xlen (s_l2bsize (jfs_sb e)) in
  match ujfs_read_diskblocks (disk_image e) off len PAGESIZE with
  | Ret bytes =>
      let data := bytes ++ drop (length bytes) (b_data b) in
      Ret (BCache (bCachelist st) (<[bp := Buf (b_next b) data]> (bufs st))
             (fresh_buf st) (nBuffer st), 0, Some bp)
  | Err _ => Ret (bRelease st bp, 1, None)
  | Fault f => Fault f
  | NoFuel => NoFuel
  end.

(** ** The pool invariant *)

(** The free list starting at [head] visits the buffers [l] in order. *)
Fixpoint free_chain (m : gmap nat buf_t) (head : option nat) (l : list nat) : Prop :=
  match l with
  | [] => head = None
  | i :: l' => head = Some i /\ exists b, m !! i = Some b /\ free_chain m (b_next b) l'
  end.

(** Every allocated buffer is either held by the caller or on the free list,
    exactly once, and [nBuffer] counts them; no buffer holds more than a page. *)
Definition linked (st : bcache) (held free : list nat) : Prop :=
  free_chain (bufs st) (bCachelist st) free /\
  NoDup (held ++ free) /\
  (forall i, is_Some (bufs st !! i) <-> i ∈ held ++ free) /\
  (forall i, is_Some (bufs st !! i) -> (i < fresh_buf st)%nat) /\
  (forall i b, bufs st !! i = Some b -> Z.of_nat (length (b_data b)) <= PAGESIZE).

Definition pool (st : bcache) (held free : list nat) : Prop :=
  linked st held free /\ nBuffer st = Z.of_nat (length (held ++ free)).

(** ** Lemmas *)

Lemma free_chain_frame m m' head l :
  free_chain m head l -> (forall i, i ∈ l -> b_next <$> m' !! i = b_next <$> m !! i) ->
  free_chain m' head l.
Proof.
  revert head. induction l as [|i l IH]; intros head; simpl; [done|].
  intros (-> & b & Hb & Hl) Heq. split; [done|].
  pose proof (Heq i ltac:(left)) as Hi. rewrite Hb in Hi.
  destruct (m' !! i) as [b'|]; [|done]. injection Hi as Hi.
  exists b'. split; [done|]. rewrite Hi. apply IH; [done|]. intros. apply Heq. by right.
Qed.

Lemma linked_release st b held free :
  linked st (b :: held) free -> linked (bRelease st b) held (b :: free).
Proof.
  intros (Hch & Hnd & Hdom & Hfr & Hcap). unfold linked; simpl.
  assert (b ∉ held ++ free) as Hb by (simpl in Hnd; by apply NoDup_cons in Hnd as [? _]).
  assert (forall i, is_Some (alter (fun b0 => Buf (bCachelist st) (b_data b0)) b (bufs st) !! i)
                    <-> is_Some (bufs st !! i)) as Halt.
  { intros i. rewrite lookup_alter. case_decide; [subst|done]. by rewrite fmap_is_Some. }
  assert (is_Some (bufs st !! b)) as [bb Hbb] by (apply Hdom; left).
  split; [|split_and!].
  - split; [done|]. exists (Buf (bCachelist st) (b_data bb)).
    rewrite lookup_alter_eq, Hbb. split; [done|]. simpl.
    eapply free_chain_frame; [done|]. intros i Hi. rewrite lookup_alter_ne; [done|].
    intros ->. apply Hb. apply elem_of_app. by right.
  - rewrite <- Permutation_middle. done.
  - intros i. rewrite Halt, Hdom. by rewrite <- Permutation_middle.
  - intros i. rewrite Halt. auto.
  - intros i b0. rewrite lookup_alter. case_decide; [subst|apply Hcap].
    rewrite Hbb. intros [= <-]. simpl. by eapply Hcap.
Qed.

Lemma pool_release st b held free :
  pool st (b :: held) free -> pool (bRelease st b) held (b :: free).
Proof.
  intros [Hl Hn]. split; [by apply linked_release|].
  simpl. rewrite Hn, !length_app. simpl. lia.
Qed.

Lemma linked_push st held free :
  linked st held free ->
  linked (BCache (Some (fresh_buf st)) (<[fresh_buf st := Buf (bCachelist st) []]> (bufs st))
          (S (fresh_buf st)) (nBuffer st)) held (fresh_buf st :: free).
Proof.
  intros (Hch & Hnd & Hdom & Hfr & Hcap). unfold linked; simpl.
  assert (fresh_buf st ∉ held ++ free) as Hb.
  { intros Hi%Hdom%Hfr. lia. }
  split; [|split_and!].
  - split; [done|]. eexists. rewrite lookup_insert_eq. split; [done|]. simpl.
    eapply free_chain_frame; [done|]. intros i Hi. rewrite lookup_insert_ne; [done|].
    intros <-. apply Hb, elem_of_app. by right.
  - rewrite <- Permutation_middle. by apply NoDup_cons.
  - intros i. rewrite <- Permutation_middle, elem_of_cons, <- Hdom, lookup_insert.
    case_decide; subst; split; [by left|by eauto|by right|by intros [->|]].
  - intros i. rewrite lookup_insert. case_decide; [lia|]. intros Hi%Hfr. lia.
  - intros i b0. rewrite lookup_insert. case_decide; [intros [= <-]; simpl; unfold PAGESIZE; lia|apply Hcap].
Qed.

Lemma linked_allocate_loop n st held free :
  linked st held free ->
  exists more, length more = n /\ linked (bAllocate_loop n st) held (more ++ free) /\
    nBuffer (bAllocate_loop n st) = nBuffer st.
Proof.
  revert st free. induction n as [|n IH]; intros st free Hp; [by exists []|].
  simpl bAllocate_loop. apply linked_push, IH in Hp as (more & Hlen & Hm & Hn).
  exists (more ++ [fresh_buf st]). rewrite <- app_assoc.
  split_and!; [rewrite length_app; simpl; lia|done|done].
Qed.

Lemma pool_allocate e st st' held free :
  bAllocate e st = Ret st' -> pool st held free ->
  exists more, length more = NBUFFER /\ pool st' held (more ++ free).
Proof.
  unfold bAllocate. intros H [Hl Hn]. do 2 (case_match; [done|]). injection H as <-.
  destruct (linked_allocate_loop NBUFFER st held free Hl) as (more & Hlen & Hm & Hn').
  exists more. split; [done|]. split; [done|].
  change (nBuffer (bAllocate_loop NBUFFER st) + Z.of_nat NBUFFER =
          Z.of_nat (length (held ++ more ++ free))).
  rewrite Hn', Hn, !length_app, Hlen. lia.
Qed.

Lemma pool_take st b bb data held free :
  pool st held (b :: free) -> bufs st !! b = Some bb -> Z.of_nat (length data) <= PAGESIZE ->
  pool (BCache (b_next bb) (<[b := Buf (b_next bb) data]> (bufs st)) (fresh_buf st) (nBuffer st))
    (b :: held) free.
Proof.
  intros [((_ & bb' & Hbb' & Hch) & Hnd & Hdom & Hfr & Hcap) Hn] Hbb Hdata.
  rewrite Hbb in Hbb'. injection Hbb' as <-.
  assert (forall i, is_Some (<[b := Buf (b_next bb) data]> (bufs st) !! i)
                    <-> is_Some (bufs st !! i)) as Hins.
  { intros i. rewrite lookup_insert. case_decide; [subst|done]. rewrite Hbb. split; eauto. }
  rewrite <- Permutation_middle in Hnd. split; [split_and!|]; simpl.
  - eapply free_chain_frame; [done|]. intros i Hi. rewrite lookup_insert_ne; [done|].
    intros <-. apply NoDup_cons in Hnd as [Hb _]. apply Hb, elem_of_app. by right.
  - done.
  - intros i. rewrite Hins, Hdom. by rewrite <- Permutation_middle.
  - intros i. rewrite Hins. auto.
  - intros i b0. rewrite lookup_insert. case_decide; [intros [= <-]; done|apply Hcap].
  - rewrite Hn, !length_app. simpl. lia.
Qed.

(** The part of [bRead] before the disk access. *)
Lemma bRead_buffer e st st1 held free :
  match bCachelist st with None => bAllocate e st | Some _ => Ret st end = Ret st1 ->
  pool st held free ->
  exists b free1, pool st1 held (b :: free1) /\
    length free1 = (match free with [] => NBUFFER - 1 | _ => length free - 1 end)%nat.
Proof.
  intros Hst1 Hp. destruct free as [|b free]; simpl in *.
  - pose proof Hp as [[Hch _] _]. simpl in Hch. rewrite Hch in Hst1.
    destruct (pool_allocate e st st1 held [] Hst1 Hp) as ([|b more] & Hlen & Hp1); [done|].
    exists b, more. rewrite app_nil_r in Hp1. split; [done|]. unfold NBUFFER in *. simpl in Hlen. lia.
  - pose proof Hp as [[[Hch _] _] _]. rewrite Hch in Hst1. injection Hst1 as <-.
    exists b, free. split; [done|lia].
Qed.

(** [bRead] moves one buffer from the free list to the caller, allocating only
    when the free list is empty; its failure branch is never taken. *)
Lemma bRead_pool e st xaddr xlen held free st' rc bpp :
  bRead e st xaddr xlen = Ret (st', rc, bpp) -> pool st held free ->
  exists b free', rc = 0 /\ bpp = Some b /\ pool st' (b :: held) free' /\
    length free' = (match free with [] => NBUFFER - 1 | _ => length free - 1 end)%nat.
Proof.
  unfold bRead. intros H Hp. apply res_bind_inv in H as (st1 & Hst1 & H).
  destruct (bRead_buffer _ _ _ _ _ Hst1 Hp) as (b & free1 & Hp1 & Hlen).
  pose proof Hp1 as [[(Hhd & bb & Hbb & _) (_ & _ & _ & Hcap)] _].
  rewrite Hhd in H. cbn [of_option res_bind] in H.
  rewrite Hbb in H. cbn [of_option res_bind] in H.
  apply res_bind_inv in H as (off & _ & H). apply res_bind_inv in H as (len & _ & H).
  destruct (ujfs_read_diskblocks _ _ _ _) as [bytes|err| |] eqn:Er; try done.
  - injection H as <- <- <-. exists b, free1. split_and!; try done.
    apply pool_take; [done|done|].
    apply ujfs_read_length in Er. pose proof (Hcap _ _ Hbb).
    rewrite length_app, length_drop. lia.
  - by apply ujfs_read_never_errs in Er.
Qed.

(** The blocks of a page, shifted back to bytes. *)
Lemma page_len_bytes e :
  WfEnv e -> shl_s32 (PAGESIZE / 2 ^ s_l2bsize (jfs_sb e)) (s_l2bsize (jfs_sb e)) = Ret PAGESIZE.
Proof.
  intros Hwf. pose proof wf_l2bsize. unfold PAGESIZE.
  assert (4096 / 2 ^ s_l2bsize (jfs_sb e) * 2 ^ s_l2bsize (jfs_sb e) = 4096) as Hpg.
  { change 4096 with (2 ^ 12) at 1. rewrite <- Z.pow_sub_r by lia.
    rewrite <- Z.pow_add_r by lia. by replace (12 - _ + _) with 12 by lia. }
  rewrite shl_s32_ok; [by rewrite Hpg|lia|apply Z.div_pos; lia|lia].
Qed.

(** On a well-formed volume [bRead] of one page delivers that page. *)
Lemma bRead_page e st a p held free :
  WfEnv e -> page_at e a = Some p -> pool st held free ->
  exists st' b bb, bRead e st a (PAGESIZE / 2 ^ s_l2bsize (jfs_sb e)) = Ret (st', 0, Some b) /\
    bufs st' !! b = Some bb /\ b_data bb = p.
Proof.
  intros Hwf Hp Hpool. unfold bRead.
  assert (exists st1, match bCachelist st with None => bAllocate e st | Some _ => Ret st end
                      = Ret st1) as [st1 Hst1].
  { destruct (bCachelist st); [by eauto|]. unfold bAllocate. rewrite !wf_malloc. eexists. done. }
  rewrite Hst1. cbn [res_bind].
  destruct (bRead_buffer _ _ _ _ _ Hst1 Hpool) as (b & free1 & Hp1 & _).
  pose proof Hp1 as [[(Hhd & bb & Hbb & _) (_ & _ & _ & Hcap)] _].
  rewrite Hhd. cbn [of_option res_bind]. rewrite Hbb. cbn [of_option res_bind].
  apply page_at_inv in Hp as (Ha & Hr & ->).
  pose proof wf_l2bsize. pose proof wf_size. unfold PSIZE, PAGESIZE in *.
  rewrite shl_s64_ok by lia. cbn [res_bind].
  rewrite page_len_bytes by done. cbn [res_bind]. unfold PAGESIZE.
  rewrite ujfs_read_ok by lia. eexists _, b, _. split; [done|]. cbn [bufs].
  rewrite lookup_insert_eq. split; [done|]. cbn [b_data].
  pose proof (Hcap _ _ Hbb).
  rewrite drop_ge, app_nil_r; [done|].
  pose proof (length_img_bytes (disk_image e) (a * 2 ^ s_l2bsize (jfs_sb e)) 4096). lia.
Qed.
