(* ===== verification/Sample.v ===== *)
(** * A small volume

    A JFS volume of 64 blocks of 4 KiB, given by the bytes that are not zero:
    the inode map, a root directory, an empty directory, a directory of two
    chained leaf pages, one with a name of a hundred characters, and three files,
    one of them with a two-level extent tree.  The witnesses of the other files evaluate the model on it. *)

From stdpp Require Import strings.
From S2P Require Import Prelude Layout Disk Xtree.

(** ** Construction *)

(** Byte strings placed at given addresses of a zeroed device. *)
Fixpoint patch_at (tbl : list (Z * Z * mem)) (a : Z) : byte :=
  match tbl with
  | [] => Byte.x00
  | (o, limit, m) :: tbl' =>
      if (o <=? a) && (a <? limit)
      then default Byte.x00 (m !! Z.to_nat (a - o)) else patch_at tbl' a
  end.

Definition patched (ps : list (Z * mem)) : Z -> byte :=
  let tbl := (fun p => (p.1, p.1 + Z.of_nat (length p.2), p.2)) <$> ps in patch_at tbl.

Definition xad_of (off len addr : Z) : xad_t := Xad 0 0 0 off len 0 addr.

(** An xtree page: header of 32 bytes, then the entries. *)
Definition xtpage_bytes (flag : Z) (es : list xad_t) : mem :=
  le_bytes 16 0 ++ le_bytes 1 flag ++ le_bytes 1 0 ++
  le_bytes 2 (XTENTRYSTART + Z.of_nat (length es)) ++ le_bytes 12 0 ++ concat (xad_bytes <$> es).

(** A leaf directory entry that fits its head slot. *)
Definition entry_bytes (inumber : Z) (name : list Z) : mem :=
  le_bytes 4 inumber ++ le_bytes 1 (-1) ++ le_bytes 1 (Z.of_nat (length name)) ++
  concat (le_bytes 2 <$> name) ++ le_bytes (22 - 2 * length name) 0 ++ le_bytes 4 0.

(** A leaf entry continued in slots [next], [next + 1], ...; 15 units in each. *)
Fixpoint cont_slots (n : nat) (idx : Z) (name : list Z) : list mem :=
  match n with
  | O => []
  | S n' =>
      (le_bytes 1 (match n' with O => -1 | _ => idx + 1 end) ++
       le_bytes 1 (Z.of_nat (length (take 15 name))) ++
       concat (le_bytes 2 <$> take 15 name) ++ le_bytes (30 - 2 * length (take 15 name)) 0)
      :: cont_slots n' (idx + 1) (drop 15 name)
  end.

Definition long_entry_bytes (inumber next : Z) (name : list Z) : list mem :=
  (le_bytes 4 inumber ++ le_bytes 1 next ++ le_bytes 1 (Z.of_nat (length name)) ++
   concat (le_bytes 2 <$> take 11 name) ++ le_bytes 4 0)
  :: cont_slots ((length name - 11 + 14) / 15) next (drop 11 name).

(** An internal directory root with one child, and a leaf page whose sorted
    entry table is slot 1 and whose entries start at slot 2. *)
Definition dtroot_node_bytes (child : pxd_t) : mem :=
  le_bytes 16 0 ++ le_bytes 1 5 ++ le_bytes 1 1 ++ le_bytes 2 0 ++ le_bytes 4 2 ++
  le_bytes 1 1 ++ le_bytes 7 0 ++ pxd_bytes child ++ le_bytes 24 0.

Definition dtleaf_bytes (next : Z) (stbl : list Z) (slots : list mem) : mem :=
  le_bytes 8 next ++ le_bytes 8 0 ++ le_bytes 1 2 ++ le_bytes 1 (Z.of_nat (length stbl)) ++
  le_bytes 3 0 ++ le_bytes 1 1 ++ le_bytes 10 0 ++
  concat (le_bytes 1 <$> stbl) ++ le_bytes (32 - length stbl) 0 ++ concat slots.

(** A directory root that is a leaf: sorted entry table and slots 1, 2, ... *)
Definition dtroot_bytes (stbl : list Z) (slots : list mem) : mem :=
  le_bytes 16 0 ++ le_bytes 1 3 ++ le_bytes 1 (Z.of_nat (length stbl)) ++ le_bytes 2 0 ++
  le_bytes 4 2 ++ concat (le_bytes 1 <$> stbl) ++ le_bytes (8 - length stbl) 0 ++ concat slots.

Definition ascii_units (s : string) : list Z :=
  (fun a => Z.of_nat (Ascii.nat_of_ascii a)) <$> String.list_ascii_of_string s.

Definition inode_bytes (number mode size nlink : Z) (root : mem) : mem :=
  le_bytes 4 0 ++ le_bytes 4 16 ++ le_bytes 4 number ++ le_bytes 4 1 ++ le_bytes 8 0 ++
  le_bytes 8 size ++ le_bytes 8 0 ++ le_bytes 4 nlink ++ le_bytes 4 1000 ++ le_bytes 4 100 ++
  le_bytes 4 mode ++ le_bytes 168 0 ++ root.

(** ** The volume *)

Definition imap_exts : list xad_t := [xad_of 0 4 20].
Definition file7_left : list xad_t := [xad_of 0 3 50; xad_of 3 1 54].
Definition file7_right : list xad_t := [xad_of 10 2 56].

Definition inode_base : Z := 24 * 4096.

Definition sample_image : image :=
  Image 0x40000 (patched [
    (0x8000, byte_of <$> [0x4A; 0x46; 0x53; 0x31; 2; 0; 0; 0; 64; 0; 0; 0; 0; 0; 0; 0;
                          0; 16; 0; 0; 12; 0; 3; 0; 0; 2; 0; 0; 9; 0; 3; 0; 0; 32; 0; 0]);
    (53248, inode_bytes 16 0x8000 16384 1 (xtpage_bytes 3 imap_exts));
    (21 * 4096 + 3072, pxd_bytes (Pxd 4 0 24));
    (inode_base + 2 * 512,
      inode_bytes 2 0x41ED 0 4
        (dtroot_bytes [2; 1; 3; 4]
           [entry_bytes 5 (ascii_units "hello"); entry_bytes 6 (ascii_units "empty");
            entry_bytes 7 (ascii_units "hello2"); entry_bytes 8 (ascii_units "tree")]));
    (inode_base + 5 * 512, inode_bytes 5 0x81A4 5000 1 (xtpage_bytes 3 [xad_of 0 2 30]));
    (inode_base + 6 * 512, inode_bytes 6 0x41ED 0 2 (dtroot_bytes [] []));
    (inode_base + 7 * 512,
      inode_bytes 7 0x81A4 49152 1 (xtpage_bytes 5 [xad_of 0 1 40; xad_of 10 1 41]));
    (inode_base + 8 * 512, inode_bytes 8 0x41ED 0 2 (dtroot_node_bytes (Pxd 1 0 43)));
    (inode_base + 9 * 512,
      inode_bytes 9 0x41ED 0 2 (dtroot_bytes [1] (long_entry_bytes 5 2 (replicate 100 0x61))));
    (30 * 4096, byte_of <$> ascii_units "file data");
    (31 * 4096, byte_of <$> ascii_units "second page");
    (40 * 4096, xtpage_bytes 2 file7_left);
    (41 * 4096, xtpage_bytes 2 file7_right);
    (42 * 4096, xtpage_bytes 2 []);
    (43 * 4096, dtleaf_bytes 44 [2] [entry_bytes 5 (ascii_units "alpha")]);
    (44 * 4096, dtleaf_bytes 0 [2]
       (long_entry_bytes 7 3 (ascii_units "a-rather-long-file-name"))) ]).

(** Its superblock: 64 blocks of 4 KiB, allocation groups of 8192. *)
Definition sample_sb : jfs_superblock :=
  Eval vm_compute in
    match get_superblock (img_bytes sample_image SUPER1_OFF sizeof_superblock) with
    | Ret sb => sb
    | _ => demo_sb 12
    end.

Definition sample_env : env := Env sample_image sample_sb (fun _ => true).

#[export] Instance sample_env_wf : WfEnv sample_env.
Proof. constructor; vm_compute; try done; split; congruence. Defined.

(** ** Deciding the tree predicate on concrete pages *)

Definition sorted_b (es : list xad_t) : bool :=
  forallb (fun i => forallb (fun j =>
    match es !! i, es !! j with
    | Some x, Some y => offsetXAD x + lengthXAD x <=? offsetXAD y
    | _, _ => true
    end) (seq (S i) (length es - S i))) (seq 0 (length es)).

Lemma sorted_b_sound es : sorted_b es = true -> xad_sorted es.
Proof.
  unfold sorted_b. intros H i j x y Hij Hi Hj.
  rewrite forallb_forall in H. pose proof (lookup_lt_Some _ _ _ Hi).
  pose proof (lookup_lt_Some _ _ _ Hj).
  specialize (H i ltac:(apply in_seq; lia)). rewrite forallb_forall in H.
  specialize (H j ltac:(apply in_seq; lia)). rewrite Hi, Hj in H. lia.
Qed.

Definition xt_page_b (p : mem) (flag : Z) (es : list xad_t) : bool :=
  bool_decide (xt_flag p = Ret flag) &&
  bool_decide (xt_nextindex p = Ret (XTENTRYSTART + Z.of_nat (length es))) &&
  forallb (fun i => bool_decide (of_option NullDeref (es !! i) = xt_xad p (XTENTRYSTART + Z.of_nat i)))
    (seq 0 (length es)).

Lemma xt_page_b_sound p flag es : xt_page_b p flag es = true -> xt_page p flag es.
Proof.
  unfold xt_page_b. rewrite !andb_true_iff, !bool_decide_eq_true, forallb_forall.
  intros [[? ?] Hall]. split_and!; try done. intros i x Hi.
  specialize (Hall i). rewrite bool_decide_eq_true in Hall. rewrite <- Hall, Hi; [done|].
  apply in_seq. pose proof (lookup_lt_Some _ _ _ Hi). lia.
Qed.

(** A page that is checked to be a leaf with entries [es]. *)
Definition leaf_b (p : mem) (flag : Z) (es : list xad_t) : bool :=
  xt_page_b p flag es && sorted_b es &&
  negb (Z.land flag BT_LEAF =? 0) && (Z.land flag BT_INTERNAL =? 0).

Lemma leaf_b_sound pages lo p flag es : leaf_b p flag es = true -> xtree pages 0 lo p es.
Proof.
  unfold leaf_b. rewrite !andb_true_iff. intros [[[? ?] ?] ?].
  exists flag, es. split; [by apply xt_page_b_sound|]. split; [by apply sorted_b_sound|].
  split_and!; done || lia.
Qed.
