(* ===== verification/BufRace.v ===== *)
(** * Page buffers without a lock

    libpager calls [pager_read_page] in several threads, and every call goes
    through [bRead] and [bRelease] of jfs_fileread.c, whose free list no lock
    protects.  Here their accesses to the list are single steps, and threads that
    read a page and release its buffer are interleaved. *)

From stdpp Require Import gmap relations.
From S2P Require Import Prelude Layout Disk Xtree Sample BufCache.

(** ** Definitions *)

(** Where a thread is between the call of [bRead] and the end of its
    [bRelease]. *)
Inductive rpc :=
| RAllocate                              (* if (bCachelist == NULL) bAllocate () *)
| RHead                                  (* bp = bCachelist *)
| RNext (bp : nat)                       (* bCachelist = bp->b_next: the load ... *)
| RStore (bp : nat) (next : option nat)  (* ... and the store *)
| RRead (bp : nat)                       (* ujfs_read_diskblocks *)
| RGot (bp : nat)                        (* bRead has returned 0; then bp->b_next = bCachelist *)
| RPush (bp : nat) (rc : Z)              (* bCachelist = bp *)
| RFail (bp : nat)                       (* the read failed; bp->b_next = bCachelist *)
| RDone (rc : Z).

Definition set_list (head : option nat) (st : bcache) : bcache :=
  BCache head (bufs st) (fresh_buf st) (nBuffer st).

(** [bp->b_next = bCachelist] *)
Definition link_buf (bp : nat) (st : bcache) : bcache :=
  BCache (bCachelist st) (alter (fun b => Buf (bCachelist st) (b_data b)) bp (bufs st))
    (fresh_buf st) (nBuffer st).

(** One step of a thread that reads [xlen] blocks at [xaddr]; [None] once it is
    done. *)
Definition read_step (e : env) (st : bcache) (xaddr xlen : Z) (at_ : rpc) : option (res (bcache * rpc)) :=
  match at_ with
  | RAllocate =>
      Some (match bCachelist st with
            | None => let* st := bAllocate e st in Ret (st, RHead)
            | Some _ => Ret (st, RHead)
            end)
  | RHead => Some (let* bp := of_option NullDeref (bCachelist st) in Ret (st, RNext bp))
  | RNext bp => Some (let* b := of_option NullDeref (bufs st !! bp) in Ret (st, RStore bp (b_next b)))
  | RStore bp next => Some (Ret (set_list next st, RRead bp))
  | RRead bp =>
      Some (let* b := of_option NullDeref (bufs st !! bp) in
            let* off := shl_s64 xaddr (s_l2bsize (jfs_sb e)) in
            let* len := shl_s32 xlen (s_l2bsize (jfs_sb e)) in
            match ujfs_read_diskblocks (disk_image e) off len PAGESIZE with
            | Ret bytes =>
                let data := bytes ++ drop (length bytes) (b_data b) in
                Ret (BCache (bCachelist st) (<[bp := Buf (b_next b) data]> (bufs st)) (fresh_buf st) (nBuffer st),
                     RGot bp)
            | Err _ => Ret (st, RFail bp)
            | Fault f => Fault f
            | NoFuel => NoFuel
            end)
  | RGot bp => Some (Ret (link_buf bp st, RPush bp 0))
  | RFail bp => Some (Ret (link_buf bp st, RPush bp 1))
  | RPush bp rc => Some (Ret (set_list (Some bp) st, RDone rc))
  | RDone _ => None
  end.

(** A thread alone, up to the return of [bRead]: the state, the return code and
    the buffer. *)
Fixpoint read_alone (k : nat) (e : env) (st : bcache) (xaddr xlen : Z) (at_ : rpc) : res (bcache * Z * option nat) :=
  match at_ with
  | RGot bp => Ret (st, 0, Some bp)
  | RDone rc => Ret (st, rc, None)
  | _ =>
      match k with
      | O => NoFuel
      | S k' =>
          match read_step e st xaddr xlen at_ with
          | None => NoFuel
          | Some r => let* '(st, at_) := r in read_alone k' e st xaddr xlen at_
          end
      end
  end.

(** The buffers and the threads, each with the blocks it reads. *)
Record readers := Readers { r_bufs : bcache; r_threads : list (Z * Z * rpc) }.

Inductive readers_step (e : env) : readers -> readers -> Prop :=
| readers_thread st ts i xaddr xlen at_ st' at' :
    ts !! i = Some (xaddr, xlen, at_) -> read_step e st xaddr xlen at_ = Some (Ret (st', at')) ->
    readers_step e (Readers st ts) (Readers st' (<[i := (xaddr, xlen, at')]> ts)).

(** The blocks of a page. *)
Definition page_len (e : env) : Z := PAGESIZE / 2 ^ s_l2bsize (jfs_sb e).

(** The cache after the first allocation. *)
Definition warm_cache : bcache :=
  let st := bAllocate_loop NBUFFER bcache_init in
  BCache (bCachelist st) (bufs st) (fresh_buf st) (nBuffer st + Z.of_nat NBUFFER).

(** ** Lemmas *)

(** The read of a page into a buffer, wherever the buffer is in the list. *)
Lemma read_step_page e `{WfEnv e} st a p bp b :
  page_at e a = Some p -> bufs st !! bp = Some b -> Z.of_nat (length (b_data b)) <= PAGESIZE ->
  read_step e st a (page_len e) (RRead bp) =
    Some (Ret (BCache (bCachelist st) (<[bp := Buf (b_next b) p]> (bufs st)) (fresh_buf st) (nBuffer st), RGot bp)).
Proof.
  intros Hp Hb Hlen. unfold read_step, page_len. rewrite Hb. cbn [of_option res_bind].
  pose proof (length_page_at _ _ _ Hp) as Hpl.
  apply page_at_inv in Hp as (Ha & Hr & ->).
  pose proof wf_l2bsize. pose proof wf_size. unfold PSIZE, PAGESIZE in *.
  rewrite shl_s64_ok by lia. cbn [res_bind].
  rewrite page_len_bytes by done. cbn [res_bind]. unfold PAGESIZE.
  rewrite ujfs_read_ok by lia. rewrite drop_ge by lia. by rewrite app_nil_r.
Qed.

(** A step of the thread at position [i]. *)
Lemma thread_reads e st ts i xaddr xlen at_ st' at' R :
  ts !! i = Some (xaddr, xlen, at_) -> read_step e st xaddr xlen at_ = Some (Ret (st', at')) ->
  rtc (readers_step e) (Readers st' (<[i := (xaddr, xlen, at')]> ts)) R ->
  rtc (readers_step e) (Readers st ts) R.
Proof. intros Hi Hs HR. eapply rtc_l; [|exact HR]. by apply readers_thread with at_. Qed.

(** A buffer that is its own successor heads no free list. *)
Lemma cyclic_not_free m bp b l :
  m !! bp = Some b -> b_next b = Some bp -> ~ free_chain m (Some bp) l.
Proof.
  intros Hb Hn. induction l as [|i l IH]; simpl; [done|].
  intros ([= <-] & b' & Hb' & Hl). rewrite Hb in Hb'. injection Hb' as <-.
  rewrite Hn in Hl. auto.
Qed.

(** One step of a thread that runs alone. *)
Lemma read_alone_next k e st xaddr xlen at_ :
  match at_ with RGot _ | RDone _ => False | _ => True end ->
  read_alone (S k) e st xaddr xlen at_ =
    match read_step e st xaddr xlen at_ with
    | None => NoFuel
    | Some r => let* '(st, at_) := r in read_alone k e st xaddr xlen at_
    end.
Proof. by destruct at_. Qed.

(** The thread alone, once the list has a buffer or the allocation has run. *)
Lemma read_alone_head k e st xaddr xlen :
  read_alone (6 + k) e st xaddr xlen RHead =
    (let* bp := of_option NullDeref (bCachelist st) in
     let* b := of_option NullDeref (bufs st !! bp) in
     let st := BCache (b_next b) (bufs st) (fresh_buf st) (nBuffer st) in
     let* off := shl_s64 xaddr (s_l2bsize (jfs_sb e)) in
     let* len := shl_s32 xlen (s_l2bsize (jfs_sb e)) in
     match ujfs_read_diskblocks (disk_image e) off len PAGESIZE with
     | Ret bytes =>
         let data := bytes ++ drop (length bytes) (b_data b) in
         Ret (BCache (bCachelist st) (<[bp := Buf (b_next b) data]> (bufs st))
                (fresh_buf st) (nBuffer st), 0, Some bp)
     | Err _ => Ret (bRelease st bp, 1, None)
     | Fault f => Fault f
     | NoFuel => NoFuel
     end).
Proof.
  cbn [Nat.add]. rewrite read_alone_next by done. cbn [read_step].
  destruct (bCachelist st) as [bp|]; [|done]. cbn [of_option res_bind].
  rewrite read_alone_next by done. cbn [read_step].
  destruct (bufs st !! bp) as [b|] eqn:Eb; [|done]. cbn [of_option res_bind].
  rewrite read_alone_next by done. cbn [read_step res_bind].
  rewrite read_alone_next by done. cbn [read_step]. unfold set_list at 1. cbn [bufs]. rewrite Eb.
  cbn [of_option res_bind].
  destruct (shl_s64 _ _); [|done..]. destruct (shl_s32 _ _); [|done..]. cbn [res_bind].
  destruct (ujfs_read_diskblocks _ _ _ _); [done| |done..]. cbn [res_bind].
  do 2 (rewrite read_alone_next by done; cbn [read_step res_bind]). by destruct k.
Qed.

(** ** Properties *)

(** A thread that runs alone is [bRead]: the steps, taken in a row, return
    what the function returns, in the same state of the buffers. *)
Theorem read_alone_is_bRead k e st xaddr xlen :
  read_alone (7 + k) e st xaddr xlen RAllocate = bRead e st xaddr xlen.
Proof.
  unfold bRead. change (7 + k)%nat with (S (6 + k)). rewrite read_alone_next by done. cbn [read_step].
  destruct (bCachelist st) as [bp|] eqn:Eh; cbn [res_bind].
  - apply read_alone_head.
  - destruct (bAllocate e st) as [st1| | |]; [|done..]. cbn [res_bind]. apply read_alone_head.
Qed.

(** C34: the free list is not safe to share.  Two threads that read two pages can
    both be given the same buffer, so that the first one, told of success, finds
    the page of the second; and when both have released it the buffer is its own
    successor: the list is a cycle, the other buffers are lost, and no division
    of the buffers into held and free ones is left. *)
Theorem buffer_shared e `{WfEnv e} st held bp free a1 a2 p1 p2 :
  pool st held (bp :: free) -> page_at e a1 = Some p1 -> page_at e a2 = Some p2 ->
  exists st1 st2,
    rtc (readers_step e)
      (Readers st [(a1, page_len e, RAllocate); (a2, page_len e, RAllocate)])
      (Readers st1 [(a1, page_len e, RGot bp); (a2, page_len e, RGot bp)]) /\
    b_data <$> bufs st1 !! bp = Some p2 /\
    rtc (readers_step e)
      (Readers st1 [(a1, page_len e, RGot bp); (a2, page_len e, RGot bp)])
      (Readers st2 [(a1, page_len e, RDone 0); (a2, page_len e, RDone 0)]) /\
    bCachelist st2 = Some bp /\ b_next <$> bufs st2 !! bp = Some (Some bp) /\
    forall held' free', ~ linked st2 held' free'.
Proof.
  intros [((Hh & b & Hb & _) & _ & _ & _ & Hcap) _] Hp1 Hp2. pose proof (Hcap _ _ Hb) as Hlen.
  pose proof (length_page_at _ _ _ Hp1) as Hl1.
  eexists _, _. split; [|split; [|split; [|split; [|split]]]].
  - do 2 (eapply (thread_reads _ _ _ 0); [reflexivity|simpl; by rewrite Hh|]).
    eapply (thread_reads _ _ _ 0); [reflexivity|simpl; by rewrite Hb|].
    do 2 (eapply (thread_reads _ _ _ 1); [reflexivity|simpl; by rewrite Hh|]).
    eapply (thread_reads _ _ _ 1); [reflexivity|simpl; by rewrite Hb|].
    eapply (thread_reads _ _ _ 0); [reflexivity|reflexivity|].
    eapply (thread_reads _ _ _ 1); [reflexivity|reflexivity|].
    eapply (thread_reads _ _ _ 0); [reflexivity|by eapply read_step_page|].
    eapply (thread_reads _ _ _ 1); [reflexivity| |].
    { eapply read_step_page; [done|done|cbn [bufs]; by rewrite lookup_insert_eq|]. simpl. unfold PAGESIZE. lia. }
    apply rtc_refl.
  - simpl. by rewrite lookup_insert_eq.
  - do 2 (eapply (thread_reads _ _ _ 0); [reflexivity|reflexivity|]).
    do 2 (eapply (thread_reads _ _ _ 1); [reflexivity|reflexivity|]). apply rtc_refl.
  - done.
  - simpl. by rewrite !lookup_alter_eq, lookup_insert_eq.
  - intros held' free' (Hch & _). simpl in Hch. eapply cyclic_not_free; [| |exact Hch].
    + by rewrite !lookup_alter_eq, lookup_insert_eq.
    + done.
Qed.

(** ** Witness *)

Lemma warm_pool : pool warm_cache [] [7; 6; 5; 4; 3; 2; 1; 0]%nat.
Proof.
  split; [|reflexivity]. split; [repeat (split; [reflexivity|eexists; split; [reflexivity|]]); reflexivity|].
  split; [apply (bool_decide_unpack _); vm_compute; exact I|].
  assert (forall i b, bufs warm_cache !! i = Some b -> (i < 8)%nat /\ b_data b = []) as Hall.
  { apply map_Forall_lookup. apply (bool_decide_unpack _). vm_compute. exact I. }
  split; [|split].
  - intros i. split.
    + intros [b Hb]. apply Hall in Hb as [Hi _]. apply (bool_decide_unpack _).
      do 8 (destruct i as [|i]; [vm_compute; exact I|]). lia.
    + intros Hi. repeat (apply elem_of_cons in Hi as [->|Hi]; [by eexists|]). set_solver.
  - intros i [b Hb]. apply Hall in Hb as [Hi _]. exact Hi.
  - intros i b Hb. apply Hall in Hb as [_ ->]. done.
Qed.

Lemma buffer_shared_witness :
  exists st1 st2,
    rtc (readers_step sample_env)
      (Readers warm_cache
         [(42, page_len sample_env, RAllocate); (43, page_len sample_env, RAllocate)])
      (Readers st1 [(42, page_len sample_env, RGot 7%nat); (43, page_len sample_env, RGot 7%nat)]) /\
    b_data <$> bufs st1 !! 7%nat = page_at sample_env 43 /\
    rtc (readers_step sample_env)
      (Readers st1 [(42, page_len sample_env, RGot 7%nat); (43, page_len sample_env, RGot 7%nat)])
      (Readers st2 [(42, page_len sample_env, RDone 0); (43, page_len sample_env, RDone 0)]) /\
    bCachelist st2 = Some 7%nat /\ b_next <$> bufs st2 !! 7%nat = Some (Some 7%nat) /\
    forall held free, ~ linked st2 held free.
Proof.
  apply (buffer_shared sample_env warm_cache [] 7 [6; 5; 4; 3; 2; 1; 0]%nat
    42 43 (default [] (page_at sample_env 42)) (default [] (page_at sample_env 43)));
    [|reflexivity|reflexivity].
  exact warm_pool.
Defined.
