(* ===== verification/Imap.v ===== *)
(** * Locating inodes

    [find_iag], [find_inode] and [get_inode] of jfs_inode.c: the descent of the
    inode map's xtree to an inode allocation group page, and the address of an
    inode inside the extent that page names.  The descent follows block
    addresses of the disk, so that on a corrupt volume it need not end; [fuel]
    bounds the number of pages visited. *)

From S2P Require Import Prelude Layout Disk Xtree Sample.

(** ** Definitions *)

(** The loop from the label [descend] on. *)
Fixpoint find_iag_descend (fuel : nat) (e : env) (page : mem) (iagblock : Z) : res Z :=
  match fuel with
  | O => NoFuel
  | S fuel' =>
      let l2bsize := u32 (s_l2bsize (jfs_sb e)) in
      let* next := xt_nextindex page in
      let lim := le16_to_cpu next - XTENTRYSTART in
      let* r := xt_search search_fuel page iagblock XTENTRYSTART lim 0 in
      let* flag := xt_flag page in
      match r with
      | Hit index =>
          let* x := xt_xad page index in
          if negb (Z.land flag BT_LEAF =? 0)
          then shl_s64 (addressXAD x + (iagblock - offsetXAD x)) l2bsize
          else
            let* child := shl_s64 (addressXAD x) l2bsize in
            let! buffer := xRead e child PSIZE PSIZE orelse Erc 1 in
            find_iag_descend fuel' e buffer iagblock
      | Miss base _ =>
          if negb (Z.land flag BT_INTERNAL =? 0)
          then
            let index := if negb (base =? 0) then base - 1 else base in
            let* x := xt_xad page index in
            let* child := shl_s64 (addressXAD x) l2bsize in
            let! buffer := xRead e child PSIZE PSIZE orelse Erc 1 in
            find_iag_descend fuel' e buffer iagblock
          else Err (Erc 1)
      end
  end.

Definition find_iag (fuel : nat) (e : env) (iagnum which_table : Z) : res Z :=
  let l2bsize := u32 (s_l2bsize (jfs_sb e)) in
  if negb (which_table =? FILESYSTEM_I) && negb (which_table =? AGGREGATE_I)
     && negb (which_table =? u32 AGGREGATE_2ND_I)
  then Err (Erc 1)
  else
    let* iagblock := IAGTOLBLK iagnum (u32 (L2PSIZE - l2bsize)) in
    let fileset_inode_address := u32 (AGGR_INODE_TABLE_START + u32 (which_table * 512)) in
    let! raw := xRead e fileset_inode_address sizeof_dinode sizeof_dinode orelse Erc 1 in
    let* fileset_inode := get_dinode raw in
    find_iag_descend fuel e (di_btroot fileset_inode) iagblock.

(** [inum] is converted to [uint32_t] at the call. *)
Definition find_inode (fuel : nat) (e : env) (inum which_table : Z) : res Z :=
  let inum := u32 inum in
  let l2bsize := u32 (s_l2bsize (jfs_sb e)) in
  let iagnum := s32 (INOTOIAG inum) in
  let extnum := Z.shiftr (Z.land inum (INOSPERIAG - 1)) L2INOSPEREXT in
  let! map_address := find_iag fuel e (u32 iagnum) which_table orelse Erc 1 in
  let! iag := ujfs_read_diskblocks (disk_image e) map_address sizeof_iag sizeof_iag orelse Erc 1 in
  let* ext := iag_inoext iag extnum in
  if pxd_len ext =? 0 then Err (Erc 1)
  else
    let* start := shl_s64 (addressPXD ext) l2bsize in
    Ret (start + u32 (Z.land inum (INOSPEREXT - 1) * 512)).

(** [find_inode(...) || xRead(address, sizeof(dinode_t), &inode)]: every caller
    of [find_inode] starts with it. *)
Definition read_inode (fuel : nat) (e : env) (inum : Z) : res dinode_t :=
  let! address := find_inode fuel e inum FILESYSTEM_I orelse Erc 1 in
  let! raw := xRead e address sizeof_dinode sizeof_dinode orelse Erc 1 in
  get_dinode raw.

(** [get_inode] reads an inode and drops it; its error return is silent. *)
Definition get_inode (fuel : nat) (e : env) (inum : Z) : res unit :=
  match read_inode fuel e inum with
  | Ret _ | Err _ => Ret tt
  | Fault f => Fault f
  | NoFuel => NoFuel
  end.

(** ** Specification *)

(** The root page of the inode map of fileset [which]. *)
Definition fileset_btroot (e : env) (which : Z) : mem :=
  drop 224 (img_bytes (disk_image e) (AGGR_INODE_TABLE_START + which * 512) sizeof_dinode).

(** First block of the page of inode allocation group [n] in the inode map. *)
Definition iag_block (e : env) (n : Z) : Z := (n + 1) * 2 ^ (L2PSIZE - s_l2bsize (jfs_sb e)).

(** The volume's inode map: a tree of extents below fileset inode 16. *)
Class InodeMap (e : env) (h : nat) (exts : list xad_t) : Prop := {
  imap_inode : on_disk e (AGGR_INODE_TABLE_START + FILESYSTEM_I * 512) sizeof_dinode;
  imap_tree : xtree (page_at e) h 0 (fileset_btroot e FILESYSTEM_I) exts }.

(** The block of the inode map page for group [n], by the file's extents. *)
Definition iag_location (e : env) (exts : list xad_t) (n : Z) : option Z :=
  x ← ext_find (iag_block e n) exts;
  Some (addressXAD x + (iag_block e n - offsetXAD x)).

(** The byte address of inode [inum]: group [inum / 4096], extent
    [inum / 32 mod 128] of the group's page, slot [inum mod 32]. *)
Definition inode_location (e : env) (exts : list xad_t) (inum : Z) : option Z :=
  blk ← iag_location e exts (inum / 4096);
  iag ← page_at e blk;
  match iag_inoext iag (inum / 32 mod 128) with
  | Ret ext =>
      if decide (pxd_len ext = 0) then None
      else Some (addressPXD ext * 2 ^ s_l2bsize (jfs_sb e) + inum mod 32 * 512)
  | _ => None
  end.

(** ** Lemmas *)

Lemma u32_l2bsize e `{WfEnv e} : u32 (s_l2bsize (jfs_sb e)) = s_l2bsize (jfs_sb e).
Proof. pose proof wf_l2bsize. apply wrapU_small. lia. Qed.

Lemma shl_block e `{WfEnv e} a :
  0 <= a < 2 ^ 41 -> shl_s64 a (s_l2bsize (jfs_sb e)) = Ret (a * 2 ^ s_l2bsize (jfs_sb e)).
Proof.
  intros Ha. pose proof wf_l2bsize.
  assert (2 ^ s_l2bsize (jfs_sb e) <= 2 ^ 12) by (apply Z.pow_le_mono_r; lia).
  assert (0 < 2 ^ s_l2bsize (jfs_sb e)) by lia. apply shl_s64_ok; [lia|lia|nia].
Qed.

Lemma le16_nextindex p n :
  xt_nextindex p = Ret (XTENTRYSTART + n) -> 0 <= n ->
  le16_to_cpu (XTENTRYSTART + n) - XTENTRYSTART = n.
Proof.
  unfold xt_nextindex, le16_to_cpu, XTENTRYSTART. intros Hn%get_s_inv; [|lia].
  change (2 ^ (8 * 2 - 1)) with 32768 in Hn. intros. rewrite wrapU_small; lia.
Qed.

Lemma find_iag_descend_ok e h exts page lo K fuel :
  WfEnv e -> xtree (page_at e) h lo page exts -> lo <= K -> (h < fuel)%nat ->
  find_iag_descend fuel e page K =
  match ext_find K exts with
  | Some x => Ret ((addressXAD x + (K - offsetXAD x)) * 2 ^ s_l2bsize (jfs_sb e))
  | None => Err (Erc 1)
  end.
Proof.
  intros Hwf. revert exts page lo fuel.
  induction h as [|h IH]; intros exts page lo [|fuel] Htree Hlo Hfuel; try lia;
    cbn [find_iag_descend]; rewrite u32_l2bsize by done.
  - destruct (xtree_leaf_search _ _ _ _ K 0 Htree)
      as (flag & n & Hn & Hflag & Hleaf & Hint & Hnext & Hr).
    rewrite Hnext, Hflag. cbn [res_bind]. rewrite (le16_nextindex page) by (done || lia).
    destruct Hr as [(i & x & -> & Hx & Hok & [? ?] & ->)|(b & c & -> & -> & _)]; cbn [res_bind].
    + rewrite Hx. cbn [res_bind]. replace (_ =? 0) with false by lia. simpl negb; cbv iota.
      apply shl_block; [done|]. pose proof (addressXAD_range x Hok).
      pose proof (lengthXAD_range x Hok). lia.
    + by rewrite Hint.
  - destruct (xtree_node_search _ _ _ _ _ K 0 Htree Hlo)
      as (flag & n & Hn & Hflag & Hleaf & Hint & Hnext & r & x & cp & cs & Hr & Hx & Hok & HxK &
          Hcp & Hsub & _ & ->).
    rewrite Hnext, Hflag. cbn [res_bind]. rewrite (le16_nextindex page) by (done || lia).
    rewrite Hr. cbn [res_bind]. rewrite Hleaf.
    pose proof (addressXAD_range x Hok).
    destruct r as [i|b c]; [|destruct Hx as [Hb Hx]].
    + rewrite Hx. cbn [res_bind Z.eqb negb]. rewrite shl_block by (done || lia). cbn [res_bind].
      rewrite (xRead_page e _ _ Hwf Hcp). cbn [res_try]. apply (IH _ _ _ _ Hsub); lia.
    + replace (Z.land flag BT_INTERNAL =? 0) with false by lia.
      replace (b =? 0) with false by lia. cbn [negb]. rewrite Hx. cbn [res_bind].
      rewrite shl_block by (done || lia). cbn [res_bind].
      rewrite (xRead_page e _ _ Hwf Hcp). cbn [res_try]. apply (IH _ _ _ _ Hsub); lia.
Qed.

Lemma iag_block_eq e `{WfEnv e} n :
  0 <= n < 2 ^ 20 ->
  IAGTOLBLK n (u32 (L2PSIZE - u32 (s_l2bsize (jfs_sb e)))) = Ret (iag_block e n) /\
  0 <= iag_block e n.
Proof.
  intros Hn. pose proof wf_l2bsize. rewrite u32_l2bsize by done.
  unfold IAGTOLBLK, iag_block, shl_u32, L2PSIZE.
  rewrite (wrapU_small 32 (12 - _)) by lia. rewrite (wrapU_small 32 (n + 1)) by lia.
  assert (2 ^ (12 - s_l2bsize (jfs_sb e)) <= 2 ^ 3) by (apply Z.pow_le_mono_r; lia).
  assert (0 < 2 ^ (12 - s_l2bsize (jfs_sb e))) by lia.
  replace (_ && _) with true by lia. rewrite Z.shiftl_mul_pow2 by lia.
  rewrite wrapU_small by nia. split; [done|nia].
Qed.

Lemma fileset_inode_read e which `{WfEnv e} :
  on_disk e (AGGR_INODE_TABLE_START + which * 512) sizeof_dinode -> 0 <= which < 2 ^ 22 ->
  exists raw di,
    xRead e (u32 (AGGR_INODE_TABLE_START + u32 (which * 512))) sizeof_dinode sizeof_dinode = Ret raw /\
    get_dinode raw = Ret di /\ di_btroot di = fileset_btroot e which.
Proof.
  intros Hd Hw. change AGGR_INODE_TABLE_START with 45056 in *. unfold sizeof_dinode in *.
  rewrite (wrapU_small 32 (which * 512)) by lia. rewrite wrapU_small by lia.
  eexists. destruct (get_dinode_total (img_bytes (disk_image e) (45056 + which * 512) 512))
    as (di & Hdi & _ & Hbt); [by rewrite length_img_bytes|].
  exists di. split; [by apply xRead_ok|]. split; [done|]. by rewrite Hbt.
Qed.

Lemma find_iag_ok e h exts fuel n `{WfEnv e} `{InodeMap e h exts} :
  0 <= n < 2 ^ 20 -> (h < fuel)%nat ->
  find_iag fuel e n FILESYSTEM_I =
  match iag_location e exts n with
  | Some blk => Ret (blk * 2 ^ s_l2bsize (jfs_sb e))
  | None => Err (Erc 1)
  end.
Proof.
  intros Hn Hfuel. unfold find_iag, iag_location. cbn [Z.eqb FILESYSTEM_I negb andb].
  destruct (iag_block_eq e n Hn) as [-> Hpos]. cbn [res_bind].
  destruct (fileset_inode_read e FILESYSTEM_I imap_inode) as (raw & di & Hraw & Hdi & Hbt);
    [done|]. change 16 with FILESYSTEM_I.
  rewrite Hraw. cbn [res_try]. rewrite Hdi. cbn [res_bind]. rewrite Hbt.
  rewrite (find_iag_descend_ok e h exts _ 0); try done; [|apply imap_tree].
  by destruct (ext_find _ _).
Qed.

(** Group, extent and slot of an inode number, as the code computes them. *)
Lemma inode_split inum :
  0 <= inum < 2 ^ 32 ->
  u32 (s32 (INOTOIAG inum)) = inum / 4096 /\ 0 <= inum / 4096 < 2 ^ 20 /\
  Z.shiftr (Z.land inum (INOSPERIAG - 1)) L2INOSPEREXT = inum / 32 mod 128 /\
  u32 (Z.land inum (INOSPEREXT - 1) * 512) = inum mod 32 * 512.
Proof.
  intros Hi. unfold INOTOIAG, INOSPERIAG, INOSPEREXT, L2INOSPERIAG, L2INOSPEREXT.
  change (4096 - 1) with (2 ^ 12 - 1). change (32 - 1) with (2 ^ 5 - 1).
  rewrite !land_low_mod, !Z.shiftr_div_pow2 by lia.
  change (2 ^ 12) with 4096. change (2 ^ 5) with 32.
  assert (0 <= inum / 4096 < 2 ^ 20) by zlia.
  rewrite (wrapS_small 32 (inum / 4096)), !wrapU_small by zlia.
  split_and!; try done; zlia.
Qed.

Lemma iag_inoext_total iag i :
  Z.of_nat (length iag) = sizeof_iag -> 0 <= i < EXTSPERIAG ->
  exists ext, iag_inoext iag i = Ret ext /\ pxd_ok ext.
Proof. unfold sizeof_iag, EXTSPERIAG, iag_inoext. intros. apply get_pxd_total; lia. Qed.

Lemma page_address e a p :
  WfEnv e -> page_at e a = Some p ->
  ujfs_read_diskblocks (disk_image e) (a * 2 ^ s_l2bsize (jfs_sb e)) sizeof_iag sizeof_iag = Ret p.
Proof.
  intros Hwf (Ha & Hr & ->)%page_at_inv. pose proof wf_l2bsize. pose proof wf_size.
  unfold PSIZE, sizeof_iag in *. apply ujfs_read_ok; lia.
Qed.

Lemma find_inode_ok e h exts fuel inum `{WfEnv e} `{InodeMap e h exts} :
  0 <= inum < 2 ^ 32 -> (h < fuel)%nat ->
  (forall blk, iag_location e exts (inum / 4096) = Some blk -> is_Some (page_at e blk)) ->
  find_inode fuel e inum FILESYSTEM_I =
  match inode_location e exts inum with Some a => Ret a | None => Err (Erc 1) end.
Proof.
  intros Hi Hfuel Hpage. unfold find_inode, inode_location.
  rewrite (wrapU_small 32 inum) by lia.
  destruct (inode_split inum Hi) as (-> & Hg & -> & ->).
  rewrite (find_iag_ok e h exts) by done.
  destruct (iag_location e exts (inum / 4096)) as [blk|] eqn:Hloc; [|done].
  destruct (Hpage blk eq_refl) as [iag Hiag]. cbn [res_try]. rewrite (page_address e _ iag) by done.
  cbn [res_try mbind option_bind]. rewrite Hiag. cbn [mbind option_bind].
  destruct (iag_inoext_total iag (inum / 32 mod 128)) as (ext & -> & Hok);
    [by rewrite (length_page_at e blk)|unfold EXTSPERIAG; apply Z.mod_pos_bound; lia|].
  cbn [res_bind]. destruct (Z.eqb_spec (pxd_len ext) 0); case_decide; try done.
  rewrite u32_l2bsize by done. pose proof (addressPXD_range ext Hok).
  by rewrite shl_block by (done || lia).
Qed.

Lemma read_inode_ok e h exts fuel inum a `{WfEnv e} `{InodeMap e h exts} :
  0 <= inum < 2 ^ 32 -> (h < fuel)%nat ->
  (forall blk, iag_location e exts (inum / 4096) = Some blk -> is_Some (page_at e blk)) ->
  inode_location e exts inum = Some a -> on_disk e a sizeof_dinode ->
  exists di, read_inode fuel e inum = Ret di /\
    get_dinode (img_bytes (disk_image e) a sizeof_dinode) = Ret di /\
    di_btroot di = drop 224 (img_bytes (disk_image e) a sizeof_dinode).
Proof.
  intros Hi Hfuel Hpage Ha Hd. unfold read_inode.
  rewrite (find_inode_ok e h exts), Ha by done. cbn [res_try].
  rewrite xRead_ok by done. cbn [res_try]. unfold sizeof_dinode in *.
  destruct (get_dinode_total (img_bytes (disk_image e) a 512)) as (di & Hdi & _);
    [by rewrite length_img_bytes|]. eauto.
Qed.

(** A group or extent the code computes from an inode number is always inside
    the tables it indexes. *)
Lemma extnum_in_iag inum :
  0 <= Z.shiftr (Z.land (u32 inum) (INOSPERIAG - 1)) L2INOSPEREXT < EXTSPERIAG.
Proof.
  unfold INOSPERIAG, EXTSPERIAG, L2INOSPEREXT. change (4096 - 1) with (2 ^ 12 - 1).
  rewrite land_low_mod, Z.shiftr_div_pow2 by lia. change (2 ^ 5) with 32. zlia.
Qed.

(** ** Properties *)

(** On a volume whose inode map is a well-formed extent tree, [find_iag]
    returns exactly the byte address of the page of the group: the address the
    extent covering that page gives, and error 1 when no extent covers it. Fuel
    above the height of the tree is enough. *)
Theorem find_iag_correct (e : env) (h : nat) (exts : list xad_t) (fuel : nat) (n : Z) :
  WfEnv e -> InodeMap e h exts -> 0 <= n < 2 ^ 20 -> (h < fuel)%nat ->
  find_iag fuel e n FILESYSTEM_I =
  match iag_location e exts n with
  | Some blk => Ret (blk * 2 ^ s_l2bsize (jfs_sb e))
  | None => Err (Erc 1)
  end.
Proof. intros. by apply (find_iag_ok e h exts). Qed.

(** C13: [find_inode] refines the on-disk inode numbering: it returns the byte
    address of slot [inum mod 32] of the extent that group [inum / 4096] records
    for [inum / 32 mod 128], and fails when the group is not mapped or the
    extent is not allocated. *)
Theorem find_inode_correct (e : env) (h : nat) (exts : list xad_t) (fuel : nat) (inum : Z) :
  WfEnv e -> InodeMap e h exts -> 0 <= inum < 2 ^ 32 -> (h < fuel)%nat ->
  (forall blk, iag_location e exts (inum / 4096) = Some blk -> is_Some (page_at e blk)) ->
  find_inode fuel e inum FILESYSTEM_I =
  match inode_location e exts inum with Some a => Ret a | None => Err (Erc 1) end.
Proof. intros. by apply (find_inode_ok e h exts). Qed.

(** The secondary aggregate table is accepted by the guard of [find_iag] but
    its inode is looked for 512 bytes before the aggregate inode table: the
    fileset number -1 is multiplied as an unsigned 32-bit integer. *)
Theorem find_iag_secondary_aggregate (fuel : nat) (e : env) (n : Z) :
  find_iag fuel e n (u32 AGGREGATE_2ND_I) =
  (let* iagblock := IAGTOLBLK n (u32 (L2PSIZE - u32 (s_l2bsize (jfs_sb e)))) in
   let! raw := xRead e (AGGR_INODE_TABLE_START - 512) sizeof_dinode sizeof_dinode orelse Erc 1 in
   let* fileset_inode := get_dinode raw in
   find_iag_descend fuel e (di_btroot fileset_inode) iagblock).
Proof. reflexivity. Qed.

(** The inode address is computed without overflow and inside its extent:
    whenever [find_inode] returns, the address is that of one of the 32 slots
    that start at the extent's first block, and the extent index it used is one
    of the 128 of the group page. *)
Theorem find_inode_in_extent (fuel : nat) (e : env) (inum which a : Z) :
  find_inode fuel e inum which = Ret a ->
  exists ext, pxd_ok ext /\ pxd_len ext <> 0 /\
    0 <= Z.shiftr (Z.land (u32 inum) (INOSPERIAG - 1)) L2INOSPEREXT < EXTSPERIAG /\
    exists slot, 0 <= slot < INOSPEREXT /\
      a = addressPXD ext * 2 ^ u32 (s_l2bsize (jfs_sb e)) + slot * sizeof_dinode /\
      addressPXD ext * 2 ^ u32 (s_l2bsize (jfs_sb e)) < 2 ^ 63.
Proof.
  unfold find_inode. intros H. res_inv.
  case_match eqn:E; [done|]. res_inv.
  match goal with He : iag_inoext _ _ = Ret ?ext, Hs : shl_s64 _ _ = Ret _ |- _ =>
    exists ext; pose proof (get_pxd_ok _ _ _ He); apply shl_s64_inv in Hs as (? & ? & -> & ?) end.
  split_and!; [done|lia|apply extnum_in_iag..|].
  exists (Z.land (u32 inum) (INOSPEREXT - 1)). unfold INOSPEREXT, sizeof_dinode.
  change (32 - 1) with (2 ^ 5 - 1). rewrite land_low_mod by lia. change (2 ^ 5) with 32.
  generalize (u32 inum). intros i. rewrite (wrapU_small 32 (_ * _)) by zlia.
  pose proof (Z.mod_pos_bound i 32). split_and!; done || lia.
Qed.

(** ** Witnesses *)

#[export] Instance sample_imap : InodeMap sample_env 0 imap_exts.
Proof.
  constructor; [vm_compute; repeat split; congruence|].
  apply (leaf_b_sound _ _ _ 3). vm_compute. reflexivity.
Defined.

Lemma sample_pages inum blk :
  iag_location sample_env imap_exts (inum / 4096) = Some blk -> 0 <= inum < 4096 ->
  is_Some (page_at sample_env blk).
Proof.
  intros H Hi. rewrite Z.div_small in H by lia. vm_compute in H. injection H as <-.
  vm_compute. eauto.
Qed.

Lemma sample_inode_fuel fuel inum :
  (0 < fuel)%nat -> 0 <= inum < 32 ->
  exists di, read_inode fuel sample_env inum = Ret di /\
    get_dinode (img_bytes sample_image (inode_base + inum * 512) sizeof_dinode) = Ret di /\
    di_btroot di = drop 224 (img_bytes sample_image (inode_base + inum * 512) sizeof_dinode).
Proof.
  intros Hf Hi. apply (read_inode_ok sample_env 0 imap_exts); [apply _|apply _|lia|lia| | |].
  - intros blk H. apply (sample_pages inum); [done|lia].
  - unfold inode_location. rewrite !Z.div_small by lia. rewrite Z.mod_small by lia.
    assert (iag_location sample_env imap_exts 0 = Some 21) as -> by reflexivity.
    assert (page_at sample_env 21 = Some (img_bytes sample_image (21 * 4096) 4096)) as Hp by reflexivity.
    assert (iag_inoext (img_bytes sample_image (21 * 4096) 4096) 0 = Ret (Pxd 4 0 24)) as Hext
      by (vm_compute; reflexivity).
    cbn [mbind option_bind]. rewrite Hp. cbn [mbind option_bind].
    change (0 mod 128) with 0. rewrite Hext.
    by rewrite (Z.mod_small inum 32) by lia.
  - split_and!; unfold inode_base, sizeof_dinode; simpl; lia.
Qed.

Lemma sample_inode inum :
  0 <= inum < 32 ->
  exists di, read_inode 1 sample_env inum = Ret di /\
    get_dinode (img_bytes sample_image (inode_base + inum * 512) sizeof_dinode) = Ret di /\
    di_btroot di = drop 224 (img_bytes sample_image (inode_base + inum * 512) sizeof_dinode).
Proof. apply sample_inode_fuel. lia. Qed.

Lemma find_iag_correct_witness :
  find_iag 1 sample_env 0 FILESYSTEM_I = Ret (21 * 4096) /\
  find_iag 1 sample_env 9 FILESYSTEM_I = Err (Erc 1).
Proof.
  split.
  - rewrite (find_iag_correct sample_env 0 imap_exts 1 0); try apply _; try lia; reflexivity.
  - rewrite (find_iag_correct sample_env 0 imap_exts 1 9); try apply _; try lia; reflexivity.
Defined.

Lemma find_inode_correct_witness :
  find_inode 1 sample_env 5 FILESYSTEM_I = Ret (inode_base + 5 * 512) /\
  find_inode 1 sample_env 40 FILESYSTEM_I = Err (Erc 1).
Proof.
  split.
  - rewrite (find_inode_correct sample_env 0 imap_exts 1 5);
      [vm_compute; reflexivity|apply _|apply _|lia|lia|].
    intros blk H. apply (sample_pages 5); [done|lia].
  - rewrite (find_inode_correct sample_env 0 imap_exts 1 40);
      [vm_compute; reflexivity|apply _|apply _|lia|lia|].
    intros blk H. apply (sample_pages 40); [done|lia].
Defined.

Lemma find_inode_in_extent_witness :
  exists ext, pxd_ok ext /\ pxd_len ext <> 0 /\
    0 <= Z.shiftr (Z.land (u32 5) (INOSPERIAG - 1)) L2INOSPEREXT < EXTSPERIAG /\
    exists slot, 0 <= slot < INOSPEREXT /\
      inode_base + 5 * 512 = addressPXD ext * 2 ^ u32 12 + slot * sizeof_dinode /\
      addressPXD ext * 2 ^ u32 12 < 2 ^ 63.
Proof.
  apply (find_inode_in_extent 1 sample_env 5 FILESYSTEM_I). vm_compute. reflexivity.
Defined.
