(* ===== verification/FileRead.v ===== *)
(** * Mapping file blocks to disk blocks

    [xt_Lookup] and [get_file] of jfs_fileread.c: the descent of a file's extent
    tree through the page buffers, and its refinement of the abstract map from
    file blocks to extents. *)

From stdpp Require Import gmap.
From S2P Require Import Prelude Layout Disk Xtree BufCache Sample Imap.

(** ** Definitions *)

(** What [xt_Lookup] returns: [rc], the value stored through [xaddr] if any,
    and the final value of [*xlen]. *)
Record xt_result := XtResult { xt_rc : Z; xt_xaddr : option Z; xt_xlen : Z }.

(** [MIN( *xlen, lengthXAD(xad) - t32)]: the comparison and the conditional are
    unsigned, because [lengthXAD] is. *)
Definition clip_xlen (xlen : Z) (x : xad_t) (t32 : Z) : Z :=
  let len := u32 (lengthXAD x - t32) in
  s32 (if u32 xlen <? len then u32 xlen else len).

Definition release_opt (st : bcache) (bp : option nat) : bcache :=
  match bp with Some b => bRelease st b | None => st end.

(** The loop from the label [xtSearchPage] on.  [p] is the page under search,
    the inode's root or the data of buffer [bp]; [cmp] survives from the
    previous page. *)
Fixpoint xt_Lookup_page (fuel : nat) (e : env) (st : bcache) (bp : option nat) (p : mem)
    (xoff xlen cmp : Z) : res (bcache * xt_result) :=
  match fuel with
  | O => NoFuel
  | S fuel' =>
      let* next := xt_nextindex p in
      let lim := next - XTENTRYSTART in
      let* r := xt_search search_fuel p xoff XTENTRYSTART lim cmp in
      let* flag := xt_flag p in
      let descend index cmp :=
        let* x := xt_xad p index in
        let t64 := addressXAD x in
        let st := release_opt st bp in
        let* npages := shr_s32 PAGESIZE (s_l2bsize (jfs_sb e)) in
        let* '(st, rc, b) := bRead e st t64 npages in
        let bp := match b with Some b => Some b | None => bp end in
        let* i := of_option NullDeref bp in
        let* buf := of_option NullDeref (bufs st !! i) in
        xt_Lookup_page fuel' e st bp (b_data buf) xoff xlen cmp
      in
      match r with
      | Hit index =>
          if negb (Z.land flag BT_LEAF =? 0)
          then
            let* x := xt_xad p index in
            let t32 := s32 (xoff - offsetXAD x) in
            Ret (release_opt st bp,
                 XtResult 0 (Some (addressXAD x + t32)) (clip_xlen xlen x t32))
          else descend index 0
      | Miss base cmp =>
          if negb (Z.land flag BT_LEAF =? 0)
          then Ret (release_opt st bp, XtResult cmp None xlen)
          else descend (if negb (base =? 0) then base - 1 else base) cmp
      end
  end.

Definition xt_Lookup (fuel : nat) (e : env) (st : bcache) (dip : dinode_t) (xoff xlen : Z)
    : res (bcache * xt_result) :=
  xt_Lookup_page fuel e st None (di_btroot dip) xoff xlen 1.

(** The debugging entry point [get_file]: prints the first 11 bytes of a file
    from a buffer of 10. *)
Definition get_file (fuel : nat) (e : env) (st : bcache) (inum : Z) : res bcache :=
  match read_inode fuel e inum with
  | Ret inode =>
      let* '(st, r) := xt_Lookup fuel e st inode 0 5 in
      let* xaddr := of_option Uninitialised (xt_xaddr r) in
      let* _ := ujfs_read_diskblocks (disk_image e) (xaddr * 4096) 11 10 in
      Ret st
  | Err _ => Ret st
  | Fault f => Fault f
  | NoFuel => NoFuel
  end.

(** ** Specification *)

(** The disk block of file block [K] of a file with extents [exts]. *)
Definition file_block (exts : list xad_t) (K : Z) : option Z :=
  x ← ext_find K exts; Some (addressXAD x + (K - offsetXAD x)).

(** [r] answers a lookup of block [K] asking for [xlen] blocks. *)
Definition lookup_answer (exts : list xad_t) (K xlen : Z) (r : xt_result) : Prop :=
  match ext_find K exts with
  | Some x => r = XtResult 0 (Some (addressXAD x + (K - offsetXAD x)))
                    (Z.min xlen (offsetXAD x + lengthXAD x - K))
  | None => xt_rc r <> 0 /\ xt_xaddr r = None /\ xt_xlen r = xlen
  end.

(** ** Lemmas *)

Lemma clip_xlen_min xlen x K :
  xad_ok x -> covers K x -> 0 <= xlen < 2 ^ 31 ->
  clip_xlen xlen x (s32 (K - offsetXAD x)) = Z.min xlen (offsetXAD x + lengthXAD x - K).
Proof.
  intros Hok [? ?] ?. pose proof (lengthXAD_range x Hok). unfold clip_xlen.
  rewrite (wrapS_small 32 (K - _)) by lia.
  rewrite (wrapU_small 32 xlen), (wrapU_small 32 (_ - _)) by lia.
  case_match; rewrite wrapS_small by lia; lia.
Qed.

(** The buffer pool while a lookup holds at most one page. *)
Definition holding (st : bcache) (bp : option nat) : Prop :=
  (exists free, pool st (option_list bp) free) /\
  (nBuffer st = 0 \/ nBuffer st = Z.of_nat NBUFFER).

Lemma holding_release st bp : holding st bp -> holding (release_opt st bp) None.
Proof.
  intros [[free Hp] Hn]. split; [|by destruct bp].
  destruct bp as [b|]; simpl in *; [|by exists free].
  exists (b :: free). by apply pool_release.
Qed.

Lemma holding_read e st a n st' rc b :
  holding st None -> bRead e st a n = Ret (st', rc, b) -> is_Some b /\ holding st' b.
Proof.
  intros [[free Hp] Hn] H.
  destruct (bRead_pool _ _ _ _ _ _ _ _ _ H Hp) as (i & free' & _ & -> & Hp' & Hlen).
  split; [done|]. split; [by exists free'|].
  destruct Hp as [_ Hcount], Hp' as [_ Hcount']. simpl in *. unfold NBUFFER in *.
  destruct free; simpl in *; lia.
Qed.

(** A lookup gives back every buffer it takes, whatever the disk contains. *)
Lemma xt_Lookup_page_pool fuel e st bp p xoff xlen cmp st' r :
  xt_Lookup_page fuel e st bp p xoff xlen cmp = Ret (st', r) ->
  holding st bp -> holding st' None.
Proof.
  revert st bp p cmp. induction fuel as [|fuel IH]; intros st bp p cmp H Hst; [done|].
  cbn [xt_Lookup_page] in H. apply holding_release in Hst.
  apply res_bind_inv in H as (next & _ & H). apply res_bind_inv in H as (s & _ & H).
  apply res_bind_inv in H as (flag & _ & H).
  destruct s as [index|base c]; case_match eqn:Hf.
  1, 3: res_inv; done.
  all: apply res_bind_inv in H as (x & _ & H); apply res_bind_inv in H as (np & _ & H);
    apply res_bind_inv in H as ([[st1 rc] b] & Hr & H);
    destruct (holding_read _ _ _ _ _ _ _ Hst Hr) as [[i ->] Hst1];
    apply res_bind_inv in H as (j & [= <-]%of_option_inv & H);
    apply res_bind_inv in H as (buf & _ & H); by eapply IH.
Qed.

Lemma xt_Lookup_page_ok e h exts p lo K fuel st bp xlen cmp :
  WfEnv e -> xtree (page_at e) h lo p exts -> lo <= K -> (h < fuel)%nat ->
  holding st bp -> 0 <= xlen < 2 ^ 31 -> (exts <> [] \/ cmp <> 0) ->
  exists st' r, xt_Lookup_page fuel e st bp p K xlen cmp = Ret (st', r) /\
    lookup_answer exts K xlen r.
Proof.
  intros Hwf. revert exts p lo fuel st bp cmp.
  induction h as [|h IH]; intros exts p lo [|fuel] st bp cmp Htree Hlo Hfuel Hst Hxlen Hne;
    try lia; cbn [xt_Lookup_page].
  - destruct (xtree_leaf_search _ _ _ _ K cmp Htree)
      as (flag & n & Hn & Hflag & Hleaf & Hint & Hnext & Hr).
    rewrite Hnext, Hflag. cbn [res_bind]. rewrite Z.add_simpl_l. unfold lookup_answer.
    destruct Hr as [(i & x & -> & Hx & Hok & Hc & ->)|(b & c & -> & -> & Hcmp)]; cbn [res_bind];
      replace (Z.land flag BT_LEAF =? 0) with false by lia; cbn [negb].
    + rewrite Hx. cbn [res_bind]. do 2 eexists. split; [done|].
      rewrite clip_xlen_min by done. f_equal. do 2 f_equal. apply wrapS_small; [lia|].
      destruct Hc. pose proof (lengthXAD_range x Hok). lia.
    + do 2 eexists. split; [done|]. simpl. split_and!; try done.
      destruct Hcmp as [[-> ->]|]; [by destruct Hne|done].
  - destruct (xtree_node_search _ _ _ _ _ K cmp Htree Hlo)
      as (flag & n & Hn & Hflag & Hleaf & Hint & Hnext & s & x & cp & cs & Hs & Hx & Hok & HxK &
          Hcp & Hsub & Hcs & Hfind).
    rewrite Hnext, Hflag. cbn [res_bind]. rewrite Z.add_simpl_l, Hs. cbn [res_bind].
    rewrite Hleaf. cbn [Z.eqb negb]. unfold lookup_answer. rewrite Hfind.
    pose proof (holding_release _ _ Hst) as Hrel. pose proof Hrel as [[free Hpool] _].
    destruct (bRead_page e _ _ _ _ _ Hwf Hcp Hpool) as (st' & b & bb & Hread & Hbb & <-).
    assert (holding st' (Some b)) as Hst' by (by eapply holding_read).
    pose proof wf_l2bsize.
    destruct s as [i|base c]; [|destruct Hx as [Hb Hx]; replace (base =? 0) with false by lia];
      cbn [negb]; rewrite Hx; cbn [res_bind]; rewrite shr_s32_ok by lia; cbn [res_bind];
      rewrite Hread; cbn [res_bind of_option]; rewrite Hbb; cbn [res_bind of_option];
      apply (IH _ _ _ _ _ _ _ Hsub); (done || lia || by left).
Qed.

(** ** Properties *)

(** C11: [xt_Lookup] refines the file's block map.  For an inode whose extent
    tree is well formed it returns 0 exactly for the mapped blocks, with the disk
    block the covering extent gives and a run clipped to that extent and to the
    caller's bound; for a hole, or past the last extent, it returns a non-zero
    code and stores no address.  Fuel above the height of the tree is enough, and
    all page buffers are back on the free list. *)
Theorem xt_Lookup_correct (e : env) (h : nat) (exts : list xad_t) (fuel : nat) (st : bcache)
    (dip : dinode_t) (xoff xlen : Z) :
  WfEnv e -> xtree (page_at e) h 0 (di_btroot dip) exts -> (h < fuel)%nat ->
  holding st None -> 0 <= xoff -> 0 <= xlen < 2 ^ 31 ->
  exists st' r, xt_Lookup fuel e st dip xoff xlen = Ret (st', r) /\
    lookup_answer exts xoff xlen r /\ holding st' None.
Proof.
  intros Hwf Htree Hfuel Hst Hx Hl.
  destruct (xt_Lookup_page_ok e h exts (di_btroot dip) 0 xoff fuel st None xlen 1)
    as (st' & r & Hr & Hans); try done; [by right|].
  exists st', r. split_and!; [done|done|]. by eapply xt_Lookup_page_pool.
Qed.

(** C30: no lookup leaks or duplicates a page buffer: whatever the disk contains,
    when [xt_Lookup] returns, every buffer ever allocated is on the free list
    exactly once, and the pool has been filled at most once, with eight. *)
Theorem xt_Lookup_buffers (fuel : nat) (e : env) (st st' : bcache) (dip : dinode_t)
    (xoff xlen : Z) (r : xt_result) :
  holding st None -> xt_Lookup fuel e st dip xoff xlen = Ret (st', r) ->
  exists free, free_chain (bufs st') (bCachelist st') free /\ NoDup free /\
    (forall i, is_Some (bufs st' !! i) <-> i ∈ free) /\
    nBuffer st' = Z.of_nat (length free) /\ (length free <= NBUFFER)%nat.
Proof.
  intros Hst H. apply xt_Lookup_page_pool in H as [[free [(? & ? & ? & _) Hn]] Hb]; [|done].
  exists free. split_and!; try done. simpl in Hn. lia.
Qed.

(** A hit on an internal entry whose child is a leaf without entries returns
    0, the code for a mapped block, and stores no address: the comparison left
    over from the parent page is returned. *)
Theorem xt_Lookup_empty_leaf (e : env) (fuel : nat) (st : bcache) (dip : dinode_t)
    (K xlen : Z) (flag flag' : Z) (es : list xad_t) (i : nat) (x : xad_t) (cp : mem) :
  WfEnv e -> holding st None -> (1 < fuel)%nat ->
  xt_page (di_btroot dip) flag es -> xad_sorted es -> Z.land flag BT_LEAF = 0 ->
  es !! i = Some x -> covers K x -> page_at e (addressXAD x) = Some cp ->
  xt_page cp flag' [] -> Z.land flag' BT_LEAF <> 0 ->
  exists st', xt_Lookup fuel e st dip K xlen = Ret (st', XtResult 0 None xlen).
Proof.
  intros Hwf Hst Hfuel Hp Hs Hflag Hi Hc Hcp (Hf' & Hn' & _) Hleaf'.
  destruct fuel as [|[|fuel]]; [lia|lia|]. unfold xt_Lookup. cbn [xt_Lookup_page].
  pose proof Hp as (Hf & Hn & Hget). rewrite Hn, Hf. cbn [res_bind]. rewrite Z.add_simpl_l.
  destruct (xt_search_page _ _ _ K 1 Hp Hs)
    as [(j & y & Hj & Hcy & ->)|(n & c & _ & Hb & Ha & _)].
  2: { pose proof (ext_find_separated K es n Hb Ha) as Hnone.
       by rewrite (ext_find_sorted K es i x Hs Hi Hc) in Hnone. }
  assert (y = x) as ->.
  { pose proof (ext_find_sorted K es i x Hs Hi Hc).
    pose proof (ext_find_sorted K es j y Hs Hj Hcy). congruence. }
  cbn [res_bind]. rewrite Hflag. cbn [Z.eqb negb]. rewrite (Hget _ _ Hj). cbn [res_bind].
  pose proof Hst as [[free Hpool] _].
  destruct (bRead_page e _ _ _ _ _ Hwf Hcp Hpool) as (st1 & b & bb & Hread & Hbb & <-).
  pose proof wf_l2bsize. rewrite shr_s32_ok by lia. cbn [res_bind release_opt].
  rewrite Hread. cbn [res_bind of_option]. rewrite Hbb. cbn [res_bind of_option].
  rewrite Hn', Hf'. cbn [res_bind length Z.of_nat]. change (search_fuel) with (S 16).
  rewrite xt_search_step. cbn [res_bind Z.add Z.sub XTENTRYSTART Z.eqb].
  replace (Z.land flag' BT_LEAF =? 0) with false by lia. simpl. by eexists.
Qed.

(** [get_file] writes past its 10-byte buffer whenever block 0 of the inode
    is mapped inside the device. *)
Theorem get_file_overflows (e : env) (h : nat) (exts : list xad_t) (fuel : nat) (st : bcache)
    (inum : Z) (dip : dinode_t) (blk : Z) :
  WfEnv e -> read_inode fuel e inum = Ret dip ->
  xtree (page_at e) h 0 (di_btroot dip) exts -> (h < fuel)%nat -> holding st None ->
  file_block exts 0 = Some blk -> on_disk e (blk * 4096) 11 ->
  get_file fuel e st inum = Fault BufferOverflow.
Proof.
  intros Hwf Hi Htree Hfuel Hst Hblk (? & _ & ?). unfold get_file. rewrite Hi. unfold xt_Lookup.
  destruct (xt_Lookup_page_ok e h exts (di_btroot dip) 0 0 fuel st None 5 1)
    as (st' & r & -> & Hans); try done; [by right|]. cbn [res_bind].
  unfold lookup_answer, file_block in *. destruct (ext_find 0 exts) as [x|]; [|done].
  simpl in Hblk. injection Hblk as <-. subst r. cbn [xt_xaddr of_option res_bind].
  pose proof wf_size. unfold ujfs_read_diskblocks. rewrite wrapU_small by lia.
  change (u32 11) with 11. change (10 <? 11) with true. by replace (_ <? _) with false by lia.
Qed.

(** ** Witnesses *)

Definition sample_root (n : Z) : mem :=
  drop 224 (img_bytes sample_image (inode_base + n * 512) sizeof_dinode).

Definition dummy_inode (root : mem) : dinode_t :=
  Dinode 0 0 0 0 (Pxd 0 0 0) 0 0 0 0 0 0 (Timestruc 0 0) (Timestruc 0 0) (Timestruc 0 0)
    (Timestruc 0 0) (Dxd 0 0 0 0 0 0) (Dxd 0 0 0 0 0 0) 0 0 (replicate 96 Byte.x00 ++ root).

(** A decision for the key ranges of an internal page's children. *)
Definition ranges_b (es : list xad_t) (css : list (list xad_t)) : bool :=
  forallb (fun i => forallb (fun y =>
    match es !! i with Some x => offsetXAD x <=? offsetXAD y | None => true end &&
    match es !! S i with Some x => offsetXAD y + lengthXAD y <=? offsetXAD x | None => true end)
    (default [] (css !! i))) (seq 0 (length css)).

Lemma ranges_b_sound es css :
  ranges_b es css = true ->
  forall i cs y, css !! i = Some cs -> y ∈ cs ->
    (forall x, es !! i = Some x -> offsetXAD x <= offsetXAD y) /\
    (forall x, es !! S i = Some x -> offsetXAD y + lengthXAD y <= offsetXAD x).
Proof.
  unfold ranges_b. rewrite forallb_forall. intros Hall i cs y Hcs Hy.
  pose proof (lookup_lt_Some _ _ _ Hcs).
  specialize (Hall i ltac:(apply in_seq; lia)). rewrite Hcs, forallb_forall in Hall.
  specialize (Hall y ltac:(by apply list_elem_of_In)). apply andb_true_iff in Hall as [H1 H2].
  split; intros x Hx; rewrite Hx in *; lia.
Qed.

Lemma sample_file7 :
  xtree (page_at sample_env) 1 0 (di_btroot (dummy_inode (sample_root 7)))
    (file7_left ++ file7_right).
Proof.
  exists 5, [xad_of 0 1 40; xad_of 10 1 41]. split_and!; try done.
  - apply xt_page_b_sound. vm_compute. reflexivity.
  - apply sorted_b_sound. reflexivity.
  - eexists. split; [reflexivity|]. vm_compute. congruence.
  - exists [file7_left; file7_right]. split_and!; [done| |apply ranges_b_sound; reflexivity].
    repeat constructor; try done; eexists; (split; [reflexivity|]).
    + apply (leaf_b_sound _ _ _ 2). vm_compute. reflexivity.
    + apply (leaf_b_sound _ _ _ 2). vm_compute. reflexivity.
Qed.

Lemma holding_init : holding bcache_init None.
Proof.
  split; [|by left]. exists []. split; [|done]. split_and!; simpl; try done.
  - constructor.
  - intros i. rewrite lookup_empty. split; [by intros []|by intros ?%elem_of_nil].
  - intros i. rewrite lookup_empty. by intros [].
Qed.

Lemma xt_Lookup_correct_witness :
  exists st' r, xt_Lookup 2 sample_env bcache_init (dummy_inode (sample_root 7)) 11 8 = Ret (st', r) /\
    lookup_answer (file7_left ++ file7_right) 11 8 r /\ holding st' None.
Proof.
  apply (xt_Lookup_correct sample_env 1 (file7_left ++ file7_right) 2 bcache_init);
    [apply _|exact sample_file7|lia|exact holding_init|lia|lia].
Defined.

Lemma xt_Lookup_buffers_witness :
  exists st' r, xt_Lookup 2 sample_env bcache_init (dummy_inode (sample_root 7)) 11 8 = Ret (st', r) /\
    exists free, free_chain (bufs st') (bCachelist st') free /\ NoDup free /\
      (forall i, is_Some (bufs st' !! i) <-> i ∈ free) /\
      nBuffer st' = Z.of_nat (length free) /\ (length free <= NBUFFER)%nat.
Proof.
  destruct (xt_Lookup_page_ok sample_env 1 (file7_left ++ file7_right)
    (di_btroot (dummy_inode (sample_root 7))) 0 11 2 bcache_init None 8 1)
    as (st' & r & E & _); try lia; [apply _|exact sample_file7|exact holding_init|].
  exists st', r. split; [exact E|].
  exact (xt_Lookup_buffers 2 sample_env bcache_init st' _ 11 8 r holding_init E).
Defined.

Lemma xt_Lookup_empty_leaf_witness :
  exists st', xt_Lookup 2 sample_env bcache_init (dummy_inode (xtpage_bytes 5 [xad_of 0 1 42])) 0 8
    = Ret (st', XtResult 0 None 8).
Proof.
  apply (xt_Lookup_empty_leaf sample_env 2 bcache_init _ 0 8 5 2 [xad_of 0 1 42] 0%nat
    (xad_of 0 1 42) (default [] (page_at sample_env 42)));
    [apply _|exact holding_init|lia|apply xt_page_b_sound; vm_compute; reflexivity
    |apply sorted_b_sound; reflexivity|reflexivity|reflexivity|vm_compute; split; congruence
    |reflexivity|apply xt_page_b_sound; vm_compute; reflexivity|vm_compute; congruence].
Defined.

Lemma get_file_overflows_witness :
  get_file 1 sample_env bcache_init 5 = Fault BufferOverflow.
Proof.
  destruct (sample_inode 5 ltac:(lia)) as (dip & E & _ & Hroot).
  apply (get_file_overflows sample_env 0 [xad_of 0 2 30] 1 bcache_init 5 dip 30);
    [apply _|exact E| |lia|exact holding_init|reflexivity|vm_compute; repeat split; congruence].
  rewrite Hroot. apply (leaf_b_sound _ _ _ 3). vm_compute. reflexivity.
Defined.
