(* ===== verification/DirRead.v ===== *)
(** * Reading directories

    jfs_dirread.c: names are spread over 32-byte slots of a directory page
    ([name_inum], [print_direntry]); [readndir] delivers the entry at a position
    and [directory] looks a name up.  Both go down the leftmost edge of the
    directory's B+-tree and then follow the chain of leaves; [fuel] bounds the
    pages each of the two loops visits. *)

From S2P Require Import Prelude Layout Unicode Disk Xtree Sample Imap.

(** ** Definitions: entries *)

(** [ldtentry_t] at slot [h]: head segment of a leaf entry. *)
Definition ldt_inumber (slot : mem) (h : Z) : res Z := get_u slot (DTSLOTSIZE * h) 4.
Definition ldt_next (slot : mem) (h : Z) : res Z := get_s slot (DTSLOTSIZE * h + 4) 1.
Definition ldt_namlen (slot : mem) (h : Z) : res Z := get_u slot (DTSLOTSIZE * h + 5) 1.

(** [dtslot_t] at slot [i]: continuation segment. *)
Definition dts_next (slot : mem) (i : Z) : res Z := get_s slot (DTSLOTSIZE * i) 1.

(** A [UniChar] array of [n] units at byte [off]. *)
Fixpoint get_units (m : mem) (off : Z) (n : nat) : res (list Z) :=
  match n with
  | O => Ret []
  | S n' =>
      let* c := get_u m off 2 in
      let* rest := get_units m (off + 2) n' in
      Ret (c :: rest)
  end.

Definition ldt_name (slot : mem) (h : Z) : res (list Z) :=
  get_units slot (DTSLOTSIZE * h + 6) 11.
Definition dts_name (slot : mem) (i : Z) : res (list Z) :=
  get_units slot (DTSLOTSIZE * i + 2) 15.

(** [while (next >= 0)]: the units the continuation slots contribute.  [next] is
    a signed byte, so that a chain longer than 128 slots is a cycle. *)
Definition slot_fuel : nat := 128.

Fixpoint copy_slots (fuel : nat) (slot : mem) (next namlen len : Z) : res (list Z) :=
  if next <? 0 then Ret []
  else
    match fuel with
    | O => NoFuel
    | S fuel' =>
        let namlen := namlen - len in
        let len := Z.min namlen DTSLOTDATALEN in
        let* us := dts_name slot next in
        let* seg := UniStrncpy us (Z.to_nat len) in
        let* next := dts_next slot next in
        let* rest := copy_slots fuel' slot next namlen len in
        Ret (seg ++ rest)
    end.

(** The malloc'ed array [name] of [namlen + 1] units after the copy loop: the
    units written, cells never written, and the terminator. *)
Definition entry_name (slot : mem) (head_index : Z) : res (list (option Z)) :=
  let* namlen := ldt_namlen slot head_index in
  let len := Z.min namlen DTLHDRDATALEN in
  let* us := ldt_name slot head_index in
  let* head := UniStrncpy us (Z.to_nat len) in
  let* next := ldt_next slot head_index in
  let* rest := copy_slots slot_fuel slot next namlen len in
  let chars := head ++ rest in
  Ret ((Some <$> chars) ++ replicate (Z.to_nat namlen - length chars) None ++ [Some 0]).

(** [UTF8_Buffer], cleared and filled from [name]: the bytes before the zeros. *)
Definition UTF8_BUFFER_SIZE : Z := 8 * 4095.

Definition entry_utf8 (slot : mem) (head_index : Z) : res (list Z) :=
  let* name := entry_name slot head_index in
  let* namlen := ldt_namlen slot head_index in
  Unicode_String_to_UTF8_String name namlen.

Definition utf8_buffer (out : list Z) (i : nat) : Z := default 0 (out !! i).

(** Stores the name and the inode number of an entry.  [rname] is the initialised
    prefix of the caller's buffer of [cap] bytes; a failed malloc leaves both
    outputs as they were, and the caller cannot tell. *)
Definition name_inum (e : env) (slot : mem) (head_index : Z) (rname : list Z) (cap : Z)
    (gotinum : option Z) : res (list Z * option Z) :=
  let* namlen := ldt_namlen slot head_index in
  if negb (malloc_ok e (2 * (namlen + 1))) then Ret (rname, gotinum)
  else
    let* out := entry_utf8 slot head_index in
    if cap <? namlen + 1 then Fault BufferOverflow
    else
      let n := Z.to_nat namlen in
      let bytes := utf8_buffer out <$> seq 0 n in
      let* inumber := ldt_inumber slot head_index in
      Ret (bytes ++ [0] ++ drop (S n) rname, Some inumber).

(** [for (i = 0; i < snamelen; i++)]: [UTF8_Buffer] holds unsigned and [sname]
    signed characters. *)
Fixpoint utf8_compare (n i : nat) (out sname : list Z) : res bool :=
  match n with
  | O => Ret true
  | S n' =>
      if UTF8_BUFFER_SIZE <=? Z.of_nat i then Fault OutOfBounds
      else
        let* c := of_option OutOfBounds (sname !! i) in
        if utf8_buffer out i =? s8 c then utf8_compare n' (S i) out sname else Ret false
  end.

(** Returns [rc] and the value of [*gotinum]; -1 is stored in 64 unsigned bits. *)
Definition print_direntry (e : env) (slot : mem) (head_index : Z) (sname : list Z)
    (snamelen : nat) (gotinum : option Z) : res (Z * option Z) :=
  let* namlen := ldt_namlen slot head_index in
  if negb (malloc_ok e (2 * (namlen + 1))) then Ret (1, gotinum)
  else
    let* out := entry_utf8 slot head_index in
    let* same := utf8_compare snamelen 0 out sname in
    if same : bool then let* inumber := ldt_inumber slot head_index in Ret (0, Some inumber)
    else Ret (1, Some (u64 (-1))).

(** ** Definitions: pages *)

(** The label [descend]: to the leftmost leaf below an internal entry. *)
Fixpoint dt_descend (fuel : nat) (e : env) (xd : pxd_t) : res mem :=
  match fuel with
  | O => NoFuel
  | S fuel' =>
      let* node_address := shl_s64 (addressPXD xd) (u32 (s_l2bsize (jfs_sb e))) in
      let! dtree := xRead e node_address sizeof_dtpage sizeof_dtpage orelse Erc 1 in
      let* flag := dt_flag dtree in
      if Z.land flag BT_LEAF =? 0 then
        let* i := dt_stbl dtree 0 in
        let* xd := get_pxd dtree (DTSLOTSIZE * i) in
        dt_descend fuel' e xd
      else Ret dtree
  end.

(** The sibling read of the label [next_leaf]. *)
Definition dt_sibling (e : env) (next : Z) : res mem :=
  let* address := shl_s64 next (u32 (s_l2bsize (jfs_sb e))) in
  xRead e address sizeof_dtpage sizeof_dtpage.

(** The [for] loops of [readndir]: the index at which [cpos] meets [pos], and
    [cpos] afterwards. *)
Fixpoint readndir_scan (n : nat) (i cpos pos : Z) : option Z * Z :=
  match n with
  | O => (None, cpos)
  | S n' => if cpos =? pos then (Some i, cpos) else readndir_scan n' (i + 1) (cpos + 1) pos
  end.

Fixpoint readndir_leaves (fuel : nat) (e : env) (dtree : mem) (cpos pos : Z)
    (name2 : list Z) (cap : Z) (rino : option Z) : res (list Z * option Z) :=
  match fuel with
  | O => NoFuel
  | S fuel' =>
      let* nextindex := dt_nextindex dtree in
      match readndir_scan (Z.to_nat nextindex) 0 cpos pos with
      | (Some i, _) => let* h := dt_stbl dtree i in name_inum e dtree h name2 cap rino
      | (None, cpos) =>
          let* next := dt_next dtree in
          if next =? 0 then Err (Erc 1)
          else let! dtree := dt_sibling e next orelse Erc 1 in
               readndir_leaves fuel' e dtree cpos pos name2 cap rino
      end
  end.

(** Returns the caller's name buffer and inode number; any failure and the end
    of the directory are return code 1. *)
Definition readndir (fuel : nat) (e : env) (inum pos : Z) (name2 : list Z) (cap : Z)
    (rino : option Z) : res (list Z * option Z) :=
  if negb (malloc_ok e 100) then Err (Erc 1)
  else
    let! inode := read_inode fuel e inum orelse Erc 1 in
    if negb (Z.land (di_mode inode) IFMT =? IFDIR) then Err (Erc 1)
    else
      let root := di_btroot inode in
      let* flag := dtr_flag root in
      if negb (Z.land flag BT_LEAF =? 0) then
        let* nextindex := dtr_nextindex root in
        if nextindex =? 0 then Err (Erc 1)
        else
          match readndir_scan (Z.to_nat nextindex) 0 0 pos with
          | (Some i, _) => let* h := dtr_stbl root i in name_inum e root (u8 h) name2 cap rino
          | (None, _) => Err (Erc 1)
          end
      else
        let* i := dtr_stbl root 0 in
        let* xd := get_pxd root (DTSLOTSIZE * i) in
        let! dtree := dt_descend fuel e xd orelse Erc 1 in
        readndir_leaves fuel e dtree 0 pos name2 cap rino.

(** The [for] loops of [directory]: [rc] of the last comparison and [*gotinum]. *)
Fixpoint directory_scan (n : nat) (i : Z) (e : env) (slot : mem) (stbl : Z -> res Z)
    (name : list Z) (namelen : nat) (gotinum : option Z) : res (Z * option Z) :=
  match n with
  | O => Ret (1, gotinum)
  | S n' =>
      let* h := stbl i in
      let* '(rc, gotinum) := print_direntry e slot h name namelen gotinum in
      if rc =? 0 then Ret (0, gotinum)
      else directory_scan n' (i + 1) e slot stbl name namelen gotinum
  end.

Fixpoint directory_leaves (fuel : nat) (e : env) (dtree : mem) (name : list Z) (namelen : nat)
    (gotinum : option Z) : res (option Z) :=
  match fuel with
  | O => NoFuel
  | S fuel' =>
      let* nextindex := dt_nextindex dtree in
      let* '(rc, gotinum) :=
        directory_scan (Z.to_nat nextindex) 0 e dtree (dt_stbl dtree) name namelen gotinum in
      if rc =? 0 then Ret gotinum
      else
        let* next := dt_next dtree in
        if next =? 0 then Ret gotinum
        else
          match dt_sibling e next with
          | Ret dtree => directory_leaves fuel' e dtree name namelen gotinum
          | Err _ => Ret gotinum
          | Fault f => Fault f
          | NoFuel => NoFuel
          end
  end.

(** The final value of [*gotinum]; the C function returns nothing, and every
    early return leaves the variable as the caller passed it. *)
Definition directory (fuel : nat) (e : env) (inum : Z) (name : list Z) (namelen : nat)
    (gotinum : option Z) : res (option Z) :=
  match read_inode fuel e inum with
  | Ret inode =>
      if negb (Z.land (di_mode inode) IFMT =? IFDIR) then Ret gotinum
      else
        let root := di_btroot inode in
        let* flag := dtr_flag root in
        if negb (Z.land flag BT_LEAF =? 0) then
          let* nextindex := dtr_nextindex root in
          if nextindex =? 0 then Ret gotinum
          else
            let* r := directory_scan (Z.to_nat nextindex) 0 e root
                        (fun i => let* h := dtr_stbl root i in Ret (u8 h)) name namelen gotinum in
            Ret (snd r)
        else
          let* i := dtr_stbl root 0 in
          let* xd := get_pxd root (DTSLOTSIZE * i) in
          match dt_descend fuel e xd with
          | Ret dtree => directory_leaves fuel e dtree name namelen gotinum
          | Err _ => Ret gotinum
          | Fault f => Fault f
          | NoFuel => NoFuel
          end
  | Err _ => Ret gotinum
  | Fault f => Fault f
  | NoFuel => NoFuel
  end.

(** ** Specification: what a directory contains *)

(** A directory entry: its name as 16-bit units, and its inode number. *)
Record dent := Dent { d_units : list Z; d_inumber : Z }.

(** The units [cs] stored in continuation slots from [next] on, 15 per slot. *)
Inductive slot_chain (slot : mem) : Z -> list Z -> Prop :=
| chain_end next : next < 0 -> slot_chain slot next []
| chain_slot next cs us next' :
    0 <= next -> cs <> [] ->
    dts_name slot next = Ret us -> take (length (take 15 cs)) us = take 15 cs ->
    dts_next slot next = Ret next' -> slot_chain slot next' (drop 15 cs) ->
    slot_chain slot next cs.

(** Slot [h] is the head of entry [d]: 11 units in the head slot, the others in
    its chain. *)
Definition entry_at (slot : mem) (h : Z) (d : dent) : Prop :=
  Forall name_unit (d_units d) /\
  ldt_namlen slot h = Ret (Z.of_nat (length (d_units d))) /\
  (exists us, ldt_name slot h = Ret us /\
     take (length (take 11 (d_units d))) us = take 11 (d_units d)) /\
  (exists next, ldt_next slot h = Ret next /\ slot_chain slot next (drop 11 (d_units d))) /\
  ldt_inumber slot h = Ret (d_inumber d).

(** The first [length ds] entries of a sorted table are [ds]. *)
Definition entries_at (slot : mem) (stbl : Z -> res Z) (ds : list dent) : Prop :=
  forall i d, ds !! i = Some d -> exists h, stbl (Z.of_nat i) = Ret h /\ entry_at slot h d.

Definition dt_leaf (p : mem) (ds : list dent) : Prop :=
  (exists flag, dt_flag p = Ret flag /\ Z.land flag BT_LEAF <> 0) /\
  dt_nextindex p = Ret (Z.of_nat (length ds)) /\ entries_at p (dt_stbl p) ds.

(** The chain of [S n] leaves from page [p] on holds [ds]. *)
Inductive leaf_chain (pages : Z -> option mem) : nat -> mem -> list dent -> Prop :=
| leaf_last p ds : dt_leaf p ds -> dt_next p = Ret 0 -> leaf_chain pages 0 p ds
| leaf_cons n p ds next p' ds' :
    dt_leaf p ds -> dt_next p = Ret next -> next <> 0 -> pages next = Some p' ->
    leaf_chain pages n p' ds' -> leaf_chain pages (S n) p (ds ++ ds').

(** The leftmost descent from extent [xd] reaches leaf [p] after [n] pages. *)
Inductive leftmost (pages : Z -> option mem) : nat -> pxd_t -> mem -> Prop :=
| leftmost_leaf xd p flag :
    pages (addressPXD xd) = Some p -> pxd_ok xd -> dt_flag p = Ret flag ->
    Z.land flag BT_LEAF <> 0 -> leftmost pages 0 xd p
| leftmost_node n xd p flag i xd' q :
    pages (addressPXD xd) = Some p -> pxd_ok xd -> dt_flag p = Ret flag ->
    Z.land flag BT_LEAF = 0 -> dt_stbl p 0 = Ret i ->
    get_pxd p (DTSLOTSIZE * i) = Ret xd' -> leftmost pages n xd' q ->
    leftmost pages (S n) xd q.

(** The entries of a directory, in the order of the tree; [n] bounds the pages
    on the way down and along the leaves. *)
Inductive dir_contents (e : env) (root : mem) (n : nat) : list dent -> Prop :=
| dir_inline flag ds :
    dtr_flag root = Ret flag -> Z.land flag BT_LEAF <> 0 ->
    dtr_nextindex root = Ret (Z.of_nat (length ds)) ->
    entries_at root (fun i => let* h := dtr_stbl root i in Ret (u8 h)) ds ->
    dir_contents e root n ds
| dir_tree flag i xd p m k ds :
    dtr_flag root = Ret flag -> Z.land flag BT_LEAF = 0 ->
    dtr_stbl root 0 = Ret i -> get_pxd root (DTSLOTSIZE * i) = Ret xd ->
    leftmost (page_at e) m xd p -> leaf_chain (page_at e) k p ds ->
    (m < n)%nat -> (k < n)%nat -> dir_contents e root n ds.

(** The bytes the conversion makes of a name, and the name as [readndir] stores
    it: as many bytes as the name has units, zeros after the converted part. *)
Definition converted (cs : list Z) : list Z :=
  match Unicode_String_to_UTF8_String (Some <$> cs ++ [0]) (Z.of_nat (length cs)) with
  | Ret out => out
  | _ => []
  end.

Definition stored_name (cs : list Z) : list Z := utf8_buffer (converted cs) <$> seq 0 (length cs).

(** [sname] agrees with the conversion buffer on its whole length. *)
Definition name_matches (sname : list Z) (d : dent) : Prop :=
  forall i c, sname !! i = Some c -> utf8_buffer (converted (d_units d)) i = s8 c.

#[export] Instance name_matches_dec sname d : Decision (name_matches sname d).
Proof.
  refine (cast_if (decide (Forall (fun p => utf8_buffer (converted (d_units d)) p.1 = s8 p.2)
            (zip (seq 0 (length sname)) sname)))).
  - rewrite Forall_lookup in f. intros i c Hc. apply (f i (i, c)).
    rewrite lookup_zip_with, lookup_seq_lt by (by eapply lookup_lt_Some). by rewrite Hc.
  - intros Hm. apply n. apply Forall_lookup. intros i [j c] Hij.
    rewrite lookup_zip_with in Hij. destruct (seq 0 _ !! i) eqn:Es; [|done].
    apply lookup_seq in Es as [-> _]. simpl in Hij.
    destruct (sname !! i) eqn:Ec; [|done]. injection Hij as <- <-. simpl. by apply Hm.
Defined.

(** What a lookup of [sname] leaves in [*gotinum]: the number of the first entry
    that matches, -1 if some entry was compared, and otherwise the old value. *)
Fixpoint dir_lookup (sname : list Z) (ds : list dent) (g : option Z) : option Z :=
  match ds with
  | [] => g
  | d :: ds' =>
      if decide (name_matches sname d) then Some (d_inumber d)
      else dir_lookup sname ds' (Some (u64 (-1)))
  end.

(** ** Lemmas: entries *)

Lemma UniStrncpy_prefix us k cs :
  Forall name_unit cs -> take (length (take k cs)) us = take k cs ->
  UniStrncpy us (length (take k cs)) = Ret (take k cs).
Proof.
  intros Hcs Hus. destruct (UniStrncpy_total us (length (take k cs))) as (l & -> & _ & Hl).
  { apply (f_equal length) in Hus. rewrite (length_take us) in Hus. lia. }
  f_equal. rewrite Hl, Hus; [done|]. rewrite Hus. apply Forall_take.
  eapply Forall_impl; [exact Hcs|]. unfold name_unit; simpl; lia.
Qed.

Lemma length_take_min {A} (cs : list A) (k : nat) :
  Z.to_nat (Z.min (Z.of_nat (length cs)) (Z.of_nat k)) = length (take k cs).
Proof. rewrite length_take. lia. Qed.

Lemma copy_slots_ok slot next cs fuel namlen len :
  slot_chain slot next cs -> Forall name_unit cs ->
  (length cs <= 15 * fuel)%nat -> namlen - len = Z.of_nat (length cs) ->
  copy_slots fuel slot next namlen len = Ret cs.
Proof.
  intros Hc. revert fuel namlen len.
  induction Hc as [next Hn|next cs us next' Hn Hne Hus Htake Hnext Hc IH];
    intros fuel namlen len Hcs Hf Hl; destruct fuel as [|fuel]; cbn [copy_slots].
  1, 2: by replace (next <? 0) with true by lia.
  { destruct cs; simpl in *; [done|lia]. }
  replace (next <? 0) with false by lia. rewrite Hl, Hus. cbn [res_bind].
  change DTSLOTDATALEN with (Z.of_nat 15). rewrite length_take_min.
  rewrite UniStrncpy_prefix by done. cbn [res_bind]. rewrite Hnext. cbn [res_bind].
  rewrite IH; [cbn [res_bind]; by rewrite take_drop|by apply Forall_drop| |];
    rewrite length_drop; lia.
Qed.

Lemma entry_length slot h d : entry_at slot h d -> (length (d_units d) <= 255)%nat.
Proof.
  intros (_ & Hn & _). apply get_u_inv in Hn as (_ & _ & _ & Hn).
  change (2 ^ (8 * 1)) with 256 in Hn. lia.
Qed.

Lemma entry_name_ok slot h d :
  entry_at slot h d -> entry_name slot h = Ret (Some <$> d_units d ++ [0]).
Proof.
  intros He. pose proof (entry_length _ _ _ He) as Hlen.
  destruct He as (Hcs & Hn & (us & Hus & Htake) & (next & Hnext & Hc) & _).
  unfold entry_name. rewrite Hn, Hus. cbn [res_bind].
  change DTLHDRDATALEN with (Z.of_nat 11). rewrite length_take_min, UniStrncpy_prefix by done.
  cbn [res_bind]. rewrite Hnext. cbn [res_bind].
  rewrite (copy_slots_ok slot next (drop 11 (d_units d))); [|done|by apply Forall_drop| |].
  - cbn [res_bind]. rewrite take_drop, Nat2Z.id, Nat.sub_diag. simpl. by rewrite fmap_app.
  - rewrite length_drop. unfold slot_fuel. lia.
  - rewrite length_drop. lia.
Qed.

Lemma converted_ok cs :
  Forall name_unit cs ->
  Unicode_String_to_UTF8_String (Some <$> cs ++ [0]) (Z.of_nat (length cs)) = Ret (converted cs) /\
  (length (converted cs) <= length cs)%nat.
Proof.
  intros Hcs. unfold converted.
  destruct (Unicode_String_bounded cs (Z.of_nat (length cs))) as (out & -> & ? & _); [done|lia|].
  split; [done|lia].
Qed.

Lemma entry_utf8_ok slot h d :
  entry_at slot h d -> entry_utf8 slot h = Ret (converted (d_units d)).
Proof.
  intros He. unfold entry_utf8. rewrite (entry_name_ok _ _ _ He). cbn [res_bind].
  destruct He as (Hcs & -> & _). cbn [res_bind]. by apply converted_ok.
Qed.

Lemma name_inum_ok e slot h d rname cap g :
  malloc_ok e (2 * (Z.of_nat (length (d_units d)) + 1)) = true -> entry_at slot h d ->
  name_inum e slot h rname cap g =
  if cap <? Z.of_nat (length (d_units d)) + 1 then Fault BufferOverflow
  else Ret (stored_name (d_units d) ++ [0] ++ drop (S (length (d_units d))) rname,
            Some (d_inumber d)).
Proof.
  intros Hm He. unfold name_inum. pose proof He as (_ & -> & _ & _ & Hi). cbn [res_bind].
  rewrite Hm, (entry_utf8_ok _ _ _ He), Nat2Z.id. cbn [negb res_bind].
  case_match; [done|]. by rewrite Hi.
Qed.

Lemma utf8_compare_ok out sname n i :
  (i + n = length sname)%nat -> Z.of_nat (length sname) <= UTF8_BUFFER_SIZE ->
  exists b : bool, utf8_compare n i out sname = Ret b /\
    (b = true <-> forall j c, (i <= j)%nat -> sname !! j = Some c -> utf8_buffer out j = s8 c).
Proof.
  revert i. induction n as [|n IH]; intros i Hl Hb; cbn [utf8_compare].
  { exists true. split; [done|]. split; [|done]. intros _ j c Hj Hc.
    apply lookup_lt_Some in Hc. lia. }
  replace (UTF8_BUFFER_SIZE <=? Z.of_nat i) with false by lia.
  destruct (lookup_lt_is_Some_2 sname i ltac:(lia)) as [c Hc]. rewrite Hc. cbn [of_option res_bind].
  destruct (Z.eqb_spec (utf8_buffer out i) (s8 c)) as [Heq|Hne].
  - destruct (IH (S i)) as (b & -> & Hiff); [lia|done|]. exists b. split; [done|].
    rewrite Hiff. split; intros H j c' Hj Hc'.
    + destruct (decide (i = j)) as [<-|]; [congruence|]. apply H; [lia|done].
    + apply H; [lia|done].
  - exists false. split; [done|]. split; [done|]. intros H. exfalso. exact (Hne (H i c ltac:(lia) Hc)).
Qed.

Lemma print_direntry_ok e slot h d sname g :
  malloc_ok e (2 * (Z.of_nat (length (d_units d)) + 1)) = true -> entry_at slot h d ->
  Z.of_nat (length sname) <= UTF8_BUFFER_SIZE ->
  print_direntry e slot h sname (length sname) g =
  if decide (name_matches sname d) then Ret (0, Some (d_inumber d)) else Ret (1, Some (u64 (-1))).
Proof.
  intros Hm He Hs. unfold print_direntry. pose proof He as (_ & -> & _ & _ & Hi). cbn [res_bind].
  rewrite Hm, (entry_utf8_ok _ _ _ He). cbn [negb res_bind].
  destruct (utf8_compare_ok (converted (d_units d)) sname (length sname) 0) as (b & -> & Hb); [lia|done|].
  assert (b = true <-> name_matches sname d) as Hb'.
  { rewrite Hb. split; intros H j c; [apply H; lia|intros _; apply H]. }
  cbn [res_bind]. destruct b; case_decide; rewrite ?Hi; intuition congruence.
Qed.

(** ** Lemmas: pages *)

Lemma dt_sibling_ok e next p : WfEnv e -> page_at e next = Some p -> dt_sibling e next = Ret p.
Proof.
  intros Hwf Hp. pose proof Hp as (? & Hr & _)%page_at_inv. unfold dt_sibling.
  rewrite u32_l2bsize by done. pose proof wf_l2bsize. pose proof wf_size. unfold PSIZE in *.
  rewrite shl_s64_ok by lia. by apply xRead_page.
Qed.

Lemma dt_descend_ok e m xd p fuel :
  WfEnv e -> leftmost (page_at e) m xd p -> (m < fuel)%nat -> dt_descend fuel e xd = Ret p.
Proof.
  intros Hwf Hl. revert fuel.
  induction Hl as [xd p flag Hp Hok Hf Hb|n xd p flag i xd' q Hp Hok Hf Hb Hi Hxd Hl IH];
    intros [|fuel] Hfuel; try lia; cbn [dt_descend];
    rewrite u32_l2bsize, shl_block by (done || (pose proof (addressPXD_range xd Hok); lia));
    cbn [res_bind]; change sizeof_dtpage with PSIZE; rewrite (xRead_page e _ _ Hwf Hp);
    cbn [res_try]; rewrite Hf; cbn [res_bind].
  - by replace (Z.land flag BT_LEAF =? 0) with false by lia.
  - rewrite Hb. cbn [Z.eqb]. rewrite Hi. cbn [res_bind]. rewrite Hxd. cbn [res_bind]. apply IH. lia.
Qed.

Lemma readndir_scan_eq n i cpos pos :
  cpos <= pos ->
  readndir_scan n i cpos pos =
  if pos <? cpos + Z.of_nat n then (Some (i + (pos - cpos)), pos) else (None, cpos + Z.of_nat n).
Proof.
  revert i cpos. induction n as [|n IH]; intros i cpos Hc; cbn [readndir_scan].
  { replace (pos <? _) with false by lia. f_equal. lia. }
  destruct (Z.eqb_spec cpos pos) as [->|].
  - replace (pos <? _) with true by lia. do 2 f_equal. lia.
  - rewrite IH by lia. replace (pos <? cpos + Z.of_nat (S n)) with (pos <? cpos + 1 + Z.of_nat n) by lia.
    case_match; [do 2 f_equal|f_equal]; lia.
Qed.

(** The counter of entries is an [int]; it does not pass the position asked for, which
    is one too, so that the increment cannot overflow. *)
Lemma readndir_counter n i cpos pos :
  0 <= cpos <= pos -> pos < 2 ^ 31 -> 0 <= (readndir_scan n i cpos pos).2 < 2 ^ 31.
Proof. intros Hc Hp. rewrite readndir_scan_eq by lia. case_match; cbn [snd]; lia. Qed.

(** What [readndir] delivers for an entry, and at the end of the directory. *)
Definition readndir_result (o : option dent) (rname : list Z) (cap : Z) : res (list Z * option Z) :=
  match o with
  | None => Err (Erc 1)
  | Some d =>
      if cap <? Z.of_nat (length (d_units d)) + 1 then Fault BufferOverflow
      else Ret (stored_name (d_units d) ++ [0] ++ drop (S (length (d_units d))) rname,
                Some (d_inumber d))
  end.

Lemma readndir_leaves_ok e n p ds fuel cpos pos rname cap g :
  WfEnv e -> leaf_chain (page_at e) n p ds -> (n < fuel)%nat -> cpos <= pos ->
  readndir_leaves fuel e p cpos pos rname cap g =
  readndir_result (ds !! Z.to_nat (pos - cpos)) rname cap.
Proof.
  intros Hwf Hc. revert fuel cpos.
  assert (forall p ds cpos d, entries_at p (dt_stbl p) ds -> cpos <= pos ->
    ds !! Z.to_nat (pos - cpos) = Some d ->
    (let* h := dt_stbl p (0 + (pos - cpos)) in name_inum e p h rname cap g) =
    readndir_result (Some d) rname cap) as Hhit.
  { intros q es c d He Hcp Hd. destruct (He _ _ Hd) as (h & Hh & Hent).
    rewrite Z2Nat.id in Hh by lia. rewrite Z.add_0_l, Hh. cbn [res_bind].
    by rewrite (name_inum_ok _ _ _ d) by (done || by rewrite wf_malloc). }
  induction Hc as [p ds (_ & Hn & He) Hnext|n p ds next p' ds' (_ & Hn & He) Hnext Hnz Hp' Hc IH];
    intros [|fuel] cpos Hfuel Hcp; try lia; cbn [readndir_leaves];
    rewrite Hn; cbn [res_bind]; rewrite Nat2Z.id, readndir_scan_eq by done;
    (destruct (Z.ltb_spec pos (cpos + Z.of_nat (length ds)));
      [destruct (lookup_lt_is_Some_2 ds (Z.to_nat (pos - cpos)) ltac:(lia)) as [d Hd]|]).
  - by rewrite (Hhit _ _ _ _ He Hcp Hd), Hd.
  - rewrite Hnext. cbn [res_bind Z.eqb]. by rewrite lookup_ge_None_2 by lia.
  - rewrite (Hhit _ _ _ _ He Hcp Hd), lookup_app_l by lia. by rewrite Hd.
  - rewrite Hnext. cbn [res_bind]. replace (next =? 0) with false by lia.
    rewrite (dt_sibling_ok _ _ _ Hwf Hp'). cbn [res_try]. rewrite IH by lia.
    rewrite lookup_app_r by lia. do 2 f_equal. lia.
Qed.

Lemma dir_lookup_app sname ds ds' g :
  dir_lookup sname (ds ++ ds') g =
  if decide (Exists (name_matches sname) ds) then dir_lookup sname ds g
  else dir_lookup sname ds' (dir_lookup sname ds g).
Proof.
  revert g. induction ds as [|d ds IH]; intros g; cbn [app dir_lookup].
  { rewrite decide_False; [done|]. by intros ?%Exists_nil. }
  destruct (decide (name_matches sname d)).
  - rewrite decide_True; [done|]. by left.
  - rewrite IH. repeat case_decide; try done; exfalso.
    + match goal with H : ~ Exists _ _ |- _ => apply H end. by right.
    + match goal with H : Exists _ (_ :: _) |- _ => apply Exists_cons in H as [|] end; done.
Qed.

Lemma directory_scan_ok e slot stbl sname ds k g :
  WfEnv e -> Z.of_nat (length sname) <= UTF8_BUFFER_SIZE ->
  (forall i d, ds !! i = Some d -> exists h, stbl (k + Z.of_nat i) = Ret h /\ entry_at slot h d) ->
  exists rc : Z, directory_scan (length ds) k e slot stbl sname (length sname) g =
               Ret (rc, dir_lookup sname ds g) /\ (rc = 0 <-> Exists (name_matches sname) ds).
Proof.
  intros Hwf Hs. revert k g. induction ds as [|d ds IH]; intros k g He; cbn [length directory_scan dir_lookup].
  { exists 1. split; [done|]. split; [lia|by intros ?%Exists_nil]. }
  destruct (He 0%nat d eq_refl) as (h & Hh & Hd). rewrite Z.add_0_r in Hh. rewrite Hh. cbn [res_bind].
  rewrite (print_direntry_ok _ _ _ d) by (done || by rewrite wf_malloc).
  case_decide; cbn [res_bind Z.eqb].
  - exists 0. split; [done|]. split; [|done]. intros _. by left.
  - destruct (IH (k + 1) (Some (u64 (-1)))) as (rc & -> & Hrc).
    { intros i d' Hi. destruct (He (S i) d' Hi) as (h' & ? & ?). exists h'. split; [|done].
      by replace (k + 1 + Z.of_nat i) with (k + Z.of_nat (S i)) by lia. }
    exists rc. split; [done|]. rewrite Hrc, Exists_cons. tauto.
Qed.

Lemma directory_leaves_ok e n p ds fuel sname g :
  WfEnv e -> Z.of_nat (length sname) <= UTF8_BUFFER_SIZE ->
  leaf_chain (page_at e) n p ds -> (n < fuel)%nat ->
  directory_leaves fuel e p sname (length sname) g = Ret (dir_lookup sname ds g).
Proof.
  intros Hwf Hs Hc. revert fuel g.
  induction Hc as [p ds (_ & Hn & He) Hnext|n p ds next p' ds' (_ & Hn & He) Hnext Hnz Hp' Hc IH];
    intros [|fuel] g Hfuel; try lia; cbn [directory_leaves]; rewrite Hn; cbn [res_bind];
    rewrite Nat2Z.id; (destruct (directory_scan_ok e p (dt_stbl p) sname ds 0 g) as (rc & -> & Hrc);
      [done|done|intros i d Hi; rewrite Z.add_0_l; by apply He|]); cbn [res_bind].
  - rewrite Hnext. cbn [res_bind Z.eqb]. by case_match.
  - rewrite dir_lookup_app. destruct (Z.eqb_spec rc 0).
    + by rewrite decide_True by tauto.
    + rewrite decide_False by tauto. rewrite Hnext. cbn [res_bind].
      replace (next =? 0) with false by lia. rewrite (dt_sibling_ok _ _ _ Hwf Hp'). apply IH. lia.
Qed.

(** ** Lemmas: directories *)

Definition is_dir (inode : dinode_t) : Prop := Z.land (di_mode inode) IFMT = IFDIR.

Lemma readndir_ok e fuel inum inode n ds pos rname cap g :
  WfEnv e -> read_inode fuel e inum = Ret inode -> is_dir inode ->
  dir_contents e (di_btroot inode) n ds -> (n <= fuel)%nat -> 0 <= pos ->
  readndir fuel e inum pos rname cap g = readndir_result (ds !! Z.to_nat pos) rname cap.
Proof.
  intros Hwf Hi Hd Hc Hf Hpos. unfold readndir. rewrite wf_malloc, Hi. cbn [negb res_try].
  rewrite Hd, Z.eqb_refl. cbn [negb].
  destruct Hc as [flag ds Hfl Hb Hn He|flag i xd p m k ds Hfl Hb Hs Hx Hl Hlc Hm Hk];
    rewrite Hfl; cbn [res_bind].
  - replace (Z.land flag BT_LEAF =? 0) with false by lia. cbn [negb]. rewrite Hn. cbn [res_bind].
    rewrite Nat2Z.id, readndir_scan_eq by done. rewrite Z.add_0_l, Z.sub_0_r, Z.add_0_l.
    destruct (Z.ltb_spec pos (Z.of_nat (length ds))).
    + replace (Z.of_nat (length ds) =? 0) with false by lia.
      destruct (lookup_lt_is_Some_2 ds (Z.to_nat pos) ltac:(lia)) as [d Hdd].
      destruct (He _ _ Hdd) as (h & Hh & Hent). rewrite Z2Nat.id in Hh by done.
      apply res_bind_inv in Hh as (h0 & -> & [= <-]). cbn [res_bind].
      rewrite (name_inum_ok _ _ _ d) by (done || by rewrite wf_malloc). by rewrite Hdd.
    + rewrite lookup_ge_None_2 by lia. by case_match.
  - rewrite Hb. cbn [Z.eqb negb]. rewrite Hs. cbn [res_bind]. rewrite Hx. cbn [res_bind].
    rewrite (dt_descend_ok _ m _ p) by (done || lia). cbn [res_try].
    rewrite (readndir_leaves_ok e k p ds) by (done || lia). by rewrite Z.sub_0_r.
Qed.

Lemma directory_ok e fuel inum inode n ds sname g :
  WfEnv e -> read_inode fuel e inum = Ret inode -> is_dir inode ->
  dir_contents e (di_btroot inode) n ds -> (n <= fuel)%nat ->
  Z.of_nat (length sname) <= UTF8_BUFFER_SIZE ->
  directory fuel e inum sname (length sname) g = Ret (dir_lookup sname ds g).
Proof.
  intros Hwf Hi Hd Hc Hf Hs. unfold directory. rewrite Hi, Hd, Z.eqb_refl. cbn [negb].
  destruct Hc as [flag ds Hfl Hb Hn He|flag i xd p m k ds Hfl Hb Hst Hx Hl Hlc Hm Hk];
    rewrite Hfl; cbn [res_bind].
  - replace (Z.land flag BT_LEAF =? 0) with false by lia. cbn [negb]. rewrite Hn. cbn [res_bind].
    destruct (Z.eqb_spec (Z.of_nat (length ds)) 0); [by destruct ds|]. rewrite Nat2Z.id.
    destruct (directory_scan_ok e (di_btroot inode)
      (fun i => let* h := dtr_stbl (di_btroot inode) i in Ret (u8 h)) sname ds 0 g)
      as (rc & -> & _); [done|done|intros i d Hid; rewrite Z.add_0_l; by apply He|done].
  - rewrite Hb. cbn [Z.eqb negb]. rewrite Hst. cbn [res_bind]. rewrite Hx. cbn [res_bind].
    rewrite (dt_descend_ok _ m _ p) by (done || lia).
    by rewrite (directory_leaves_ok e k p ds) by (done || lia).
Qed.

Lemma dir_contents_length e root n ds i d :
  dir_contents e root n ds -> ds !! i = Some d -> (length (d_units d) <= 255)%nat.
Proof.
  assert (forall slot stbl es j c, entries_at slot stbl es -> es !! j = Some c ->
    (length (d_units c) <= 255)%nat) as Hlen.
  { intros slot stbl es j c He Hj. destruct (He _ _ Hj) as (h & _ & Hc). by eapply entry_length. }
  intros [flag ds' _ _ _ He|flag j xd p m k ds' _ _ _ _ _ Hl _ _]; [by eapply Hlen|].
  revert i. induction Hl as [p es (_ & _ & He) _|k p es next p' es' (_ & _ & He) _ _ _ _ IH];
    intros i; [by eapply Hlen|].
  intros [Hi|[_ Hi]]%lookup_app_Some; [by eapply Hlen|by eapply IH].
Qed.

(** ** Lemmas: names *)

Lemma converted_ascii cs :
  Forall name_unit cs -> Forall (fun c => c < 0x80) cs -> converted cs = cs.
Proof.
  intros Hcs Ha. unfold converted.
  rewrite Unicode_String_full by (done || by rewrite utf8_encode_ascii).
  by apply utf8_encode_ascii.
Qed.

Lemma stored_name_ascii cs :
  Forall name_unit cs -> Forall (fun c => c < 0x80) cs -> stored_name cs = cs.
Proof.
  intros Hcs Ha. unfold stored_name. rewrite converted_ascii by done.
  apply list_eq. intros i. rewrite list_lookup_fmap. destruct (decide (i < length cs)%nat).
  - rewrite lookup_seq_lt by done. simpl. unfold utf8_buffer.
    by destruct (lookup_lt_is_Some_2 cs i ltac:(lia)) as [c ->].
  - rewrite lookup_seq_ge, lookup_ge_None_2 by lia. done.
Qed.

Lemma prefix_lookup_iff {A} (a b : list A) :
  a `prefix_of` b <-> forall i x, a !! i = Some x -> b !! i = Some x.
Proof.
  split.
  - intros [k ->] i x H. by rewrite lookup_app_l by (by eapply lookup_lt_Some).
  - revert b. induction a as [|x a IH]; intros b H; [apply prefix_nil|].
    destruct b as [|y b]; [by specialize (H 0%nat x eq_refl)|].
    pose proof (H 0%nat x eq_refl) as [= <-]. apply prefix_cons, IH.
    intros i z Hi. exact (H (S i) z Hi).
Qed.

(** The bytes of a C string without its terminator, all below 0x80. *)
Definition ascii_name (s : list Z) : Prop := Forall (fun c => 0 < c < 0x80) s.

Lemma ascii_name_units s : ascii_name s -> Forall name_unit s /\ Forall (fun c => c < 0x80) s.
Proof.
  unfold ascii_name, name_unit. intros H.
  split; (eapply Forall_impl; [exact H|]); simpl; lia.
Qed.

Lemma name_matches_ascii sname d :
  ascii_name sname -> ascii_name (d_units d) ->
  name_matches sname d <-> sname `prefix_of` d_units d.
Proof.
  intros Hs Hd. destruct (ascii_name_units _ Hd). rewrite prefix_lookup_iff. unfold name_matches.
  rewrite converted_ascii by done. unfold ascii_name in *.
  split; intros H' i c Hc; pose proof (Forall_lookup_1 _ _ _ _ Hs Hc) as Hr;
    specialize (H' i c Hc); unfold utf8_buffer in *.
  - rewrite wrapS_small in H' by lia. destruct (d_units d !! i); simpl in H'; [congruence|lia].
  - rewrite H'. simpl. by rewrite wrapS_small by lia.
Qed.

Lemma converted_bytes cs :
  Forall name_unit cs -> Forall (fun b => 0 <= b < 256) (converted cs).
Proof.
  intros Hcs. unfold converted.
  by destruct (Unicode_String_bounded cs (Z.of_nat (length cs))) as (out & -> & _ & ?); [|lia|].
Qed.

Lemma name_matches_high sname d c :
  Forall name_unit (d_units d) -> c ∈ sname -> 0x80 <= c < 0x100 -> ~ name_matches sname d.
Proof.
  intros Hd [i Hi]%list_elem_of_lookup Hc Hm. specialize (Hm i c Hi). unfold utf8_buffer in Hm.
  assert (s8 c < 0). { unfold wrapS. change (2 ^ (8 - 1)) with 128. change (2 ^ 8) with 256. zlia. }
  pose proof (converted_bytes _ Hd) as Hb. rewrite Forall_lookup in Hb.
  destruct (converted (d_units d) !! i) as [b|] eqn:E; simpl in Hm; [specialize (Hb _ _ E)|]; lia.
Qed.

Lemma dir_lookup_none sname ds g :
  Forall (fun d => ~ name_matches sname d) ds -> ds <> [] -> dir_lookup sname ds g = Some (u64 (-1)).
Proof.
  intros Hf Hne. destruct Hf as [|d ds Hd Hf]; [done|]. cbn [dir_lookup].
  rewrite decide_False by done. clear Hd Hne. induction Hf as [|d' ds Hd Hf IH]; [done|].
  cbn [dir_lookup]. by rewrite decide_False by done.
Qed.

Lemma dir_lookup_first sname ds i d g :
  ds !! i = Some d -> name_matches sname d ->
  (forall j d', (j < i)%nat -> ds !! j = Some d' -> ~ name_matches sname d') ->
  dir_lookup sname ds g = Some (d_inumber d).
Proof.
  revert i g. induction ds as [|d0 ds IH]; intros i g Hi Hm Hbefore; [done|]. cbn [dir_lookup].
  destruct i as [|i].
  - injection Hi as ->. by rewrite decide_True.
  - rewrite decide_False by (apply (Hbefore 0%nat); [lia|done]).
    apply (IH i); [done|done|]. intros j d' Hj. apply (Hbefore (S j)). lia.
Qed.

(** ** Lemmas: names in order *)

(** The order of names, unit by unit: that of the entries of a directory page, whose
    table of entries is sorted. *)
Fixpoint name_lt (a b : list Z) : bool :=
  match a, b with
  | _, [] => false
  | [], _ => true
  | x :: a', y :: b' => (x <? y) || (x =? y) && name_lt a' b'
  end.

Definition in_order (ds : list dent) : Prop :=
  forall i j d d', (i < j)%nat -> ds !! i = Some d -> ds !! j = Some d' -> name_lt (d_units d) (d_units d') = true.

(** A name comes before the names it begins. *)
Lemma name_lt_prefix a b : a `prefix_of` b -> name_lt b a = false.
Proof.
  intros [k ->]. induction a as [|x a IH]; [by destruct k|]. cbn [name_lt app].
  by rewrite Z.ltb_irrefl, Z.eqb_refl, IH.
Qed.

Lemma listed_first ds pos d :
  in_order ds -> ds !! pos = Some d ->
  forall j d', ds !! j = Some d' -> d_units d `prefix_of` d_units d' -> (pos <= j)%nat.
Proof.
  intros Hord Hd j d' Hd' Hp. destruct (decide (pos <= j)%nat) as [|Hj]; [done|].
  pose proof (Hord j pos d' d ltac:(lia) Hd' Hd) as Hlt. by rewrite name_lt_prefix in Hlt.
Qed.

(** ** Lemmas: deciding the directory predicates on concrete pages *)

Fixpoint slot_chain_b (fuel : nat) (slot : mem) (next : Z) (cs : list Z) : bool :=
  match cs with
  | [] => next <? 0
  | _ =>
      match fuel with
      | O => false
      | S fuel' =>
          match dts_name slot next, dts_next slot next with
          | Ret us, Ret next' =>
              (0 <=? next) && bool_decide (take (length (take 15 cs)) us = take 15 cs) &&
              slot_chain_b fuel' slot next' (drop 15 cs)
          | _, _ => false
          end
      end
  end.

Lemma slot_chain_b_sound fuel slot next cs :
  slot_chain_b fuel slot next cs = true -> slot_chain slot next cs.
Proof.
  revert next cs. induction fuel as [|fuel IH]; intros next [|c cs] H; cbn [slot_chain_b] in H.
  1, 3: constructor; lia.
  - done.
  - destruct (dts_name slot next) eqn:E1; try done. destruct (dts_next slot next) eqn:E2; try done.
    rewrite !andb_true_iff, bool_decide_eq_true in H. destruct H as [[? ?] ?].
    eapply chain_slot; [lia|done|done|done|done|by apply IH].
Qed.

Definition entry_at_b (slot : mem) (h : Z) (d : dent) : bool :=
  forallb (fun c => (0 <? c) && (c <? 2 ^ 16)) (d_units d) &&
  bool_decide (ldt_namlen slot h = Ret (Z.of_nat (length (d_units d)))) &&
  match ldt_name slot h, ldt_next slot h with
  | Ret us, Ret next =>
      bool_decide (take (length (take 11 (d_units d))) us = take 11 (d_units d)) &&
      slot_chain_b slot_fuel slot next (drop 11 (d_units d))
  | _, _ => false
  end &&
  bool_decide (ldt_inumber slot h = Ret (d_inumber d)).

Lemma entry_at_b_sound slot h d : entry_at_b slot h d = true -> entry_at slot h d.
Proof.
  unfold entry_at_b, entry_at. rewrite !andb_true_iff, !bool_decide_eq_true, forallb_forall.
  intros [[[Hu Hn] Hs] Hi]. destruct (ldt_name slot h) as [us| | |]; try done.
  destruct (ldt_next slot h) as [next| | |]; try done.
  rewrite andb_true_iff, bool_decide_eq_true in Hs. destruct Hs as [Hs Hc].
  split_and!; [|done|by exists us|exists next; split; [done|by eapply slot_chain_b_sound]|done].
  apply Forall_forall. intros c Hc'%list_elem_of_In. specialize (Hu c Hc'). unfold name_unit. lia.
Qed.

Definition entries_at_b (slot : mem) (stbl : Z -> res Z) (ds : list dent) : bool :=
  forallb (fun i => match ds !! i, stbl (Z.of_nat i) with
                    | Some d, Ret h => entry_at_b slot h d
                    | _, _ => false
                    end) (seq 0 (length ds)).

Lemma entries_at_b_sound slot stbl ds : entries_at_b slot stbl ds = true -> entries_at slot stbl ds.
Proof.
  unfold entries_at_b. rewrite forallb_forall. intros Hall i d Hi.
  specialize (Hall i). rewrite Hi in Hall. pose proof (lookup_lt_Some _ _ _ Hi).
  specialize (Hall ltac:(apply in_seq; lia)). destruct (stbl (Z.of_nat i)) as [h| | |]; try done.
  exists h. split; [done|by apply entry_at_b_sound].
Qed.

Definition dt_leaf_b (p : mem) (ds : list dent) : bool :=
  match dt_flag p with Ret flag => negb (Z.land flag BT_LEAF =? 0) | _ => false end &&
  bool_decide (dt_nextindex p = Ret (Z.of_nat (length ds))) && entries_at_b p (dt_stbl p) ds.

Lemma dt_leaf_b_sound p ds : dt_leaf_b p ds = true -> dt_leaf p ds.
Proof.
  unfold dt_leaf_b, dt_leaf. rewrite !andb_true_iff, bool_decide_eq_true. intros [[Hf Hn] He].
  split; [|split; [done|by apply entries_at_b_sound]].
  destruct (dt_flag p) as [flag| | |]; try done. exists flag. split; [done|lia].
Qed.

(** ** Properties *)

(** C15: [readndir] enumerates a directory.  For an inline directory and for one
    whose leftmost descent and leaf chain are intact, position [pos] yields the
    name and inode number of the [pos]-th entry in tree order, a name longer than
    the caller's buffer overruns it, and every position from the number of
    entries on is error 1. *)
Theorem readndir_correct (e : env) (fuel : nat) (inum : Z) (inode : dinode_t) (n : nat)
    (ds : list dent) (pos : Z) (rname : list Z) (cap : Z) (g : option Z) :
  WfEnv e -> read_inode fuel e inum = Ret inode -> is_dir inode ->
  dir_contents e (di_btroot inode) n ds -> (n <= fuel)%nat -> 0 <= pos ->
  readndir fuel e inum pos rname cap g =
  match ds !! Z.to_nat pos with
  | None => Err (Erc 1)
  | Some d =>
      if cap <? Z.of_nat (length (d_units d)) + 1 then Fault BufferOverflow
      else Ret (stored_name (d_units d) ++ [0] ++ drop (S (length (d_units d))) rname,
                Some (d_inumber d))
  end.
Proof. apply readndir_ok. Qed.

(** C14: [directory] refines a search of the directory's entries in order: it
    leaves the number of the first entry the comparison accepts, -1 when the
    comparison rejected every entry, and the caller's value untouched when there
    is no entry at all. *)
Theorem directory_correct (e : env) (fuel : nat) (inum : Z) (inode : dinode_t) (n : nat)
    (ds : list dent) (sname : list Z) (g : option Z) :
  WfEnv e -> read_inode fuel e inum = Ret inode -> is_dir inode ->
  dir_contents e (di_btroot inode) n ds -> (n <= fuel)%nat ->
  Z.of_nat (length sname) <= UTF8_BUFFER_SIZE ->
  directory fuel e inum sname (length sname) g = Ret (dir_lookup sname ds g).
Proof. apply directory_ok. Qed.

(** C24: listing and looking up agree, in a directory of ASCII names and for the names
    that are listed before every other entry whose name they begin: looking up the
    name that [readndir] stored at such a position finds the inode number it stored.
    In a directory in the order of its names, without duplicates, these are all its
    names ([listed_first]). *)
Theorem readndir_directory_roundtrip (e : env) (fuel : nat) (inum : Z) (inode : dinode_t) (n : nat)
    (ds : list dent) (pos : Z) (name : list Z) (ino : option Z) (cap : Z) (g : option Z) :
  WfEnv e -> read_inode fuel e inum = Ret inode -> is_dir inode ->
  dir_contents e (di_btroot inode) n ds -> (n <= fuel)%nat -> 0 <= pos ->
  Forall (fun d => ascii_name (d_units d)) ds ->
  (forall j d, ds !! j = Some d -> name `prefix_of` d_units d -> (Z.to_nat pos <= j)%nat) ->
  readndir fuel e inum pos [] cap g = Ret (name ++ [0], ino) ->
  directory fuel e inum name (length name) g = Ret ino.
Proof.
  intros Hwf Hi Hd Hc Hf Hpos Hascii Hfirst Hr.
  rewrite (readndir_ok e fuel inum inode n ds) in Hr by done. unfold readndir_result in Hr.
  destruct (ds !! Z.to_nat pos) as [d|] eqn:Hdd; [|done]. case_match; [done|].
  rewrite drop_nil in Hr. cbn [app] in Hr. injection Hr as [Hname _]%app_inj_tail <-.
  pose proof (proj1 (Forall_lookup _ _) Hascii) as Ha. pose proof (Ha _ _ Hdd) as Had.
  destruct (ascii_name_units _ Had). rewrite stored_name_ascii in Hname by done. subst name.
  pose proof (dir_contents_length _ _ _ _ _ _ Hc Hdd).
  rewrite (directory_ok e fuel inum inode n ds) by (done || (unfold UTF8_BUFFER_SIZE; lia)).
  f_equal. apply (dir_lookup_first _ _ (Z.to_nat pos)); [done|by apply name_matches_ascii|].
  intros j d' Hj Hd' Hm%name_matches_ascii; [|done|by eapply Ha]. specialize (Hfirst j d' Hd' Hm). lia.
Qed.

(** C26: In a directory of ASCII names the comparison of [print_direntry] is a
    prefix test: a lookup finds the first entry whose name starts with the name
    asked for, whether or not it is longer. *)
Theorem directory_prefix_match (e : env) (fuel : nat) (inum : Z) (inode : dinode_t) (n : nat)
    (ds : list dent) (sname : list Z) (g : option Z) :
  WfEnv e -> read_inode fuel e inum = Ret inode -> is_dir inode ->
  dir_contents e (di_btroot inode) n ds -> (n <= fuel)%nat ->
  Z.of_nat (length sname) <= UTF8_BUFFER_SIZE ->
  ascii_name sname -> Forall (fun d => ascii_name (d_units d)) ds -> ds <> [] ->
  directory fuel e inum sname (length sname) g =
  Ret (Some match list_find (fun d => sname `prefix_of` d_units d) ds with
            | Some (_, d) => d_inumber d
            | None => u64 (-1)
            end).
Proof.
  intros Hwf Hi Hd Hc Hf Hs Ha Hall Hne.
  rewrite (directory_ok e fuel inum inode n ds) by done. f_equal.
  rewrite Forall_lookup in Hall.
  destruct (list_find _ ds) as [[i d]|] eqn:E.
  - apply list_find_Some in E as (Hdi & Hp & Hbefore).
    apply (dir_lookup_first _ _ i); [done|apply name_matches_ascii; [done|by eapply Hall|done]|].
    intros j d' Hj Hd' Hm. eapply Hbefore; [exact Hd'|done|].
    apply name_matches_ascii; [done|by eapply Hall|done].
  - apply list_find_None in E. apply dir_lookup_none; [|done].
    rewrite Forall_lookup in *. intros i d Hdi Hm. apply (E _ _ Hdi).
    apply name_matches_ascii; [done|by eapply Hall|done].
Qed.

(** C37: a name with a byte above 0x7F is never found: the conversion buffer
    holds unsigned characters and the name signed ones. *)
Theorem directory_non_ascii_not_found (e : env) (fuel : nat) (inum : Z) (inode : dinode_t) (n : nat)
    (ds : list dent) (sname : list Z) (c : Z) (g : option Z) :
  WfEnv e -> read_inode fuel e inum = Ret inode -> is_dir inode ->
  dir_contents e (di_btroot inode) n ds -> (n <= fuel)%nat ->
  Z.of_nat (length sname) <= UTF8_BUFFER_SIZE ->
  Forall (fun d => Forall name_unit (d_units d)) ds -> ds <> [] ->
  c ∈ sname -> 0x80 <= c < 0x100 ->
  directory fuel e inum sname (length sname) g = Ret (Some (u64 (-1))).
Proof.
  intros Hwf Hi Hd Hc Hf Hs Hall Hne Hin Hr.
  rewrite (directory_ok e fuel inum inode n ds) by done. f_equal. apply dir_lookup_none; [|done].
  eapply Forall_impl; [exact Hall|]. intros d Hu. by eapply name_matches_high.
Qed.

(** The failures of [directory] cannot be told from a value the caller had
    in the variable: an unreadable inode, an inode that is not a directory and a
    directory without entries all leave it as it was, and [readndir] reports
    each of them as error 1. *)
Theorem directory_failures_silent (e : env) (fuel : nat) (inum pos : Z) (sname : list Z)
    (namelen : nat) (rname : list Z) (cap : Z) (g : option Z) :
  (exists err, read_inode fuel e inum = Err err) \/
  (exists inode, read_inode fuel e inum = Ret inode /\
     (~ is_dir inode \/
      exists flag, dtr_flag (di_btroot inode) = Ret flag /\ Z.land flag BT_LEAF <> 0 /\
        dtr_nextindex (di_btroot inode) = Ret 0)) ->
  directory fuel e inum sname namelen g = Ret g /\
  readndir fuel e inum pos rname cap g = Err (Erc 1).
Proof.
  unfold directory, readndir, is_dir.
  intros [[err ->]|(inode & -> & [Hd|(flag & Hf & Hb & Hn)])]; cbn [res_try].
  - split; [done|]. by case_match.
  - replace (_ =? IFDIR) with false by lia. split; [done|]. by case_match.
  - rewrite Hf. cbn [res_bind]. replace (Z.land flag BT_LEAF =? 0) with false by lia.
    rewrite Hn. cbn [negb res_bind Z.eqb]. by repeat case_match.
Qed.

(** When there is no memory for the unit buffer, [name_inum] leaves both
    outputs as they were, which [readndir] reports as success, and
    [print_direntry] reports a mismatch without storing -1. *)
Theorem direntry_no_memory (e : env) (slot : mem) (h namlen : Z) (rname sname : list Z) (cap : Z)
    (snamelen : nat) (g : option Z) :
  ldt_namlen slot h = Ret namlen -> malloc_ok e (2 * (namlen + 1)) = false ->
  name_inum e slot h rname cap g = Ret (rname, g) /\
  print_direntry e slot h sname snamelen g = Ret (1, g).
Proof. unfold name_inum, print_direntry. intros -> Hm. cbn [res_bind]. by rewrite Hm. Qed.

(** Neither walk along the leaves ends on its own: on a leaf that is its own
    sibling a lookup that finds nothing, and a listing past the entries, never
    return, whatever the fuel. *)
Theorem leaf_cycle_diverges (e : env) (p : mem) (ds : list dent) (next : Z) (fuel : nat)
    (sname : list Z) (cpos pos : Z) (rname : list Z) (cap : Z) (g : option Z) :
  WfEnv e -> dt_leaf p ds -> dt_next p = Ret next -> next <> 0 -> page_at e next = Some p ->
  Z.of_nat (length sname) <= UTF8_BUFFER_SIZE -> Forall (fun d => ~ name_matches sname d) ds ->
  pos < cpos ->
  directory_leaves fuel e p sname (length sname) g = NoFuel /\
  readndir_leaves fuel e p cpos pos rname cap g = NoFuel.
Proof.
  intros Hwf (_ & Hn & He) Hnext Hnz Hp Hs Hno Hpos.
  assert (forall n i cpos, pos < cpos -> readndir_scan n i cpos pos = (None, cpos + Z.of_nat n)) as Hscan.
  { induction n as [|n IH]; intros i c Hc; cbn [readndir_scan]; [f_equal; lia|].
    replace (c =? pos) with false by lia. rewrite IH by lia. f_equal. lia. }
  split.
  - revert g. induction fuel as [|fuel IH]; intros g; [done|]. cbn [directory_leaves].
    rewrite Hn. cbn [res_bind]. rewrite Nat2Z.id.
    destruct (directory_scan_ok e p (dt_stbl p) sname ds 0 g) as (rc & -> & Hrc);
      [done|done|intros i d Hi; rewrite Z.add_0_l; by apply He|]. cbn [res_bind].
    destruct (Z.eqb_spec rc 0) as [Hz|_].
    { apply Hrc, Exists_exists in Hz as (d & Hin & Hm). rewrite Forall_forall in Hno.
      by destruct (Hno d Hin). }
    rewrite Hnext. cbn [res_bind]. replace (next =? 0) with false by lia.
    by rewrite (dt_sibling_ok _ _ _ Hwf Hp).
  - revert cpos Hpos. induction fuel as [|fuel IH]; intros cpos Hpos; [done|].
    cbn [readndir_leaves]. rewrite Hn. cbn [res_bind]. rewrite Nat2Z.id, Hscan by done.
    rewrite Hnext. cbn [res_bind]. replace (next =? 0) with false by lia.
    rewrite (dt_sibling_ok _ _ _ Hwf Hp). cbn [res_try]. apply IH. lia.
Qed.

(** ** Witnesses *)

Definition sample_root_dir : list dent :=
  [Dent [0x65; 0x6D; 0x70; 0x74; 0x79] 6; Dent [0x68; 0x65; 0x6C; 0x6C; 0x6F] 5;
   Dent [0x68; 0x65; 0x6C; 0x6C; 0x6F; 0x32] 7; Dent [0x74; 0x72; 0x65; 0x65] 8].

Definition sample_tree_dir : list dent :=
  [Dent [0x61; 0x6C; 0x70; 0x68; 0x61] 5;
   Dent [0x61; 0x2D; 0x72; 0x61; 0x74; 0x68; 0x65; 0x72; 0x2D; 0x6C; 0x6F; 0x6E; 0x67; 0x2D;
         0x66; 0x69; 0x6C; 0x65; 0x2D; 0x6E; 0x61; 0x6D; 0x65] 7].

Lemma sample_root_sorted : in_order sample_root_dir.
Proof.
  intros i j d d' Hij Hi Hj. pose proof (lookup_lt_Some _ _ _ Hj). simpl in *.
  destruct j as [|[|[|[|]]]]; try lia; injection Hj as <-;
    destruct i as [|[|[|[|]]]]; try lia; injection Hi as <-; reflexivity.
Qed.

Lemma sample_dir_inode fuel n :
  (0 < fuel)%nat -> In n [2; 6; 8; 9] ->
  exists di, read_inode fuel sample_env n = Ret di /\ is_dir di /\
    di_btroot di = drop 224 (img_bytes sample_image (inode_base + n * 512) sizeof_dinode).
Proof.
  intros Hf Hn. destruct (sample_inode_fuel fuel n) as (di & Hr & Hg & Hb); [done| |].
  { destruct Hn as [<-|[<-|[<-|[<-|[]]]]]; lia. }
  exists di. split; [done|]. split; [|done]. unfold is_dir. clear Hr Hb.
  destruct Hn as [<-|[<-|[<-|[<-|[]]]]]; vm_compute in Hg; injection Hg as <-; reflexivity.
Qed.

Lemma sample_root_contents di :
  di_btroot di = drop 224 (img_bytes sample_image (inode_base + 2 * 512) sizeof_dinode) ->
  dir_contents sample_env (di_btroot di) 0 sample_root_dir.
Proof.
  intros ->. apply (dir_inline _ _ _ 3); [vm_compute; reflexivity|vm_compute; congruence|
    vm_compute; reflexivity|]. apply entries_at_b_sound. vm_compute. reflexivity.
Qed.

Lemma sample_long_contents di :
  di_btroot di = drop 224 (img_bytes sample_image (inode_base + 9 * 512) sizeof_dinode) ->
  dir_contents sample_env (di_btroot di) 0 [Dent (replicate 100 0x61) 5].
Proof.
  intros ->. apply (dir_inline _ _ _ 3); [vm_compute; reflexivity|vm_compute; congruence|
    vm_compute; reflexivity|]. apply entries_at_b_sound. vm_compute. reflexivity.
Qed.

Lemma sample_tree_contents di :
  di_btroot di = drop 224 (img_bytes sample_image (inode_base + 8 * 512) sizeof_dinode) ->
  dir_contents sample_env (di_btroot di) 2 sample_tree_dir.
Proof.
  intros ->. change sample_tree_dir with (take 1 sample_tree_dir ++ drop 1 sample_tree_dir).
  eapply (dir_tree _ _ _ 5 1 (Pxd 1 0 43) _ 0 1);
    [vm_compute; reflexivity|reflexivity|vm_compute; reflexivity|vm_compute; reflexivity| | |lia|lia].
  - apply (leftmost_leaf _ _ _ 2); [reflexivity|unfold pxd_ok; cbn; lia|vm_compute; reflexivity|done].
  - eapply (leaf_cons _ _ _ _ 44);
      [apply dt_leaf_b_sound; vm_compute; reflexivity|vm_compute; reflexivity|done|reflexivity|].
    apply leaf_last; [apply dt_leaf_b_sound; vm_compute; reflexivity|vm_compute; reflexivity].
Qed.

Lemma readndir_correct_witness :
  readndir 2 sample_env 8 1 [] 100 None =
    Ret (stored_name [0x61; 0x2D; 0x72; 0x61; 0x74; 0x68; 0x65; 0x72; 0x2D; 0x6C; 0x6F; 0x6E; 0x67;
                      0x2D; 0x66; 0x69; 0x6C; 0x65; 0x2D; 0x6E; 0x61; 0x6D; 0x65] ++ [0], Some 7) /\
  readndir 2 sample_env 8 2 [] 100 None = Err (Erc 1).
Proof.
  destruct (sample_dir_inode 2 8 ltac:(lia) ltac:(simpl; tauto)) as (di & Hr & Hd & Hb).
  split.
  - exact (readndir_correct sample_env 2 8 di 2 sample_tree_dir 1 [] 100 None _ Hr Hd
      (sample_tree_contents di Hb) ltac:(lia) ltac:(lia)).
  - exact (readndir_correct sample_env 2 8 di 2 sample_tree_dir 2 [] 100 None _ Hr Hd
      (sample_tree_contents di Hb) ltac:(lia) ltac:(lia)).
Defined.

Lemma directory_correct_witness :
  directory 1 sample_env 2 [0x65; 0x6D; 0x70; 0x74; 0x79] 5 None = Ret (Some 6) /\
  directory 1 sample_env 2 [0x78] 1 None = Ret (Some (2 ^ 64 - 1)).
Proof.
  destruct (sample_dir_inode 1 2 ltac:(lia) ltac:(simpl; tauto)) as (di & Hr & Hd & Hb).
  pose proof (sample_root_contents di Hb) as Hc. split.
  - change 5%nat with (length [0x65; 0x6D; 0x70; 0x74; 0x79]).
    rewrite (directory_correct sample_env 1 2 di 0 sample_root_dir _ None _ Hr Hd Hc);
      [vm_compute; reflexivity|lia|vm_compute; congruence].
  - change 1%nat with (length [0x78]) at 2.
    rewrite (directory_correct sample_env 1 2 di 0 sample_root_dir _ None _ Hr Hd Hc);
      [vm_compute; reflexivity|lia|vm_compute; congruence].
Defined.

(** "hello", the first of two names that begin with it; "hello2" follows. *)
Lemma readndir_directory_roundtrip_witness :
  directory 1 sample_env 2 [0x68; 0x65; 0x6C; 0x6C; 0x6F] 5 None = Ret (Some 5).
Proof.
  destruct (sample_dir_inode 1 2 ltac:(lia) ltac:(simpl; tauto)) as (di & Hr & Hd & Hb).
  apply (readndir_directory_roundtrip sample_env 1 2 di 0 sample_root_dir 1
    [0x68; 0x65; 0x6C; 0x6C; 0x6F] (Some 5) 100 None _ Hr Hd (sample_root_contents di Hb));
    [lia|lia| | |].
  - repeat constructor; lia.
  - apply (listed_first _ 1 (Dent [0x68; 0x65; 0x6C; 0x6C; 0x6F] 5) sample_root_sorted eq_refl).
  - rewrite (readndir_ok sample_env 1 2 di 0 sample_root_dir 1 [] 100 None _ Hr Hd
      (sample_root_contents di Hb)) by lia. vm_compute. reflexivity.
Defined.

(** "hell" is not in the directory; "hello" and "hello2" are. *)
Lemma directory_prefix_match_witness :
  directory 1 sample_env 2 [0x68; 0x65; 0x6C; 0x6C] 4 None = Ret (Some 5).
Proof.
  destruct (sample_dir_inode 1 2 ltac:(lia) ltac:(simpl; tauto)) as (di & Hr & Hd & Hb).
  pose proof (sample_root_contents di Hb) as Hc.
  change 4%nat with (length [0x68; 0x65; 0x6C; 0x6C]).
  rewrite (directory_prefix_match sample_env 1 2 di 0 sample_root_dir _ None _ Hr Hd Hc);
    [reflexivity|lia|vm_compute; congruence|repeat constructor; lia|repeat constructor; lia|done].
Defined.

Lemma directory_non_ascii_not_found_witness :
  directory 1 sample_env 2 [0xC3; 0xA9] 2 None = Ret (Some (u64 (-1))).
Proof.
  destruct (sample_dir_inode 1 2 ltac:(lia) ltac:(simpl; tauto)) as (di & Hr & Hd & Hb).
  apply (directory_non_ascii_not_found sample_env 1 2 di 0 sample_root_dir
    [0xC3; 0xA9] 0xC3 None _ Hr Hd (sample_root_contents di Hb));
    [lia|vm_compute; congruence|repeat constructor; unfold name_unit; lia|done|by left|lia].
Defined.

Lemma directory_failures_silent_witness :
  directory 1 sample_env 6 [0x78] 1 (Some 99) = Ret (Some 99) /\
  readndir 1 sample_env 6 0 [] 100 (Some 99) = Err (Erc 1).
Proof.
  apply (directory_failures_silent sample_env 1 6 0 [0x78] 1 [] 100 (Some 99)). right.
  destruct (sample_dir_inode 1 6 ltac:(lia) ltac:(simpl; tauto)) as (di & Hr & Hd & Hb).
  exists di. split; [exact Hr|]. right. exists 3. rewrite Hb. vm_compute. repeat split; congruence.
Defined.

Lemma direntry_no_memory_witness :
  name_inum (Env sample_image (demo_sb 12) (fun _ => false)) (replicate 64 Byte.x00) 1 [0x78] 100 None
    = Ret ([0x78], None).
Proof.
  refine (proj1 (direntry_no_memory (Env sample_image (demo_sb 12) (fun _ => false))
    (replicate 64 Byte.x00) 1 0 [0x78] [] 100 0 None _ _)); reflexivity.
Defined.

(** A leaf without entries whose sibling is itself, alone on a device. *)
Definition cycle_image : image :=
  Image 16384 (patched [(4096, dtleaf_bytes 1 [] [])]).
Definition cycle_env : env := Env cycle_image (demo_sb 12) (fun _ => true).

#[export] Instance cycle_env_wf : WfEnv cycle_env.
Proof. constructor; vm_compute; try done; split; congruence. Defined.

Lemma leaf_cycle_diverges_witness :
  directory_leaves 1000 cycle_env (default [] (page_at cycle_env 1)) [0x78] 1 None = NoFuel.
Proof.
  refine (proj1 (leaf_cycle_diverges cycle_env (default [] (page_at cycle_env 1)) [] 1 1000
    [0x78] 1 0 [] 100 None _ _ _ _ _ _ _ _));
    [apply dt_leaf_b_sound; vm_compute; reflexivity|vm_compute; reflexivity|done|reflexivity
    |vm_compute; congruence|constructor|lia].
Defined.
