(* ===== verification/Headers.v ===== *)
(** * Structures and constants of the headers

    The C types of the on-disk structures with the layout rule of the i386 ABI,
    which the decoders of Layout and DirRead follow, and the structures, masks and macros of
    the headers that no code of the translator uses: the control page of the inode
    map, the generic tree page, the lists of descriptors, the sizes of directory
    pages, the attribute bits of inodes. *)

From S2P Require Import Prelude Layout Unicode Disk Xtree Sample Imap DirRead.

(** ** Definitions: C types *)

(** A pointer is an [Int 4]; [Bits ws] is a unit of four bytes that holds bit fields of
    the widths [ws]. *)
Inductive ctype :=
| Int (n : Z)
| Bits (ws : list Z)
| Array (k : Z) (t : ctype)
| Struct (fs : list ctype)
| Union (fs : list ctype).

(** No type asks for more than four bytes on i386. *)
Fixpoint alignof (t : ctype) : Z :=
  match t with
  | Int n => Z.min n 4
  | Bits _ => 4
  | Array _ t => alignof t
  | Struct fs | Union fs => fold_right (fun t a => Z.max (alignof t) a) 1 fs
  end.

Definition align_up (off a : Z) : Z := (off + a - 1) / a * a.

Fixpoint sizeof (t : ctype) : Z :=
  match t with
  | Int n => n
  | Bits _ => 4
  | Array k t => k * sizeof t
  | Struct fs =>
      align_up (fold_left (fun off t => align_up off (alignof t) + sizeof t) fs 0)
        (fold_right (fun t a => Z.max (alignof t) a) 1 fs)
  | Union fs =>
      align_up (fold_right (fun t a => Z.max (sizeof t) a) 0 fs)
        (fold_right (fun t a => Z.max (alignof t) a) 1 fs)
  end.

(** The offsets of the fields of a structure. *)
Fixpoint offsets_from (off : Z) (fs : list ctype) : list Z :=
  match fs with
  | [] => []
  | t :: fs' => let o := align_up off (alignof t) in o :: offsets_from (o + sizeof t) fs'
  end.

Definition offsets (t : ctype) : list Z :=
  match t with Struct fs => offsets_from 0 fs | Union fs => (fun _ => 0) <$> fs | _ => [] end.

Definition offsetof (t : ctype) (i : nat) : Z := nth i (offsets t) 0.

Definition field (t : ctype) (i : nat) : ctype :=
  match t with Struct fs | Union fs => nth i fs (Struct []) | _ => Struct [] end.
Definition widthof (t : ctype) (i : nat) : Z := sizeof (field t i).

(** Bit field [j] of the unit that is field [i] of a structure, where the value of the
    unit is [w]: bit fields fill a unit from its lowest bit. *)
Definition bits (t : ctype) (i j : nat) (w : Z) : Z :=
  let ws := match field t i with Bits ws => ws | _ => [] end in
  w / 2 ^ fold_right Z.add 0 (take j ws) mod 2 ^ nth j ws 0.

(** ** Definitions: the structures *)

Definition s8_t : ctype := Int 1.
Definition u8_t : ctype := Int 1.
Definition s16_t : ctype := Int 2.
Definition u16_t : ctype := Int 2.
Definition s32_t : ctype := Int 4.
Definition u32_t : ctype := Int 4.
Definition s64_t : ctype := Int 8.
Definition u64_t : ctype := Int 8.
Definition __s8 : ctype := Int 1.
Definition __u8 : ctype := Int 1.
Definition __s16 : ctype := Int 2.
Definition __u16 : ctype := Int 2.
Definition __s32 : ctype := Int 4.
Definition __u32 : ctype := Int 4.
Definition __s64 : ctype := Int 8.
Definition __u64 : ctype := Int 8.
Definition uint8_t : ctype := Int 1.
Definition uint16_t : ctype := Int 2.
Definition uint32_t : ctype := Int 4.
Definition uint64_t : ctype := Int 8.
Definition block_t : ctype := __u32.
Definition UniChar : ctype := uint16_t.
Definition tid_t : ctype := Int 4.
Definition lid_t : ctype := Int 4.
Definition char : ctype := Int 1.
Definition pointer : ctype := Int 4.

Definition timestruc_layout : ctype := Struct [u32_t; u32_t].
Definition lxd_layout : ctype := Struct [Bits [24; 8]; u32_t].
Definition pxd_layout : ctype := Struct [Bits [24; 8]; u32_t].
Definition dxd_layout : ctype := Struct [Bits [8; 24]; u32_t; Bits [24; 8]; u32_t].
Definition xad_layout : ctype := Struct [Bits [8; 16; 8]; u32_t; Bits [24; 8]; u32_t].
Definition dasd_layout : ctype := Struct [u8_t; u8_t; u8_t; u8_t; u32_t; Array 3 u8_t; u8_t; u32_t].
Definition dir_table_slot_layout : ctype := Struct [u8_t; u8_t; u8_t; u8_t; u32_t].

(** Lists of descriptors and the name argument of the kernel's directory functions. *)
Definition lxdlist_layout : ctype := Struct [s16_t; s16_t; pointer].
Definition pxdlist_layout : ctype := Struct [s16_t; s16_t; Array 8 pxd_layout].
Definition xadlist_layout : ctype := Struct [s16_t; s16_t; pointer].
Definition component_layout : ctype := Struct [Int 4; pointer].
Definition ddata_layout : ctype := Union [Struct [tid_t; pointer; u32_t]; pxd_layout].

(** Slots and entries of directory pages; [wchar] is the size of [wchar_t]. *)
Definition dtslot_layout : ctype := Struct [s8_t; s8_t; Array 15 UniChar].
Definition ldtentry_layout : ctype := Struct [u32_t; s8_t; u8_t; Array 11 UniChar; u32_t].
Definition idtentry_layout (wchar : Z) : ctype := Struct [pxd_layout; s8_t; u8_t; Array 11 (Int wchar)].

Definition dtroot_header : ctype := Struct [dasd_layout; u8_t; u8_t; s8_t; s8_t; u32_t; Array 8 s8_t].
Definition dtroot_layout : ctype := Union [dtroot_header; Array 9 dtslot_layout].
Definition dtpage_header : ctype :=
  Struct [s64_t; s64_t; u8_t; u8_t; s8_t; s8_t; u8_t; u8_t; Array 2 u8_t; pxd_layout].
Definition dtpage_layout : ctype := Union [dtpage_header; Array 128 dtslot_layout].
Definition xtheader_layout : ctype := Struct [s64_t; s64_t; u8_t; u8_t; s16_t; s16_t; s16_t; pxd_layout].
Definition xtpage_layout : ctype := Union [xtheader_layout; Array XTROOTMAXSLOT xad_layout].
Definition btpage_layout : ctype := Struct [s64_t; s64_t; u8_t; Array 7 u8_t; s64_t; Array 4064 u8_t].

Definition dinode_layout : ctype :=
  Struct [u32_t; s32_t; u32_t; u32_t; pxd_layout; s64_t; s64_t; u32_t; u32_t; u32_t; u32_t;
    timestruc_layout; timestruc_layout; timestruc_layout; timestruc_layout; dxd_layout; dxd_layout; u32_t; s32_t;
    Union [
      Struct [Array 12 dir_table_slot_layout; dtroot_layout];
      Struct [
        Union [Array 96 u8_t; Struct [pointer; u32_t]];
        Union [xtpage_layout;
               Struct [Array 16 u8_t; dxd_layout; Union [u32_t; Array 128 u8_t]; Array 128 u8_t]]]]].

Definition superblock_layout : ctype :=
  Struct [Array 4 char; u32_t; s64_t; s32_t; s16_t; s16_t; s32_t; s16_t; s16_t; u32_t; u32_t; u32_t; s32_t;
    pxd_layout; pxd_layout; u32_t; s32_t; pxd_layout; pxd_layout; timestruc_layout; s32_t; s8_t; Array 11 char;
    s64_t; pxd_layout; pxd_layout; Array 16 char; Array 16 char; Array 16 char].

(** ** Definitions: the inode map *)

Definition IMAPBLKNO : Z := 0.
Definition SMAPSZ : Z := 4.
Definition EXTSPERSUM : Z := 32.
Definition L2EXTSPERSUM : Z := 5.
Definition PGSPERIEXT : Z := 4.
Definition MAXIAGS : Z := Z.shiftl 1 20 - 1.
Definition MAXAG : Z := 128.
Definition AMAPSIZE : Z := 512.
Definition SMAPSIZE : Z := 16.

Definition iag_layout : ctype :=
  Struct [s64_t; s32_t; s32_t; s32_t; s32_t; s32_t; s32_t; Array SMAPSZ s32_t; Array SMAPSZ s32_t; s32_t; s32_t;
    Array 1976 u8_t; Array EXTSPERIAG u32_t; Array EXTSPERIAG u32_t; Array EXTSPERIAG pxd_layout].
Definition iagctl_layout : ctype := Struct [s32_t; s32_t; s32_t; s32_t].
Definition dinomap_layout : ctype :=
  Struct [s32_t; s32_t; s32_t; s32_t; s32_t; s32_t; s32_t; s32_t; Array 2016 u8_t; Array MAXAG iagctl_layout].

(** The first block of the page of an inode extent that contains [ino];
    L2INOSPERPAGE is not defined in the repository. *)
Definition INOPBLK (L2INOSPERPAGE : Z) (pxd : pxd_t) (ino l2nbperpg : Z) : Z :=
  addressPXD pxd + Z.shiftl (Z.shiftr (Z.land ino (INOSPEREXT - 1)) L2INOSPERPAGE) l2nbperpg.

(** ** Definitions: directory pages *)

Definition DATASLOTSIZE : Z := 16.
Definition L2DATASLOTSIZE : Z := 4.
Definition L2DTSLOTSIZE : Z := 5.
Definition DTSLOTHDRSIZE : Z := 2.
Definition DTSLOTDATASIZE : Z := 30.
Definition DTIHDRSIZE : Z := 10.
Definition DTIHDRDATALEN : Z := 11.
Definition DTLHDRSIZE : Z := 6.
Definition DTLHDRDATALEN_LEGACY : Z := 13.
Definition MAX_INLINE_DIRTABLE_ENTRY : Z := 13.
Definition DIR_INDEX_VALID : Z := 1.
Definition DIR_INDEX_FREE : Z := 0.
Definition NDTLEAF : Z -> Z := NDTINTERNAL.
Definition DTROOTMAXSLOT : Z := 9.
Definition DTPAGEMAXSLOT : Z := 128.
Definition DTENTRYSTART : Z := 1.

(** [i_dtroot] is the directory root in the inode. *)
Definition PARENT (i_dtroot : mem) : res Z := let* d := dtr_idotdot i_dtroot in Ret (le32_to_cpu d).
Definition dtEmpty (i_dtroot : mem) : res bool := let* n := dtr_nextindex i_dtroot in Ret (n =? 0).

(** The kernel's mount flags and their bit JFS_DIR_INDEX are not in the repository. *)
Definition DO_INDEX (mntflag JFS_DIR_INDEX : Z) : Z := Z.land mntflag JFS_DIR_INDEX.

(** Pages of an eighth, a quarter, a half and all of 4096 bytes: size, slots of the
    entry table, slots. *)
Definition DT8THPGNODE : Z * Z * Z := (512, 1, 16).
Definition DTQTRPGNODE : Z * Z * Z := (1024, 1, 32).
Definition DTHALFPGNODE : Z * Z * Z := (2048, 2, 64).
Definition DTFULLPGNODE : Z * Z * Z := (4096, 4, 128).

Definition JFS_CREATE : Z := 1.
Definition JFS_LOOKUP : Z := 2.
Definition JFS_REMOVE : Z := 3.
Definition JFS_RENAME : Z := 4.
Definition DIREND : Z := 2 ^ 31 - 1.

(** [size_t] arithmetic; [sizeof_dirent] is libc's. *)
Definition DIRENTSIZ (sizeof_dirent JFS_NAME_MAX namlen : Z) : Z :=
  Z.ldiff (u32 (sizeof_dirent - 2 * (JFS_NAME_MAX + 1) + 2 * (namlen + 1) + 3)) 3.

(** ** Definitions: masks and flags *)

Definition LEFTMOSTONE : Z := 0x80000000.
Definition HIGHORDER : Z := 0x80000000.
Definition ONES : Z := 0xffffffff.

Definition DXD_INDEX : Z := 0x80.
Definition DXD_INLINE : Z := 0x40.
Definition DXD_EXTENT : Z := 0x20.
Definition DXD_FILE : Z := 0x10.
Definition DXD_CORRUPT : Z := 0x08.

Definition XAD_NEW : Z := 0x01.
Definition XAD_EXTENDED : Z := 0x02.
Definition XAD_COMPRESSED : Z := 0x04.
Definition XAD_NOTRECORDED : Z := 0x08.
Definition XAD_COW : Z := 0x10.

Definition MAXXLEN : Z := Z.shiftl 1 24 - 1.
Definition XTSLOTSIZE : Z := 16.
Definition L2XTSLOTSIZE : Z := 4.
Definition XTROOTINITSLOT_DIR : Z := 6.
Definition XTROOTINITSLOT : Z := 10.
Definition XTPAGEMAXSLOT : Z := 256.

Definition BT_TYPE : Z := 0x07.
Definition BT_RIGHTMOST : Z := 0x10.
Definition BT_LEFTMOST : Z := 0x20.
Definition BT_SWAPPED : Z := 0x80.

Definition BT_RANDOM : Z := 0x0000.
Definition BT_SEQUENTIAL : Z := 0x0001.
Definition BT_LOOKUP : Z := 0x0010.
Definition BT_INSERT : Z := 0x0020.
Definition BT_DELETE : Z := 0x0040.

Definition INODESLOTSIZE : Z := 128.
Definition L2INODESLOTSIZE : Z := 7.
Definition log2INODESIZE : Z := 9.

Definition IFJOURNAL : Z := 0x00010000.
Definition ISPARSE : Z := 0x00020000.
Definition INLINEEA : Z := 0x00040000.
Definition ISWAPFILE : Z := 0x00800000.
Definition IREADONLY : Z := 0x02000000.
Definition IARCHIVE : Z := 0x40000000.
Definition ISYSTEM : Z := 0x08000000.
Definition IHIDDEN : Z := 0x04000000.
Definition IRASH : Z := 0x4E000000.
Definition INEWNAME : Z := 0x80000000.
Definition IDIRECTORY : Z := 0x20000000.
Definition ATTRSHIFT : Z := 25.

Definition JFS_VERSION : Z := 2.
Definition LV_NAME_SIZE : Z := 11.
Definition PATH_MAX : Z := 4095.
Definition MIN (a b : Z) : Z := if a <? b then a else b.

(** [DXDlength], [DXDaddress]: the macros of [pxd_t] on the fields of a [dxd_t]. *)
Section DxdBuilders.
Variables cpu_to_le24 cpu_to_le32 : Z -> Z.

Definition DXDlength (x : dxd_t) (length32 : Z) : dxd_t :=
  Dxd (dxd_flag x) (dxd_rsrvd x) (dxd_size x) (wrapU 24 (cpu_to_le24 length32)) (dxd_addr1 x) (dxd_addr2 x).
Definition DXDaddress (x : dxd_t) (address64 : Z) : dxd_t :=
  Dxd (dxd_flag x) (dxd_rsrvd x) (dxd_size x) (dxd_len x) (u8 (Z.shiftr (s64 address64) 32))
    (u32 (cpu_to_le32 (Z.land address64 0xffffffff))).
End DxdBuilders.

(** ** Lemmas: masks and page sizes *)

(** Masks are the unions of the flags they are made of. *)
Lemma masks_cover :
  BT_TYPE = Z.lor BT_ROOT (Z.lor BT_LEAF BT_INTERNAL) /\
  IRASH = Z.lor (Z.lor IREADONLY IARCHIVE) (Z.lor ISYSTEM IHIDDEN) /\
  PSIZE = 2 ^ log2INODESIZE * (INOSPEREXT / PGSPERIEXT) /\
  2 ^ L2DTSLOTSIZE = DTSLOTSIZE /\ 2 ^ L2DATASLOTSIZE = DATASLOTSIZE /\ 2 ^ L2XTSLOTSIZE = XTSLOTSIZE /\
  2 ^ L2INODESLOTSIZE = INODESLOTSIZE /\ SMAPSZ * EXTSPERSUM = EXTSPERIAG /\ 2 ^ L2EXTSPERSUM = EXTSPERSUM.
Proof. repeat split; reflexivity. Qed.

(** In a directory page of any of the four sizes the slots fill the page, and the
    entry table gets the fewest slots that have a byte for every slot. *)
Lemma dt_pages_fit bytes tslots slots :
  (bytes, tslots, slots) ∈ [DT8THPGNODE; DTQTRPGNODE; DTHALFPGNODE; DTFULLPGNODE] ->
  slots * DTSLOTSIZE = bytes /\ slots <= tslots * DTSLOTSIZE /\ forall t, 0 <= t -> slots <= t * DTSLOTSIZE -> tslots <= t.
Proof.
  unfold DT8THPGNODE, DTQTRPGNODE, DTHALFPGNODE, DTFULLPGNODE, DTSLOTSIZE. intros H.
  repeat (apply elem_of_cons in H as [[= -> -> ->]|H]); [split_and!; intros; lia..|by apply not_elem_of_nil in H].
Qed.

(** ** Specification: what lies where

    An unsigned or signed integer that is field [i] of a structure at byte [o]. *)
Definition ufield (m : mem) (o : Z) (t : ctype) (i : nat) : res Z := get_u m (o + offsetof t i) (widthof t i).
Definition sfield (m : mem) (o : Z) (t : ctype) (i : nat) : res Z := get_s m (o + offsetof t i) (widthof t i).

Definition descriptor_fields (m : mem) : Prop :=
  (forall o x, get_pxd m o = Ret x -> exists w, ufield m o pxd_layout 0 = Ret w /\
     pxd_len x = bits pxd_layout 0 0 w /\ pxd_addr1 x = bits pxd_layout 0 1 w /\
     ufield m o pxd_layout 1 = Ret (pxd_addr2 x)) /\
  (forall o x, get_dxd m o = Ret x -> exists w w', ufield m o dxd_layout 0 = Ret w /\
     dxd_flag x = bits dxd_layout 0 0 w /\ dxd_rsrvd x = bits dxd_layout 0 1 w /\
     ufield m o dxd_layout 1 = Ret (dxd_size x) /\ ufield m o dxd_layout 2 = Ret w' /\
     dxd_len x = bits dxd_layout 2 0 w' /\ dxd_addr1 x = bits dxd_layout 2 1 w' /\
     ufield m o dxd_layout 3 = Ret (dxd_addr2 x)) /\
  (forall o x, get_xad m o = Ret x -> exists w w', ufield m o xad_layout 0 = Ret w /\
     xad_flag x = bits xad_layout 0 0 w /\ xad_rsvrd x = bits xad_layout 0 1 w /\
     xad_off1 x = bits xad_layout 0 2 w /\ ufield m o xad_layout 1 = Ret (xad_off2 x) /\
     ufield m o xad_layout 2 = Ret w' /\ xad_len x = bits xad_layout 2 0 w' /\
     xad_addr1 x = bits xad_layout 2 1 w' /\ ufield m o xad_layout 3 = Ret (xad_addr2 x)) /\
  (forall o x, get_timestruc m o = Ret x ->
     ufield m o timestruc_layout 0 = Ret (tv_sec x) /\ ufield m o timestruc_layout 1 = Ret (tv_nsec x)).

Definition inode_fields (m : mem) : Prop :=
  forall di, get_dinode m = Ret di ->
    let t := dinode_layout in let o := offsetof t in
    ufield m 0 t 0 = Ret (di_inostamp di) /\ sfield m 0 t 1 = Ret (di_fileset di) /\
    ufield m 0 t 2 = Ret (di_number di) /\ ufield m 0 t 3 = Ret (di_gen di) /\
    get_pxd m (o 4%nat) = Ret (di_ixpxd di) /\ sfield m 0 t 5 = Ret (di_size di) /\
    sfield m 0 t 6 = Ret (di_nblocks di) /\ ufield m 0 t 7 = Ret (di_nlink di) /\
    ufield m 0 t 8 = Ret (di_uid di) /\ ufield m 0 t 9 = Ret (di_gid di) /\
    ufield m 0 t 10 = Ret (di_mode di) /\ get_timestruc m (o 11%nat) = Ret (di_atime di) /\
    get_timestruc m (o 12%nat) = Ret (di_ctime di) /\ get_timestruc m (o 13%nat) = Ret (di_mtime di) /\
    get_timestruc m (o 14%nat) = Ret (di_otime di) /\ get_dxd m (o 15%nat) = Ret (di_acl di) /\
    get_dxd m (o 16%nat) = Ret (di_ea di) /\ ufield m 0 t 17 = Ret (di_next_index di) /\
    sfield m 0 t 18 = Ret (di_acltype di) /\ bytes_at m (o 19%nat) (widthof t 19) = Some (di_u di).

Definition superblock_fields (m : mem) : Prop :=
  forall sb, get_superblock m = Ret sb ->
    let t := superblock_layout in let o := offsetof t in
    bytes_at m (o 0%nat) (widthof t 0) = Some (s_magic sb) /\ ufield m 0 t 1 = Ret (s_version sb) /\
    sfield m 0 t 2 = Ret (s_size sb) /\ sfield m 0 t 3 = Ret (s_bsize sb) /\
    sfield m 0 t 4 = Ret (s_l2bsize sb) /\ sfield m 0 t 5 = Ret (s_l2bfactor sb) /\
    sfield m 0 t 6 = Ret (s_pbsize sb) /\ sfield m 0 t 7 = Ret (s_l2pbsize sb) /\
    ufield m 0 t 9 = Ret (s_agsize sb) /\ ufield m 0 t 10 = Ret (s_flag sb) /\
    ufield m 0 t 11 = Ret (s_state sb) /\ sfield m 0 t 12 = Ret (s_compress sb) /\
    get_pxd m (o 13%nat) = Ret (s_ait2 sb) /\ get_pxd m (o 14%nat) = Ret (s_aim2 sb) /\
    ufield m 0 t 15 = Ret (s_logdev sb) /\ sfield m 0 t 16 = Ret (s_logserial sb) /\
    get_pxd m (o 17%nat) = Ret (s_logpxd sb) /\ get_pxd m (o 18%nat) = Ret (s_fsckpxd sb) /\
    get_timestruc m (o 19%nat) = Ret (s_time sb) /\ sfield m 0 t 20 = Ret (s_fsckloglen sb) /\
    sfield m 0 t 21 = Ret (s_fscklog sb) /\ bytes_at m (o 22%nat) (widthof t 22) = Some (s_fpack sb) /\
    sfield m 0 t 23 = Ret (s_xsize sb) /\ get_pxd m (o 24%nat) = Ret (s_xfsckpxd sb) /\
    get_pxd m (o 25%nat) = Ret (s_xlogpxd sb) /\ bytes_at m (o 26%nat) (widthof t 26) = Some (s_uuid sb) /\
    bytes_at m (o 27%nat) (widthof t 27) = Some (s_label sb) /\
    bytes_at m (o 28%nat) (widthof t 28) = Some (s_loguuid sb).

(** Headers are the first members of the unions that the pages are, arrays the second. *)
Definition page_fields (m : mem) : Prop :=
  xt_flag m = ufield m 0 xtheader_layout 2 /\ xt_nextindex m = sfield m 0 xtheader_layout 4 /\
  (forall i, xt_xad m i = get_xad m (sizeof xad_layout * i)) /\
  dtr_flag m = ufield m 0 dtroot_header 1 /\ dtr_nextindex m = ufield m 0 dtroot_header 2 /\
  dtr_idotdot m = ufield m 0 dtroot_header 5 /\
  (forall i, dtr_stbl m i = get_s m (offsetof dtroot_header 6 + sizeof s8_t * i) (sizeof s8_t)) /\
  dt_next m = sfield m 0 dtpage_header 0 /\ dt_flag m = ufield m 0 dtpage_header 2 /\
  dt_nextindex m = ufield m 0 dtpage_header 3 /\ dt_stblindex m = ufield m 0 dtpage_header 7 /\
  (forall si i, dt_stblindex m = Ret si -> dt_stbl m i = get_u m (sizeof dtslot_layout * si + sizeof u8_t * i) (sizeof u8_t)) /\
  (forall i, iag_inoext m i = get_pxd m (offsetof iag_layout 14 + sizeof pxd_layout * i)).

(** Slot [h] of a page as the head of a leaf entry, and as a continuation. *)
Definition slot_fields (m : mem) : Prop :=
  forall h, let o := sizeof dtslot_layout * h in
    ldt_inumber m h = ufield m o ldtentry_layout 0 /\ ldt_next m h = sfield m o ldtentry_layout 1 /\
    ldt_namlen m h = ufield m o ldtentry_layout 2 /\
    ldt_name m h = get_units m (o + offsetof ldtentry_layout 3) (Z.to_nat (widthof ldtentry_layout 3 / sizeof UniChar)) /\
    dts_next m h = sfield m o dtslot_layout 0 /\
    dts_name m h = get_units m (o + offsetof dtslot_layout 2) (Z.to_nat (widthof dtslot_layout 2 / sizeof UniChar)).

(** ** Lemmas: fields *)

Lemma le_value_app a b : le_value (a ++ b) = le_value a + 2 ^ (8 * Z.of_nat (length a)) * le_value b.
Proof.
  induction a as [|x a IH]; [change (8 * Z.of_nat (length [])) with 0; cbn [app le_value]; lia|].
  cbn [app le_value length]. rewrite IH.
  replace (8 * Z.of_nat (S (length a))) with (8 + 8 * Z.of_nat (length a)) by lia.
  rewrite Z.pow_add_r by lia. change (2 ^ 8) with 256. lia.
Qed.

(** Two integers that follow each other, read as one. *)
Lemma get_u_adjacent m o a b x y :
  get_u m o a = Ret x -> get_u m (o + a) b = Ret y -> get_u m o (a + b) = Ret (x + 2 ^ (8 * a) * y).
Proof.
  unfold get_u. intros Hx Hy. res_inv.
  repeat match goal with H : bytes_at _ _ _ = Some _ |- _ => apply bytes_at_inv in H as (? & ? & ? & -> & ?) end.
  rewrite bytes_at_Some by lia. cbn [of_option res_bind]. f_equal.
  rewrite Z2Nat.inj_add, <- take_take_drop, le_value_app, drop_drop, <- Z2Nat.inj_add by lia.
  repeat f_equal; lia.
Qed.

(** A three byte field with one byte before or after it, and a two byte field between
    two bytes, as bit fields of one unit. *)
Lemma unit_24_8 m o x y :
  get_u m o 3 = Ret x -> get_u m (o + 3) 1 = Ret y ->
  exists w, get_u m o 4 = Ret w /\ x = w / 2 ^ 0 mod 2 ^ 24 /\ y = w / 2 ^ 24 mod 2 ^ 8.
Proof.
  intros Hx Hy. eexists. split; [exact (get_u_adjacent m o 3 1 x y Hx Hy)|]. field_ranges. split; zlia.
Qed.

Lemma unit_8_24 m o x y :
  get_u m o 1 = Ret x -> get_u m (o + 1) 3 = Ret y ->
  exists w, get_u m o 4 = Ret w /\ x = w / 2 ^ 0 mod 2 ^ 8 /\ y = w / 2 ^ 8 mod 2 ^ 24.
Proof.
  intros Hx Hy. eexists. split; [exact (get_u_adjacent m o 1 3 x y Hx Hy)|]. field_ranges. split; zlia.
Qed.

Lemma unit_8_16_8 m o x y z :
  get_u m o 1 = Ret x -> get_u m (o + 1) 2 = Ret y -> get_u m (o + 3) 1 = Ret z ->
  exists w, get_u m o 4 = Ret w /\ x = w / 2 ^ 0 mod 2 ^ 8 /\ y = w / 2 ^ 8 mod 2 ^ 16 /\ z = w / 2 ^ 24 mod 2 ^ 8.
Proof.
  intros Hx Hy Hz. replace (o + 3) with (o + 1 + 2) in Hz by lia.
  eexists. split; [exact (get_u_adjacent m o 1 3 x _ Hx (get_u_adjacent m (o + 1) 2 1 y z Hy Hz))|].
  field_ranges. split_and!; zlia.
Qed.

Lemma descriptors_at m : descriptor_fields m.
Proof.
  unfold descriptor_fields, ufield. split_and!; intros o x H.
  - unfold get_pxd in H. res_inv. rewrite Z.add_0_r.
    edestruct unit_24_8 as (w & Hw & E1 & E2); [eassumption..|]. exists w. split_and!; done.
  - unfold get_dxd in H. res_inv.
    edestruct (unit_8_24 m o) as (w & Hw & E1 & E2); [eassumption..|].
    edestruct (unit_24_8 m (o + 8)) as (w' & Hw' & E1' & E2'); [eassumption|by rewrite <- Z.add_assoc|].
    exists w, w'. rewrite Z.add_0_r. split_and!; done.
  - unfold get_xad in H. res_inv.
    edestruct (unit_8_16_8 m o) as (w & Hw & E1 & E2 & E3); [eassumption..|].
    edestruct (unit_24_8 m (o + 8)) as (w' & Hw' & E1' & E2'); [eassumption|by rewrite <- Z.add_assoc|].
    exists w, w'. rewrite Z.add_0_r. split_and!; done.
  - unfold get_timestruc in H. res_inv. rewrite Z.add_0_r. split; done.
Qed.

Lemma inode_at m : inode_fields m.
Proof. intros di H. unfold get_dinode in H. res_inv. cbv zeta. split_and!; done. Qed.

Lemma superblock_at m : superblock_fields m.
Proof. intros sb H. unfold get_superblock in H. res_inv. cbv zeta. split_and!; done. Qed.

Lemma pages_at m : page_fields m.
Proof.
  unfold page_fields. split_and!; try done.
  - intros i. unfold dtr_stbl. change (offsetof dtroot_header 6) with 24. change (sizeof s8_t) with 1. f_equal. lia.
  - intros si i H. unfold dt_stbl. rewrite H. change (sizeof dtslot_layout) with DTSLOTSIZE.
    change (sizeof u8_t) with 1. cbn [res_bind]. f_equal. lia.
Qed.

Lemma slots_at m : slot_fields m.
Proof.
  intros h o. unfold ufield, sfield. subst o. change (sizeof dtslot_layout) with DTSLOTSIZE.
  split_and!; try done; [unfold ldt_inumber|unfold dts_next];
    change (offsetof _ 0) with 0; by rewrite Z.add_0_r.
Qed.

(** ** Theorems *)

(** Under the layout rule of i386 the structures have the sizes their comments
    give and the code computes with: slots of 32 bytes, roots of 288, pages of 4096,
    inodes of 512, superblocks of 184.  The exception is [idtentry_t], whose name is an
    array of [wchar_t]: it fills a slot where that type has two bytes and takes 56
    where it has four. *)
Theorem structure_sizes :
  (sizeof <$> [timestruc_layout; lxd_layout; pxd_layout; dir_table_slot_layout]) = [8; 8; 8; 8] /\
  (sizeof <$> [dxd_layout; xad_layout; dasd_layout; iagctl_layout]) = [16; 16; 16; 16] /\
  (sizeof <$> [dtslot_layout; ldtentry_layout; idtentry_layout 2]) = [DTSLOTSIZE; DTSLOTSIZE; DTSLOTSIZE] /\
  (sizeof <$> [dtroot_layout; xtpage_layout]) = [DTROOTMAXSLOT * DTSLOTSIZE; XTROOTMAXSLOT * XTSLOTSIZE] /\
  (sizeof <$> [dtpage_layout; btpage_layout; iag_layout; dinomap_layout]) = [PSIZE; PSIZE; PSIZE; PSIZE] /\
  sizeof dinode_layout = sizeof_dinode /\ sizeof superblock_layout = sizeof_superblock /\
  sizeof (idtentry_layout 4) = 56.
Proof. vm_compute. repeat split. Qed.

(** C39: The decoders read what the layout rule of the ABI puts there, with the width the
    type has: the bit fields and words of extent descriptors, all fields of the inode
    and of the superblock, the header fields and entry tables of extent pages, directory
    roots and directory pages that the code uses, the head and continuation slots of
    names, and the arrays of extents and of inode extents. *)
Theorem decoders_follow_layout (m : mem) :
  descriptor_fields m /\ inode_fields m /\ superblock_fields m /\ page_fields m /\ slot_fields m.
Proof.
  split_and!;
    [apply descriptors_at|apply inode_at|apply superblock_at|apply pages_at|apply slots_at].
Qed.

(** [INOPBLK] and [find_inode] agree: in a file system with 2^[l] bytes to a block the
    inode that [find_inode] locates lies in the page of its extent whose first block
    [INOPBLK] gives, if a page has 2^3 inodes. *)
Theorem inode_in_its_page (fuel : nat) (e : env) (inum which a : Z) :
  let l := s_l2bsize (jfs_sb e) in
  0 <= l <= L2PSIZE -> find_inode fuel e inum which = Ret a ->
  exists at_ iag ext,
    find_iag fuel e (u32 (s32 (INOTOIAG (u32 inum)))) which = Ret at_ /\
    ujfs_read_diskblocks (disk_image e) at_ sizeof_iag sizeof_iag = Ret iag /\
    iag_inoext iag (Z.shiftr (Z.land (u32 inum) (INOSPERIAG - 1)) L2INOSPEREXT) = Ret ext /\
    let page := INOPBLK 3 ext (u32 inum) (L2PSIZE - l) * 2 ^ l in page <= a < page + PSIZE.
Proof.
  intros l Hl H. unfold find_inode in H. res_inv.
  match goal with H : (if ?b then _ else _) = Ret _ |- _ => destruct b; [discriminate H|] end. res_inv.
  match goal with H : shl_s64 _ _ = Ret _ |- _ => apply shl_s64_inv in H as (_ & _ & -> & _) end.
  eexists _, _, _. split; [eassumption|]. split; [eassumption|]. split; [eassumption|]. cbv zeta.
  unfold INOPBLK, L2PSIZE, PSIZE in *. fold l. rewrite (wrapU_small 32 l) by lia.
  change (INOSPEREXT - 1) with (2 ^ 5 - 1). rewrite land_low_mod by lia. set (r := u32 inum mod 2 ^ 5).
  assert (0 <= r < 32) as Hr by (apply Z.mod_pos_bound; lia).
  rewrite (wrapU_small 32 (r * 512)) by lia. rewrite Z.shiftl_mul_pow2, Z.shiftr_div_pow2 by lia.
  rewrite Z.mul_add_distr_r, <- Z.mul_assoc, <- Z.pow_add_r by lia. replace (12 - l + l) with 12 by lia.
  pose proof (Z.div_mod r (2 ^ 3)). pose proof (Z.mod_pos_bound r (2 ^ 3)). lia.
Qed.

(** ** Witnesses *)

Lemma inode_in_its_page_witness :
  exists ext, let page := INOPBLK 3 ext 13 0 * 2 ^ 12 in page <= inode_base + 13 * 512 < page + PSIZE.
Proof.
  destruct (inode_in_its_page 1 sample_env 13 FILESYSTEM_I (inode_base + 13 * 512)) as (at_ & iag & ext & _ & _ & _ & H);
    [vm_compute; split; discriminate|vm_compute; reflexivity|].
  exists ext. exact H.
Defined.

(** Bytes that tell their offsets: 0, 1, 2 and so on. *)
Definition counting (n : nat) : mem := byte_of <$> seqZ 0 (Z.of_nat n).

Lemma decoders_follow_layout_witness :
  (exists di, get_dinode (counting 512) = Ret di /\ di_size di = 0x1F1E1D1C1B1A1918 /\
     sfield (counting 512) 0 dinode_layout 5 = Ret (di_size di)) /\
  (exists x w, get_xad (counting 512) 32 = Ret x /\ w = 0x23222120 /\ ufield (counting 512) 32 xad_layout 0 = Ret w /\
     xad_rsvrd x = bits xad_layout 0 1 w) /\
  (exists n, xt_nextindex (counting 512) = Ret n /\ sfield (counting 512) 0 xtheader_layout 4 = Ret n).
Proof.
  destruct (decoders_follow_layout (counting 512)) as ((_ & _ & Hx & _) & Hi & _ & (_ & Hn & _) & _). split_and!.
  - destruct (get_dinode (counting 512)) as [di| | |] eqn:H; [|vm_compute in H; discriminate H..].
    exists di. destruct (Hi di H) as (_ & _ & _ & _ & _ & Hsize & _).
    split; [done|]. split; [|exact Hsize]. vm_compute in H. injection H as <-. reflexivity.
  - destruct (get_xad (counting 512) 32) as [x| | |] eqn:H; [|vm_compute in H; discriminate H..].
    destruct (Hx 32 x H) as (w & w' & Hw & _ & E & _). exists x, w. split; [done|].
    split; [|by split]. vm_compute in Hw. by injection Hw as <-.
  - destruct (xt_nextindex (counting 512)) as [n| | |] eqn:H; [|vm_compute in H; discriminate H..].
    exists n. split; [done|]. by rewrite <- Hn.
Defined.
