(* ===== verification/Node.v ===== *)
(** * The node cache

    [struct node]/[struct disknode], [inode_init], [read_node],
    [diskfs_cached_lookup] and [diskfs_node_norefs] of dir.c.  Nodes live in a
    heap and are chained in 512 hash buckets; a node knows the address of the
    pointer that points to it ([hprevp]). *)

From stdpp Require Import gmap.
From S2P Require Import Prelude Layout Disk Xtree Sample Imap.

(** ** Definitions: data *)

Definition INOHSZ : Z := 512.
Definition INOHASH (ino : Z) : Z := Z.land ino (INOHSZ - 1).
Definition JFS_SUPER_MAGIC : Z := 0x3153464a.

Definition S_IFMT : Z := 0xF000.
Definition S_IFDIR : Z := 0x4000.
Definition S_IFREG : Z := 0x8000.
Definition S_IFLNK : Z := 0xA000.
Definition S_ISDIR (mode : Z) : bool := Z.land mode S_IFMT =? S_IFDIR.
Definition S_ISREG (mode : Z) : bool := Z.land mode S_IFMT =? S_IFREG.
Definition S_ISLNK (mode : Z) : bool := Z.land mode S_IFMT =? S_IFLNK.

(** The fields of [struct stat] that [read_node] sets. *)
Record stat_t := Stat {
  st_fstype : Z; st_fsid : Z; st_ino : Z; st_gen : Z; st_rdev : Z; st_mode : Z;
  st_nlink : Z; st_uid : Z; st_gid : Z; st_author : Z; st_size : Z;
  st_atim : timestruc_t; st_mtim : timestruc_t; st_ctim : timestruc_t;
  st_blksize : Z; st_blocks : Z; st_flags : Z }.

(** Where a pointer to a node is stored: a bucket of [nodehash], or the [hnext]
    field of the disknode of a node. *)
Inductive slotref :=
| Bucket (i : Z)
| HNext (p : positive).

#[export] Instance slotref_eq_dec : EqDecision slotref.
Proof. solve_decision. Defined.

(** [struct node] with its [struct disknode] inlined: each node owns exactly
    one.  [dn_stat] is [None] until [read_node] fills it. *)
Record node := Node {
  cache_id : Z;
  references : Z;
  light_references : Z;
  locked : bool;
  dn_stat : option stat_t;
  author_tracks_uid : bool;
  fileinfo : option positive;
  hnext : option positive;
  hprevp : slotref }.

(** The node heap, [nodehash], and whether [diskfs_node_refcnt_lock] is held. *)
Record nstate := NState {
  nodes : gmap positive node;
  nodehash : list (option positive);
  refcnt_lock : bool }.

(** The Hurd around the translator.  [make_node] returns the node libdiskfs
    allocates, if it can; [catch_exception] what [diskfs_catch_exception]
    returns, [None] for 0. *)
Record hurd := Hurd {
  vm_page_size : Z;
  getpid : Z;
  catch_exception : option error_t;
  make_node : gmap positive node -> option positive }.

(** [diskfs_make_node] returns a node that is not in use. *)
Class HurdLaws (hd : hurd) : Prop := {
  make_node_fresh : forall h p, make_node hd h = Some p -> h !! p = None }.

(** ** Definitions: locks and updates *)

(** A thread that takes a lock it already holds stops for good. *)
Definition spin_lock (s : nstate) : res nstate :=
  if refcnt_lock s then Fault SelfDeadlock else Ret (NState (nodes s) (nodehash s) true).
Definition spin_unlock (s : nstate) : nstate := NState (nodes s) (nodehash s) false.

Definition set_nodes (s : nstate) (h : gmap positive node) : nstate :=
  NState h (nodehash s) (refcnt_lock s).
Definition update_node (p : positive) (f : node -> node) (s : nstate) : nstate :=
  set_nodes s (alter f p (nodes s)).

Definition set_locked (b : bool) (n : node) : node :=
  Node (cache_id n) (references n) (light_references n) b (dn_stat n) (author_tracks_uid n)
    (fileinfo n) (hnext n) (hprevp n).
Definition add_reference (d : Z) (n : node) : node :=
  Node (cache_id n) (references n + d) (light_references n) (locked n) (dn_stat n)
    (author_tracks_uid n) (fileinfo n) (hnext n) (hprevp n).
Definition set_stat (st : stat_t) (n : node) : node :=
  Node (cache_id n) (references n) (light_references n) (locked n) (Some st) true
    (fileinfo n) (hnext n) (hprevp n).
Definition set_hnext (q : option positive) (n : node) : node :=
  Node (cache_id n) (references n) (light_references n) (locked n) (dn_stat n)
    (author_tracks_uid n) (fileinfo n) q (hprevp n).
Definition set_hprevp (r : slotref) (n : node) : node :=
  Node (cache_id n) (references n) (light_references n) (locked n) (dn_stat n)
    (author_tracks_uid n) (fileinfo n) (hnext n) r.

(** [pthread_mutex_lock (&np->lock)], for a lock nobody else will release. *)
Definition mutex_lock (p : positive) (s : nstate) : res nstate :=
  let* n := of_option NullDeref (nodes s !! p) in
  if locked n then Fault SelfDeadlock else Ret (update_node p (set_locked true) s).
Definition mutex_unlock (p : positive) (s : nstate) : nstate := update_node p (set_locked false) s.

(** [*r = v] for the address [r] of a chain pointer. *)
Definition store_slot (r : slotref) (v : option positive) (s : nstate) : nstate :=
  match r with
  | Bucket i => NState (nodes s) (<[Z.to_nat i := v]> (nodehash s)) (refcnt_lock s)
  | HNext p => update_node p (set_hnext v) s
  end.

(** ** Definitions: operations *)

(** The loop stores 0 in every bucket. *)
Fixpoint inode_init_loop (n : nat) (tbl : list (option positive)) : list (option positive) :=
  match n with
  | O => tbl
  | S n' => <[n' := None]> (inode_init_loop n' tbl)
  end.

Definition inode_init (s : nstate) : nstate :=
  NState (nodes s) (inode_init_loop (Z.to_nat INOHSZ) (nodehash s)) (refcnt_lock s).

Definition timespec_of (t : timestruc_t) : timestruc_t :=
  Timestruc (s32 (tv_sec t)) (s32 (tv_nsec t)).

(** The assignments of [read_node] to [st], in order: the mode is set from the
    inode, tested, and replaced at the end by a directory of mode 0777 or a
    regular file of mode 0666. *)
Definition inode_stat (hd : hurd) (id : Z) (di : dinode_t) : stat_t :=
  let mode := di_mode di in
  let size := if S_ISLNK mode then 0 else di_size di in
  let final_mode :=
    if S_ISDIR mode then Z.lor S_IFDIR 0x1FF else Z.lor S_IFREG 0x1B6 in
  Stat JFS_SUPER_MAGIC (getpid hd) id (di_gen di) 0 final_mode (di_nlink di) (di_uid di)
    (di_gid di) (di_uid di) size (timespec_of (di_atime di)) (timespec_of (di_mtime di))
    (timespec_of (di_ctime di)) (vm_page_size hd * 2) (Z.quot (di_size di) 512 + 1) 0.

(** Returns the state and the C return value ([None] for 0). *)
Definition read_node (hd : hurd) (fuel : nat) (e : env) (s : nstate) (np : positive)
    : res (nstate * option error_t) :=
  let* n := of_option NullDeref (nodes s !! np) in
  match read_inode fuel e (cache_id n) with
  | Ret di =>
      let* s := spin_lock s in
      match catch_exception hd with
      | Some err => Ret (s, Some err)
      | None =>
          let s := update_node np (set_stat (inode_stat hd (cache_id n) di)) s in
          Ret (spin_unlock s, None)
      end
  | Err _ => Ret (s, Some (Erc 1))
  | Fault f => Fault f
  | NoFuel => NoFuel
  end.

(** [for (np = nodehash[INOHASH(inum)]; np; np = np->dn->hnext)] *)
Fixpoint hash_find (fuel : nat) (h : gmap positive node) (cur : option positive) (inum : Z)
    : res (option positive) :=
  match cur with
  | None => Ret None
  | Some p =>
      match fuel with
      | O => NoFuel
      | S fuel' =>
          let* n := of_option NullDeref (h !! p) in
          if cache_id n =? inum then Ret (Some p) else hash_find fuel' h (hnext n) inum
      end
  end.

Definition sizeof_disknode : Z := 12.

(** A node as [diskfs_make_node] and the code before "Put NP in NODEHASH" leave
    it: one hard reference, unlocked. *)
Definition new_node (inum : Z) (next : option positive) : node :=
  Node inum 1 0 false None false None next (Bucket (INOHASH inum)).

(** "Put NP in NODEHASH". *)
Definition hash_insert (s : nstate) (np : positive) (inum : Z) : res nstate :=
  let h := INOHASH inum in
  let* next := of_option OutOfBounds (nodehash s !! Z.to_nat h) in
  let s := set_nodes s (<[np := new_node inum next]> (nodes s)) in
  let s := match next with
           | Some q => update_node q (set_hprevp (HNext np)) s
           | None => s
           end in
  Ret (store_slot (Bucket h) (Some np) s).

(** Returns the state, [*npp], and the C return value. *)
Definition diskfs_cached_lookup (hd : hurd) (fuel : nat) (e : env) (s : nstate) (inum : Z)
    : res (nstate * option positive * option error_t) :=
  let* s := spin_lock s in
  let* head := of_option OutOfBounds (nodehash s !! Z.to_nat (INOHASH inum)) in
  let* found := hash_find (size (nodes s)) (nodes s) head inum in
  match found with
  | Some p =>
      let s := spin_unlock (update_node p (add_reference 1) s) in
      let* s := mutex_lock p s in
      Ret (s, Some p, None)
  | None =>
      if negb (malloc_ok e sizeof_disknode) then Ret (spin_unlock s, None, Some ENOMEM)
      else
        match make_node hd (nodes s) with
        | None => Ret (spin_unlock s, None, Some ENOMEM)
        | Some np =>
            let* s := hash_insert s np inum in
            let* '(s, err) := read_node hd fuel e (spin_unlock s) np in
            Ret (update_node np (add_reference 1) s, Some np, err)
        end
  end.

(** Unlinks and frees a node; [free] removes it from the heap. *)
Definition diskfs_node_norefs (s : nstate) (np : positive) : res nstate :=
  let* n := of_option NullDeref (nodes s !! np) in
  let s := store_slot (hprevp n) (hnext n) s in
  let s := match hnext n with
           | Some q => update_node q (set_hprevp (hprevp n)) s
           | None => s
           end in
  match fileinfo n with
  | Some _ => Fault AssertFailed
  | None => Ret (set_nodes s (delete np (nodes s)))
  end.

(** [read_symlink_hook] *)
Definition read_symlink_hook : error_t := EOPNOTSUPP.

(** ** Specification *)

(** The chain of hash nodes [l] from the pointer stored at [r] (value [cur]) to
    the pointer stored at [r'] (value [cur']): every node of it knows where the
    pointer to it is stored. *)
Fixpoint hseg (h : gmap positive node) (r : slotref) (cur : option positive)
    (l : list positive) (r' : slotref) (cur' : option positive) : Prop :=
  match l with
  | [] => r = r' /\ cur = cur'
  | p :: l' =>
      cur = Some p /\
      exists n, h !! p = Some n /\ hprevp n = r /\ hseg h (HNext p) (hnext n) l' r' cur'
  end.

Definition hchain (h : gmap positive node) (i : Z) (head : option positive) (l : list positive) : Prop :=
  exists r, hseg h (Bucket i) head l r None.

(** The cache: 512 doubly linked chains that partition the nodes of the heap by
    the hash of their number, and no number twice. *)
Record hash_ok (s : nstate) (chain : Z -> list positive) : Prop := {
  hash_len : length (nodehash s) = Z.to_nat INOHSZ;
  hash_chain i : 0 <= i < INOHSZ ->
    exists head, nodehash s !! Z.to_nat i = Some head /\ hchain (nodes s) i head (chain i);
  hash_nodup i : NoDup (chain i);
  hash_mem p n : nodes s !! p = Some n -> p ∈ chain (INOHASH (cache_id n));
  hash_here i p : 0 <= i < INOHSZ -> p ∈ chain i ->
    exists n, nodes s !! p = Some n /\ INOHASH (cache_id n) = i;
  hash_inj p q n m : nodes s !! p = Some n -> nodes s !! q = Some m ->
    cache_id n = cache_id m -> p = q }.

Definition cache_ok (s : nstate) : Prop := exists chain, hash_ok s chain.

(** The finite map the cache represents: node pointers by inode number. *)
Definition cached (s : nstate) (inum : Z) (p : positive) : Prop :=
  exists n, nodes s !! p = Some n /\ cache_id n = inum.

(** ** Lemmas: chains *)

Definition links (n : node) : option positive * slotref := (hnext n, hprevp n).

Lemma hseg_ext h h' r cur l r' cur' :
  (forall p, p ∈ l -> links <$> h' !! p = links <$> h !! p) ->
  hseg h r cur l r' cur' -> hseg h' r cur l r' cur'.
Proof.
  revert r cur. induction l as [|p l IH]; intros r cur Hext; simpl; [done|].
  intros (-> & n & Hn & Hp & Hl). split; [done|].
  specialize (Hext p ltac:(by left)) as He. rewrite Hn in He.
  destruct (h' !! p) as [n'|] eqn:Hn'; [|done]. simpl in He. injection He as He1 He2.
  exists n'. rewrite He2. split; [done|]. split; [done|]. rewrite He1. apply IH; [|done].
  intros q Hq. apply Hext. by right.
Qed.

Lemma hseg_app h r cur l1 l2 r' cur' :
  hseg h r cur (l1 ++ l2) r' cur' <->
  exists rm cm, hseg h r cur l1 rm cm /\ hseg h rm cm l2 r' cur'.
Proof.
  revert r cur. induction l1 as [|p l1 IH]; intros r cur; simpl.
  - split; [by eauto|]. by intros (? & ? & [<- <-] & ?).
  - split.
    + intros (-> & n & Hn & Hp & (rm & cm & ? & ?)%IH). exists rm, cm. eauto 10.
    + intros (rm & cm & (-> & n & Hn & Hp & ?) & ?). split; [done|]. exists n.
      split; [done|]. split; [done|]. apply IH. eauto.
Qed.

(** Redirecting the pointer a segment ends at. *)
Lemma hseg_store h r cur l p cur' v n :
  hseg h r cur (l ++ [p]) (HNext p) cur' -> p ∉ l -> h !! p = Some n ->
  hseg (<[p := set_hnext v n]> h) r cur (l ++ [p]) (HNext p) v.
Proof.
  intros (rm & cm & Hl & (-> & n' & Hn' & Hp & _ & _))%hseg_app Hnot Hn.
  apply hseg_app. exists rm, (Some p). split.
  - eapply hseg_ext; [|exact Hl]. intros q Hq. by rewrite lookup_insert_ne by (intros ->; done).
  - simpl. split; [done|]. exists (set_hnext v n). rewrite lookup_insert_eq.
    simplify_eq. done.
Qed.

Lemma hseg_last h r cur l p r' cur' : hseg h r cur (l ++ [p]) r' cur' -> r' = HNext p.
Proof. by intros (? & ? & _ & (_ & ? & _ & _ & <- & _))%hseg_app. Qed.

Lemma INOHASH_range i : 0 <= INOHASH i < INOHSZ.
Proof.
  unfold INOHASH, INOHSZ. change (512 - 1) with (2 ^ 9 - 1). rewrite land_low_mod by lia.
  apply Z.mod_pos_bound. lia.
Qed.

(** The cache invariant only reads links and numbers. *)
Lemma hash_ok_ext s s' chain :
  (forall p, links <$> nodes s' !! p = links <$> nodes s !! p) ->
  (forall p, cache_id <$> nodes s' !! p = cache_id <$> nodes s !! p) ->
  nodehash s' = nodehash s -> hash_ok s chain -> hash_ok s' chain.
Proof.
  intros Hl Hc Ht [? Hch ? Hmem Hhere Hinj].
  assert (forall p n', nodes s' !! p = Some n' ->
    exists n, nodes s !! p = Some n /\ cache_id n = cache_id n') as Hback.
  { intros p n' Hp. specialize (Hc p). rewrite Hp in Hc.
    destruct (nodes s !! p) as [n|]; [|done]. injection Hc as Hc. eauto. }
  split; rewrite ?Ht; try done.
  - intros i Hi. destruct (Hch i Hi) as (head & ? & r & ?). exists head. split; [done|].
    exists r. eapply hseg_ext; [|done]. intros p _. apply Hl.
  - intros p n' (n & Hn & <-)%Hback. by apply Hmem.
  - intros i p Hi Hp. destruct (Hhere i p Hi Hp) as (n & Hn & Hh). specialize (Hc p).
    rewrite Hn in Hc. destruct (nodes s' !! p) as [n'|]; [|done]. injection Hc as Hc.
    exists n'. by rewrite Hc.
  - intros p q n' m' (n & Hn & Hnn)%Hback (m & Hm & Hmm)%Hback Heq.
    eapply Hinj; [exact Hn|exact Hm|congruence].
Qed.

Lemma hash_ok_update s chain p f :
  (forall n, links (f n) = links n /\ cache_id (f n) = cache_id n) ->
  hash_ok s chain -> hash_ok (update_node p f s) chain.
Proof.
  intros Hf. apply hash_ok_ext; [| |done]; intros q; simpl;
    (destruct (decide (p = q)) as [->|]; [rewrite lookup_alter_eq|by rewrite lookup_alter_ne]);
    destruct (nodes s !! q); simpl; f_equal; apply Hf.
Qed.

Lemma hash_ok_lock s chain b :
  hash_ok (NState (nodes s) (nodehash s) b) chain <-> hash_ok s chain.
Proof. split; by apply hash_ok_ext. Qed.

(** A node without its links. *)
Definition contents (n : node) : node := set_hnext None (set_hprevp (Bucket 0) n).

(** [s'] holds the nodes of [s] except possibly [p]; links may differ. *)
Definition same_but (p : positive) (s s' : nstate) : Prop :=
  forall q, q <> p -> contents <$> nodes s' !! q = contents <$> nodes s !! q.

Lemma same_but_refl p s : same_but p s s.
Proof. by intros q _. Qed.

Lemma same_but_trans p s1 s2 s3 : same_but p s1 s2 -> same_but p s2 s3 -> same_but p s1 s3.
Proof. intros H1 H2 q Hq. rewrite (H2 q Hq). by apply H1. Qed.

Lemma updated s p f n : nodes s !! p = Some n -> nodes (update_node p f s) !! p = Some (f n).
Proof. intros Hn. cbn. by rewrite lookup_alter_eq, Hn. Qed.

Lemma same_but_update p f s : same_but p s (update_node p f s).
Proof. intros q Hq. simpl. by rewrite lookup_alter_ne. Qed.

#[export] Instance same_but_preorder p : PreOrder (same_but p).
Proof. split; [intros s; apply same_but_refl|intros s1 s2 s3; apply same_but_trans]. Qed.

Lemma hseg_length h r cur l r' cur' :
  hseg h r cur l r' cur' -> NoDup l -> (length l <= size h)%nat.
Proof.
  intros Hl Hnd. rewrite <- (size_list_to_set (C := gset positive)) by done.
  rewrite <- size_dom. apply subseteq_size. intros p Hp%elem_of_list_to_set.
  apply elem_of_dom. clear Hnd. revert r cur Hl Hp.
  induction l as [|q l IH]; intros r cur Hl Hp; [by apply elem_of_nil in Hp|].
  destruct Hl as (-> & n & Hn & _ & Hl). apply elem_of_cons in Hp as [->|Hp]; [by rewrite Hn|].
  by eapply IH.
Qed.

Lemma hash_find_ok h r cur l r' inum fuel :
  hseg h r cur l r' None -> (length l <= fuel)%nat ->
  exists o, hash_find fuel h cur inum = Ret o /\
    match o with
    | Some p => p ∈ l /\ exists n, h !! p = Some n /\ cache_id n = inum
    | None => forall p n, p ∈ l -> h !! p = Some n -> cache_id n <> inum
    end.
Proof.
  revert r cur fuel. induction l as [|p l IH]; intros r cur fuel Hl Hf.
  { destruct Hl as [_ ->]. exists None. split; [by destruct fuel|]. by intros p n ?%elem_of_nil. }
  destruct Hl as (-> & n & Hn & _ & Hl). simpl in Hf. destruct fuel as [|fuel]; [lia|].
  cbn [hash_find]. rewrite Hn. cbn [of_option res_bind]. destruct (Z.eqb_spec (cache_id n) inum).
  - exists (Some p). split; [done|]. split; [by left|eauto].
  - destruct (IH _ _ fuel Hl ltac:(lia)) as (o & -> & Ho). exists o. split; [done|].
    destruct o as [q|]; [destruct Ho; split; [by right|done]|].
    intros q m [->|Hq]%elem_of_cons Hm; [congruence|by eapply Ho].
Qed.

(** The search of a bucket finds exactly the cached node. *)
Lemma hash_find_cached s chain inum :
  hash_ok s chain ->
  exists head o, nodehash s !! Z.to_nat (INOHASH inum) = Some head /\
    hash_find (size (nodes s)) (nodes s) head inum = Ret o /\
    match o with Some p => cached s inum p | None => forall p, ~ cached s inum p end.
Proof.
  intros Hok. destruct (hash_chain _ _ Hok (INOHASH inum) (INOHASH_range _)) as (head & Hh & r & Hl).
  exists head. destruct (hash_find_ok _ _ _ _ _ inum (size (nodes s)) Hl) as (o & -> & Ho).
  { eapply hseg_length; [done|apply (hash_nodup _ _ Hok)]. }
  exists o. split; [done|]. split; [done|]. destruct o as [p|]; [by destruct Ho|].
  intros p (n & Hn & Hid). eapply Ho; [|done|done]. rewrite <- Hid. by eapply hash_mem.
Qed.

Definition set_chain (chain : Z -> list positive) (i : Z) (l : list positive) (j : Z) : list positive :=
  if decide (j = i) then l else chain j.

(** ** Lemmas: insertion *)

Section Insert.
Context (s : nstate) (chain : Z -> list positive) (np : positive) (inum : Z).
Hypothesis Hok : hash_ok s chain.
Hypothesis Hfresh : nodes s !! np = None.
Hypothesis Hnew : forall p, ~ cached s inum p.

Let h := INOHASH inum.

Lemma np_not_in i : 0 <= i < INOHSZ -> np ∉ chain i.
Proof. intros Hi Hin. destruct (hash_here _ _ Hok i np Hi Hin) as (n & ? & _). congruence. Qed.

(** The heap after the new node is created and the old head redirected. *)
Definition insert_heap (next : option positive) : gmap positive node :=
  let m := <[np := new_node inum next]> (nodes s) in
  match next with Some q => alter (set_hprevp (HNext np)) q m | None => m end.

Lemma insert_heap_np next : next <> Some np -> insert_heap next !! np = Some (new_node inum next).
Proof.
  intros Hn. unfold insert_heap. destruct next as [q|]; [rewrite lookup_alter_ne by congruence|];
    by rewrite lookup_insert_eq.
Qed.

Lemma insert_heap_ne next q :
  q <> np ->
  contents <$> insert_heap next !! q = contents <$> nodes s !! q /\
  (next <> Some q -> insert_heap next !! q = nodes s !! q) /\
  (next = Some q -> insert_heap next !! q = set_hprevp (HNext np) <$> nodes s !! q).
Proof.
  intros Hq. unfold insert_heap. destruct next as [q'|].
  - destruct (decide (q' = q)) as [->|].
    + rewrite lookup_alter_eq, lookup_insert_ne by done. split_and!; [by destruct (nodes s !! q)|done|done].
    + rewrite lookup_alter_ne, lookup_insert_ne by done. split_and!; [done|done|by intros [= ]].
  - rewrite lookup_insert_ne by done. done.
Qed.

Lemma insert_heap_same next q : q <> np -> next <> Some q -> insert_heap next !! q = nodes s !! q.
Proof. intros Hq. apply insert_heap_ne. done. Qed.

Lemma insert_heap_back next q n' :
  q <> np -> insert_heap next !! q = Some n' ->
  exists n, nodes s !! q = Some n /\ cache_id n = cache_id n'.
Proof.
  intros Hq Hn'. destruct (insert_heap_ne next q Hq) as [Hc _]. rewrite Hn' in Hc.
  destruct (nodes s !! q) as [n|]; [|done]. exists n. split; [done|]. by injection Hc.
Qed.

Lemma insert_heap_forth next q n :
  q <> np -> nodes s !! q = Some n ->
  exists n', insert_heap next !! q = Some n' /\ cache_id n' = cache_id n.
Proof.
  intros Hq Hn. destruct (insert_heap_ne next q Hq) as [Hc _]. rewrite Hn in Hc.
  destruct (insert_heap next !! q) as [n'|]; [|done]. exists n'. split; [done|]. by injection Hc.
Qed.

(** The head of the bucket is not the new node, and is in no other bucket. *)
Lemma head_elsewhere next r q i :
  hseg (nodes s) (Bucket h) next (chain h) r None -> 0 <= i < INOHSZ -> q ∈ chain i ->
  i <> h -> next <> Some q.
Proof.
  intros Hl Hi Hq Hne ->. destruct (hash_here _ _ Hok i q Hi Hq) as (n & Hn & Hin).
  destruct (chain h) as [|q' l] eqn:E; [by destruct Hl|]. destruct Hl as ([= <-] & _).
  destruct (hash_here _ _ Hok h q (INOHASH_range inum)) as (n' & Hn' & Hin'); [rewrite E; by left|].
  congruence.
Qed.

Lemma insert_new_chain next r :
  next <> Some np -> hseg (nodes s) (Bucket h) next (chain h) r None ->
  hchain (insert_heap next) h (Some np) (np :: chain h).
Proof.
  intros Hne Hl. pose proof (INOHASH_range inum) as Hh. fold h in Hh.
  exists (match chain h with [] => HNext np | _ => r end). cbn [hseg]. split; [done|].
  exists (new_node inum next). rewrite insert_heap_np by done. split; [done|]. split; [done|].
  cbn [hnext new_node]. destruct (chain h) as [|q l] eqn:E; [by destruct Hl as [_ ->]|].
  destruct Hl as (-> & n & Hn & Hp & Hl). cbn [hseg]. split; [done|].
  assert (q <> np) as Hq by congruence.
  destruct (insert_heap_ne (Some q) q Hq) as (_ & _ & Heq). rewrite Heq, Hn by done.
  eexists. split; [done|]. split; [done|]. cbn [hnext set_hprevp]. eapply hseg_ext; [|exact Hl].
  intros q' Hq'. pose proof (hash_nodup _ _ Hok h) as Hnd. rewrite E in Hnd.
  apply NoDup_cons in Hnd as [Hnd _]. assert (q' <> q) by congruence.
  assert (q' <> np). { intros ->. apply (np_not_in h Hh). rewrite E. by right. }
  rewrite insert_heap_same; congruence.
Qed.

Lemma insert_other_chain next r i head :
  hseg (nodes s) (Bucket h) next (chain h) r None -> 0 <= i < INOHSZ -> i <> h ->
  hchain (nodes s) i head (chain i) -> hchain (insert_heap next) i head (chain i).
Proof.
  intros Hl Hi Hne [r' Hl']. exists r'. eapply hseg_ext; [|exact Hl'].
  intros q Hq. assert (q <> np) by (intros ->; by apply (np_not_in i Hi)).
  rewrite insert_heap_same; [done|done|by eapply head_elsewhere].
Qed.

Lemma insert_hash_ok next r :
  nodehash s !! Z.to_nat h = Some next -> next <> Some np ->
  hseg (nodes s) (Bucket h) next (chain h) r None ->
  hash_ok (NState (insert_heap next) (<[Z.to_nat h := Some np]> (nodehash s)) (refcnt_lock s))
    (set_chain chain h (np :: chain h)).
Proof.
  intros Hnext Hne Hl. pose proof (INOHASH_range inum) as Hh. fold h in Hh.
  split; cbn [nodes nodehash]; unfold set_chain.
  - rewrite length_insert. apply Hok.
  - intros i Hi. case_decide as Hd.
    + subst i. exists (Some np). rewrite list_lookup_insert_eq by (rewrite (hash_len _ _ Hok); lia).
      split; [done|by eapply insert_new_chain].
    + destruct (hash_chain _ _ Hok i Hi) as (hd & Hhd & Hc). exists hd.
      rewrite list_lookup_insert_ne by lia. split; [done|by eapply insert_other_chain].
  - intros i. case_decide; [|apply Hok]. apply NoDup_cons. split; [by apply np_not_in|apply Hok].
  - intros p n Hn. destruct (decide (p = np)) as [->|Hp].
    + rewrite insert_heap_np in Hn by done. injection Hn as <-. rewrite decide_True by done. by left.
    + destruct (insert_heap_back _ p n Hp Hn) as (m & Hm & <-). pose proof (hash_mem _ _ Hok p m Hm).
      case_decide; [right; congruence|done].
  - intros i p Hi Hp.
    assert (p = np /\ i = h \/ p ∈ chain i) as [[-> ->]|Hpi].
    { case_decide; [|by right]. apply elem_of_cons in Hp as [->|]; [by left|right; congruence]. }
    + eexists. split; [by apply insert_heap_np|done].
    + destruct (hash_here _ _ Hok i p Hi Hpi) as (n & Hn & <-).
      destruct (insert_heap_forth next p n) as (n' & ? & <-); [intros ->; congruence|done|by eauto].
  - intros p q n m Hn Hm Heq. destruct (decide (p = np)) as [->|Hp], (decide (q = np)) as [->|Hq]; [done|..].
    + rewrite insert_heap_np in Hn by done. injection Hn as <-.
      destruct (insert_heap_back _ q m Hq Hm) as (m' & Hm' & Hid). destruct (Hnew q). exists m'. simpl in Heq. split; congruence.
    + rewrite insert_heap_np in Hm by done. injection Hm as <-.
      destruct (insert_heap_back _ p n Hp Hn) as (n' & Hn' & Hid). destruct (Hnew p). exists n'. simpl in Heq. split; congruence.
    + destruct (insert_heap_back _ p n Hp Hn) as (n' & Hn' & ?).
      destruct (insert_heap_back _ q m Hq Hm) as (m' & Hm' & ?).
      eapply (hash_inj _ _ Hok); [exact Hn'|exact Hm'|congruence].
Qed.

Lemma hash_insert_ok :
  exists s', hash_insert s np inum = Ret s' /\
    hash_ok s' (set_chain chain h (np :: chain h)) /\ refcnt_lock s' = refcnt_lock s /\
    (exists next, nodes s' !! np = Some (new_node inum next)) /\ same_but np s s'.
Proof.
  pose proof (INOHASH_range inum) as Hh. fold h in Hh.
  destruct (hash_chain _ _ Hok h Hh) as (next & Hnext & r & Hl).
  assert (next <> Some np) as Hne.
  { intros ->. destruct (chain h) as [|p l] eqn:E; [by destruct Hl|]. destruct Hl as ([= <-] & _).
    apply (np_not_in h Hh). rewrite E. by left. }
  exists (NState (insert_heap next) (<[Z.to_nat h := Some np]> (nodehash s)) (refcnt_lock s)).
  split; [unfold hash_insert; fold h; rewrite Hnext; unfold insert_heap; by destruct next|].
  split_and!; [by eapply insert_hash_ok|done|exists next; by apply insert_heap_np|].
  intros q Hq. by apply insert_heap_ne.
Qed.

End Insert.

(** ** Lemmas: removal *)

Definition store_heap (r : slotref) (v : option positive) (m : gmap positive node) :=
  match r with HNext p => alter (set_hnext v) p m | Bucket _ => m end.
Definition relink_heap (r : slotref) (v : option positive) (m : gmap positive node) :=
  match v with Some q => alter (set_hprevp r) q m | None => m end.

Lemma store_heap_ne r v m q : r <> HNext q -> store_heap r v m !! q = m !! q.
Proof. intros Hr. destruct r as [i|p]; [done|]. simpl. rewrite lookup_alter_ne by congruence. done. Qed.

Lemma relink_heap_ne r v m q : v <> Some q -> relink_heap r v m !! q = m !! q.
Proof. intros Hv. destruct v as [p|]; [|done]. simpl. rewrite lookup_alter_ne by congruence. done. Qed.

Lemma store_heap_contents r v m q : contents <$> store_heap r v m !! q = contents <$> m !! q.
Proof.
  destruct r as [i|p]; [done|]. simpl. destruct (decide (p = q)) as [->|];
    [rewrite lookup_alter_eq; by destruct (m !! q)|by rewrite lookup_alter_ne].
Qed.

Lemma relink_heap_contents r v m q : contents <$> relink_heap r v m !! q = contents <$> m !! q.
Proof.
  destruct v as [p|]; [|done]. simpl. destruct (decide (p = q)) as [->|];
    [rewrite lookup_alter_eq; by destruct (m !! q)|by rewrite lookup_alter_ne].
Qed.

(** The nodes after an unlinked one hang from the slot it hung from. *)
Lemma hseg_relink m r0 r v l r' :
  hseg m r0 v l r' None -> NoDup l -> exists r'', hseg (relink_heap r v m) r v l r'' None.
Proof.
  intros Hl Hnd. destruct l as [|q l].
  - destruct Hl as [_ ->]. exists r. done.
  - destruct Hl as (-> & n & Hn & Hp & Hl). apply NoDup_cons in Hnd as [Hq _]. exists r'. cbn [hseg].
    split; [done|]. exists (set_hprevp r n). simpl. rewrite lookup_alter_eq, Hn.
    split; [done|]. split; [done|]. eapply hseg_ext; [|exact Hl].
    intros p Hp'. rewrite lookup_alter_ne; [done|]. intros ->. done.
Qed.

(** The predecessor's part of the chain, its last pointer redirected. *)
Lemma hseg_redirect m i head l r cur v :
  hseg m (Bucket i) head l r cur -> NoDup l ->
  hseg (store_heap r v m) (Bucket i) (match l with [] => v | _ => head end) l r v.
Proof.
  intros Hl Hnd. destruct l as [|p l _] using rev_ind; [by destruct Hl as [<- _]|].
  pose proof (hseg_last _ _ _ _ _ _ _ Hl) as ->.
  apply NoDup_app in Hnd as (_ & Hp & _).
  assert (exists n, m !! p = Some n) as [n Hn].
  { apply hseg_app in Hl as (? & ? & _ & (_ & n & Hn & _)). eauto. }
  replace (match l ++ [p] with [] => v | _ => head end) with head by (by destruct l).
  simpl. rewrite (alter_alt_Some (set_hnext v) m p n) by done. eapply hseg_store; [done| |done].
  intros Hin. apply (Hp p Hin). by left.
Qed.

Section Remove.
Context (s : nstate) (chain : Z -> list positive) (np : positive) (n : node).
Hypothesis Hok : hash_ok s chain.
Hypothesis Hnp : nodes s !! np = Some n.

Let h := INOHASH (cache_id n).

Definition remove_heap : gmap positive node :=
  delete np (relink_heap (hprevp n) (hnext n) (store_heap (hprevp n) (hnext n) (nodes s))).

Definition remove_state : nstate :=
  NState remove_heap
    (match hprevp n with
     | Bucket i => <[Z.to_nat i := hnext n]> (nodehash s)
     | HNext _ => nodehash s
     end) (refcnt_lock s).

Lemma norefs_eq : fileinfo n = None -> diskfs_node_norefs s np = Ret remove_state.
Proof.
  intros Hf. unfold diskfs_node_norefs, remove_state, remove_heap. rewrite Hnp. cbn [of_option res_bind].
  rewrite Hf. destruct (hprevp n), (hnext n); done.
Qed.

Lemma remove_contents q : q <> np -> contents <$> remove_heap !! q = contents <$> nodes s !! q.
Proof.
  intros Hq. unfold remove_heap. rewrite lookup_delete_ne by done.
  by rewrite relink_heap_contents, store_heap_contents.
Qed.

Lemma remove_np : remove_heap !! np = None.
Proof. apply lookup_delete_eq. Qed.

Lemma remove_same q :
  q <> np -> hprevp n <> HNext q -> hnext n <> Some q -> remove_heap !! q = nodes s !! q.
Proof.
  intros. unfold remove_heap. by rewrite lookup_delete_ne, relink_heap_ne, store_heap_ne by done.
Qed.

Lemma remove_back q n' :
  remove_heap !! q = Some n' ->
  q <> np /\ exists m, nodes s !! q = Some m /\ cache_id m = cache_id n'.
Proof.
  intros Hq. assert (q <> np) by (intros ->; by rewrite remove_np in Hq). split; [done|].
  pose proof (remove_contents q) as Hc. rewrite Hq in Hc. specialize (Hc ltac:(done)).
  destruct (nodes s !! q) as [m|]; [|done]. exists m. split; [done|]. by injection Hc.
Qed.

Lemma remove_forth q m :
  q <> np -> nodes s !! q = Some m -> exists n', remove_heap !! q = Some n' /\ cache_id n' = cache_id m.
Proof.
  intros Hq Hm. pose proof (remove_contents q Hq) as Hc. rewrite Hm in Hc.
  destruct (remove_heap !! q) as [n'|]; [|done]. exists n'. split; [done|]. by injection Hc.
Qed.

(** The bucket's chain around the node. *)
Lemma split_chain :
  exists l1 l2 head r', chain h = l1 ++ np :: l2 /\ nodehash s !! Z.to_nat h = Some head /\
    hseg (nodes s) (Bucket h) head l1 (hprevp n) (Some np) /\
    hseg (nodes s) (HNext np) (hnext n) l2 r' None /\
    NoDup l1 /\ (np ∉ l1) /\ (np ∉ l2) /\ NoDup l2 /\ (forall p, p ∈ l1 -> p ∉ l2).
Proof.
  destruct (hash_chain _ _ Hok h (INOHASH_range _)) as (head & Hh & r' & Hl).
  destruct (list_elem_of_split _ _ (hash_mem _ _ Hok np n Hnp)) as (l1 & l2 & Hc). fold h in Hc.
  rewrite Hc in Hl. apply hseg_app in Hl as (r & c & Hl1 & (-> & m & Hm & <- & Hl2)).
  rewrite Hnp in Hm. injection Hm as <-.
  pose proof (hash_nodup _ _ Hok h) as Hnd. rewrite Hc in Hnd.
  apply NoDup_app in Hnd as (H1 & Hd & [Hn2 H2]%NoDup_cons).
  exists l1, l2, head, r'. split_and!; try done.
  - intros Hin. apply (Hd np Hin). by left.
  - intros p Hin Hin2. apply (Hd p Hin). by right.
Qed.

Lemma next_in l r' p : hseg (nodes s) (HNext np) (hnext n) l r' None -> hnext n = Some p -> p ∈ l.
Proof. intros Hl Hp. rewrite Hp in Hl. destruct l; [by destruct Hl|]. destruct Hl as ([= ->] & _). by left. Qed.

Lemma prev_in l head p :
  hseg (nodes s) (Bucket h) head l (hprevp n) (Some np) -> hprevp n = HNext p -> p ∈ l.
Proof.
  intros Hl Hp. destruct l as [|q l _] using rev_ind; [destruct Hl as [Hr _]; congruence|].
  pose proof (hseg_last _ _ _ _ _ _ _ Hl) as Hr. rewrite Hp in Hr. injection Hr as ->. apply elem_of_app. right. by left.
Qed.

Lemma remove_here :
  exists l1 l2 head, chain h = l1 ++ np :: l2 /\ (np ∉ l1) /\ (np ∉ l2) /\ NoDup (l1 ++ l2) /\
    nodehash remove_state !! Z.to_nat h = Some head /\ hchain remove_heap h head (l1 ++ l2).
Proof.
  destruct split_chain as (l1 & l2 & head & r' & Hc & Hh & Hl1 & Hl2 & Hnd1 & Hn1 & Hn2 & Hnd2 & Hd).
  exists l1, l2, (match l1 with [] => hnext n | _ => head end). split_and!; try done.
  { apply NoDup_app. done. }
  { unfold remove_state. cbn [nodehash]. destruct l1 as [|q l _] using rev_ind.
    - destruct Hl1 as [<- _]. rewrite list_lookup_insert_eq; [done|]. by eapply lookup_lt_Some.
    - rewrite (hseg_last _ _ _ _ _ _ _ Hl1), Hh. by destruct l. }
  assert (forall p, p ∈ l2 -> store_heap (hprevp n) (hnext n) (nodes s) !! p = nodes s !! p) as Hst.
  { intros p Hp. apply store_heap_ne. intros Hr. eapply Hd; [by eapply prev_in|done]. }
  destruct (hseg_relink (store_heap (hprevp n) (hnext n) (nodes s)) (HNext np) (hprevp n) (hnext n) l2 r')
    as [r'' Hr''].
  { eapply hseg_ext; [|exact Hl2]. intros p Hp. by rewrite Hst. }
  { done. }
  exists r''. apply hseg_app. exists (hprevp n), (hnext n). split.
  - eapply hseg_ext; [|by eapply hseg_redirect]. intros p Hp. unfold remove_heap.
    rewrite lookup_delete_ne by congruence. rewrite relink_heap_ne; [done|].
    intros Hnx. eapply Hd; [done|by eapply next_in].
  - eapply hseg_ext; [|exact Hr'']. intros p Hp. unfold remove_heap.
    by rewrite lookup_delete_ne by congruence.
Qed.

Lemma remove_other i head :
  0 <= i < INOHSZ -> i <> h -> hchain (nodes s) i head (chain i) -> hchain remove_heap i head (chain i).
Proof.
  intros Hi Hne [r Hl]. exists r. eapply hseg_ext; [|exact Hl]. intros q Hq.
  destruct split_chain as (l1 & l2 & hd & r' & Hc & _ & Hl1 & Hl2 & _).
  destruct (hash_here _ _ Hok i q Hi Hq) as (m & Hm & Hmi).
  assert (q ∉ chain h) as Hnot.
  { intros Hq'. destruct (hash_here _ _ Hok h q (INOHASH_range _) Hq') as (m' & ? & ?). congruence. }
  rewrite Hc in Hnot. rewrite remove_same; [done|..].
  - intros ->. apply Hnot, elem_of_app. right. by left.
  - intros Hr. apply Hnot, elem_of_app. left. by eapply prev_in.
  - intros Hnx. apply Hnot, elem_of_app. right. right. by eapply next_in.
Qed.

Lemma remove_ok : exists l, hash_ok remove_state (set_chain chain h l).
Proof.
  destruct remove_here as (l1 & l2 & head & Hc & Hn1 & Hn2 & Hnd & Hhead & Hch).
  pose proof (INOHASH_range (cache_id n)) as Hh. fold h in Hh.
  assert (forall i p, p ∈ set_chain chain h (l1 ++ l2) i <-> p ∈ chain i /\ (i = h -> p <> np)) as Hin.
  { intros i p. unfold set_chain. case_decide as Hi; [subst i|].
    - rewrite Hc, !elem_of_app, elem_of_cons. split; [|intuition congruence].
      intros Hp. split; [tauto|]. intros _ ->. tauto.
    - split; [by split|by intros [? _]]. }
  exists (l1 ++ l2). split.
  - unfold remove_state. cbn [nodehash]. destruct (hprevp n); rewrite ?length_insert; apply Hok.
  - intros i Hi. unfold set_chain. case_decide as Hd; [subst i; by eauto|].
    destruct (hash_chain _ _ Hok i Hi) as (hd & Hhd & Hl). exists hd. split; [|by apply remove_other].
    unfold remove_state. cbn [nodehash]. destruct (hprevp n) as [j|] eqn:Hr; [|done].
    destruct split_chain as (l1' & _ & hd' & _ & _ & _ & Hl1 & _). rewrite Hr in Hl1.
    destruct l1' as [|q l _] using rev_ind; [|by pose proof (hseg_last _ _ _ _ _ _ _ Hl1)].
    destruct Hl1 as [[= <-] _]. by rewrite list_lookup_insert_ne by lia.
  - intros i. unfold set_chain. case_decide; [done|apply Hok].
  - intros p m Hm. apply remove_back in Hm as (Hp & m' & Hm' & <-). apply Hin.
    split; [by eapply hash_mem|done].
  - intros i p Hi [Hp Hne]%Hin. destruct (hash_here _ _ Hok i p Hi Hp) as (m & Hm & <-).
    destruct (remove_forth p m) as (m' & ? & <-); [|done|by eauto].
    intros ->. apply Hne; [|done]. rewrite Hnp in Hm. by injection Hm as <-.
  - intros p q m m' (_ & m1 & Hm1 & ?)%remove_back (_ & m2 & Hm2 & ?)%remove_back Heq.
    eapply (hash_inj _ _ Hok); [exact Hm1|exact Hm2|congruence].
Qed.

End Remove.

(** ** Lemmas: operations *)

Lemma inode_init_loop_all (tbl : list (option positive)) :
  inode_init_loop (length tbl) tbl = replicate (length tbl) None.
Proof.
  assert (forall n, (n <= length tbl)%nat ->
    length (inode_init_loop n tbl) = length tbl /\
    forall i, (i < n)%nat -> inode_init_loop n tbl !! i = Some None) as Hloop.
  { induction n as [|n IH]; intros Hn; cbn [inode_init_loop]; [split; [done|lia]|].
    destruct IH as [Hlen Hi]; [lia|]. rewrite length_insert. split; [done|]. intros i Hin.
    destruct (decide (i = n)) as [->|]; [apply list_lookup_insert_eq; lia|].
    rewrite list_lookup_insert_ne by done. apply Hi. lia. }
  destruct (Hloop (length tbl)) as [Hlen Hi]; [done|]. apply list_eq. intros i.
  destruct (decide (i < length tbl)%nat).
  - rewrite Hi by done. symmetry. by apply lookup_replicate.
  - rewrite !lookup_ge_None_2; rewrite ?length_replicate; lia || done.
Qed.

(** After [inode_init], with no node allocated, the cache is well formed. *)
Lemma inode_init_ok s :
  nodes s = ∅ -> length (nodehash s) = Z.to_nat INOHSZ -> cache_ok (inode_init s).
Proof.
  intros Hn Hlen. exists (fun _ => []).
  assert (nodehash (inode_init s) = replicate (Z.to_nat INOHSZ) None) as Htbl.
  { unfold inode_init. cbn [nodehash]. rewrite <- Hlen. apply inode_init_loop_all. }
  split; rewrite ?Htbl; cbn [inode_init nodes]; rewrite ?Hn.
  - by rewrite length_replicate.
  - intros i Hi. exists None. split; [apply lookup_replicate; split; [done|lia]|by exists (Bucket i)].
  - intros i. constructor.
  - intros p n. by rewrite lookup_empty.
  - intros i p _ Hp. by apply elem_of_nil in Hp.
  - intros p q n m. by rewrite lookup_empty.
Qed.

Lemma read_node_eq hd fuel e s np n :
  nodes s !! np = Some n -> refcnt_lock s = false ->
  read_node hd fuel e s np =
  match read_inode fuel e (cache_id n) with
  | Ret di =>
      match catch_exception hd with
      | Some err => Ret (NState (nodes s) (nodehash s) true, Some err)
      | None => Ret (update_node np (set_stat (inode_stat hd (cache_id n) di)) s, None)
      end
  | Err _ => Ret (s, Some (Erc 1))
  | Fault f => Fault f
  | NoFuel => NoFuel
  end.
Proof.
  intros Hn Hl. unfold read_node, spin_lock. rewrite Hn. cbn [of_option res_bind].
  destruct (read_inode fuel e (cache_id n)); try done. rewrite Hl. cbn [res_bind].
  destruct (catch_exception hd); [done|]. unfold spin_unlock, update_node, set_nodes. simpl. by rewrite Hl.
Qed.

(** [read_node] changes the node it fills and the lock, nothing else. *)
Lemma read_node_effect hd fuel e s np s' err chain :
  hash_ok s chain -> refcnt_lock s = false ->
  read_node hd fuel e s np = Ret (s', err) ->
  hash_ok s' chain /\ same_but np s s' /\
  (exists n n', nodes s !! np = Some n /\ nodes s' !! np = Some n' /\
     cache_id n' = cache_id n /\ references n' = references n /\ locked n' = locked n) /\
  (err = None -> refcnt_lock s' = false).
Proof.
  intros Hok Hl H. destruct (nodes s !! np) as [n|] eqn:Hn;
    [|unfold read_node in H; by rewrite Hn in H].
  rewrite (read_node_eq _ _ _ _ _ n) in H by done.
  destruct (read_inode fuel e (cache_id n)) as [di|er|f|] eqn:Hr; try done.
  - destruct (catch_exception hd) as [er|]; injection H as <- <-.
    + split_and!; [by apply hash_ok_lock|by intros q|by exists n, n|done].
    + split_and!; [by apply hash_ok_update|apply same_but_update| |done].
      exists n, (set_stat (inode_stat hd (cache_id n) di) n). simpl. by rewrite lookup_alter_eq, Hn.
  - injection H as <- <-. split_and!; [done|done|by exists n, n|done].
Qed.

Lemma cached_hit hd fuel e s inum p n :
  cache_ok s -> refcnt_lock s = false -> nodes s !! p = Some n -> cache_id n = inum ->
  diskfs_cached_lookup hd fuel e s inum =
  if locked n then Fault SelfDeadlock
  else Ret (update_node p (set_locked true) (update_node p (add_reference 1) s), Some p, None).
Proof.
  intros [chain Hok] Hl Hn Hid. unfold diskfs_cached_lookup, spin_lock. rewrite Hl. cbn [res_bind].
  destruct (hash_find_cached s chain inum Hok) as (head & o & Hh & Hf & Ho).
  simpl. rewrite Hh. cbn [of_option res_bind]. rewrite Hf. cbn [res_bind].
  destruct o as [q|]; [|destruct (Ho p); by exists n]. destruct Ho as (m & Hm & Hmid).
  assert (q = p) as -> by (eapply (hash_inj _ _ Hok); [exact Hm|exact Hn|congruence]).
  unfold mutex_lock, update_node, set_nodes, spin_unlock. simpl. rewrite lookup_alter_eq, Hn. simpl.
  destruct (locked n); [done|]. by rewrite Hl.
Qed.

(** The state in which the lookup of an uncached number reads the inode. *)
Lemma cached_miss hd fuel e s inum `{HurdLaws hd} chain :
  hash_ok s chain -> refcnt_lock s = false -> (forall p, ~ cached s inum p) ->
  match (if malloc_ok e sizeof_disknode then make_node hd (nodes s) else None) with
  | None => diskfs_cached_lookup hd fuel e s inum = Ret (s, None, Some ENOMEM)
  | Some np =>
      exists s1, hash_insert s np inum = Ret s1 /\
        hash_ok s1 (set_chain chain (INOHASH inum) (np :: chain (INOHASH inum))) /\
        refcnt_lock s1 = false /\ (exists next, nodes s1 !! np = Some (new_node inum next)) /\
        same_but np s s1 /\ nodes s !! np = None /\
        diskfs_cached_lookup hd fuel e s inum =
        (let* '(s2, err) := read_node hd fuel e s1 np in
         Ret (update_node np (add_reference 1) s2, Some np, err))
  end.
Proof.
  intros Hok Hl Hno. unfold diskfs_cached_lookup, spin_lock. rewrite Hl. cbn [res_bind].
  destruct (hash_find_cached s chain inum Hok) as (head & o & Hh & Hf & Ho).
  simpl. rewrite Hh. cbn [of_option res_bind]. rewrite Hf. cbn [res_bind].
  destruct o as [q|]; [by destruct (Hno q)|].
  destruct (malloc_ok e sizeof_disknode); cbn [negb].
  2: { unfold spin_unlock. simpl. rewrite <- Hl. by destruct s. }
  destruct (make_node hd (nodes s)) as [np|] eqn:Hmk.
  2: { unfold spin_unlock. simpl. rewrite <- Hl. by destruct s. }
  pose proof (make_node_fresh _ _ Hmk) as Hfresh.
  destruct (hash_insert_ok s chain np inum Hok Hfresh Hno) as (s1 & Hins & Hok1 & Hl1 & Hnp & Hsame).
  exists s1. split_and!; try done; [congruence|].
  destruct (hash_insert_ok (NState (nodes s) (nodehash s) true) chain np inum) as (s1' & Hins' & _);
    [by apply hash_ok_lock|done|done|]. rewrite Hins'. cbn [res_bind].
  assert (spin_unlock s1' = s1) as ->; [|done].
  unfold hash_insert in *. simpl in *. destruct (nodehash s !! _) as [next|]; [|done].
  cbn [of_option res_bind] in *. injection Hins as <-. injection Hins' as <-.
  unfold spin_unlock. destruct next; simpl; by rewrite Hl.
Qed.

(** How the cache map changes with the contents of one node. *)
Lemma cached_same_but p s s' inum :
  same_but p s s' -> (forall n, nodes s !! p = Some n -> cache_id n = inum) ->
  (forall n, nodes s' !! p = Some n -> cache_id n = inum) ->
  forall i q, i <> inum -> cached s' i q <-> cached s i q.
Proof.
  intros Hs Hn Hn' i q Hi. unfold cached.
  destruct (decide (q = p)) as [->|Hq].
  { split; intros (n & Hq & Hid); exfalso; [apply Hn' in Hq|apply Hn in Hq]; congruence. }
  specialize (Hs q Hq). destruct (nodes s' !! q) as [n'|], (nodes s !! q) as [n|]; try done.
  injection Hs as Hc. split; intros (m & [= <-] & <-); eauto.
Qed.

(** What a lookup may do to the cache map. *)
Definition map_step (s s' : nstate) (inum : Z) (p : positive) : Prop :=
  cache_ok s' /\ (forall i q, i <> inum -> cached s' i q <-> cached s i q) /\
  cached s' inum p /\ forall q, cached s inum q -> q = p.

Lemma hit_map_step s chain inum p n :
  hash_ok s chain -> nodes s !! p = Some n -> cache_id n = inum ->
  map_step s (update_node p (set_locked true) (update_node p (add_reference 1) s)) inum p.
Proof.
  intros Hok Hn Hid. set (s' := update_node p _ _).
  assert (nodes s' !! p = Some (set_locked true (add_reference 1 n))) as Hp
    by (simpl; by rewrite !lookup_alter_eq, Hn).
  split_and!.
  - exists chain. do 2 (apply hash_ok_update; [done|]). done.
  - eapply (cached_same_but p); [etrans; apply same_but_update|congruence|].
    intros m Hm. rewrite Hp in Hm. by injection Hm as <-.
  - eexists. split; [exact Hp|done].
  - intros q (m & Hm & Hmid). eapply (hash_inj _ _ Hok); [exact Hm|exact Hn|congruence].
Qed.

Lemma miss_map_step hd fuel e s s1 s2 err chain inum np next :
  hash_ok s1 chain -> refcnt_lock s1 = false -> nodes s1 !! np = Some (new_node inum next) ->
  same_but np s s1 -> nodes s !! np = None -> (forall p, ~ cached s inum p) ->
  read_node hd fuel e s1 np = Ret (s2, err) ->
  map_step s (update_node np (add_reference 1) s2) inum np.
Proof.
  intros Hok1 Hl1 Hnp Hsame Hfresh Hno Hr.
  destruct (read_node_effect _ _ _ _ _ _ _ _ Hok1 Hl1 Hr)
    as (Hok2 & Hsame2 & (n & n' & Hn & Hn' & Hid & _) & _).
  rewrite Hnp in Hn. injection Hn as <-. simpl in Hid.
  assert (nodes (update_node np (add_reference 1) s2) !! np = Some (add_reference 1 n')) as Hfin
    by (simpl; by rewrite lookup_alter_eq, Hn').
  split_and!.
  - eexists. by apply hash_ok_update.
  - eapply (cached_same_but np); [|congruence|intros m Hm; rewrite Hfin in Hm; by injection Hm as <-].
    etrans; [exact Hsame|]. etrans; [exact Hsame2|]. apply same_but_update.
  - by eexists.
  - intros q Hq. by destruct (Hno q).
Qed.

(** ** Properties *)

(** The node cache is a finite map.  From a cache of well-formed hash chains
    every lookup that returns leaves well-formed chains (doubly linked, each node
    in the bucket of its number, no number twice), maps no other number
    differently, and stores in [*npp] the node the number is mapped to, or
    nothing when there is no memory. *)
Theorem diskfs_cached_lookup_refines_map (hd : hurd) (fuel : nat) (e : env) (s s' : nstate)
    (inum : Z) (npp : option positive) (err : option error_t) :
  HurdLaws hd -> cache_ok s -> diskfs_cached_lookup hd fuel e s inum = Ret (s', npp, err) ->
  match npp with
  | Some p =>
      cache_ok s' /\ (forall i q, i <> inum -> cached s' i q <-> cached s i q) /\
      cached s' inum p /\ forall q, cached s inum q -> q = p
  | None => err = Some ENOMEM /\ s' = s
  end.
Proof.
  intros Hlaws [chain Hok] H.
  assert (refcnt_lock s = false) as Hl.
  { unfold diskfs_cached_lookup, spin_lock in H. by destruct (refcnt_lock s). }
  destruct (hash_find_cached s chain inum Hok) as (head & o & _ & _ & Ho).
  destruct o as [p|]; [destruct Ho as (n & Hn & Hid)|].
  - rewrite (cached_hit _ _ _ _ _ p n) in H by (done || by exists chain).
    destruct (locked n); [done|]. injection H as <- <- <-. by eapply hit_map_step.
  - pose proof (cached_miss hd fuel e s inum chain Hok Hl Ho) as Hmiss.
    destruct (if malloc_ok e sizeof_disknode then _ else _) as [np|].
    2: { rewrite Hmiss in H. by injection H as <- <- <-. }
    destruct Hmiss as (s1 & _ & Hok1 & Hl1 & (next & Hnp) & Hsame & Hfresh & Heq).
    rewrite Heq in H. apply res_bind_inv in H as ([s2 err2] & Hr & [= <- <- <-]).
    by eapply miss_map_step.
Qed.

(** What the caller gets.  For a cached number: the node itself with one
    more reference and its lock taken, without reading the disk; taking the lock
    stops the thread if it is held.  For another number: a new node with two
    references whose lock is free, filled from the inode if that can be read. *)
Theorem diskfs_cached_lookup_result (hd : hurd) (fuel : nat) (e : env) (s : nstate) (inum : Z) :
  HurdLaws hd -> cache_ok s -> refcnt_lock s = false -> malloc_ok e sizeof_disknode = true ->
  (forall p n, nodes s !! p = Some n -> cache_id n = inum ->
     diskfs_cached_lookup hd fuel e s inum =
     if locked n then Fault SelfDeadlock
     else Ret (update_node p (set_locked true) (update_node p (add_reference 1) s), Some p, None)) /\
  (forall np di, (forall p, ~ cached s inum p) -> make_node hd (nodes s) = Some np ->
     read_inode fuel e inum = Ret di -> catch_exception hd = None ->
     exists s' next, diskfs_cached_lookup hd fuel e s inum = Ret (s', Some np, None) /\
       nodes s' !! np = Some (Node inum 2 0 false (Some (inode_stat hd inum di)) true None next
                                (Bucket (INOHASH inum))) /\
       refcnt_lock s' = false).
Proof.
  intros Hlaws Hc Hl Hm. split; [intros p n Hn Hid; by apply cached_hit|].
  intros np di Hno Hmk Hr Hcatch. destruct Hc as [chain Hok].
  pose proof (cached_miss hd fuel e s inum chain Hok Hl Hno) as Hmiss. rewrite Hm, Hmk in Hmiss.
  destruct Hmiss as (s1 & _ & Hok1 & Hl1 & (next & Hnp) & _ & _ & ->).
  rewrite (read_node_eq _ _ _ _ _ (new_node inum next)) by done. cbn [cache_id new_node].
  rewrite Hr, Hcatch. cbn [res_bind]. do 2 eexists. split; [done|].
  simpl. by rewrite !lookup_alter_eq, Hnp.
Qed.

(** C25: [diskfs_node_norefs] on a node without pager takes exactly that node out
    of the heap and of its chain: the cache stays well formed and all other
    numbers keep their nodes. *)
Theorem diskfs_node_norefs_unlinks (s : nstate) (np : positive) (n : node) :
  cache_ok s -> nodes s !! np = Some n -> fileinfo n = None ->
  exists s', diskfs_node_norefs s np = Ret s' /\ cache_ok s' /\
    nodes s' !! np = None /\ (forall q, ~ cached s' (cache_id n) q) /\
    (forall i q, i <> cache_id n -> cached s' i q <-> cached s i q).
Proof.
  intros [chain Hok] Hn Hf. exists (remove_state s np n).
  destruct (remove_ok s chain np n Hok Hn) as [l Hok'].
  assert (same_but np s (remove_state s np n)) as Hs by (intros q Hq; by apply remove_contents).
  split_and!; [by apply norefs_eq|by eexists|apply remove_np| |].
  - intros q (m & (Hq & m' & Hm' & Hid)%remove_back & Hmid). apply Hq.
    eapply (hash_inj _ _ Hok); [exact Hm'|exact Hn|congruence].
  - eapply (cached_same_but np); [exact Hs|congruence|].
    intros m Hm. cbn in Hm. by rewrite remove_np in Hm.
Qed.

(** [read_node] fills the whole [stat] from the inode, but reports only two
    modes: a directory 0777 and, for everything else, a regular file 0666, so that
    the symbolic-link test that sets the size to 0 leaves no trace of the type. *)
Theorem read_node_stat (hd : hurd) (fuel : nat) (e : env) (s : nstate) (np : positive) (n : node)
    (di : dinode_t) :
  nodes s !! np = Some n -> refcnt_lock s = false ->
  read_inode fuel e (cache_id n) = Ret di -> catch_exception hd = None ->
  exists s' st, read_node hd fuel e s np = Ret (s', None) /\
    nodes s' !! np = Some (set_stat st n) /\ st_ino st = cache_id n /\
    st_mode st = (if Z.land (di_mode di) IFMT =? IFDIR then 0x41FF else 0x81B6) /\
    st_size st = (if Z.land (di_mode di) IFMT =? S_IFLNK then 0 else di_size di) /\
    (S_ISDIR (st_mode st) = true <-> S_ISDIR (di_mode di) = true) /\
    S_ISLNK (st_mode st) = false.
Proof.
  intros Hn Hl Hr Hc. rewrite (read_node_eq _ _ _ _ _ n), Hr, Hc by done.
  do 2 eexists. split; [done|]. simpl. rewrite lookup_alter_eq, Hn. split; [done|].
  cbn [inode_stat st_ino st_mode st_size]. unfold S_ISLNK, S_ISDIR.
  change IFMT with S_IFMT. change IFDIR with S_IFDIR.
  split_and!; [done|by case_match|done| |by case_match].
  destruct (Z.land (di_mode di) S_IFMT =? S_IFDIR); split; done.
Qed.

(** A node whose inode cannot be read stays in the cache: the lookup returns
    the error and the node, and the next lookup of the number returns success
    with a node whose [stat] was never written. *)
Theorem failed_lookup_is_cached (hd : hurd) (fuel : nat) (e : env) (s : nstate) (inum : Z)
    (np : positive) (err : error_t) :
  HurdLaws hd -> cache_ok s -> refcnt_lock s = false -> malloc_ok e sizeof_disknode = true ->
  (forall p, ~ cached s inum p) -> make_node hd (nodes s) = Some np ->
  read_inode fuel e inum = Err err ->
  exists s1 s2, diskfs_cached_lookup hd fuel e s inum = Ret (s1, Some np, Some (Erc 1)) /\
    diskfs_cached_lookup hd fuel e s1 inum = Ret (s2, Some np, None) /\
    exists n, nodes s2 !! np = Some n /\ dn_stat n = None /\ references n = 3 /\ locked n = true.
Proof.
  intros Hlaws [chain Hok] Hl Hm Hno Hmk Hr.
  pose proof (cached_miss hd fuel e s inum chain Hok Hl Hno) as Hmiss. rewrite Hm, Hmk in Hmiss.
  destruct Hmiss as (s1 & _ & Hok1 & Hl1 & (next & Hnp) & _ & _ & ->).
  rewrite (read_node_eq _ _ _ _ _ (new_node inum next)) by done. cbn [cache_id new_node].
  rewrite Hr. cbn [res_bind]. do 2 eexists. split; [done|].
  assert (nodes (update_node np (add_reference 1) s1) !! np = Some (add_reference 1 (new_node inum next)))
    as Hn by (simpl; by rewrite lookup_alter_eq, Hnp).
  split.
  - assert (cache_ok (update_node np (add_reference 1) s1)) as Hc1
      by (eexists; by apply hash_ok_update).
    by rewrite (cached_hit _ _ _ _ _ np _ Hc1 Hl1 Hn).
  - eexists. simpl. rewrite !lookup_alter_eq, Hnp. done.
Qed.

(** C38: the lock leak.  When [diskfs_catch_exception] fails while a new node is
    read, [diskfs_node_refcnt_lock] stays held, and every later lookup, of any
    number, stops in [spin_lock]. *)
Theorem read_node_leaks_lock (hd : hurd) (fuel : nat) (e : env) (s : nstate) (inum : Z)
    (np : positive) (di : dinode_t) (err : error_t) :
  HurdLaws hd -> cache_ok s -> refcnt_lock s = false -> malloc_ok e sizeof_disknode = true ->
  (forall p, ~ cached s inum p) -> make_node hd (nodes s) = Some np ->
  read_inode fuel e inum = Ret di -> catch_exception hd = Some err ->
  exists s', diskfs_cached_lookup hd fuel e s inum = Ret (s', Some np, Some err) /\
    refcnt_lock s' = true /\
    forall hd' fuel' e' inum', diskfs_cached_lookup hd' fuel' e' s' inum' = Fault SelfDeadlock.
Proof.
  intros Hlaws [chain Hok] Hl Hm Hno Hmk Hr Hc.
  pose proof (cached_miss hd fuel e s inum chain Hok Hl Hno) as Hmiss. rewrite Hm, Hmk in Hmiss.
  destruct Hmiss as (s1 & _ & Hok1 & Hl1 & (next & Hnp) & _ & _ & ->).
  rewrite (read_node_eq _ _ _ _ _ (new_node inum next)) by done. cbn [cache_id new_node].
  rewrite Hr, Hc. cbn [res_bind]. eexists. split; [done|]. split; done.
Qed.

(** ** Witnesses *)

(** A Hurd with memory for nodes 1 and 2. *)
Definition demo_make_node (h : gmap positive node) : option positive :=
  match h !! 1%positive, h !! 2%positive with
  | None, _ => Some 1%positive
  | _, None => Some 2%positive
  | _, _ => None
  end.

Definition demo_hurd (err : option error_t) : hurd := Hurd 4096 77 err demo_make_node.

#[export] Instance demo_hurd_laws err : HurdLaws (demo_hurd err).
Proof.
  constructor. unfold demo_hurd, demo_make_node. cbn [make_node]. intros h p H.
  by repeat case_match; simplify_eq.
Qed.

Definition empty_cache : nstate :=
  inode_init (NState ∅ (replicate 512 (Some 1%positive)) false).

Lemma empty_cache_eq : empty_cache = NState ∅ (replicate 512 None) false.
Proof.
  unfold empty_cache, inode_init. cbn [nodes nodehash refcnt_lock].
  pose proof (inode_init_loop_all (replicate 512 (Some 1%positive))) as H.
  rewrite length_replicate in H. change (Z.to_nat INOHSZ) with 512%nat. by rewrite H.
Qed.

Lemma empty_cache_ok : cache_ok empty_cache.
Proof. by apply inode_init_ok. Qed.

Lemma empty_cache_none inum p : ~ cached empty_cache inum p.
Proof. rewrite empty_cache_eq. intros (n & Hn & _). cbn in Hn. by rewrite lookup_empty in Hn. Qed.

(** The cache after the root inode 2 has been looked up. *)
Lemma root_lookup :
  exists s' di next, read_inode 1 sample_env 2 = Ret di /\
    diskfs_cached_lookup (demo_hurd None) 1 sample_env empty_cache 2 = Ret (s', Some 1%positive, None) /\
    cache_ok s' /\ refcnt_lock s' = false /\
    nodes s' !! 1%positive = Some (Node 2 2 0 false (Some (inode_stat (demo_hurd None) 2 di)) true None
                                    next (Bucket (INOHASH 2))).
Proof.
  destruct (sample_inode 2 ltac:(lia)) as (di & Hr & _).
  destruct empty_cache_ok as [chain Hok].
  pose proof (cached_miss (demo_hurd None) 1 sample_env empty_cache 2 chain Hok) as Hmiss.
  rewrite empty_cache_eq in *. specialize (Hmiss eq_refl).
  assert (malloc_ok sample_env sizeof_disknode = true) as Hm by reflexivity.
  assert (make_node (demo_hurd None) ∅ = Some 1%positive) as Hmk by reflexivity.
  cbn [nodes] in Hmiss. rewrite Hm, Hmk in Hmiss.
  destruct Hmiss as (s1 & _ & Hok1 & Hl1 & (next & Hnp) & _ & _ & ->).
  { rewrite <- empty_cache_eq. apply empty_cache_none. }
  rewrite (read_node_eq _ _ _ _ _ (new_node 2 next)) by done. cbn [cache_id new_node].
  rewrite Hr. cbn [demo_hurd catch_exception res_bind].
  do 3 eexists. split; [done|]. split; [done|]. split; [|split; [done|]].
  - eexists. apply (hash_ok_update _ _ _ (add_reference 1)); [intros ?; split; reflexivity|].
    apply (hash_ok_update _ _ _ (set_stat _)); [intros ?; split; reflexivity|exact Hok1].
  - cbn [update_node set_nodes nodes]. rewrite !lookup_alter_eq, Hnp. reflexivity.
Qed.

Lemma diskfs_cached_lookup_refines_map_witness :
  exists s', cache_ok s' /\ cached s' 2 1%positive /\ forall q, ~ cached s' 5 q.
Proof.
  destruct root_lookup as (s' & di & next & _ & H & _).
  destruct (diskfs_cached_lookup_refines_map (demo_hurd None) 1 sample_env empty_cache s' 2
    (Some 1%positive) None _ empty_cache_ok H) as (Hok & Hmap & Hc & _).
  exists s'. split; [exact Hok|]. split; [exact Hc|]. intros q Hq.
  apply (Hmap 5 q ltac:(lia)) in Hq. by destruct (empty_cache_none 5 q).
Defined.

Lemma diskfs_cached_lookup_result_witness :
  exists s' next di, diskfs_cached_lookup (demo_hurd None) 1 sample_env empty_cache 2
    = Ret (s', Some 1%positive, None) /\
  nodes s' !! 1%positive = Some (Node 2 2 0 false (Some (inode_stat (demo_hurd None) 2 di)) true None
                                  next (Bucket (INOHASH 2))).
Proof.
  destruct (sample_inode 2 ltac:(lia)) as (di & Hr & _).
  destruct (diskfs_cached_lookup_result (demo_hurd None) 1 sample_env empty_cache 2 _ empty_cache_ok)
    as [_ Hmiss]; [by rewrite empty_cache_eq|reflexivity|].
  destruct (Hmiss 1%positive di (empty_cache_none 2)) as (s' & next & H & Hn & _);
    [by rewrite empty_cache_eq|exact Hr|reflexivity|].
  exists s', next, di. split; [exact H|exact Hn].
Defined.

Lemma diskfs_node_norefs_unlinks_witness :
  exists s s', cached s 2 1%positive /\ diskfs_node_norefs s 1 = Ret s' /\
    forall q, ~ cached s' 2 q.
Proof.
  destruct root_lookup as (s & di & next & _ & _ & Hok & _ & Hn).
  destruct (diskfs_node_norefs_unlinks s 1 _ Hok Hn eq_refl) as (s' & H & _ & _ & Hno & _).
  exists s, s'. split; [eexists; split; [exact Hn|reflexivity]|]. split; [exact H|exact Hno].
Defined.

Lemma read_node_stat_witness :
  exists s s' st, read_node (demo_hurd None) 1 sample_env s 1 = Ret (s', None) /\
    S_ISLNK (st_mode st) = false.
Proof.
  destruct root_lookup as (s & di & next & Hr & _ & _ & Hl & Hn).
  destruct (read_node_stat (demo_hurd None) 1 sample_env s 1 _ di Hn Hl Hr eq_refl)
    as (s' & st & H & _ & _ & _ & _ & _ & Hlnk).
  exists s, s', st. split; [exact H|exact Hlnk].
Defined.

Lemma failed_lookup_is_cached_witness :
  exists s1 s2,
    diskfs_cached_lookup (demo_hurd None) 1 sample_env empty_cache 40 = Ret (s1, Some 1%positive, Some (Erc 1)) /\
    diskfs_cached_lookup (demo_hurd None) 1 sample_env s1 40 = Ret (s2, Some 1%positive, None).
Proof.
  destruct (failed_lookup_is_cached (demo_hurd None) 1 sample_env empty_cache 40 1 (Erc 1) _ empty_cache_ok)
    as (s1 & s2 & H1 & H2 & _);
    [by rewrite empty_cache_eq|reflexivity|apply empty_cache_none|by rewrite empty_cache_eq| |].
  - unfold read_inode. rewrite (find_inode_ok sample_env 0 imap_exts 1 40);
      [vm_compute; reflexivity|lia|lia|intros blk H; apply (sample_pages 40); [done|lia]].
  - exists s1, s2. split; [exact H1|exact H2].
Defined.

Lemma read_node_leaks_lock_witness :
  exists s', diskfs_cached_lookup (demo_hurd (Some EIO)) 1 sample_env empty_cache 2
    = Ret (s', Some 1%positive, Some EIO) /\
  forall hd' fuel' e' inum', diskfs_cached_lookup hd' fuel' e' s' inum' = Fault SelfDeadlock.
Proof.
  destruct (sample_inode 2 ltac:(lia)) as (di & Hr & _).
  destruct (read_node_leaks_lock (demo_hurd (Some EIO)) 1 sample_env empty_cache 2 1 di EIO _ empty_cache_ok)
    as (s' & H & _ & Hd);
    [by rewrite empty_cache_eq|reflexivity|apply empty_cache_none|by rewrite empty_cache_eq
    |exact Hr|reflexivity|].
  exists s'. split; [exact H|exact Hd].
Defined.
