(* ===== verification/Interleave.v ===== *)
(** * Concurrent lookups

    libdiskfs serves every request in a thread of its own, so that
    [diskfs_cached_lookup] (dir.c) runs in several threads over one node cache.
    Here its body is cut into the steps between which other threads can run;
    threads are interleaved by a step relation, and the sequential definition of
    Node is the run of one thread alone. *)

From stdpp Require Import gmap relations.
From S2P Require Import Prelude Layout Disk Xtree Sample Imap Node.

(** ** Definitions *)

(** Where a thread is inside [diskfs_cached_lookup].  A critical section is cut
    where it reads or writes [references], which the end of the function does
    without the lock; the chains are only touched by the holder of the lock. *)
Inductive pc :=
| Call                                   (* spin_lock *)
| Search                                 (* the for loop *)
| HitLoad (p : positive)                 (* np->references++: the load ... *)
| HitStore (p : positive) (v : Z)        (* ... and the store *)
| HitUnlock (p : positive)               (* spin_unlock *)
| NodeLock (p : positive)                (* pthread_mutex_lock (&np->lock) *)
| Create                                 (* malloc ... nodehash[] = np; spin_unlock *)
| ReadInode (p : positive)               (* read_node: find_inode, xRead *)
| ReadLock (p : positive) (di : dinode_t) (* read_node: spin_lock *)
| Fill (p : positive) (di : dinode_t)    (* read_node: the rest *)
| MissLoad (p : positive) (err : option error_t)
| MissStore (p : positive) (v : Z) (err : option error_t)
| Done (npp : option positive) (err : option error_t).

Definition set_references (v : Z) (n : node) : node :=
  Node (cache_id n) v (light_references n) (locked n) (dn_stat n) (author_tracks_uid n)
    (fileinfo n) (hnext n) (hprevp n).

(** One step of a thread looking [inum] up; [None] when it has to wait for a
    lock, or has returned. *)
Definition thread_step (hd : hurd) (fuel : nat) (e : env) (s : nstate) (inum : Z) (at_ : pc)
    : option (res (nstate * pc)) :=
  match at_ with
  | Call =>
      if refcnt_lock s then None else Some (Ret (NState (nodes s) (nodehash s) true, Search))
  | Search =>
      Some (let* head := of_option OutOfBounds (nodehash s !! Z.to_nat (INOHASH inum)) in
            let* found := hash_find (size (nodes s)) (nodes s) head inum in
            Ret (s, match found with Some p => HitLoad p | None => Create end))
  | HitLoad p =>
      Some (let* n := of_option NullDeref (nodes s !! p) in Ret (s, HitStore p (references n)))
  | HitStore p v =>
      Some (let* _ := of_option NullDeref (nodes s !! p) in
            Ret (update_node p (set_references (v + 1)) s, HitUnlock p))
  | HitUnlock p => Some (Ret (spin_unlock s, NodeLock p))
  | NodeLock p =>
      match nodes s !! p with
      | None => Some (Fault NullDeref)
      | Some n =>
          if locked n then None
          else Some (Ret (update_node p (set_locked true) s, Done (Some p) None))
      end
  | Create =>
      Some (if negb (malloc_ok e sizeof_disknode) then Ret (spin_unlock s, Done None (Some ENOMEM))
            else
              match make_node hd (nodes s) with
              | None => Ret (spin_unlock s, Done None (Some ENOMEM))
              | Some np => let* s := hash_insert s np inum in Ret (spin_unlock s, ReadInode np)
              end)
  | ReadInode p =>
      Some (let* n := of_option NullDeref (nodes s !! p) in
            match read_inode fuel e (cache_id n) with
            | Ret di => Ret (s, ReadLock p di)
            | Err _ => Ret (s, MissLoad p (Some (Erc 1)))
            | Fault f => Fault f
            | NoFuel => NoFuel
            end)
  | ReadLock p di =>
      if refcnt_lock s then None else Some (Ret (NState (nodes s) (nodehash s) true, Fill p di))
  | Fill p di =>
      Some (match catch_exception hd with
            | Some err => Ret (s, MissLoad p (Some err))
            | None =>
                let* n := of_option NullDeref (nodes s !! p) in
                Ret (spin_unlock (update_node p (set_stat (inode_stat hd (cache_id n) di)) s),
                     MissLoad p None)
            end)
  | MissLoad p err =>
      Some (let* n := of_option NullDeref (nodes s !! p) in Ret (s, MissStore p (references n) err))
  | MissStore p v err =>
      Some (let* _ := of_option NullDeref (nodes s !! p) in
            Ret (update_node p (set_references (v + 1)) s, Done (Some p) err))
  | Done _ _ => None
  end.

(** A thread run alone: a lock it has to wait for is never released. *)
Fixpoint run_alone (k : nat) (hd : hurd) (fuel : nat) (e : env) (s : nstate) (inum : Z) (at_ : pc)
    : res (nstate * option positive * option error_t) :=
  match at_ with
  | Done npp err => Ret (s, npp, err)
  | _ =>
      match k with
      | O => NoFuel
      | S k' =>
          match thread_step hd fuel e s inum at_ with
          | None => Fault SelfDeadlock
          | Some r => let* '(s, at_) := r in run_alone k' hd fuel e s inum at_
          end
      end
  end.

(** The node cache and the threads, each with the number it looks up. *)
Record config := Config { shared : nstate; threads : list (Z * pc) }.

(** Any thread that can make a step makes it. *)
Inductive conf_step (hd : hurd) (fuel : nat) (e : env) : config -> config -> Prop :=
| conf_thread s ts i inum at_ s' at' :
    ts !! i = Some (inum, at_) -> thread_step hd fuel e s inum at_ = Some (Ret (s', at')) ->
    conf_step hd fuel e (Config s ts) (Config s' (<[i := (inum, at')]> ts)).

(** Requests for [inums] arrive at a well-formed cache whose lock is free. *)
Definition requests (s : nstate) (inums : list Z) : config :=
  Config s ((fun inum => (inum, Call)) <$> inums).

(** ** Specification *)

(** The thread is inside a critical section. *)
Definition holds (at_ : pc) : bool :=
  match at_ with
  | Search | HitLoad _ | HitStore _ _ | HitUnlock _ | Create | Fill _ _ => true
  | _ => false
  end.

(** What a thread knows about the cache at each point. *)
Definition pc_ok (fuel : nat) (e : env) (s : nstate) (inum : Z) (at_ : pc) : Prop :=
  match at_ with
  | Call | Search => True
  | HitLoad p | HitStore p _ | HitUnlock p | NodeLock p | ReadInode p | MissLoad p _
  | MissStore p _ _ | Done (Some p) _ => cached s inum p
  | ReadLock p di | Fill p di => cached s inum p /\ read_inode fuel e inum = Ret di
  | Create => forall p, ~ cached s inum p
  | Done None err => err = Some ENOMEM
  end.

(** The most steps a thread can still make. *)
Definition rank (at_ : pc) : nat :=
  match at_ with
  | Call => 8 | Search => 7 | HitLoad _ => 5 | HitStore _ _ => 4 | HitUnlock _ => 3 | NodeLock _ => 2
  | Create => 6 | ReadInode _ => 5 | ReadLock _ _ => 4 | Fill _ _ => 3 | MissLoad _ _ => 2
  | MissStore _ _ _ => 1 | Done _ _ => 0
  end.

(** The invariant of the interleaving. *)
Record conf_ok (hd : hurd) (fuel : nat) (e : env) (c : config) : Prop := {
  co_cache : cache_ok (shared c);
  co_pcs : forall i inum at_, threads c !! i = Some (inum, at_) -> pc_ok fuel e (shared c) inum at_;
  co_excl : forall i j inum at_ inum' at', threads c !! i = Some (inum, at_) ->
    threads c !! j = Some (inum', at') -> holds at_ = true -> holds at' = true -> i = j;
  co_held : forall i inum at_, threads c !! i = Some (inum, at_) -> holds at_ = true ->
    refcnt_lock (shared c) = true;
  co_free : catch_exception hd = None -> refcnt_lock (shared c) = true ->
    exists i inum at_, threads c !! i = Some (inum, at_) /\ holds at_ = true }.

(** ** Lemmas: one thread alone *)

Lemma alter_references (h : gmap positive node) p n :
  h !! p = Some n -> alter (set_references (references n + 1)) p h = alter (add_reference 1) p h.
Proof. intros Hn. apply alter_ext. intros m Hm. rewrite Hn in Hm. by injection Hm as <-. Qed.

Section Alone.
Context (hd : hurd) (fuel : nat) (e : env) (inum : Z).

(** The next step of a thread that has not returned. *)
Definition continue (k : nat) (r : option (res (nstate * pc))) : res (nstate * option positive * option error_t) :=
  match r with
  | None => Fault SelfDeadlock
  | Some r => let* '(s, at_) := r in run_alone k hd fuel e s inum at_
  end.

Lemma run_S k s at_ :
  (forall npp err, at_ <> Done npp err) ->
  run_alone (S k) hd fuel e s inum at_ = continue k (thread_step hd fuel e s inum at_).
Proof. intros Hd. by destruct at_; try (by edestruct Hd). Qed.

Lemma run_Done k s npp err : run_alone k hd fuel e s inum (Done npp err) = Ret (s, npp, err).
Proof. by destruct k. Qed.

(** [references++] in two steps, when nobody comes between. *)
Lemma increment_eq s p n :
  nodes s !! p = Some n -> update_node p (set_references (references n + 1)) s = update_node p (add_reference 1) s.
Proof. intros Hn. unfold update_node, set_nodes. by rewrite (alter_references _ _ n). Qed.

Lemma run_hit k s p n :
  nodes s !! p = Some n ->
  run_alone (4 + k) hd fuel e s inum (HitLoad p) =
  (let* s := mutex_lock p (spin_unlock (update_node p (add_reference 1) s)) in Ret (s, Some p, None)).
Proof.
  intros Hn. cbn [Nat.add]. rewrite run_S by done. cbn [thread_step]. rewrite Hn. cbn [of_option res_bind continue].
  rewrite run_S by done. cbn [thread_step]. rewrite Hn. cbn [of_option res_bind continue].
  rewrite (increment_eq s p n) by done. rewrite run_S by done. cbn [thread_step continue res_bind].
  rewrite run_S by done. cbn [thread_step]. unfold mutex_lock.
  destruct (nodes (spin_unlock _) !! p) as [m|]; [|done]. cbn [of_option res_bind].
  destruct (locked m); [done|]. cbn [continue res_bind]. apply run_Done.
Qed.

Lemma run_miss_tail k s p n err :
  nodes s !! p = Some n ->
  run_alone (2 + k) hd fuel e s inum (MissLoad p err) = Ret (update_node p (add_reference 1) s, Some p, err).
Proof.
  intros Hn. cbn [Nat.add]. rewrite run_S by done. cbn [thread_step]. rewrite Hn. cbn [of_option res_bind continue].
  rewrite run_S by done. cbn [thread_step]. rewrite Hn. cbn [of_option res_bind continue].
  rewrite (increment_eq s p n) by done. apply run_Done.
Qed.

(** [read_node] and what follows it. *)
Lemma run_read k s p :
  run_alone (5 + k) hd fuel e s inum (ReadInode p) =
  (let* '(s, err) := read_node hd fuel e s p in Ret (update_node p (add_reference 1) s, Some p, err)).
Proof.
  unfold read_node. cbn [Nat.add]. rewrite run_S by done. cbn [thread_step].
  destruct (nodes s !! p) as [n|] eqn:Hn; [|done]. cbn [of_option res_bind continue].
  destruct (read_inode fuel e (cache_id n)) as [di|er|f|]; cbn [continue res_bind];
    [|by apply (run_miss_tail (2 + k) s p n)|done|done].
  rewrite run_S by done. cbn [thread_step]. unfold spin_lock.
  destruct (refcnt_lock s); [done|]. cbn [res_bind continue].
  rewrite run_S by done. cbn [thread_step].
  destruct (catch_exception hd); cbn [res_bind continue]; [by apply (run_miss_tail k _ p n)|].
  cbn [nodes]. rewrite Hn. cbn [of_option res_bind continue].
  apply (run_miss_tail k _ p (set_stat (inode_stat hd (cache_id n) di) n)).
  cbn [spin_unlock update_node set_nodes nodes]. by rewrite lookup_alter_eq, Hn.
Qed.

Lemma hash_find_some h cur p fuel' :
  hash_find fuel' h cur inum = Ret (Some p) -> exists n, h !! p = Some n.
Proof.
  revert cur. induction fuel' as [|fuel' IH]; intros [q|]; cbn [hash_find]; try done.
  destruct (h !! q) as [n|] eqn:Hq; [|done]. cbn [of_option res_bind].
  destruct (cache_id n =? inum); [intros [= <-]; by exists n|apply IH].
Qed.

End Alone.

(** ** Lemmas: a step in company *)

(** [s'] caches what [s] does, on chains as well formed. *)
Definition same_cache (s s' : nstate) : Prop :=
  (cache_ok s -> cache_ok s') /\ forall i q, cached s' i q <-> cached s i q.

Lemma same_cache_refl s : same_cache s s.
Proof. done. Qed.

Lemma same_cache_lock s b : same_cache s (NState (nodes s) (nodehash s) b).
Proof. split; [|done]. intros [chain H]. exists chain. by apply hash_ok_lock. Qed.

Lemma same_cache_trans s1 s2 s3 : same_cache s1 s2 -> same_cache s2 s3 -> same_cache s1 s3.
Proof. intros [H1 H2] [H3 H4]. split; [tauto|]. intros i q. by rewrite H4. Qed.

Lemma same_cache_update s p f :
  (forall n, links (f n) = links n /\ cache_id (f n) = cache_id n) -> same_cache s (update_node p f s).
Proof.
  intros Hf. split.
  { intros [chain H]. exists chain. by apply hash_ok_update. }
  intros i q. unfold cached. cbn [update_node set_nodes nodes]. destruct (decide (p = q)) as [->|Hq].
  - rewrite lookup_alter_eq. destruct (nodes s !! q) as [n|]; cbn [fmap option_fmap option_map].
    + split; intros (m & [= <-] & <-); eexists; (split; [done|]); [symmetry|]; apply Hf.
    + by split; intros (m & ? & _).
  - by rewrite lookup_alter_ne.
Qed.

#[local] Hint Resolve same_cache_refl same_cache_lock : core.

(** The cases in which a step returns. *)
Ltac step_inv H :=
  cbn [thread_step] in H; repeat case_match; simplify_eq; res_inv; repeat case_match; simplify_eq.

Section Company.
Context (hd : hurd) (fuel : nat) (e : env) (Hhd : HurdLaws hd).

(** The only step that changes what is cached puts the new node in. *)
Lemma create_step s inum s' at' :
  cache_ok s -> (forall p, ~ cached s inum p) ->
  thread_step hd fuel e s inum Create = Some (Ret (s', at')) ->
  same_cache s s' /\ at' = Done None (Some ENOMEM) \/
  exists np, at' = ReadInode np /\ cache_ok s' /\ cached s' inum np /\
    (forall i q, cached s' i q <-> cached s i q \/ i = inum /\ q = np) /\
    exists next, nodes s' !! np = Some (new_node inum next).
Proof.
  intros [chain Hok] Hno H. cbn [thread_step] in H.
  assert (same_cache s (spin_unlock s)) as Hsame by apply same_cache_lock.
  destruct (negb (malloc_ok e sizeof_disknode)); [injection H as <- <-; by left|].
  destruct (make_node hd (nodes s)) as [np|] eqn:Hmk; [|injection H as <- <-; by left].
  pose proof (make_node_fresh _ _ Hmk) as Hfresh. right. exists np.
  destruct (hash_insert_ok s chain np inum Hok Hfresh Hno) as (s1 & Hins & Hok1 & _ & (next & Hnp) & Hs).
  rewrite Hins in H. cbn [res_bind] in H. injection H as <- <-. split; [done|].
  assert (cached (spin_unlock s1) inum np) as Hc by (by exists (new_node inum next)).
  split; [eexists; by apply hash_ok_lock|]. split; [done|]. split; [|by exists next].
  intros i q. destruct (decide (i = inum)) as [->|Hi].
  - split; [|intros [Hq|[_ ->]]; [by destruct (Hno q)|done]]. intros (n & Hn & Hid). right. split; [done|].
    apply (hash_inj (spin_unlock s1) (set_chain chain (INOHASH inum) (np :: chain (INOHASH inum)))) with n (new_node inum next);
      [by apply hash_ok_lock|done|done|done].
  - assert (cached (spin_unlock s1) i q <-> cached s i q) as ->; [|tauto].
    eapply (cached_same_but np); [exact Hs|congruence| |done].
    intros n Hn. cbn in Hn. rewrite Hnp in Hn. by injection Hn as <-.
Qed.

Lemma other_step s inum at_ s' at' :
  at_ <> Create -> thread_step hd fuel e s inum at_ = Some (Ret (s', at')) -> same_cache s s'.
Proof.
  intros Hat H. destruct at_; step_inv H; auto; try apply same_cache_lock; try (apply same_cache_update; done).
  eapply (same_cache_trans _ (update_node p (set_stat _) s)); [by apply same_cache_update|apply same_cache_lock].
Qed.

Lemma cached_fun s i p q : cache_ok s -> cached s i p -> cached s i q -> p = q.
Proof.
  intros [chain Hok] (n & Hn & Hi) (m & Hm & Hj). eapply (hash_inj _ _ Hok); [exact Hn|exact Hm|congruence].
Qed.

(** What a step keeps of the shared state. *)
Lemma step_cached s inum at_ s' at' :
  cache_ok s -> pc_ok fuel e s inum at_ -> thread_step hd fuel e s inum at_ = Some (Ret (s', at')) ->
  cache_ok s' /\ (forall i q, cached s i q -> cached s' i q) /\
  (holds at_ = false -> forall i q, cached s' i q -> cached s i q).
Proof.
  intros Hok Hpc H. assert ({at_ = Create} + {at_ <> Create}) as [->|Hat].
  { destruct at_; (by left) || (by right). }
  - destruct (create_step s inum s' at' Hok Hpc H) as [[[Hc Hiff] _]|(np & _ & Hok' & _ & Hiff & _)].
    + split; [by apply Hc|]. split; [intros; by apply Hiff|done].
    + split; [done|]. split; [|done]. intros i q Hq. apply Hiff. by left.
  - destruct (other_step s inum at_ s' at' Hat H) as [Hc Hiff].
    split; [by apply Hc|]. split; intros; by apply Hiff.
Qed.

(** Where the thread itself gets to. *)
Lemma step_pc s inum at_ s' at' :
  cache_ok s -> pc_ok fuel e s inum at_ -> thread_step hd fuel e s inum at_ = Some (Ret (s', at')) ->
  pc_ok fuel e s' inum at'.
Proof.
  intros Hok Hpc H. destruct (step_cached s inum at_ s' at' Hok Hpc H) as (_ & Hkeep & _).
  destruct at_; try (pose proof (other_step s inum _ s' at' ltac:(done) H) as [_ Hiff]).
  7: { destruct (create_step s inum s' at' Hok Hpc H) as [[_ ->]|(np & -> & _ & ? & _)]; done. }
  2: { destruct Hok as [chain Hok]. destruct (hash_find_cached s chain inum Hok) as (head & o & Hh & Hf & Ho).
       cbn [thread_step] in H. rewrite Hh in H. cbn [of_option res_bind] in H. rewrite Hf in H.
       injection H as <- <-. by destruct o. }
  all: step_inv H; cbn [pc_ok] in *; eauto; try (apply Hkeep; tauto).
  split; [done|]. destruct Hpc as (n & Hn & Hid). by simplify_eq.
Qed.

(** The lock. *)
Lemma step_lock s inum at_ s' at' :
  thread_step hd fuel e s inum at_ = Some (Ret (s', at')) ->
  match holds at_, holds at' with
  | false, true => refcnt_lock s = false /\ refcnt_lock s' = true
  | true, false => refcnt_lock s' = false \/ catch_exception hd <> None /\ refcnt_lock s' = refcnt_lock s
  | _, _ => refcnt_lock s' = refcnt_lock s
  end.
Proof.
  intros H. destruct at_; step_inv H; cbn; auto; try congruence.
Qed.

Lemma step_rank s inum at_ s' at' :
  thread_step hd fuel e s inum at_ = Some (Ret (s', at')) -> (rank at' < rank at_)%nat.
Proof. intros H. destruct at_; step_inv H; cbn; try case_match; lia. Qed.

(** A step goes wrong only where reading an inode does. *)
Lemma step_no_fault s inum at_ r :
  cache_ok s -> pc_ok fuel e s inum at_ ->
  (exists di, read_inode fuel e inum = Ret di) \/ (exists er, read_inode fuel e inum = Err er) ->
  thread_step hd fuel e s inum at_ = Some r -> exists s' at', r = Ret (s', at').
Proof.
  intros Hok Hpc Hread H. destruct at_.
  2: { destruct Hok as [chain Hok]. destruct (hash_find_cached s chain inum Hok) as (head & o & Hh & Hf & Ho).
       cbn [thread_step] in H. rewrite Hh in H. cbn [of_option res_bind] in H. rewrite Hf in H.
       injection H as <-. eauto. }
  6: { cbn [thread_step] in H. destruct (negb (malloc_ok e sizeof_disknode)); [simplify_eq; eauto|].
       destruct (make_node hd (nodes s)) as [np|] eqn:Hmk; [|simplify_eq; eauto].
       destruct Hok as [chain Hok].
       destruct (hash_insert_ok s chain np inum Hok (make_node_fresh _ _ Hmk) Hpc) as (s1 & Hins & _).
       rewrite Hins in H. simplify_eq. cbn [res_bind]. eauto. }
  all: cbn [thread_step pc_ok] in *;
    try (destruct Hpc as (n & Hn & Hid) || destruct Hpc as ((n & Hn & Hid) & _); rewrite Hn in H);
    cbn [of_option res_bind] in H; try rewrite Hid in H;
    try (destruct Hread as [[? Hread]|[? Hread]]; rewrite Hread in H);
    repeat case_match; simplify_eq; eauto.
Qed.

(** ** Lemmas: configurations *)

Lemma requests_ok s inums :
  cache_ok s -> refcnt_lock s = false -> conf_ok hd fuel e (requests s inums).
Proof.
  intros Hok Hl. unfold requests. split; cbn [shared threads]; [done|..].
  - intros i inum at_ Hi. apply list_lookup_fmap_Some in Hi as (x & [= _ ->] & _). done.
  - intros i j inum at_ inum' at' Hi _ Hh. apply list_lookup_fmap_Some in Hi as (x & [= _ ->] & _). done.
  - intros i inum at_ Hi Hh. apply list_lookup_fmap_Some in Hi as (x & [= _ ->] & _). done.
  - congruence.
Qed.

(** A list of threads of which one has moved. *)
Lemma moved_lookup (ts : list (Z * pc)) i j inum at_ x at' :
  <[i := (x, at')]> ts !! j = Some (inum, at_) ->
  (j = i /\ inum = x /\ at_ = at') \/ (j <> i /\ ts !! j = Some (inum, at_)).
Proof. intros [(-> & [= <- <-] & _)|[Hne H]]%list_lookup_insert_Some; auto. Qed.

Lemma conf_step_ok c c' : conf_ok hd fuel e c -> conf_step hd fuel e c c' -> conf_ok hd fuel e c'.
Proof.
  intros [Hcache Hpcs Hexcl Hheld Hfree] Hstep. destruct Hstep as [s ts i inum at_ s' at' Hi H].
  cbn [shared threads] in *. pose proof (Hpcs _ _ _ Hi) as Hpc.
  destruct (step_cached s inum at_ s' at' Hcache Hpc H) as (Hcache' & Hkeep & Hback).
  pose proof (step_lock _ _ _ _ _ H) as Hlock.
  split; cbn [shared threads]; [done|..].
  - intros j inum' a [(-> & -> & ->)|[Hne Hj]]%moved_lookup; [by apply (step_pc s inum at_ s' at')|].
    specialize (Hpcs _ _ _ Hj).
    destruct a as [| | | | | | | | | | | |[q|] err]; cbn [pc_ok] in *; auto;
      try (destruct Hpcs; split; auto; fail).
    + intros q Hq. destruct (holds at_) eqn:Hh; [|by eapply Hpcs, Hback].
      by destruct (Hne (Hexcl _ _ _ _ _ _ Hj Hi eq_refl Hh)).
  - assert (forall j inum' a, j <> i -> ts !! j = Some (inum', a) -> holds a = true -> holds at' = true -> False) as Hno.
    { intros j inum' a Hne Hj Ha Hh. rewrite Hh in Hlock. destruct (holds at_) eqn:Hh'.
      - by destruct (Hne (Hexcl _ _ _ _ _ _ Hj Hi Ha Hh')).
      - pose proof (Hheld _ _ _ Hj Ha). destruct Hlock. congruence. }
    intros j k ? a ? b [(-> & -> & ->)|[Hnj Hj]]%moved_lookup [(-> & -> & ->)|[Hnk Hk]]%moved_lookup Ha Hb;
      [done|by destruct (Hno _ _ _ Hnk Hk)|by destruct (Hno _ _ _ Hnj Hj)|by eapply Hexcl].
  - intros j ? a [(-> & -> & ->)|[Hne Hj]]%moved_lookup Ha.
    + rewrite Ha in Hlock. destruct (holds at_) eqn:Hh; [rewrite Hlock; by eapply Hheld|apply Hlock].
    + pose proof (Hheld _ _ _ Hj Ha) as Hl. destruct (holds at_) eqn:Hh;
        [by destruct (Hne (Hexcl _ _ _ _ _ _ Hj Hi Ha Hh))|].
      destruct (holds at'); [destruct Hlock; congruence|congruence].
  - intros Hc Hl. assert (i < length ts)%nat as Hlt by (by eapply lookup_lt_Some).
    destruct (holds at') eqn:Hh'.
    { exists i, inum, at'. split; [by apply list_lookup_insert_eq|done]. }
    destruct (holds at_) eqn:Hh; [destruct Hlock as [?|[? _]]; congruence|].
    destruct (Hfree Hc ltac:(congruence)) as (j & inum' & a & Hj & Ha). exists j, inum', a.
    split; [|done]. rewrite list_lookup_insert_ne; [done|]. intros ->. congruence.
Qed.

Lemma conf_steps_ok c c' :
  rtc (conf_step hd fuel e) c c' -> conf_ok hd fuel e c -> conf_ok hd fuel e c'.
Proof. induction 1; eauto using conf_step_ok. Qed.

Lemma conf_step_cached c c' i q :
  conf_ok hd fuel e c -> conf_step hd fuel e c c' -> cached (shared c) i q -> cached (shared c') i q.
Proof.
  intros Hok Hstep. destruct Hstep as [s ts j inum at_ s' at' Hj H].
  destruct (step_cached s inum at_ s' at' (co_cache _ _ _ _ Hok) (co_pcs _ _ _ _ Hok _ _ _ Hj) H)
    as (_ & Hkeep & _). apply Hkeep.
Qed.

Lemma conf_steps_cached c c' i q :
  rtc (conf_step hd fuel e) c c' -> conf_ok hd fuel e c ->
  cached (shared c) i q -> cached (shared c') i q.
Proof.
  induction 1; [done|]. intros Hok Hc. eauto using conf_step_ok, conf_step_cached.
Qed.

(** Where threads are when none can make a step. *)
Lemma blocked_threads c :
  conf_ok hd fuel e c -> catch_exception hd = None ->
  (forall i inum at_, threads c !! i = Some (inum, at_) ->
     (exists di, read_inode fuel e inum = Ret di) \/ (exists er, read_inode fuel e inum = Err er)) ->
  (forall i inum at_ s' at', threads c !! i = Some (inum, at_) ->
     thread_step hd fuel e (shared c) inum at_ <> Some (Ret (s', at'))) ->
  forall i inum at_, threads c !! i = Some (inum, at_) ->
    (exists npp err, at_ = Done npp err) \/
    (exists p m, at_ = NodeLock p /\ nodes (shared c) !! p = Some m /\ locked m = true).
Proof.
  intros [Hcache Hpcs _ _ Hfree] Hc Hread Hstuck.
  assert (forall i inum at_, threads c !! i = Some (inum, at_) -> thread_step hd fuel e (shared c) inum at_ = None)
    as Hblocked.
  { intros i inum at_ Hi. destruct (thread_step hd fuel e (shared c) inum at_) as [r|] eqn:Hs; [|done].
    destruct (step_no_fault (shared c) inum at_ r Hcache (Hpcs _ _ _ Hi)) as (s' & at' & ->); [by eapply Hread|done|].
    by destruct (Hstuck i inum at_ s' at' Hi). }
  assert (refcnt_lock (shared c) = false) as Hunl.
  { destruct (refcnt_lock (shared c)) eqn:Hlk; [|done]. destruct (Hfree Hc eq_refl) as (i & inum & at_ & Hi & Hh).
    pose proof (Hblocked _ _ _ Hi). by destruct at_. }
  intros i inum at_ Hi. pose proof (Hblocked _ _ _ Hi) as Hb.
  destruct at_; cbn [thread_step] in Hb; rewrite ?Hunl in Hb; try done; [|by eauto]. right.
  destruct (nodes (shared c) !! p) as [m|] eqn:Hm; [|done]. exists p, m. by destruct (locked m).
Qed.

(** The steps that are left. *)
Definition work (ts : list (Z * pc)) : nat := sum_list_with (fun t => rank t.2) ts.

Lemma work_insert ts i inum at_ at' :
  ts !! i = Some (inum, at_) -> (rank at' < rank at_)%nat ->
  (work (<[i := (inum, at')]> ts) < work ts)%nat.
Proof.
  unfold work. intros Hi Hr.
  pose proof (sum_list_with_insert (fun t => rank t.2) ts i _ (inum, at') Hi) as H. cbn [snd] in H. lia.
Qed.

Lemma conf_nsteps_work n c c' :
  nsteps (conf_step hd fuel e) n c c' -> (n + work (threads c') <= work (threads c))%nat.
Proof.
  induction 1 as [|n c1 c2 c3 Hstep _ IH]; [done|].
  destruct Hstep as [s ts i inum at_ s' at' Hi H]. cbn [threads] in *.
  pose proof (work_insert _ _ _ _ _ Hi (step_rank _ _ _ _ _ H)). lia.
Qed.

Lemma work_requests s inums : work (threads (requests s inums)) = (8 * length inums)%nat.
Proof. cbn [requests threads]. unfold work. induction inums; cbn in *; lia. Qed.

End Company.

(** ** Lemmas: schedules *)

Section Schedules.
Context (hd : hurd) (fuel : nat) (e : env).

Lemma run_alone_lookup s inum k :
  run_alone (8 + k) hd fuel e s inum Call = diskfs_cached_lookup hd fuel e s inum.
Proof.
  unfold diskfs_cached_lookup, spin_lock. cbn [Nat.add]. rewrite run_S by done. cbn [thread_step].
  destruct (refcnt_lock s); [done|]. cbn [res_bind continue]. rewrite run_S by done. cbn [thread_step].
  destruct (_ !! Z.to_nat (INOHASH inum)) as [head|]; [|done]. cbn [of_option res_bind continue].
  destruct (hash_find _ _ head inum) as [[p|]|er|f|] eqn:Hf; cbn [res_bind continue]; try done.
  - destruct (hash_find_some _ _ _ _ _ Hf) as [n Hn]. by apply (run_hit _ _ _ _ (2 + k) _ p n).
  - rewrite run_S by done. cbn [thread_step].
    destruct (negb (malloc_ok e sizeof_disknode)); cbn [continue res_bind]; [by rewrite run_Done|].
    destruct (make_node hd _) as [np|]; cbn [continue res_bind]; [|by rewrite run_Done].
    destruct (hash_insert _ np inum) as [s1|er|f|]; cbn [res_bind continue]; [apply run_read|done..].
Qed.

(** The steps of one thread. *)
Definition thread_rel (inum : Z) : relation (nstate * pc) :=
  fun x y => thread_step hd fuel e x.1 inum x.2 = Some (Ret y).

Lemma run_alone_steps inum k s at_ s' npp err :
  run_alone k hd fuel e s inum at_ = Ret (s', npp, err) ->
  rtc (thread_rel inum) (s, at_) (s', Done npp err).
Proof.
  revert s at_. induction k as [|k IH]; intros s at_ H.
  - destruct at_; try done. cbn in H. by injection H as <- <- <-.
  - assert ((exists npp' err', at_ = Done npp' err') \/ forall npp' err', at_ <> Done npp' err') as [(? & ? & ->)|Hd]
      by (destruct at_; eauto; by right).
    { cbn in H. by injection H as <- <- <-. }
    rewrite run_S in H by done.
    destruct (thread_step hd fuel e s inum at_) as [[[s1 a1]|er|f|]|] eqn:Hs; try done.
    eapply rtc_l; [|by apply IH]. done.
Qed.

(** A thread moves while the others stand still. *)
Lemma lift_steps inum x y :
  rtc (thread_rel inum) x y -> forall ts i, ts !! i = Some (inum, x.2) ->
  rtc (conf_step hd fuel e) (Config x.1 ts) (Config y.1 (<[i := (inum, y.2)]> ts)).
Proof.
  induction 1 as [x|[s a] [s1 a1] y Hs _ IH]; intros ts i Hi; cbn [fst snd] in *.
  - by rewrite list_insert_id.
  - eapply rtc_l; [by eapply conf_thread|]. rewrite <- (list_insert_insert_eq ts i (inum, y.2) (inum, a1)).
    apply IH. apply list_lookup_insert_eq. by eapply lookup_lt_Some.
Qed.

Lemma hit_steps s inum p n :
  cache_ok s -> refcnt_lock s = false -> nodes s !! p = Some n -> cache_id n = inum -> locked n = false ->
  rtc (thread_rel inum) (s, Call)
    (update_node p (set_locked true) (update_node p (add_reference 1) s), Done (Some p) None).
Proof.
  intros Hok Hl Hn Hid Hlk. eapply (run_alone_steps inum (8 + 0)). rewrite run_alone_lookup.
  by rewrite (cached_hit hd fuel e s inum p n), Hlk.
Qed.

(** The first lookup of a number, up to the moment its node is in the cache. *)
Lemma miss_steps s inum np `{HurdLaws hd} :
  cache_ok s -> refcnt_lock s = false -> malloc_ok e sizeof_disknode = true ->
  (forall p, ~ cached s inum p) -> make_node hd (nodes s) = Some np ->
  exists s1 next, rtc (thread_rel inum) (s, Call) (s1, ReadInode np) /\ cache_ok s1 /\
    refcnt_lock s1 = false /\ nodes s1 !! np = Some (new_node inum next).
Proof.
  intros [chain Hok] Hl Hm Hno Hmk. set (sl := NState (nodes s) (nodehash s) true).
  assert (hash_ok sl chain) as Hokl by (by apply hash_ok_lock).
  assert (thread_step hd fuel e sl inum Search = Some (Ret (sl, Create))) as Hsearch.
  { destruct (hash_find_cached sl chain inum Hokl) as (head & o & Hh & Hf & Ho). cbn [thread_step].
    rewrite Hh. cbn [of_option res_bind]. rewrite Hf. destruct o as [p|]; [by destruct (Hno p)|done]. }
  destruct (hash_insert_ok sl chain np inum Hokl (make_node_fresh _ _ Hmk) Hno)
    as (s1 & Hins & Hok1 & _ & (next & Hnp) & _).
  exists (spin_unlock s1), next. split; [|split; [eexists; by apply hash_ok_lock|done]].
  eapply (rtc_l _ _ (sl, Search)); [unfold thread_rel; cbn; by rewrite Hl|].
  eapply (rtc_l _ _ (sl, Create)); [exact Hsearch|].
  apply rtc_once. unfold thread_rel. cbn [thread_step fst snd]. rewrite Hm. cbn [negb nodes sl].
  subst sl. cbn [nodes]. rewrite Hmk, Hins. done.
Qed.

(** [read_node], up to the increment. *)
Lemma read_steps s inum p n di :
  nodes s !! p = Some n -> cache_id n = inum -> refcnt_lock s = false ->
  read_inode fuel e inum = Ret di -> catch_exception hd = None ->
  rtc (thread_rel inum) (s, ReadInode p)
    (update_node p (set_stat (inode_stat hd inum di)) s, MissStore p (references n) None).
Proof.
  intros Hn Hid Hl Hr Hc. set (sl := NState (nodes s) (nodehash s) true).
  eapply (rtc_l _ _ (s, ReadLock p di)); [unfold thread_rel; cbn; by rewrite Hn; cbn; rewrite Hid, Hr|].
  eapply (rtc_l _ _ (sl, Fill p di)); [unfold thread_rel; cbn; by rewrite Hl|].
  eapply (rtc_l _ _ (update_node p (set_stat (inode_stat hd inum di)) s, MissLoad p None)).
  - unfold thread_rel. cbn. rewrite Hc, Hn. cbn. rewrite Hid. unfold update_node, spin_unlock, set_nodes. cbn.
    by rewrite Hl.
  - apply rtc_once. unfold thread_rel. cbn. by rewrite lookup_alter_eq, Hn.
Qed.

Lemma threads_numbers c c' :
  rtc (conf_step hd fuel e) c c' -> (threads c').*1 = (threads c).*1.
Proof.
  induction 1 as [|c1 c2 c3 Hs _ IH]; [done|]. rewrite IH. destruct Hs as [s ts i inum at_ s' at' Hi _].
  cbn [threads]. rewrite list_fmap_insert. apply list_insert_id. by rewrite list_lookup_fmap, Hi.
Qed.

Lemma threads_requested s inums c i inum at_ :
  rtc (conf_step hd fuel e) (requests s inums) c -> threads c !! i = Some (inum, at_) -> inum ∈ inums.
Proof.
  intros Hs Hi. replace inums with (threads c).*1.
  { apply list_elem_of_fmap. exists (inum, at_). split; [done|by eapply list_elem_of_lookup_2]. }
  rewrite (threads_numbers _ _ Hs). cbn. rewrite <- list_fmap_compose. apply list_fmap_id.
Qed.

End Schedules.

(** ** Lemmas: a node that has not been read *)

Lemma unread_node (hd : hurd) (fuel : nat) (e : env) (s : nstate) (inum : Z) (np : positive) :
  HurdLaws hd -> cache_ok s -> refcnt_lock s = false -> malloc_ok e sizeof_disknode = true ->
  (forall p, ~ cached s inum p) -> make_node hd (nodes s) = Some np ->
  exists c n, rtc (conf_step hd fuel e) (requests s [inum; inum]) c /\
    threads c = [(inum, ReadInode np); (inum, Done (Some np) None)] /\
    nodes (shared c) !! np = Some n /\ dn_stat n = None /\ locked n = true.
Proof.
  intros Hlaws Hok Hl Hm Hno Hmk.
  destruct (miss_steps hd fuel e s inum np Hok Hl Hm Hno Hmk) as (s1 & next & H1 & Hok1 & Hl1 & Hn1).
  pose proof (hit_steps hd fuel e s1 inum np _ Hok1 Hl1 Hn1 eq_refl eq_refl) as H2.
  pose proof (lift_steps _ _ _ _ _ _ H1 [(inum, Call); (inum, Call)] 0 eq_refl) as L1.
  pose proof (lift_steps _ _ _ _ _ _ H2 [(inum, ReadInode np); (inum, Call)] 1 eq_refl) as L2.
  eexists _, _. split; [etrans; [exact L1|exact L2]|]. split; [done|].
  cbn [fst shared update_node set_nodes nodes]. rewrite !lookup_alter_eq, Hn1. split; [done|]. done.
Qed.

(** ** Properties *)

(** C17: the steps are the program.  A thread that runs alone makes at most eight
    of them and ends with exactly what [diskfs_cached_lookup] does to the same
    state, on every branch: the same state, node and error, the same faults, and
    a thread that waits for a lock it will not get where the sequential
    definition has one. *)
Theorem run_alone_is_cached_lookup (hd : hurd) (fuel : nat) (e : env) (s : nstate) (inum : Z) (k : nat) :
  run_alone (8 + k) hd fuel e s inum Call = diskfs_cached_lookup hd fuel e s inum.
Proof. apply run_alone_lookup. Qed.

(** Concurrent lookups share one cache.  However requests for any numbers are
    interleaved, the chains stay well formed, at most one thread is in a critical
    section, no step goes wrong, nothing that was cached is lost, and every
    thread that has returned a node returned the one cached under its number, so
    that two lookups of one number never end with different nodes. *)
Theorem interleaved_lookups_agree (hd : hurd) (fuel : nat) (e : env) (s : nstate) (inums : list Z) (c : config) :
  HurdLaws hd -> cache_ok s -> refcnt_lock s = false ->
  (forall inum, inum ∈ inums ->
     (exists di, read_inode fuel e inum = Ret di) \/ (exists er, read_inode fuel e inum = Err er)) ->
  rtc (conf_step hd fuel e) (requests s inums) c ->
  cache_ok (shared c) /\ (forall i q, cached s i q -> cached (shared c) i q) /\
  (forall i j inum at_ inum' at', threads c !! i = Some (inum, at_) -> threads c !! j = Some (inum', at') ->
     holds at_ = true -> holds at' = true -> i = j) /\
  (forall i inum at_ r, threads c !! i = Some (inum, at_) ->
     thread_step hd fuel e (shared c) inum at_ = Some r -> exists s' at', r = Ret (s', at')) /\
  (forall i j inum p q err err', threads c !! i = Some (inum, Done (Some p) err) ->
     threads c !! j = Some (inum, Done (Some q) err') -> cached (shared c) inum p /\ q = p).
Proof.
  intros Hlaws Hok Hl Hread Hsteps. pose proof (requests_ok hd fuel e s inums Hok Hl) as Hreq.
  pose proof (conf_steps_ok hd fuel e Hlaws _ _ Hsteps Hreq) as [Hcache Hpcs Hexcl _ _].
  split; [done|]. split; [intros i q; by apply (conf_steps_cached hd fuel e Hlaws _ _ i q Hsteps Hreq)|].
  split; [done|]. split.
  - intros i inum at_ r Hi H. eapply (step_no_fault hd fuel e Hlaws); [done|by eapply Hpcs| |done].
    eapply Hread, threads_requested; [exact Hsteps|exact Hi].
  - intros i j inum p q err err' Hi Hj. pose proof (Hpcs _ _ _ Hi) as Hp. pose proof (Hpcs _ _ _ Hj) as Hq.
    split; [exact Hp|]. by eapply cached_fun.
Qed.

(** Concurrent lookups end.  No interleaving of the requests is longer than
    eight steps for each; and as long as no exception is caught, when none can go
    on every thread has returned or waits for the mutex of a node that is
    locked: never for [diskfs_node_refcnt_lock]. *)
Theorem interleaved_lookups_end (hd : hurd) (fuel : nat) (e : env) (s : nstate) (inums : list Z) (c : config)
    (n : nat) :
  HurdLaws hd -> cache_ok s -> refcnt_lock s = false -> catch_exception hd = None ->
  (forall inum, inum ∈ inums ->
     (exists di, read_inode fuel e inum = Ret di) \/ (exists er, read_inode fuel e inum = Err er)) ->
  nsteps (conf_step hd fuel e) n (requests s inums) c ->
  (n <= 8 * length inums)%nat /\
  ((forall c', ~ conf_step hd fuel e c c') ->
   forall i inum at_, threads c !! i = Some (inum, at_) ->
     (exists npp err, at_ = Done npp err) \/
     (exists p m, at_ = NodeLock p /\ nodes (shared c) !! p = Some m /\ locked m = true)).
Proof.
  intros Hlaws Hok Hl Hc Hread Hn. pose proof (conf_nsteps_work hd fuel e _ _ _ Hn) as Hwork.
  rewrite work_requests in Hwork. split; [lia|]. intros Hstuck.
  pose proof (requests_ok hd fuel e s inums Hok Hl) as Hreq.
  assert (rtc (conf_step hd fuel e) (requests s inums) c) as Hsteps by (apply rtc_nsteps; by exists n).
  apply (blocked_threads hd fuel e Hlaws c); [by eapply conf_steps_ok|done| |].
  - intros i inum at_ Hi. eapply Hread, threads_requested; [exact Hsteps|exact Hi].
  - intros i inum at_ s' at' Hi H. destruct c as [sc ts]. edestruct Hstuck. by eapply conf_thread.
Qed.

(** A node is handed out before it is read.  When two threads look an uncached
    number up, the second can return the node, successfully and with its lock
    taken, while the first is still on its way to the disk and the node's [stat]
    has never been written. *)
Theorem unread_node_returned (hd : hurd) (fuel : nat) (e : env) (s : nstate) (inum : Z) (np : positive) :
  HurdLaws hd -> cache_ok s -> refcnt_lock s = false -> malloc_ok e sizeof_disknode = true ->
  (forall p, ~ cached s inum p) -> make_node hd (nodes s) = Some np ->
  exists c n, rtc (conf_step hd fuel e) (requests s [inum; inum]) c /\
    threads c = [(inum, ReadInode np); (inum, Done (Some np) None)] /\
    nodes (shared c) !! np = Some n /\ dn_stat n = None /\ locked n = true.
Proof. apply unread_node. Qed.

(** A reference is lost.  The increment at the end of the function is not
    under the lock that the increment of a hit is under: two successful lookups
    of an uncached number leave the node with three references in one order of
    their steps and with two in another, although both callers give one back. *)
Theorem reference_lost (hd : hurd) (fuel : nat) (e : env) (s : nstate) (inum : Z) (np : positive) (di : dinode_t) :
  HurdLaws hd -> cache_ok s -> refcnt_lock s = false -> malloc_ok e sizeof_disknode = true ->
  (forall p, ~ cached s inum p) -> make_node hd (nodes s) = Some np ->
  read_inode fuel e inum = Ret di -> catch_exception hd = None ->
  forall refs, In refs [2; 3] ->
  exists c n, rtc (conf_step hd fuel e) (requests s [inum; inum]) c /\
    threads c = [(inum, Done (Some np) None); (inum, Done (Some np) None)] /\
    nodes (shared c) !! np = Some n /\ references n = refs.
Proof.
  intros Hlaws Hok Hl Hm Hno Hmk Hr Hc refs Hrefs.
  destruct (miss_steps hd fuel e s inum np Hok Hl Hm Hno Hmk) as (s1 & next & H1 & Hok1 & Hl1 & Hn1).
  pose proof (read_steps hd fuel e s1 inum np _ di Hn1 eq_refl Hl1 Hr Hc) as H2.
  pose proof (rtc_trans _ _ _ H1 H2) as H3. cbn [references new_node] in H3.
  set (s2 := update_node np (set_stat (inode_stat hd inum di)) s1) in *.
  assert (nodes s2 !! np = Some (set_stat (inode_stat hd inum di) (new_node inum next))) as Hn2
    by (cbn; by rewrite lookup_alter_eq, Hn1).
  assert (cache_ok s2) as Hok2 by (destruct Hok1; eexists; by apply hash_ok_update).
  assert (forall t m, nodes t !! np = Some m ->
    rtc (thread_rel hd fuel e inum) (t, MissStore np 1 None)
      (update_node np (set_references 2) t, Done (Some np) None)) as Hstore.
  { intros t m Ht. apply rtc_once. unfold thread_rel. cbn. by rewrite Ht. }
  set (ts a b := [(inum, a); (inum, b)] : list (Z * pc)).
  pose proof (lift_steps _ _ _ _ _ _ H3 (ts Call Call) 0%nat eq_refl) as L3.
  destruct Hrefs as [<-|[<-|[]]].
  - pose proof (hit_steps hd fuel e s2 inum np _ Hok2 Hl1 Hn2 eq_refl eq_refl) as H4.
    pose proof (lift_steps _ _ _ _ _ _ H4 (ts (MissStore np 1 None) Call) 1%nat eq_refl) as L4.
    cbn [fst snd] in L4. set (s3 := update_node np (set_locked true) _) in *.
    assert (nodes s3 !! np = Some (set_locked true (add_reference 1 (set_stat (inode_stat hd inum di) (new_node inum next)))))
      as Hn3 by (cbn [s3 update_node set_nodes nodes]; subst s3; cbn; by rewrite !lookup_alter_eq, Hn1).
    pose proof (lift_steps _ _ _ _ _ _ (Hstore s3 _ Hn3) (ts (MissStore np 1 None) (Done (Some np) None)) 0%nat eq_refl) as L5.
    eexists _, _. split; [etrans; [exact L3|]; etrans; [exact L4|exact L5]|]. split; [done|].
    cbn [fst shared update_node set_nodes nodes]. rewrite lookup_alter_eq, Hn3. split; done.
  - pose proof (lift_steps _ _ _ _ _ _ (Hstore s2 _ Hn2) (ts (MissStore np 1 None) Call) 0%nat eq_refl) as L4.
    cbn [fst snd] in L4. set (s3 := update_node np (set_references 2) s2) in *.
    assert (nodes s3 !! np = Some (set_references 2 (set_stat (inode_stat hd inum di) (new_node inum next)))) as Hn3
      by (subst s3; cbn; by rewrite !lookup_alter_eq, Hn1).
    assert (cache_ok s3) as Hok3 by (destruct Hok2; eexists; by apply hash_ok_update).
    pose proof (hit_steps hd fuel e s3 inum np _ Hok3 Hl1 Hn3 eq_refl eq_refl) as H5.
    pose proof (lift_steps _ _ _ _ _ _ H5 (ts (Done (Some np) None) Call) 1%nat eq_refl) as L5.
    eexists _, _. split; [etrans; [exact L3|]; etrans; [exact L4|exact L5]|]. split; [done|].
    cbn [fst shared update_node set_nodes nodes]. rewrite !lookup_alter_eq. subst s3 s2. cbn.
    rewrite !lookup_alter_eq, Hn1. split; done.
Qed.

(** ** Witnesses *)

(** The conditions of a first lookup, at an empty cache. *)
Lemma empty_ready :
  cache_ok empty_cache /\ refcnt_lock empty_cache = false /\ malloc_ok sample_env sizeof_disknode = true /\
  (forall p, ~ cached empty_cache 2 p) /\ make_node (demo_hurd None) (nodes empty_cache) = Some 1%positive.
Proof.
  split; [apply empty_cache_ok|]. split; [by rewrite empty_cache_eq|]. split; [done|].
  split; [apply empty_cache_none|by rewrite empty_cache_eq].
Qed.

Lemma reads_two inum : inum ∈ [2; 2] -> (exists di, read_inode 1 sample_env inum = Ret di) \/
  (exists er, read_inode 1 sample_env inum = Err er).
Proof.
  intros Hi. assert (inum = 2) as -> by (apply list_elem_of_In in Hi; by destruct Hi as [<-|[<-|[]]]). left.
  destruct (sample_inode 2 ltac:(lia)) as (di & Hr & _). by exists di.
Qed.

Lemma interleaved_lookups_agree_witness :
  exists c, rtc (conf_step (demo_hurd None) 1 sample_env) (requests empty_cache [2; 2]) c /\
    cached (shared c) 2 1%positive.
Proof.
  destruct empty_ready as (Hok & Hl & Hm & Hno & Hmk).
  destruct (sample_inode 2 ltac:(lia)) as (di & Hr & _).
  destruct (miss_steps (demo_hurd None) 1 sample_env empty_cache 2 1 Hok Hl Hm Hno Hmk)
    as (s1 & next & H1 & Hok1 & Hl1 & Hn1).
  pose proof (hit_steps (demo_hurd None) 1 sample_env s1 2 1 _ Hok1 Hl1 Hn1 eq_refl eq_refl) as H2.
  pose proof (lift_steps _ _ _ _ _ _ H1 [(2, Call); (2, Call)] 0%nat eq_refl) as L1.
  pose proof (lift_steps _ _ _ _ _ _ H2 [(2, ReadInode 1); (2, Call)] 1%nat eq_refl) as L2.
  pose proof (rtc_trans _ _ _ L1 L2) as L.
  destruct (interleaved_lookups_agree (demo_hurd None) 1 sample_env empty_cache [2; 2] _ _ Hok Hl reads_two L)
    as (_ & _ & _ & _ & Hdone).
  eexists. split; [exact L|]. exact (proj1 (Hdone 1%nat 1%nat 2 1%positive 1%positive None None eq_refl eq_refl)).
Defined.

Lemma interleaved_lookups_end_witness :
  exists n c, nsteps (conf_step (demo_hurd None) 1 sample_env) n (requests empty_cache [2; 2]) c /\
    threads c = [(2, ReadInode 1); (2, Call)] /\ (n <= 16)%nat.
Proof.
  destruct empty_ready as (Hok & Hl & Hm & Hno & Hmk).
  destruct (miss_steps (demo_hurd None) 1 sample_env empty_cache 2 1 Hok Hl Hm Hno Hmk) as (s1 & next & H1 & _).
  destruct (proj1 (rtc_nsteps _ _) (lift_steps _ _ _ _ _ _ H1 [(2, Call); (2, Call)] 0%nat eq_refl)) as [n Hn].
  eexists n, _. split; [exact Hn|]. split; [reflexivity|].
  exact (proj1 (interleaved_lookups_end (demo_hurd None) 1 sample_env empty_cache [2; 2] _ n _ Hok Hl eq_refl
    reads_two Hn)).
Defined.

Lemma unread_node_returned_witness :
  exists c n, rtc (conf_step (demo_hurd None) 1 sample_env) (requests empty_cache [2; 2]) c /\
    nodes (shared c) !! 1%positive = Some n /\ dn_stat n = None.
Proof.
  destruct empty_ready as (Hok & Hl & Hm & Hno & Hmk).
  destruct (unread_node_returned (demo_hurd None) 1 sample_env empty_cache 2 1 _ Hok Hl Hm Hno Hmk)
    as (c & n & H & _ & Hn & Hs & _).
  exists c, n. split; [exact H|]. split; [exact Hn|exact Hs].
Defined.

Lemma reference_lost_witness :
  exists c n, rtc (conf_step (demo_hurd None) 1 sample_env) (requests empty_cache [2; 2]) c /\
    nodes (shared c) !! 1%positive = Some n /\ references n = 2.
Proof.
  destruct empty_ready as (Hok & Hl & Hm & Hno & Hmk).
  destruct (sample_inode 2 ltac:(lia)) as (di & Hr & _).
  destruct (reference_lost (demo_hurd None) 1 sample_env empty_cache 2 1 di _ Hok Hl Hm Hno Hmk Hr eq_refl 2)
    as (c & n & H & _ & Hn & Hrefs); [left; reflexivity|].
  exists c, n. split; [exact H|]. split; [exact Hn|exact Hrefs].
Defined.
