(* ===== verification/Clients.v ===== *)
(** * Clients that give references back

    The lookups of Interleave with what libdiskfs does for their clients: a client
    whose lookup has returned a node gives its reference back once ([diskfs_nput]),
    and a node without references is forgotten ([diskfs_node_norefs] of dir.c). *)

From stdpp Require Import gmap relations.
From S2P Require Import Prelude Layout Disk Xtree Sample Imap Node Interleave.

(** ** Definitions *)

(** The lookups, and the clients that have given their reference back. *)
Record clients := Clients { cl_conf : config; cl_released : list nat }.

(** A lookup makes a step; libdiskfs unlocks a node for a client and takes its
    reference, while no thread is in a critical section; and it forgets a node that has
    no reference of either kind.  A client gives back only what it was given. *)
Inductive client_step (hd : hurd) (fuel : nat) (e : env) : clients -> clients -> Prop :=
| client_lookup c c' l : conf_step hd fuel e c c' -> client_step hd fuel e (Clients c l) (Clients c' l)
| client_release s ts l i inum p err :
    ts !! i = Some (inum, Done (Some p) err) -> i ∉ l -> refcnt_lock s = false ->
    client_step hd fuel e (Clients (Config s ts) l)
      (Clients (Config (update_node p (add_reference (-1)) (mutex_unlock p s)) ts) (i :: l))
| client_norefs s ts l p n s' :
    nodes s !! p = Some n -> references n = 0 -> light_references n = 0 -> refcnt_lock s = false ->
    diskfs_node_norefs s p = Ret s' ->
    client_step hd fuel e (Clients (Config s ts) l) (Clients (Config s' ts) l).

(** ** Lemmas *)

Section Steps.
Context (hd : hurd) (fuel : nat) (e : env).

(** A hit, up to the mutex of the node. *)
Lemma hit_waits s inum p n :
  cache_ok s -> refcnt_lock s = false -> nodes s !! p = Some n -> cache_id n = inum ->
  rtc (thread_rel hd fuel e inum) (s, Call) (update_node p (add_reference 1) s, NodeLock p).
Proof.
  intros [chain Hok] Hl Hn Hid. set (sl := NState (nodes s) (nodehash s) true).
  assert (hash_ok sl chain) as Hokl by (by apply hash_ok_lock).
  assert (thread_step hd fuel e sl inum Search = Some (Ret (sl, HitLoad p))) as Hsearch.
  { destruct (hash_find_cached sl chain inum Hokl) as (head & o & Hh & Hf & Ho). cbn [thread_step].
    rewrite Hh. cbn [of_option res_bind]. rewrite Hf. destruct o as [q|]; [|destruct (Ho p); by exists n].
    destruct Ho as (m & Hm & Hmid). by rewrite (hash_inj _ _ Hokl q p m n) by (done || congruence). }
  eapply (rtc_l _ _ (sl, Search)); [unfold thread_rel; cbn; by rewrite Hl|].
  eapply (rtc_l _ _ (sl, HitLoad p)); [exact Hsearch|].
  eapply (rtc_l _ _ (sl, HitStore p (references n))); [unfold thread_rel; cbn; by rewrite Hn|].
  eapply (rtc_l _ _ (update_node p (add_reference 1) sl, HitUnlock p)).
  { unfold thread_rel. cbn [thread_step fst snd]. rewrite <- (increment_eq sl p n Hn). cbn [sl nodes]. by rewrite Hn. }
  apply rtc_once. unfold thread_rel. cbn. unfold update_node, spin_unlock, set_nodes. cbn. by rewrite Hl.
Qed.

Lemma client_lookups c c' l :
  rtc (conf_step hd fuel e) c c' -> rtc (client_step hd fuel e) (Clients c l) (Clients c' l).
Proof. induction 1; [done|]. eapply rtc_l; [by apply client_lookup|done]. Qed.

(** A thread moves while the clients do nothing else. *)
Lemma client_moves inum s a s' a' ts i l :
  rtc (thread_rel hd fuel e inum) (s, a) (s', a') -> ts !! i = Some (inum, a) ->
  rtc (client_step hd fuel e) (Clients (Config s ts) l) (Clients (Config s' (<[i := (inum, a')]> ts)) l).
Proof. intros H Hi. apply client_lookups. exact (lift_steps hd fuel e _ _ _ H ts i Hi). Qed.

(** The first lookup of a number, up to the loaded count. *)
Lemma miss_loads s inum np di `{HurdLaws hd} :
  cache_ok s -> refcnt_lock s = false -> malloc_ok e sizeof_disknode = true ->
  (forall p, ~ cached s inum p) -> make_node hd (nodes s) = Some np ->
  read_inode fuel e inum = Ret di -> catch_exception hd = None ->
  exists s1 n, rtc (thread_rel hd fuel e inum) (s, Call) (s1, MissStore np 1 None) /\ cache_ok s1 /\
    refcnt_lock s1 = false /\ nodes s1 !! np = Some n /\ cache_id n = inum /\ references n = 1 /\
    light_references n = 0 /\ locked n = false /\ fileinfo n = None.
Proof.
  intros Hok Hl Hm Hno Hmk Hr Hc.
  destruct (miss_steps hd fuel e s inum np Hok Hl Hm Hno Hmk) as (s1 & next & H1 & Hok1 & Hl1 & Hn1).
  pose proof (read_steps hd fuel e s1 inum np _ di Hn1 eq_refl Hl1 Hr Hc) as H2.
  do 2 eexists. split; [exact (rtc_trans _ _ _ H1 H2)|]. split; [destruct Hok1; eexists; by apply hash_ok_update|].
  split; [done|]. cbn [update_node set_nodes nodes]. rewrite lookup_alter_eq, Hn1. done.
Qed.

(** Two clients give their references back, and the node is forgotten. *)
Lemma releases_free s ts i j inum err err' np n :
  cache_ok s -> refcnt_lock s = false -> nodes s !! np = Some n -> references n = 2 -> light_references n = 0 ->
  fileinfo n = None -> ts !! i = Some (inum, Done (Some np) err) -> ts !! j = Some (inum, Done (Some np) err') -> i <> j ->
  exists s', rtc (client_step hd fuel e) (Clients (Config s ts) []) (Clients (Config s' ts) [j; i]) /\
    nodes s' !! np = None.
Proof.
  intros [chain Hok] Hl Hn Hrefs Hlight Hf Hi Hj Hne.
  set (give t := update_node np (add_reference (-1)) (mutex_unlock np t)).
  assert (hash_ok (give (give s)) chain) as Hok2 by (do 4 (apply hash_ok_update; [done|]); done).
  assert (exists n2, nodes (give (give s)) !! np = Some n2 /\ references n2 = 0 /\ light_references n2 = 0 /\
    fileinfo n2 = None) as (n2 & Hn2 & Hr2 & Hl2 & Hf2).
  { eexists. cbn [give mutex_unlock update_node set_nodes nodes]. subst give. cbn. rewrite !lookup_alter_eq, Hn.
    split; [done|]. cbn. split; [lia|done]. }
  exists (remove_state (give (give s)) np n2). split; [|apply remove_np].
  eapply rtc_l; [by apply (client_release _ _ _ s ts [] i inum np err); [|apply not_elem_of_nil|]|].
  eapply rtc_l; [apply (client_release _ _ _ (give s) ts [i] j inum np err'); [done| |done]|].
  { rewrite list_elem_of_singleton. congruence. }
  apply rtc_once. eapply client_norefs; [exact Hn2|done..|by apply norefs_eq].
Qed.

(** Three lookups of an uncached number: the first stores the count it loaded before the
    second returned and the third began to wait. *)
Lemma three_lookups s inum np di `{HurdLaws hd} :
  cache_ok s -> refcnt_lock s = false -> malloc_ok e sizeof_disknode = true ->
  (forall p, ~ cached s inum p) -> make_node hd (nodes s) = Some np ->
  read_inode fuel e inum = Ret di -> catch_exception hd = None ->
  exists s' n, rtc (client_step hd fuel e) (Clients (requests s [inum; inum; inum]) [])
      (Clients (Config s' [(inum, Done (Some np) None); (inum, Done (Some np) None); (inum, NodeLock np)]) []) /\
    cache_ok s' /\ refcnt_lock s' = false /\ nodes s' !! np = Some n /\ references n = 2 /\ light_references n = 0 /\
    fileinfo n = None.
Proof.
  intros Hok Hl Hm Hno Hmk Hr Hc.
  destruct (miss_loads s inum np di Hok Hl Hm Hno Hmk Hr Hc)
    as (s1 & n & H1 & Hok1 & Hl1 & Hn1 & Hid & _ & Hlight & Hlk & Hf).
  pose proof (hit_steps hd fuel e s1 inum np n Hok1 Hl1 Hn1 Hid Hlk) as H2.
  set (s2 := update_node np (set_locked true) _) in H2.
  pose proof (updated _ np (set_locked true) _ (updated _ np (add_reference 1) _ Hn1)) as Hn2. fold s2 in Hn2.
  assert (cache_ok s2) as Hok2 by (destruct Hok1; eexists; do 2 (apply hash_ok_update; [done|]); done).
  pose proof (hit_waits s2 inum np _ Hok2 Hl1 Hn2 Hid) as H3.
  set (s3 := update_node np (add_reference 1) s2) in H3.
  pose proof (updated s2 np (add_reference 1) _ Hn2) as Hn3. fold s3 in Hn3.
  set (s4 := update_node np (set_references 2) s3).
  assert (rtc (thread_rel hd fuel e inum) (s3, MissStore np 1 None) (s4, Done (Some np) None)) as H4
    by (apply rtc_once; unfold thread_rel; cbn [thread_step fst snd]; by rewrite Hn3).
  set (ts a b c := [(inum, a); (inum, b); (inum, c)] : list (Z * pc)).
  exists s4. eexists. split; [|split; [destruct Hok2; eexists; do 2 (apply hash_ok_update; [done|]); done|
    split; [done|split; [by apply updated|done]]]].
  etrans; [exact (client_moves _ _ _ _ _ (ts Call Call Call) 0 [] H1 eq_refl)|].
  etrans; [exact (client_moves _ _ _ _ _ (ts (MissStore np 1 None) Call Call) 1 [] H2 eq_refl)|].
  etrans; [exact (client_moves _ _ _ _ _ (ts (MissStore np 1 None) (Done (Some np) None) Call) 2 [] H3 eq_refl)|].
  exact (client_moves _ _ _ _ _ (ts (MissStore np 1 None) (Done (Some np) None) (NodeLock np)) 0 [] H4 eq_refl).
Qed.

End Steps.

(** ** Theorems *)

(** C33: A node is freed while it is looked up.  Three clients look an uncached number
    up.  The increments of the second and the third fall between the load and the store
    of the first, which is not under the lock, and are lost.  Two clients give the
    reference they were given back; [diskfs_node_norefs] frees the node; and the lookup
    of the third, which has found it, takes the mutex of a node that is gone.  Each
    client has given back at most its own reference. *)
Theorem node_freed_in_use (hd : hurd) (fuel : nat) (e : env) (s : nstate) (inum : Z) (np : positive) (di : dinode_t)
    `{HurdLaws hd} :
  cache_ok s -> refcnt_lock s = false -> malloc_ok e sizeof_disknode = true ->
  (forall p, ~ cached s inum p) -> make_node hd (nodes s) = Some np ->
  read_inode fuel e inum = Ret di -> catch_exception hd = None ->
  exists c, rtc (client_step hd fuel e) (Clients (requests s [inum; inum; inum]) []) c /\
    threads (cl_conf c) = [(inum, Done (Some np) None); (inum, Done (Some np) None); (inum, NodeLock np)] /\
    NoDup (cl_released c) /\ (2%nat ∉ cl_released c) /\
    thread_step hd fuel e (shared (cl_conf c)) inum (NodeLock np) = Some (Fault NullDeref).
Proof.
  intros Hok Hl Hm Hno Hmk Hr Hc.
  destruct (three_lookups hd fuel e s inum np di Hok Hl Hm Hno Hmk Hr Hc) as (s4 & n & H4 & Hok4 & Hl4 & Hn4 & Hrefs & Hlight & Hf).
  set (ts := [(inum, Done (Some np) None); (inum, Done (Some np) None); (inum, NodeLock np)]) in *.
  destruct (releases_free hd fuel e s4 ts 0 1 inum None None np n Hok4 Hl4 Hn4 Hrefs Hlight Hf eq_refl eq_refl ltac:(done))
    as (s5 & H5 & Hn5).
  eexists. split; [etrans; [exact H4|exact H5]|]. split; [done|].
  split; [exact (bool_decide_unpack (NoDup [1%nat; 0%nat]) I)|].
  split; [set_solver|]. cbn [thread_step cl_conf shared]. by rewrite Hn5.
Qed.

(** ** Witnesses *)

Lemma node_freed_in_use_witness :
  exists c, rtc (client_step (demo_hurd None) 1 sample_env) (Clients (requests empty_cache [2; 2; 2]) []) c /\
    thread_step (demo_hurd None) 1 sample_env (shared (cl_conf c)) 2 (NodeLock 1) = Some (Fault NullDeref).
Proof.
  destruct empty_ready as (Hok & Hl & Hm & Hno & Hmk).
  destruct (sample_inode 2 ltac:(lia)) as (di & Hr & _).
  destruct (node_freed_in_use (demo_hurd None) 1 sample_env empty_cache 2 1 di Hok Hl Hm Hno Hmk Hr eq_refl)
    as (c & H & _ & _ & _ & Hf).
  exists c. split; [exact H|exact Hf].
Defined.
