(* ===== verification/Dir.v ===== *)
(** * Directory operations of the translator

    dir.c on top of the directory reader and the node cache:
    [diskfs_get_directs], [dirscan], [diskfs_lookup_hard] and
    [diskfs_set_statfs]. *)

From stdpp Require Import gmap.
From S2P Require Import Prelude Layout Unicode Disk Xtree Sample Imap DirRead Node.

(** ** Definitions: what libdiskfs and libc define *)

(** [enum lookup_type], and the two reference operations the lookup calls. *)
Record libdiskfs := LibDiskfs {
  LOOKUP : Z; CREATE : Z; REMOVE : Z; RENAME : Z; SPEC_DOTDOT : Z;
  diskfs_nref : positive -> nstate -> nstate;
  diskfs_nput : positive -> nstate -> nstate }.

(** The lookup types are small and distinct, [SPEC_DOTDOT] is the flag 0x10000000
    or'd into them, and [diskfs_nref] adds a hard reference. *)
Class LibDiskfsLaws (ld : libdiskfs) : Prop := {
  lookup_types : LOOKUP ld = 0 /\ CREATE ld = 1 /\ REMOVE ld = 2 /\ RENAME ld = 3;
  spec_dotdot_flag : SPEC_DOTDOT ld = 0x10000000;
  nref_adds : forall p s, diskfs_nref ld p s = update_node p (add_reference 1) s }.

(** Layout of libc's [struct dirent]: its size, the offset of [d_name], which is
    its last member, and the width of [d_ino]. *)
Record dirent_abi := DirentAbi { sizeof_dirent : Z; d_name_off : Z; ino_bits : Z }.

Class DirentLaws (abi : dirent_abi) : Prop := {
  d_name_inside : 0 <= d_name_off abi < sizeof_dirent abi;
  dirent_small : sizeof_dirent abi <= 64;
  ino_bits_pos : 0 < ino_bits abi }.

Definition DT_UNKNOWN : Z := 0.

Record dirent := Dirent {
  d_ino : Z; d_reclen : Z; d_type : Z; d_namlen : Z; d_name : list Z }.

(** ** Definitions: listing *)

(** [strlen] of a buffer whose initialised prefix is given. *)
Fixpoint c_string (buf : list Z) : res (list Z) :=
  match buf with
  | [] => Fault Uninitialised
  | c :: buf' => if c =? 0 then Ret [] else let* s := c_string buf' in Ret (c :: s)
  end.

(** [reclen = (sizeof (struct dirent) + namelen + 3) & ~3] *)
Definition rec_len (abi : dirent_abi) (namelen : Z) : Z :=
  Z.land (u32 (u32 (sizeof_dirent abi + namelen) + 3)) (Z.lnot 3).

(** The records written, each with its offset in the buffer of [cap] bytes. *)
Abbreviation listing := (list (Z * dirent)).

Definition MAX_DIRECTS : Z := 30.

(** The loop; returns the records, [*amt] and [*datacnt].  [gotinum] and [name]
    survive from one round to the next. *)
Fixpoint get_directs_loop (n : nat) (fuel : nat) (abi : dirent_abi) (e : env) (inum pos : Z)
    (name : list Z) (gotinum : option Z) (cap amt off : Z) : res (listing * Z * Z) :=
  match n with
  | O => NoFuel
  | S n' =>
      match readndir fuel e inum pos name 100 gotinum with
      | Err _ => Ret ([], amt, off)
      | Fault f => Fault f
      | NoFuel => NoFuel
      | Ret (name, gotinum) =>
          let* str := c_string name in
          let namelen := Z.of_nat (length str) in
          let reclen := rec_len abi namelen in
          if cap <? off + d_name_off abi + namelen + 1 then Fault BufferOverflow
          else
            let* ino := of_option Uninitialised gotinum in
            let userp := Dirent (wrapU (ino_bits abi) ino) (u16 reclen) DT_UNKNOWN (u8 namelen) str in
            let amt := amt + 1 in
            if MAX_DIRECTS <=? amt then Ret ([(off, userp)], amt, off)
            else
              let* '(rest, amt, datacnt) :=
                get_directs_loop n' fuel abi e inum (pos + 1) name gotinum cap amt (off + reclen) in
              Ret ((off, userp) :: rest, amt, datacnt)
      end
  end.

(** [n] and [bufsiz] of the C function are not used; [cap] is the real size of
    the buffer [*data] points to. *)
Definition diskfs_get_directs (fuel : nat) (abi : dirent_abi) (e : env) (dp : node) (entry cap : Z)
    : res (listing * Z * Z) :=
  get_directs_loop (Z.to_nat MAX_DIRECTS) fuel abi e (cache_id dp) entry [] None cap 0 0.

(** ** Definitions: lookup *)

(** Returns [*gotinum] and the C return value. *)
Definition dirscan (fuel : nat) (e : env) (dinum : Z) (name : list Z) (gotinum : option Z)
    : res (option Z * option error_t) :=
  let* gotinum := directory fuel e dinum name (length name) gotinum in
  if default 0 (name !! 0%nat) =? 0x2E then Ret (gotinum, None)
  else
    let* g := of_option Uninitialised gotinum in
    if g =? u64 (-1) then Ret (gotinum, Some ENOENT) else Ret (gotinum, None).

(** [diskfs_cached_lookup (gotinum, npp)]; [npp] is [None] for a null pointer, and
    the number may be a variable nothing was stored in. *)
Definition cached_lookup_at (hd : hurd) (fuel : nat) (e : env) (s : nstate) (gotinum : option Z)
    (npp : option (option positive)) : res (nstate * option (option positive) * option error_t) :=
  let* inum := of_option Uninitialised gotinum in
  let* '(s, p, err) := diskfs_cached_lookup hd fuel e s inum in
  match npp with
  | None => Fault NullDeref
  | Some _ => Ret (s, Some p, err)
  end.

(** [name] is the C string without its terminator.  Returns the state, [*npp] and
    the C return value; in the two branches for "..", the result of
    [diskfs_cached_lookup] is dropped. *)
Definition diskfs_lookup_hard (ld : libdiskfs) (hd : hurd) (fuel : nat) (e : env)
    (root : option positive) (s : nstate) (dp : positive) (name : list Z) (type : Z)
    (npp : option (option positive)) : res (nstate * option (option positive) * option error_t) :=
  let* dn := of_option NullDeref (nodes s !! dp) in
  if (type =? REMOVE ld) || (type =? RENAME ld) then
    match npp with
    | None => Fault AssertFailed
    | Some _ => Ret (s, npp, Some EROFS)
    end
  else
    let npp := match npp with None => None | Some _ => Some None end in
    let spec_dotdot := u8 (Z.land type (SPEC_DOTDOT ld)) in
    let type := Z.land type (Z.lnot (SPEC_DOTDOT ld)) in
    let namelen := u8 (Z.of_nat (length name)) in
    if type =? RENAME ld then Ret (s, npp, Some EROFS)
    else
      let* '(gotinum, err) := dirscan fuel e (cache_id dn) name None in
      match err with
      | Some err => Ret (s, npp, Some err)
      | None =>
          let dot i := default 0 (name !! i) =? 0x2E in
          if (namelen =? 2) && dot 0%nat && dot 1%nat then
            if bool_decide (root = Some dp) then Ret (s, npp, Some EAGAIN)
            else if negb (spec_dotdot =? 0) then
              if negb (type =? LOOKUP ld) then Fault AssertFailed
              else
                let s := diskfs_nput ld dp s in
                let* '(s, npp, _) := cached_lookup_at hd fuel e s gotinum npp in
                Ret (s, npp, None)
            else
              let s := mutex_unlock dp s in
              let* '(s, npp, _) := cached_lookup_at hd fuel e s gotinum npp in
              let* s := mutex_lock dp s in
              Ret (s, npp, None)
          else if (namelen =? 1) && dot 0%nat then
            match npp with
            | None => Fault NullDeref
            | Some _ => Ret (diskfs_nref ld dp s, Some (Some dp), None)
            end
          else cached_lookup_at hd fuel e s gotinum npp
      end.

(** ** Definitions: file system statistics *)

(** The fields [diskfs_set_statfs] stores; it clears the others. *)
Record statfs_t := Statfs {
  f_type : Z; f_bsize : Z; f_blocks : Z; f_fsid : Z; f_namelen : Z }.

Definition diskfs_set_statfs (hd : hurd) (e : env) : statfs_t :=
  Statfs JFS_SUPER_MAGIC (s_bsize (jfs_sb e)) (s_agsize (jfs_sb e)) (getpid hd) 0.

(** ** Specification: listing *)

(** The record of an entry, and the records of consecutive entries from byte
    [off] of the buffer on. *)
Definition record_of (abi : dirent_abi) (d : dent) : dirent :=
  let str := converted (d_units d) in
  let namelen := Z.of_nat (length str) in
  Dirent (wrapU (ino_bits abi) (d_inumber d)) (u16 (rec_len abi namelen)) DT_UNKNOWN (u8 namelen) str.

Definition record_size (abi : dirent_abi) (d : dent) : Z :=
  rec_len abi (Z.of_nat (length (converted (d_units d)))).

Fixpoint records (abi : dirent_abi) (off : Z) (ds : list dent) : listing :=
  match ds with
  | [] => []
  | d :: ds' => (off, record_of abi d) :: records abi (off + record_size abi d) ds'
  end.

Fixpoint records_size (abi : dirent_abi) (ds : list dent) : Z :=
  match ds with
  | [] => 0
  | d :: ds' => record_size abi d + records_size abi ds'
  end.

(** ** Lemmas: listing *)

Lemma c_string_app str rest :
  Forall (fun c => c <> 0) str -> c_string (str ++ 0 :: rest) = Ret str.
Proof.
  induction 1 as [|c str Hc _ IH]; cbn [app c_string]; [done|].
  replace (c =? 0) with false by lia. by rewrite IH.
Qed.

Lemma converted_nonzero cs : Forall name_unit cs -> Forall (fun b => b <> 0) (converted cs).
Proof.
  intros Hcs. destruct (converted_ok cs Hcs) as [H _]. by eapply Unicode_String_nonzero.
Qed.

(** The stored name reads back as the converted one: zeros follow it. *)
Lemma stored_name_zeros cs :
  Forall name_unit cs ->
  stored_name cs = converted cs ++ replicate (length cs - length (converted cs)) 0.
Proof.
  intros Hcs. destruct (converted_ok cs Hcs) as [_ Hlen]. unfold stored_name.
  apply list_eq. intros i. rewrite list_lookup_fmap. unfold utf8_buffer.
  destruct (decide (i < length cs)%nat) as [Hi|Hi].
  - rewrite lookup_seq_lt by done. simpl. destruct (decide (i < length (converted cs))%nat).
    + rewrite lookup_app_l by done.
      by destruct (lookup_lt_is_Some_2 (converted cs) i ltac:(lia)) as [c ->].
    + rewrite lookup_app_r by lia. rewrite (lookup_ge_None_2 (converted cs)) by lia.
      symmetry. apply lookup_replicate. split; [done|lia].
  - rewrite lookup_seq_ge, lookup_ge_None_2; [done| |lia].
    rewrite length_app, length_replicate. lia.
Qed.

Lemma c_string_stored cs rest :
  Forall name_unit cs -> c_string (stored_name cs ++ 0 :: rest) = Ret (converted cs).
Proof.
  intros Hcs. rewrite stored_name_zeros by done. rewrite <- app_assoc.
  destruct (length cs - length (converted cs))%nat as [|k]; simpl;
    by apply c_string_app, converted_nonzero.
Qed.

Lemma rec_len_bounds abi n :
  DirentLaws abi -> 0 <= n <= 255 ->
  sizeof_dirent abi + n <= rec_len abi n <= sizeof_dirent abi + n + 3 /\ rec_len abi n mod 4 = 0.
Proof.
  intros [? ? ?] Hn. unfold rec_len. change (Z.lnot 3) with (Z.lnot (2 ^ 2 - 1)).
  rewrite land_lnot_low by lia.
  rewrite (wrapU_small 32 (sizeof_dirent abi + n)), wrapU_small by lia.
  generalize (sizeof_dirent abi + n). change (2 ^ 2) with 4. intros x. zlia.
Qed.

Lemma dir_contents_units e root n ds i d :
  dir_contents e root n ds -> ds !! i = Some d -> Forall name_unit (d_units d).
Proof.
  assert (forall slot stbl es j c, entries_at slot stbl es -> es !! j = Some c ->
    Forall name_unit (d_units c)) as Hunits.
  { intros slot stbl es j c He Hj. by destruct (He _ _ Hj) as (h & _ & Hc & _). }
  intros [flag ds' _ _ _ He|flag j xd p m k ds' _ _ _ _ _ Hl _ _]; [by eapply Hunits|].
  revert i. induction Hl as [p es (_ & _ & He) _|k p es next p' es' (_ & _ & He) _ _ _ _ IH];
    intros i; [by eapply Hunits|].
  intros [Hi|[_ Hi]]%lookup_app_Some; [by eapply Hunits|by eapply IH].
Qed.

Section Listing.
Context (e : env) (fuel : nat) (abi : dirent_abi) (inum : Z) (inode : dinode_t) (depth : nat)
  (ds : list dent).
Context (Hwf : WfEnv e) (Habi : DirentLaws abi).
Hypothesis Hinode : read_inode fuel e inum = Ret inode.
Hypothesis Hdir : is_dir inode.
Hypothesis Hds : dir_contents e (di_btroot inode) depth ds.
Hypothesis Hfuel : (depth <= fuel)%nat.

Lemma entry_converted i d :
  ds !! i = Some d -> Forall name_unit (d_units d) /\ (length (converted (d_units d)) <= length (d_units d))%nat.
Proof.
  intros Hi. pose proof (dir_contents_units _ _ _ _ _ _ Hds Hi). split; [done|]. by apply converted_ok.
Qed.

Lemma records_aligned l off i r :
  (forall d, d ∈ l -> exists i, ds !! i = Some d) -> off mod 4 = 0 ->
  records abi off l !! i = Some r -> r.1 mod 4 = 0.
Proof.
  revert off i. induction l as [|d l IH]; intros off i Hin Hoff Hr; [done|].
  destruct i as [|i]; [by injection Hr as <-|].
  apply (IH (off + record_size abi d) i); [intros; apply Hin; by right| |done].
  destruct (Hin d ltac:(by left)) as [j Hj]. destruct (entry_converted _ _ Hj) as [_ Hc].
  pose proof (dir_contents_length _ _ _ _ _ _ Hds Hj).
  destruct (rec_len_bounds abi (Z.of_nat (length (converted (d_units d)))) Habi ltac:(lia)) as [_ Hmod].
  unfold record_size. by rewrite Z.add_mod, Hoff, Hmod by lia.
Qed.

(** One round of the loop. *)
Lemma get_directs_step n pos name g cap amt off :
  0 <= pos -> Forall (fun d => (length (d_units d) <= 99)%nat) ds ->
  off + sizeof_dirent abi + 102 <= cap ->
  get_directs_loop (S n) fuel abi e inum pos name g cap amt off =
  match ds !! Z.to_nat pos with
  | None => Ret ([], amt, off)
  | Some d =>
      if MAX_DIRECTS <=? amt + 1 then Ret ([(off, record_of abi d)], amt + 1, off)
      else
        let* '(rest, amt, datacnt) :=
          get_directs_loop n fuel abi e inum (pos + 1)
            (stored_name (d_units d) ++ 0 :: drop (S (length (d_units d))) name)
            (Some (d_inumber d)) cap (amt + 1) (off + record_size abi d) in
        Ret ((off, record_of abi d) :: rest, amt, datacnt)
  end.
Proof.
  intros Hpos Hlen Hcap. cbn [get_directs_loop].
  rewrite (readndir_ok e fuel inum inode depth ds) by done. unfold readndir_result.
  destruct (ds !! Z.to_nat pos) as [d|] eqn:Hd; [|done].
  destruct (entry_converted _ _ Hd) as [Hu Hc].
  pose proof (Forall_lookup_1 _ _ _ _ Hlen Hd) as Hl. cbv beta in Hl.
  pose proof (@d_name_inside abi Habi). replace (100 <? _) with false by lia. cbn [app].
  rewrite c_string_stored by done. cbn [res_bind of_option].
  by replace (cap <? _) with false by lia.
Qed.

Lemma get_directs_loop_ok n pos name g cap off :
  (n < 30)%nat -> 0 <= pos -> Forall (fun d => (length (d_units d) <= 99)%nat) ds ->
  off + Z.of_nat (S n) * (sizeof_dirent abi + 102) <= cap ->
  let shown := take (S n) (drop (Z.to_nat pos) ds) in
  get_directs_loop (S n) fuel abi e inum pos name g cap (29 - Z.of_nat n) off =
  Ret (records abi off shown, 29 - Z.of_nat n + Z.of_nat (length shown),
       off + records_size abi (take n shown)).
Proof.
  intros Hn Hpos Hlen. pose proof (@d_name_inside abi Habi) as Hsz. revert pos name g off Hn Hpos.
  induction n as [|n IH]; intros pos name g off Hn Hpos Hcap shown; subst shown;
    rewrite get_directs_step by (done || nia); destruct (ds !! Z.to_nat pos) as [d|] eqn:Hd;
    try (rewrite drop_ge by (by apply lookup_ge_None); simpl; repeat f_equal; lia);
    rewrite (drop_S _ _ _ Hd); unfold MAX_DIRECTS.
  - simpl. repeat f_equal; lia.
  - replace (30 <=? _) with false by lia.
    replace (29 - Z.of_nat (S n) + 1) with (29 - Z.of_nat n) by lia.
    destruct (entry_converted _ _ Hd) as [_ Hc].
    pose proof (Forall_lookup_1 _ _ _ _ Hlen Hd) as Hl. cbv beta in Hl.
    destruct (rec_len_bounds abi (Z.of_nat (length (converted (d_units d)))) Habi ltac:(lia)) as [Hrec _].
    rewrite IH by (unfold record_size; lia || nia).
    cbn [res_bind]. replace (Z.to_nat (pos + 1)) with (S (Z.to_nat pos)) by lia.
    simpl. f_equal. f_equal; [f_equal|]; lia.
Qed.

End Listing.

Lemma get_directs_ok (fuel : nat) (abi : dirent_abi) (e : env) (dp : node)
    (inode : dinode_t) (depth : nat) (ds : list dent) (entry cap : Z) :
  WfEnv e -> DirentLaws abi -> read_inode fuel e (cache_id dp) = Ret inode -> is_dir inode ->
  dir_contents e (di_btroot inode) depth ds -> (depth <= fuel)%nat -> 0 <= entry ->
  Forall (fun d => (length (d_units d) <= 99)%nat) ds -> 30 * (sizeof_dirent abi + 102) <= cap ->
  let shown := take 30 (drop (Z.to_nat entry) ds) in
  diskfs_get_directs fuel abi e dp entry cap =
    Ret (records abi 0 shown, Z.of_nat (length shown), records_size abi (take 29 shown)) /\
  Forall (fun r => r.1 mod 4 = 0) (records abi 0 shown).
Proof.
  intros Hwf Habi Hi Hd Hc Hf He Hl Hcap shown. unfold diskfs_get_directs.
  change (Z.to_nat MAX_DIRECTS) with 30%nat. split.
  - exact (get_directs_loop_ok e fuel abi (cache_id dp) inode depth ds Hwf Habi Hi Hd Hc Hf
      29 entry [] None cap 0 ltac:(lia) He Hl ltac:(lia)).
  - apply Forall_lookup. intros i r Hr. eapply records_aligned; try eassumption; [|reflexivity].
    intros d Hin. apply list_elem_of_lookup in Hin as [k Hk].
    apply lookup_take_Some in Hk as [Hk _]. rewrite lookup_drop in Hk. by eexists.
Qed.

(** ** Lemmas: lookup *)

(** The types a lookup that is not refused at once can have. *)
Definition lookup_type_ok (ld : libdiskfs) (type : Z) : Prop :=
  In type [LOOKUP ld; CREATE ld; Z.lor (LOOKUP ld) (SPEC_DOTDOT ld); Z.lor (CREATE ld) (SPEC_DOTDOT ld)].

(** The flag does not fit [spec_dotdot]. *)
Lemma lookup_type_tests ld type `{LibDiskfsLaws ld} :
  lookup_type_ok ld type ->
  (type =? REMOVE ld) || (type =? RENAME ld) = false /\
  u8 (Z.land type (SPEC_DOTDOT ld)) = 0 /\
  (Z.land type (Z.lnot (SPEC_DOTDOT ld)) =? RENAME ld) = false.
Proof.
  unfold lookup_type_ok. destruct lookup_types as (-> & -> & -> & ->).
  rewrite spec_dotdot_flag. cbn [In].
  intros [<-|[<-|[<-|[<-|[]]]]]; vm_compute; done.
Qed.

Definition is_dot (name : list Z) (i : nat) : bool := default 0 (name !! i) =? 0x2E.

Lemma lookup_hard_eq ld hd fuel e root s dp dn name type v `{LibDiskfsLaws ld} :
  nodes s !! dp = Some dn -> lookup_type_ok ld type ->
  diskfs_lookup_hard ld hd fuel e root s dp name type (Some v) =
  let namelen := u8 (Z.of_nat (length name)) in
  let* '(g, err) := dirscan fuel e (cache_id dn) name None in
  match err with
  | Some err => Ret (s, Some None, Some err)
  | None =>
      if (namelen =? 2) && is_dot name 0 && is_dot name 1 then
        if bool_decide (root = Some dp) then Ret (s, Some None, Some EAGAIN)
        else
          let* '(s, npp, _) := cached_lookup_at hd fuel e (mutex_unlock dp s) g (Some None) in
          let* s := mutex_lock dp s in
          Ret (s, npp, None)
      else if (namelen =? 1) && is_dot name 0
      then Ret (diskfs_nref ld dp s, Some (Some dp), None)
      else cached_lookup_at hd fuel e s g (Some None)
  end.
Proof.
  intros Hn Ht. unfold diskfs_lookup_hard. rewrite Hn. cbn [of_option res_bind].
  destruct (lookup_type_tests ld type Ht) as (-> & -> & ->). reflexivity.
Qed.

Section Lookup.
Context (ld : libdiskfs) (hd : hurd) (fuel : nat) (e : env) (root : option positive) (s : nstate)
  (dp : positive) (dn : node) (inode : dinode_t) (depth : nat) (ds : list dent).
Context (Hld : LibDiskfsLaws ld) (Hwf : WfEnv e).
Hypothesis Hdp : nodes s !! dp = Some dn.
Hypothesis Hinode : read_inode fuel e (cache_id dn) = Ret inode.
Hypothesis Hdir : is_dir inode.
Hypothesis Hds : dir_contents e (di_btroot inode) depth ds.
Hypothesis Hfuel : (depth <= fuel)%nat.

(** [dirscan] in terms of the directory's entries. *)
Lemma dirscan_ok name :
  (length name <= 255)%nat ->
  dirscan fuel e (cache_id dn) name None =
  let g := dir_lookup name ds None in
  if is_dot name 0 then Ret (g, None)
  else match g with
       | None => Fault Uninitialised
       | Some i => if i =? u64 (-1) then Ret (g, Some ENOENT) else Ret (g, None)
       end.
Proof.
  intros Hl. unfold dirscan.
  rewrite (directory_ok e fuel _ inode depth ds) by (done || (unfold UTF8_BUFFER_SIZE; lia)).
  cbn [res_bind]. unfold is_dot. case_match; [done|]. by destruct (dir_lookup name ds None).
Qed.

Lemma lookup_plain type name v :
  lookup_type_ok ld type -> (length name <= 255)%nat -> is_dot name 0 = false ->
  diskfs_lookup_hard ld hd fuel e root s dp name type (Some v) =
  match dir_lookup name ds None with
  | None => Fault Uninitialised
  | Some g =>
      if g =? u64 (-1) then Ret (s, Some None, Some ENOENT)
      else let* '(s, p, err) := diskfs_cached_lookup hd fuel e s g in Ret (s, Some p, err)
  end.
Proof.
  intros Ht Hl Hd. rewrite (lookup_hard_eq _ _ _ _ _ _ _ dn) by done.
  rewrite dirscan_ok by done. cbv zeta. rewrite Hd.
  destruct (dir_lookup name ds None) as [g|]; [|done].
  destruct (g =? u64 (-1)); cbn [res_bind]; [done|]. by rewrite !andb_false_r.
Qed.

Lemma lookup_hidden type name v :
  lookup_type_ok ld type -> (length name <= 255)%nat -> is_dot name 0 = true ->
  name <> [0x2E] -> name <> [0x2E; 0x2E] ->
  diskfs_lookup_hard ld hd fuel e root s dp name type (Some v) =
  match dir_lookup name ds None with
  | None => Fault Uninitialised
  | Some g => let* '(s, p, err) := diskfs_cached_lookup hd fuel e s g in Ret (s, Some p, err)
  end.
Proof.
  intros Ht Hl Hd H1 H2. rewrite (lookup_hard_eq _ _ _ _ _ _ _ dn) by done.
  rewrite dirscan_ok by done. cbv zeta. rewrite Hd. cbn [res_bind].
  rewrite wrapU_small by lia. rewrite !andb_true_r.
  assert ((Z.of_nat (length name) =? 2) && is_dot name 1 = false) as ->.
  { apply andb_false_iff. destruct name as [|a [|b [|c name]]]; try (left; cbn [length]; lia).
    right. unfold is_dot in *. simpl in *. destruct (Z.eqb_spec b 0x2E); [|done].
    destruct H2. f_equal; [lia|by f_equal]. }
  assert ((Z.of_nat (length name) =? 1) = false) as ->.
  { destruct name as [|a [|b name]]; cbn [length]; try lia. destruct H1.
    unfold is_dot in Hd. simpl in Hd. f_equal. lia. }
  by destruct (dir_lookup name ds None).
Qed.

Lemma lookup_dotdot_eq type v :
  lookup_type_ok ld type ->
  diskfs_lookup_hard ld hd fuel e root s dp [0x2E; 0x2E] type (Some v) =
  if decide (root = Some dp) then Ret (s, Some None, Some EAGAIN)
  else match dir_lookup [0x2E; 0x2E] ds None with
       | None => Fault Uninitialised
       | Some g =>
           let* '(s, p, _) := diskfs_cached_lookup hd fuel e (mutex_unlock dp s) g in
           let* s := mutex_lock dp s in
           Ret (s, Some p, None)
       end.
Proof.
  intros Ht. rewrite (lookup_hard_eq _ _ _ _ _ _ _ dn) by done.
  rewrite dirscan_ok by (simpl; lia). cbv zeta.
  change (is_dot [0x2E; 0x2E] 0) with true. change (is_dot [0x2E; 0x2E] 1) with true.
  change (u8 (Z.of_nat (length [0x2E; 0x2E])) =? 2) with true. cbn [res_bind andb].
  destruct (decide (root = Some dp)); [by rewrite bool_decide_true|rewrite bool_decide_false by done].
  destruct (dir_lookup [0x2E; 0x2E] ds None) as [g|]; [|done]. unfold cached_lookup_at.
  cbn [of_option res_bind]. by destruct (diskfs_cached_lookup hd fuel e (mutex_unlock dp s) g) as [[[??]?]| | |].
Qed.

Lemma lookup_dot_eq type v :
  lookup_type_ok ld type ->
  diskfs_lookup_hard ld hd fuel e root s dp [0x2E] type (Some v) =
  Ret (update_node dp (add_reference 1) s, Some (Some dp), None).
Proof.
  intros Ht. rewrite (lookup_hard_eq _ _ _ _ _ _ _ dn) by done.
  rewrite dirscan_ok by (simpl; lia). cbv zeta. change (is_dot [0x2E] 0) with true.
  change (u8 (Z.of_nat (length [0x2E]))) with 1. cbn [res_bind andb Z.eqb Pos.eqb].
  by rewrite nref_adds.
Qed.

End Lookup.

(** ** Properties *)

(** C21: a listing.  [diskfs_get_directs] stores the records of the entries from
    [entry] on, at most thirty of them, each at a multiple of four right after the
    one before, and returns their number; [*datacnt] is the size of the records
    unless there are thirty, and then leaves out the last.  The loop always ends. *)
Theorem diskfs_get_directs_lists (fuel : nat) (abi : dirent_abi) (e : env) (dp : node)
    (inode : dinode_t) (depth : nat) (ds : list dent) (entry cap : Z) :
  WfEnv e -> DirentLaws abi -> read_inode fuel e (cache_id dp) = Ret inode -> is_dir inode ->
  dir_contents e (di_btroot inode) depth ds -> (depth <= fuel)%nat -> 0 <= entry ->
  Forall (fun d => (length (d_units d) <= 99)%nat) ds -> 30 * (sizeof_dirent abi + 102) <= cap ->
  let shown := take 30 (drop (Z.to_nat entry) ds) in
  diskfs_get_directs fuel abi e dp entry cap =
    Ret (records abi 0 shown, Z.of_nat (length shown), records_size abi (take 29 shown)) /\
  Forall (fun r => r.1 mod 4 = 0) (records abi 0 shown).
Proof. apply get_directs_ok. Qed.

(** A name of a hundred units or more overruns the 100-byte name buffer of
    [diskfs_get_directs] as soon as the listing reaches it. *)
Theorem get_directs_name_overflow (fuel : nat) (abi : dirent_abi) (e : env) (dp : node)
    (inode : dinode_t) (depth : nat) (ds : list dent) (entry cap : Z) (d : dent) :
  WfEnv e -> read_inode fuel e (cache_id dp) = Ret inode -> is_dir inode ->
  dir_contents e (di_btroot inode) depth ds -> (depth <= fuel)%nat -> 0 <= entry ->
  ds !! Z.to_nat entry = Some d -> (100 <= length (d_units d))%nat ->
  diskfs_get_directs fuel abi e dp entry cap = Fault BufferOverflow.
Proof.
  intros Hwf Hi Hd Hc Hf He Hde Hl. unfold diskfs_get_directs.
  change (Z.to_nat MAX_DIRECTS) with 30%nat. cbn [get_directs_loop].
  rewrite (readndir_ok e fuel (cache_id dp) inode depth ds) by done. unfold readndir_result.
  rewrite Hde. by replace (100 <? _) with true by lia.
Qed.

(** C23: a lookup of a name that does not start with a dot: the first matching
    entry's node from the cache, [ENOENT] with [*npp] cleared when every entry was
    rejected, and in a directory without entries a use of the variable nobody
    stored to. *)
Theorem diskfs_lookup_hard_correct (ld : libdiskfs) (hd : hurd) (fuel : nat) (e : env)
    (root : option positive) (s : nstate) (dp : positive) (dn : node) (inode : dinode_t)
    (depth : nat) (ds : list dent) (type : Z) (name : list Z) (v : option positive) :
  LibDiskfsLaws ld -> WfEnv e -> nodes s !! dp = Some dn ->
  read_inode fuel e (cache_id dn) = Ret inode -> is_dir inode ->
  dir_contents e (di_btroot inode) depth ds -> (depth <= fuel)%nat ->
  lookup_type_ok ld type -> (length name <= 255)%nat -> is_dot name 0 = false ->
  diskfs_lookup_hard ld hd fuel e root s dp name type (Some v) =
  match dir_lookup name ds None with
  | None => Fault Uninitialised
  | Some g =>
      if g =? u64 (-1) then Ret (s, Some None, Some ENOENT)
      else let* '(s, p, err) := diskfs_cached_lookup hd fuel e s g in Ret (s, Some p, err)
  end.
Proof. intros. by eapply lookup_plain. Qed.

(** Names that start with a dot.  "." is the directory itself with one more
    reference; a hidden name that is missing is not [ENOENT]: the node of inode
    number 2^64-1 is looked up instead. *)
Theorem lookup_hard_dot_names (ld : libdiskfs) (hd : hurd) (fuel : nat) (e : env)
    (root : option positive) (s : nstate) (dp : positive) (dn : node) (inode : dinode_t)
    (depth : nat) (ds : list dent) (type : Z) (v : option positive) :
  LibDiskfsLaws ld -> WfEnv e -> nodes s !! dp = Some dn ->
  read_inode fuel e (cache_id dn) = Ret inode -> is_dir inode ->
  dir_contents e (di_btroot inode) depth ds -> (depth <= fuel)%nat -> lookup_type_ok ld type ->
  diskfs_lookup_hard ld hd fuel e root s dp [0x2E] type (Some v) =
    Ret (update_node dp (add_reference 1) s, Some (Some dp), None) /\
  (forall name, (length name <= 255)%nat -> is_dot name 0 = true -> name <> [0x2E] ->
     name <> [0x2E; 0x2E] -> ds <> [] -> Forall (fun d => ~ name_matches name d) ds ->
     diskfs_lookup_hard ld hd fuel e root s dp name type (Some v) =
     let* '(s, p, err) := diskfs_cached_lookup hd fuel e s (2 ^ 64 - 1) in Ret (s, Some p, err)).
Proof.
  intros Hld Hwf Hdp Hi Hd Hc Hf Ht. split; [by eapply lookup_dot_eq|].
  intros name Hl Hdot H1 H2 Hne Hno. erewrite lookup_hidden; try done.
  by rewrite dir_lookup_none.
Qed.

(** "..".  In the root it is [EAGAIN].  Elsewhere, whatever [SPEC_DOTDOT]
    asks for, the directory stays referenced and locked, its entries are searched
    (they do not hold the parent, so that the number looked up is 2^64-1), and the
    call reports success even if the lookup of that node failed. *)
Theorem lookup_hard_dotdot (ld : libdiskfs) (hd : hurd) (fuel : nat) (e : env)
    (root : option positive) (s : nstate) (dp : positive) (dn : node) (inode : dinode_t)
    (depth : nat) (ds : list dent) (type : Z) (v : option positive) :
  LibDiskfsLaws ld -> WfEnv e -> nodes s !! dp = Some dn ->
  read_inode fuel e (cache_id dn) = Ret inode -> is_dir inode ->
  dir_contents e (di_btroot inode) depth ds -> (depth <= fuel)%nat -> lookup_type_ok ld type ->
  ds <> [] -> Forall (fun d => ~ name_matches [0x2E; 0x2E] d) ds ->
  diskfs_lookup_hard ld hd fuel e root s dp [0x2E; 0x2E] type (Some v) =
  if decide (root = Some dp) then Ret (s, Some None, Some EAGAIN)
  else
    let* '(s, p, _) := diskfs_cached_lookup hd fuel e (mutex_unlock dp s) (2 ^ 64 - 1) in
    let* s := mutex_lock dp s in
    Ret (s, Some p, None).
Proof.
  intros Hld Hwf Hdp Hi Hd Hc Hf Ht Hne Hno. erewrite lookup_dotdot_eq; try done.
  by rewrite dir_lookup_none.
Qed.

(** ** Witnesses *)

Definition demo_libdiskfs : libdiskfs :=
  LibDiskfs 0 1 2 3 0x10000000 (fun p s => update_node p (add_reference 1) s)
    (fun p s => update_node p (fun n => set_locked false (add_reference (-1) n)) s).

#[export] Instance demo_libdiskfs_laws : LibDiskfsLaws demo_libdiskfs.
Proof. constructor; done. Defined.

(** [struct dirent] of a 32-bit system. *)
Definition demo_abi : dirent_abi := DirentAbi 12 8 32.

#[export] Instance demo_abi_laws : DirentLaws demo_abi.
Proof. constructor; simpl; lia. Defined.

Lemma diskfs_get_directs_lists_witness :
  diskfs_get_directs 1 demo_abi sample_env (new_node 2 None) 0 4096 =
    Ret ([(0, Dirent 6 20 0 5 [0x65; 0x6D; 0x70; 0x74; 0x79]);
          (20, Dirent 5 20 0 5 [0x68; 0x65; 0x6C; 0x6C; 0x6F]);
          (40, Dirent 7 20 0 6 [0x68; 0x65; 0x6C; 0x6C; 0x6F; 0x32]);
          (60, Dirent 8 16 0 4 [0x74; 0x72; 0x65; 0x65])], 4, 76).
Proof.
  destruct (sample_dir_inode 1 2 ltac:(lia) ltac:(simpl; tauto)) as (di & Hr & Hd & Hb).
  destruct (diskfs_get_directs_lists 1 demo_abi sample_env (new_node 2 None) di 0 sample_root_dir 0 4096
    _ _ Hr Hd (sample_root_contents di Hb)) as [H _];
    [lia|lia|repeat constructor; simpl; lia|simpl; lia|].
  rewrite H. vm_compute. reflexivity.
Defined.

Lemma get_directs_name_overflow_witness :
  diskfs_get_directs 1 demo_abi sample_env (new_node 9 None) 0 4096 = Fault BufferOverflow.
Proof.
  destruct (sample_dir_inode 1 9 ltac:(lia) ltac:(simpl; tauto)) as (di & Hr & Hd & Hb).
  apply (get_directs_name_overflow 1 demo_abi sample_env (new_node 9 None) di 0
    [Dent (replicate 100 0x61) 5] 0 4096 (Dent (replicate 100 0x61) 5) _ Hr Hd
    (sample_long_contents di Hb)); [lia|lia|reflexivity|].
  cbn [d_units]. rewrite length_replicate. lia.
Defined.

Lemma lookup_type_LOOKUP : lookup_type_ok demo_libdiskfs 0.
Proof. by left. Qed.

Lemma diskfs_lookup_hard_correct_witness :
  exists s, diskfs_lookup_hard demo_libdiskfs (demo_hurd None) 1 sample_env (Some 1%positive) s 1
    [0x78] 0 (Some None) = Ret (s, Some None, Some ENOENT).
Proof.
  destruct root_lookup as (s & d0 & next & _ & _ & _ & _ & Hn). exists s.
  destruct (sample_dir_inode 1 2 ltac:(lia) ltac:(simpl; tauto)) as (di & Hr & Hd & Hb).
  rewrite (diskfs_lookup_hard_correct demo_libdiskfs (demo_hurd None) 1 sample_env (Some 1%positive) s 1 _
    di 0 sample_root_dir 0 [0x78] None _ _ Hn Hr Hd (sample_root_contents di Hb) ltac:(lia)
    lookup_type_LOOKUP); [vm_compute; reflexivity|simpl; lia|reflexivity].
Defined.

Lemma sample_no_dots name :
  In name [[0x2E; 0x2E]; [0x2E; 0x78]] ->
  Forall (fun d => ~ name_matches name d) sample_root_dir.
Proof.
  intros Hn. apply Forall_forall. intros d Hd.
  assert (bool_decide (name_matches name d) = false) as Hb; [|by apply bool_decide_eq_false in Hb].
  apply list_elem_of_In in Hd.
  destruct Hn as [<-|[<-|[]]]; destruct Hd as [<-|[<-|[<-|[<-|[]]]]]; vm_compute; reflexivity.
Qed.

Lemma lookup_hard_dot_names_witness :
  exists s, diskfs_lookup_hard demo_libdiskfs (demo_hurd None) 1 sample_env (Some 1%positive) s 1
    [0x2E; 0x78] 0 (Some None) =
    let* '(s, p, err) := diskfs_cached_lookup (demo_hurd None) 1 sample_env s (2 ^ 64 - 1) in
    Ret (s, Some p, err).
Proof.
  destruct root_lookup as (s & d0 & next & _ & _ & _ & _ & Hn). exists s.
  destruct (sample_dir_inode 1 2 ltac:(lia) ltac:(simpl; tauto)) as (di & Hr & Hd & Hb).
  destruct (lookup_hard_dot_names demo_libdiskfs (demo_hurd None) 1 sample_env (Some 1%positive) s 1 _
    di 0 sample_root_dir 0 None _ _ Hn Hr Hd (sample_root_contents di Hb) ltac:(lia)
    lookup_type_LOOKUP) as [_ H].
  apply H; [simpl; lia|reflexivity|discriminate|discriminate|discriminate|].
  apply sample_no_dots. simpl. tauto.
Defined.

Lemma lookup_hard_dotdot_witness :
  exists s, diskfs_lookup_hard demo_libdiskfs (demo_hurd None) 1 sample_env None s 1
    [0x2E; 0x2E] 0x10000000 (Some None) =
    let* '(s, p, _) := diskfs_cached_lookup (demo_hurd None) 1 sample_env (mutex_unlock 1 s) (2 ^ 64 - 1) in
    let* s := mutex_lock 1 s in
    Ret (s, Some p, None).
Proof.
  destruct root_lookup as (s & d0 & next & _ & _ & _ & _ & Hn). exists s.
  destruct (sample_dir_inode 1 2 ltac:(lia) ltac:(simpl; tauto)) as (di & Hr & Hd & Hb).
  refine (lookup_hard_dotdot demo_libdiskfs (demo_hurd None) 1 sample_env None s 1 _
    di 0 sample_root_dir 0x10000000 None _ _ Hn Hr Hd (sample_root_contents di Hb) _ _ _ _);
    [lia|right; right; left; reflexivity|discriminate|].
  apply sample_no_dots. simpl. tauto.
Defined.
