(* ===== verification/LookupSteps.v ===== *)
(** * Looking a name up among other threads

    [diskfs_lookup_hard] (dir.c) cut into the steps between which other threads run:
    the search of the directory, which reads the device and a number that never changes;
    the steps of [diskfs_cached_lookup] (Interleave); and what is done to the mutex of
    the directory. *)

From stdpp Require Import gmap relations.
From S2P Require Import Prelude Layout Disk Xtree Sample Imap DirRead Node Interleave Dir.

(** ** Definitions *)

(** What follows [diskfs_cached_lookup]: its value is returned; or dropped; or dropped
    and the directory locked again. *)
Inductive resume := Plain | Dropped | Relocks.

Inductive hpc :=
| HCall                                              (* everything up to diskfs_cached_lookup *)
| HLook (inum : Z) (k : resume) (at_ : pc)           (* diskfs_cached_lookup (gotinum, npp) *)
| HRelock (npp : option positive)                    (* pthread_mutex_lock (&dp->lock) *)
| HDone (npp : option (option positive)) (err : option error_t).

(** One step of a thread that looks [name] up in [dp]. *)
Definition hard_step (ld : libdiskfs) (hd : hurd) (fuel : nat) (e : env) (root : option positive) (dp : positive)
    (name : list Z) (type : Z) (npp : option (option positive)) (s : nstate) (at_ : hpc) : option (res (nstate * hpc)) :=
  match at_ with
  | HCall => Some (
      let* dn := of_option NullDeref (nodes s !! dp) in
      if (type =? REMOVE ld) || (type =? RENAME ld) then
        match npp with
        | None => Fault AssertFailed
        | Some _ => Ret (s, HDone npp (Some EROFS))
        end
      else
        let npp := match npp with None => None | Some _ => Some None end in
        let spec_dotdot := u8 (Z.land type (SPEC_DOTDOT ld)) in
        let type := Z.land type (Z.lnot (SPEC_DOTDOT ld)) in
        let namelen := u8 (Z.of_nat (length name)) in
        if type =? RENAME ld then Ret (s, HDone npp (Some EROFS))
        else
          let* '(gotinum, err) := dirscan fuel e (cache_id dn) name None in
          match err with
          | Some err => Ret (s, HDone npp (Some err))
          | None =>
              let dot i := default 0 (name !! i) =? 0x2E in
              if (namelen =? 2) && dot 0%nat && dot 1%nat then
                if bool_decide (root = Some dp) then Ret (s, HDone npp (Some EAGAIN))
                else if negb (spec_dotdot =? 0) then
                  if negb (type =? LOOKUP ld) then Fault AssertFailed
                  else
                    let* inum := of_option Uninitialised gotinum in
                    Ret (diskfs_nput ld dp s, HLook inum Dropped Call)
                else
                  let* inum := of_option Uninitialised gotinum in
                  Ret (mutex_unlock dp s, HLook inum Relocks Call)
              else if (namelen =? 1) && dot 0%nat then
                match npp with
                | None => Fault NullDeref
                | Some _ => Ret (diskfs_nref ld dp s, HDone (Some (Some dp)) None)
                end
              else
                let* inum := of_option Uninitialised gotinum in
                Ret (s, HLook inum Plain Call)
          end)
  | HLook inum k (Done p err) => Some (
      match npp with
      | None => Fault NullDeref
      | Some _ =>
          Ret (s, match k with
                  | Plain => HDone (Some p) err
                  | Dropped => HDone (Some p) None
                  | Relocks => HRelock p
                  end)
      end)
  | HLook inum k at_ =>
      match thread_step hd fuel e s inum at_ with
      | None => None
      | Some r => Some (let* '(s, at_) := r in Ret (s, HLook inum k at_))
      end
  | HRelock p =>
      match nodes s !! dp with
      | None => Some (Fault NullDeref)
      | Some n => if locked n then None else Some (Ret (update_node dp (set_locked true) s, HDone (Some p) None))
      end
  | HDone _ _ => None
  end.

(** A thread run alone. *)
Fixpoint hard_alone (k : nat) (ld : libdiskfs) (hd : hurd) (fuel : nat) (e : env) (root : option positive) (dp : positive)
    (name : list Z) (type : Z) (npp : option (option positive)) (s : nstate) (at_ : hpc)
    : res (nstate * option (option positive) * option error_t) :=
  match at_ with
  | HDone npp err => Ret (s, npp, err)
  | _ =>
      match k with
      | O => NoFuel
      | S k' =>
          match hard_step ld hd fuel e root dp name type npp s at_ with
          | None => Fault SelfDeadlock
          | Some r => let* '(s, at_) := r in hard_alone k' ld hd fuel e root dp name type npp s at_
          end
      end
  end.

(** ** Lemmas *)

Section Alone.
Context (ld : libdiskfs) (hd : hurd) (fuel : nat) (e : env) (root : option positive) (dp : positive) (name : list Z)
  (type : Z) (npp : option (option positive)).

Abbreviation alone k s at_ := (hard_alone k ld hd fuel e root dp name type npp s at_).
Abbreviation step s at_ := (hard_step ld hd fuel e root dp name type npp s at_).

Definition proceed (k : nat) (r : option (res (nstate * hpc))) : res (nstate * option (option positive) * option error_t) :=
  match r with None => Fault SelfDeadlock | Some r => let* '(s, at_) := r in alone k s at_ end.

Lemma alone_S k s at_ : (forall npp err, at_ <> HDone npp err) -> alone (S k) s at_ = proceed k (step s at_).
Proof. intros Hd. by destruct at_; try (by edestruct Hd). Qed.

Lemma alone_Done k s npp' err : alone k s (HDone npp' err) = Ret (s, npp', err).
Proof. by destruct k. Qed.

(** What is done with the result of [diskfs_cached_lookup]. *)
Definition resumed (r : resume) (s : nstate) (p : option positive) (err : option error_t)
    : res (nstate * option (option positive) * option error_t) :=
  match npp with
  | None => Fault NullDeref
  | Some _ =>
      match r with
      | Plain => Ret (s, Some p, err)
      | Dropped => Ret (s, Some p, None)
      | Relocks => let* s := mutex_lock dp s in Ret (s, Some p, None)
      end
  end.

Lemma alone_resumed k s inum r p err : alone (2 + k) s (HLook inum r (Done p err)) = resumed r s p err.
Proof.
  cbn [Nat.add]. rewrite alone_S by done. cbn [hard_step proceed]. unfold resumed.
  destruct npp; [|done]. cbn [res_bind]. destruct r; [done..|].
  cbn [hard_alone hard_step]. unfold mutex_lock.
  destruct (nodes s !! dp) as [n|]; [|done]. cbn [of_option res_bind].
  destruct (locked n); [done|]. cbn [res_bind]. by destruct k.
Qed.

Lemma alone_look inum r k j s at_ :
  (rank at_ <= k)%nat ->
  alone (k + (2 + j)) s (HLook inum r at_) =
  (let* '(s, p, err) := run_alone k hd fuel e s inum at_ in resumed r s p err).
Proof.
  revert s at_. induction k as [|k IH]; intros s at_ Hk.
  - destruct at_; cbn [rank] in Hk; try lia. rewrite Nat.add_0_l. apply alone_resumed.
  - assert ((exists p err, at_ = Done p err) \/ forall p err, at_ <> Done p err) as [(p & err & ->)|Hd]
      by (destruct at_; eauto; by right).
    { rewrite run_Done. cbn [res_bind]. replace (S k + (2 + j))%nat with (2 + (S k + j))%nat by lia. apply alone_resumed. }
    rewrite run_S by done. rewrite Nat.add_succ_l, alone_S by done.
    assert (step s (HLook inum r at_) = match thread_step hd fuel e s inum at_ with
      | None => None | Some t => Some (let* '(s, at_) := t in Ret (s, HLook inum r at_)) end) as ->
      by (destruct at_; try done; by edestruct Hd).
    destruct (thread_step hd fuel e s inum at_) as [[[s1 a1]|er|f|]|] eqn:Hs; try done.
    cbn [proceed continue res_bind]. apply IH. pose proof (step_rank hd fuel e _ _ _ _ _ Hs). lia.
Qed.

Lemma alone_cached inum r j s :
  alone (10 + j) s (HLook inum r Call) =
  (let* '(s, p, err) := diskfs_cached_lookup hd fuel e s inum in resumed r s p err).
Proof. rewrite <- (run_alone_lookup hd fuel e s inum 0). apply (alone_look inum r 8 j s Call). cbn. lia. Qed.

End Alone.

(** ** Theorems *)

(** C18: The steps are the program.  A thread that runs alone makes at most eleven of
    them and ends with exactly what [diskfs_lookup_hard] does to the same state, on every
    branch: all types of lookup, names with and without dots, the faults, and a thread
    that waits for a lock it will not get where the sequential definition has one. *)
Theorem lookup_hard_alone (ld : libdiskfs) (hd : hurd) (fuel : nat) (e : env) (root : option positive) (s : nstate)
    (dp : positive) (name : list Z) (type : Z) (npp : option (option positive)) (k : nat) :
  hard_alone (11 + k) ld hd fuel e root dp name type npp s HCall =
  diskfs_lookup_hard ld hd fuel e root s dp name type npp.
Proof.
  unfold diskfs_lookup_hard. cbn [Nat.add]. rewrite alone_S by done. cbn [hard_step proceed].
  destruct (nodes s !! dp) as [dn|]; [|done]. cbn [of_option res_bind].
  destruct ((type =? REMOVE ld) || (type =? RENAME ld)); [by destruct npp|].
  destruct (_ =? RENAME ld); [done|].
  destruct (dirscan fuel e (cache_id dn) name None) as [[g [er|]]|er|f|]; try done. cbn [res_bind]. cbv zeta.
  unfold cached_lookup_at.
  destruct ((_ =? 2) && _ && _).
  - destruct (bool_decide _); [done|]. destruct (negb (u8 _ =? 0)).
    + destruct (negb (_ =? LOOKUP ld)); [done|]. destruct g as [g|]; [|done]. cbn [of_option res_bind].
      pose proof (alone_cached ld hd fuel e root dp name type npp g Dropped k) as Ha. cbn [Nat.add] in Ha. rewrite Ha.
      destruct (diskfs_cached_lookup _ _ _ _ g) as [[[s1 p] err]|er|f|]; try done. cbn [res_bind]. by destruct npp.
    + destruct g as [g|]; [|done]. cbn [of_option res_bind].
      pose proof (alone_cached ld hd fuel e root dp name type npp g Relocks k) as Ha. cbn [Nat.add] in Ha. rewrite Ha.
      destruct (diskfs_cached_lookup _ _ _ _ g) as [[[s1 p] err]|er|f|]; try done. cbn [res_bind].
      destruct npp; [|done]. cbn [resumed res_bind]. by destruct (mutex_lock dp s1).
  - destruct ((_ =? 1) && _); [by destruct npp|]. destruct g as [g|]; [|done]. cbn [of_option res_bind].
    pose proof (alone_cached ld hd fuel e root dp name type npp g Plain k) as Ha. cbn [Nat.add] in Ha. rewrite Ha.
    destruct (diskfs_cached_lookup _ _ _ _ g) as [[[s1 p] err]|er|f|]; try done. cbn [res_bind]. by destruct npp.
Qed.
