(* ===== verification/Listing.v ===== *)
(** * Listing a whole directory

    A client of [diskfs_get_directs] (dir.c) that reads a directory from its
    first entry to its last: it takes the records the returned size covers and
    asks again from the entry after them. *)

From stdpp Require Import gmap.
From S2P Require Import Prelude Layout Unicode Disk Xtree Sample Imap DirRead Node Dir.

(** ** Specification *)

(** The records that start inside the [datacnt] bytes. *)
Definition covered (datacnt : Z) (recs : list (Z * dirent)) : list (Z * dirent) :=
  filter (fun r => r.1 < datacnt) recs.

(** Stops at the first answer without records. *)
Fixpoint list_directory (k : nat) (fuel : nat) (abi : dirent_abi) (e : env) (dp : node) (cap entry : Z)
    : res (list dirent) :=
  match k with
  | O => NoFuel
  | S k' =>
      let* '(recs, amt, datacnt) := diskfs_get_directs fuel abi e dp entry cap in
      match covered datacnt recs with
      | [] => Ret []
      | seen =>
          let* rest := list_directory k' fuel abi e dp cap (entry + Z.of_nat (length seen)) in
          Ret (seen.*2 ++ rest)
      end
  end.

(** ** Lemmas *)

Lemma in_take {A} k (l : list A) x : x ∈ take k l -> x ∈ l.
Proof. intros (i & Hi & _)%elem_of_take. by eapply list_elem_of_lookup_2. Qed.

Lemma in_drop {A} k (l : list A) x : x ∈ drop k l -> x ∈ l.
Proof. intros [i Hi]%list_elem_of_lookup. rewrite lookup_drop in Hi. by eapply list_elem_of_lookup_2. Qed.

Section Covered.
Context (abi : dirent_abi).

Lemma records_ge off l r : (forall d, d ∈ l -> 0 < record_size abi d) -> r ∈ records abi off l -> off <= r.1.
Proof.
  revert off. induction l as [|d l IH]; intros off Hl Hr; cbn [records] in Hr; [by apply elem_of_nil in Hr|].
  apply elem_of_cons in Hr as [->|Hr]; [done|]. pose proof (Hl d ltac:(by left)).
  apply IH in Hr; [lia|]. intros d' Hd'. apply Hl. by right.
Qed.

Lemma records_size_nonneg l : (forall d, d ∈ l -> 0 < record_size abi d) -> 0 <= records_size abi l.
Proof.
  induction l as [|d l IH]; intros Hl; cbn [records_size]; [lia|]. pose proof (Hl d ltac:(by left)).
  specialize (IH (fun d' Hd' => Hl d' ltac:(by right))). lia.
Qed.

(** The size of a prefix covers exactly the prefix. *)
Lemma covered_take k off l :
  (forall d, d ∈ l -> 0 < record_size abi d) ->
  covered (off + records_size abi (take k l)) (records abi off l) = records abi off (take k l).
Proof.
  unfold covered. revert off l. induction k as [|k IH]; intros off l Hl.
  - cbn [take records_size records]. destruct (filter _ _) as [|r l'] eqn:E; [done|].
    assert (r ∈ r :: l') as Hr by left. rewrite <- E in Hr. apply list_elem_of_filter in Hr as [Hlt Hr].
    rewrite take_0 in Hlt. cbn [records_size] in Hlt. apply records_ge in Hr; [exfalso; lia|done].
  - destruct l as [|d l]; [done|]. cbn [take records_size records].
    pose proof (Hl d ltac:(by left)) as Hd.
    assert (forall d', d' ∈ l -> 0 < record_size abi d') as Hl' by (intros d' Hd'; apply Hl; by right).
    assert (0 <= records_size abi (take k l)) as Hnn.
    { apply records_size_nonneg. intros d' Hd'. apply Hl'. by eapply in_take. }
    rewrite filter_cons_True by (cbn [fst]; lia). f_equal.
    specialize (IH (off + record_size abi d) l Hl'). by rewrite Z.add_assoc.
Qed.

Lemma records_snd off l : (records abi off l).*2 = record_of abi <$> l.
Proof. revert off. induction l as [|d l IH]; intros off; [done|]. cbn. by rewrite IH. Qed.

End Covered.

(** ** Properties *)

(** C22: a directory is listed completely.  Whatever the number of entries, the
    client gets the record of every entry of the tree exactly once and in its
    order, although each answer of thirty records declares only twenty-nine, and
    it ends after at most one answer for each entry and a last empty one. *)
Theorem list_directory_complete (fuel : nat) (abi : dirent_abi) (e : env) (dp : node) (inode : dinode_t)
    (depth : nat) (ds : list dent) (cap : Z) (k : nat) :
  WfEnv e -> DirentLaws abi -> read_inode fuel e (cache_id dp) = Ret inode -> is_dir inode ->
  dir_contents e (di_btroot inode) depth ds -> (depth <= fuel)%nat ->
  Forall (fun d => (length (d_units d) <= 99)%nat) ds -> 30 * (sizeof_dirent abi + 102) <= cap ->
  (length ds < k)%nat ->
  list_directory k fuel abi e dp cap 0 = Ret (record_of abi <$> ds).
Proof.
  intros Hwf Habi Hi Hd Hc Hf Hl Hcap Hk.
  assert (forall d, d ∈ ds -> 0 < record_size abi d) as Hpos.
  { intros d [i Hdi]%list_elem_of_lookup. pose proof (@d_name_inside abi Habi).
    destruct (converted_ok _ (dir_contents_units _ _ _ _ _ _ Hc Hdi)) as [_ Hcv].
    pose proof (dir_contents_length _ _ _ _ _ _ Hc Hdi). unfold record_size.
    destruct (rec_len_bounds abi (Z.of_nat (length (converted (d_units d)))) Habi ltac:(lia)) as [? _]. lia. }
  assert (forall entry, 0 <= entry -> (length (drop (Z.to_nat entry) ds) < k)%nat ->
    list_directory k fuel abi e dp cap entry = Ret (record_of abi <$> drop (Z.to_nat entry) ds)) as Hrun;
    [|by apply (Hrun 0)]. clear Hk.
  induction k as [|k IH]; intros entry He Hk; [lia|]. cbn [list_directory].
  destruct (get_directs_ok fuel abi e dp inode depth ds entry cap Hwf Habi Hi Hd Hc Hf He Hl Hcap) as [-> _].
  cbn [res_bind]. set (rest := drop (Z.to_nat entry) ds) in *.
  assert (covered (records_size abi (take 29 (take 30 rest))) (records abi 0 (take 30 rest)) =
    records abi 0 (take 29 (take 30 rest))) as ->.
  { apply (covered_take abi 29 0). intros d Hin. apply Hpos. by eapply in_drop, in_take. }
  rewrite take_take. change (29 `min` 30)%nat with 29%nat.
  assert (length (records abi 0 (take 29 rest)) = length (take 29 rest)) as Hlen
    by (rewrite <- (length_fmap snd), records_snd; by rewrite length_fmap).
  destruct (records abi 0 (take 29 rest)) as [|r recs] eqn:E.
  - destruct rest; [done|]. cbn in Hlen. lia.
  - assert (0 < length (take 29 rest))%nat as Hne by (rewrite <- Hlen; cbn; lia).
    rewrite <- E in Hlen |- *. clear r recs E. rewrite Hlen.
    assert (Z.to_nat (entry + Z.of_nat (length (take 29 rest))) = (Z.to_nat entry + length (take 29 rest))%nat) as Hnat by lia.
    rewrite IH; [|lia|].
    + rewrite Hnat, <- drop_drop. fold rest. cbn [res_bind]. rewrite records_snd, <- fmap_app. do 2 f_equal.
      rewrite length_take. destruct (decide (length rest <= 29)%nat).
      * rewrite take_ge, drop_ge, app_nil_r by lia. done.
      * rewrite Nat.min_l by lia. apply take_drop.
    + rewrite Hnat, <- drop_drop. fold rest. rewrite length_drop.
      rewrite length_take in Hne |- *. lia.
Qed.

(** ** Witnesses *)

Lemma list_directory_complete_witness :
  list_directory 5 1 demo_abi sample_env (new_node 2 None) 4096 0 =
    Ret [Dirent 6 20 0 5 [0x65; 0x6D; 0x70; 0x74; 0x79]; Dirent 5 20 0 5 [0x68; 0x65; 0x6C; 0x6C; 0x6F];
         Dirent 7 20 0 6 [0x68; 0x65; 0x6C; 0x6C; 0x6F; 0x32]; Dirent 8 16 0 4 [0x74; 0x72; 0x65; 0x65]].
Proof.
  destruct (sample_dir_inode 1 2 ltac:(lia) ltac:(simpl; tauto)) as (di & Hr & Hd & Hb).
  rewrite (list_directory_complete 1 demo_abi sample_env (new_node 2 None) di 0 sample_root_dir 4096 5
    _ _ Hr Hd (sample_root_contents di Hb)); [vm_compute; reflexivity|lia|repeat constructor; simpl; lia|simpl; lia|simpl; lia].
Defined.
