(* ===== verification/Pager.v ===== *)
(** * The pagers

    pager.c: reading a page of a file or of the device, the life of a node's
    file pager ([fileinfo]), and the decision whether pagers are in use.
    libpager, libports and libstore are parameters ([pagerlib], [store_t]); the
    calls into them that matter are recorded in a trace. *)

From stdpp Require Import gmap.
From S2P Require Import Prelude Layout Disk Xtree BufCache Sample Imap FileRead Node.

(** ** Definitions: data *)

Inductive pager_type := DISK | FILE_DATA.

#[export] Instance pager_type_eq_dec : EqDecision pager_type.
Proof. solve_decision. Defined.

(** [struct user_pager_info]; [up_np] is null for the disk pager. *)
Record user_pager_info := UserPagerInfo {
  up_np : option positive; up_type : pager_type; up_p : option positive }.

(** The calls made to libports, libpager and Mach. *)
Inductive call :=
| PortRef (p : positive)
| PortDeref (p : positive)
| ChangeAttributes (p : positive) (may_cache wait : bool)
| InsertRight (right : Z)
| Nref (np : positive)
| Nrele (np : positive)
| Sleep (seconds : Z)
| EnableBucket.

(** The state of pager.c: the node cache, the pager infos, [node2pagelock], the
    number of pagers created so far, and the trace. *)
Record pstate := PState {
  ns : nstate;
  upis : gmap positive user_pager_info;
  node2pagelock : bool;
  npagers : nat;
  trace : list call }.

Definition MACH_PORT_NULL : Z := 0.

(** [malloc_upi] is the memory for a new pager info; [pager_create] the result of
    the n-th creation, [None] for 0; [pager_get_port] the right of a pager, null
    when it is being deallocated; the light references are libdiskfs's. *)
Record pagerlib := PagerLib {
  malloc_upi : gmap positive user_pager_info -> option positive;
  pager_create : nat -> option positive;
  pager_get_port : positive -> Z;
  diskfs_nref_light : positive -> nstate -> nstate;
  diskfs_nrele_light : positive -> nstate -> nstate }.

Definition add_light (d : Z) (n : node) : node :=
  Node (cache_id n) (references n) (light_references n + d) (locked n) (dn_stat n)
    (author_tracks_uid n) (fileinfo n) (hnext n) (hprevp n).

Definition set_fileinfo (u : option positive) (n : node) : node :=
  Node (cache_id n) (references n) (light_references n) (locked n) (dn_stat n)
    (author_tracks_uid n) u (hnext n) (hprevp n).

(** A node of a file that still has a name. *)
Definition has_links (n : node) : Prop := exists st, dn_stat n = Some st /\ st_nlink st <> 0.

(** malloc returns memory that is not in use, a pager just created has a port
    right, light references are counted, and the node of a linked file is given
    to [diskfs_node_norefs] when its last reference is a light one and goes. *)
Class PagerLibLaws (pl : pagerlib) : Prop := {
  malloc_upi_fresh : forall h u, malloc_upi pl h = Some u -> h !! u = None;
  new_pager_right : forall n p, pager_create pl n = Some p -> pager_get_port pl p <> MACH_PORT_NULL;
  nref_light_counts : forall p s, diskfs_nref_light pl p s = update_node p (add_light 1) s;
  nrele_light_counts : forall p s n, nodes s !! p = Some n ->
    0 < references n \/ 1 < light_references n ->
    diskfs_nrele_light pl p s = update_node p (add_light (-1)) s;
  nrele_light_drops : forall p s s' n, nodes s !! p = Some n -> references n = 0 ->
    light_references n = 1 -> has_links n ->
    diskfs_node_norefs (update_node p (add_light (-1)) s) p = Ret s' ->
    diskfs_nrele_light pl p s = s' }.

(** ** Definitions: the file pager of a node *)

Definition lock_pager (s : pstate) : res pstate :=
  if node2pagelock s then Fault SelfDeadlock
  else Ret (PState (ns s) (upis s) true (npagers s) (trace s)).
Definition unlock_pager (s : pstate) : pstate :=
  PState (ns s) (upis s) false (npagers s) (trace s).
Definition set_ns (n : nstate) (s : pstate) : pstate :=
  PState n (upis s) (node2pagelock s) (npagers s) (trace s).
Definition set_upis (u : gmap positive user_pager_info) (s : pstate) : pstate :=
  PState (ns s) u (node2pagelock s) (npagers s) (trace s).
Definition record_call (c : call) (s : pstate) : pstate :=
  PState (ns s) (upis s) (node2pagelock s) (npagers s) (trace s ++ [c]).
Definition count_pager (s : pstate) : pstate :=
  PState (ns s) (upis s) (node2pagelock s) (S (npagers s)) (trace s).

Definition diskfs_get_filemap_pager_struct (s : pstate) (np : positive) : res (option positive) :=
  let* n := of_option NullDeref (nodes (ns s) !! np) in
  let* u := of_option NullDeref (fileinfo n) in
  let* upi := of_option NullDeref (upis s !! u) in
  Ret (up_p upi).

(** The [do ... while (right == MACH_PORT_NULL)] loop; [None] is the early return
    of [MACH_PORT_NULL] when the pager cannot be created. *)
Fixpoint filemap_loop (fuel : nat) (pl : pagerlib) (s : pstate) (np : positive)
    : res (pstate * option Z) :=
  match fuel with
  | O => NoFuel
  | S fuel' =>
      let* n := of_option NullDeref (nodes (ns s) !! np) in
      match fileinfo n with
      | None =>
          let* u := of_option NullDeref (malloc_upi pl (upis s)) in
          let s := set_ns (diskfs_nref_light pl np (ns s)) s in
          let created := pager_create pl (npagers s) in
          let s := count_pager s in
          match created with
          | None =>
              Ret (unlock_pager (set_ns (diskfs_nrele_light pl np (ns s)) s), None)
          | Some p =>
              let s := set_upis (<[u := UserPagerInfo (Some np) FILE_DATA (Some p)]> (upis s)) s in
              let s := set_ns (update_node np (set_fileinfo (Some u)) (ns s)) s in
              let port := pager_get_port pl p in
              let s := record_call (PortDeref p) s in
              if port =? MACH_PORT_NULL then filemap_loop fuel' pl s np else Ret (s, Some port)
          end
      | Some u =>
          let* upi := of_option NullDeref (upis s !! u) in
          let* p := of_option NullDeref (up_p upi) in
          let port := pager_get_port pl p in
          if port =? MACH_PORT_NULL
          then filemap_loop fuel' pl
                 (set_ns (update_node np (set_fileinfo None) (ns s)) s) np
          else Ret (s, Some port)
      end
  end.

Definition diskfs_get_filemap (fuel : nat) (pl : pagerlib) (s : pstate) (np : positive)
    : res (pstate * Z) :=
  let* n := of_option NullDeref (nodes (ns s) !! np) in
  let* st := of_option Uninitialised (dn_stat n) in
  let mode := st_mode st in
  if negb (S_ISDIR mode || S_ISREG mode || S_ISLNK mode) then Fault AssertFailed
  else
    let* s := lock_pager s in
    let* '(s, port) := filemap_loop fuel pl s np in
    match port with
    | None => Ret (s, MACH_PORT_NULL)
    | Some port => Ret (record_call (InsertRight port) (unlock_pager s), port)
    end.

Definition pager_clear_user_data (pl : pagerlib) (s : pstate) (u : positive) : res pstate :=
  let* upi := of_option NullDeref (upis s !! u) in
  let* s :=
    match up_type upi with
    | DISK => Ret s
    | FILE_DATA =>
        let* s := lock_pager s in
        let* np := of_option NullDeref (up_np upi) in
        let* n := of_option NullDeref (nodes (ns s) !! np) in
        let s := if bool_decide (fileinfo n = Some u)
                 then set_ns (update_node np (set_fileinfo None) (ns s)) s else s in
        let s := unlock_pager s in
        Ret (set_ns (diskfs_nrele_light pl np (ns s)) s)
    end in
  Ret (set_upis (delete u (upis s)) s).

(** [drop_pager_softrefs] ([may_cache] false) and [allow_pager_softrefs] (true). *)
Definition pager_softrefs (may_cache : bool) (s : pstate) (np : positive) : res pstate :=
  let* s := lock_pager s in
  let* n := of_option NullDeref (nodes (ns s) !! np) in
  match fileinfo n with
  | None => Ret (unlock_pager s)
  | Some u =>
      let* upi := of_option NullDeref (upis s !! u) in
      let* p := of_option NullDeref (up_p upi) in
      let s := unlock_pager (record_call (PortRef p) s) in
      Ret (record_call (PortDeref p) (record_call (ChangeAttributes p may_cache false) s))
  end.

Definition drop_pager_softrefs : pstate -> positive -> res pstate := pager_softrefs false.
Definition allow_pager_softrefs : pstate -> positive -> res pstate := pager_softrefs true.

(** [create_disk_pager] sets up the pager of the whole device; libdiskfs starts
    it as [diskfs_disk_pager]. *)
Definition create_disk_pager (pl : pagerlib) (diskfs_disk_pager : option positive) (s : pstate)
    : res (pstate * positive) :=
  match malloc_upi pl (upis s) with
  | None => Fault (ExitCalled 1)
  | Some u => Ret (set_upis (<[u := UserPagerInfo None DISK diskfs_disk_pager]> (upis s)) s, u)
  end.

(** ** Definitions: reading a page *)

(** [store_read] returns the bytes read at a device block; its error code is
    stored and not looked at. *)
Record store_t := Store {
  log2_block_size : Z;
  store_size : Z;
  store_read : Z -> Z -> mem }.

(** A page of zeros from [mmap]. *)
Definition zero_page (hd : hurd) : mem := replicate (Z.to_nat (vm_page_size hd)) Byte.x00.

(** The outcome of a call: an error number, or the page stored in [*buf]. *)
Abbreviation page_outcome := (error_t + mem)%type.

(** From [store_read] on. *)
Definition read_and_clear (hd : hurd) (st : store_t) (addr overrun : Z) : page_outcome :=
  let buf := store_read st addr (vm_page_size hd) in
  if negb (Z.of_nat (length buf) =? vm_page_size hd) then inl EIO
  else if overrun =? 0 then inr buf
  else inr (take (Z.to_nat (vm_page_size hd - overrun)) buf ++ replicate (Z.to_nat overrun) Byte.x00).

(** [*writelock] is 1 in every case.  [cache] is the page buffer cache of
    [xt_Lookup]. *)
Definition pager_read_page (fuel : nat) (hd : hurd) (e : env) (st : store_t) (cache : bcache)
    (s : pstate) (u : positive) (page : Z) : res (bcache * Z * page_outcome) :=
  let* upi := of_option NullDeref (upis s !! u) in
  let writelock := 1 in
  let xoff := page / 4096 in
  match up_type upi with
  | DISK =>
      let addr := s32 (Z.shiftr page (log2_block_size st)) in
      Ret (cache, writelock, read_and_clear hd st addr 0)
  | FILE_DATA =>
      let* np := of_option NullDeref (up_np upi) in
      let* n := of_option NullDeref (nodes (ns s) !! np) in
      match read_inode fuel e (cache_id n) with
      | Err _ => Ret (cache, writelock, inl (Erc 1))
      | Fault f => Fault f
      | NoFuel => NoFuel
      | Ret inode =>
          let* '(cache, r) := xt_Lookup fuel e cache inode xoff (s32 (vm_page_size hd)) in
          let* stat := of_option Uninitialised (dn_stat n) in
          if negb (xt_rc r =? 0) then
            if st_size stat <=? page then Ret (cache, writelock, inr (zero_page hd))
            else Ret (cache, writelock, inl (Erc 1))
          else
            let* xaddr := of_option Uninitialised (xt_xaddr r) in
            let addr := s32 (Z.shiftr (xaddr * 4096) (log2_block_size st)) in
            if st_size stat <=? page then Ret (cache, writelock, inr (zero_page hd))
            else
              let overrun :=
                if st_size stat <? u32 (page + vm_page_size hd)
                then u32 (page + vm_page_size hd - st_size stat) else 0 in
              Ret (cache, writelock, read_and_clear hd st addr overrun)
      end
  end.

(** [pager_report_extent] dereferences [np], which the disk pager does not have. *)
Definition pager_report_extent (s : pstate) (u : positive) : res (Z * Z) :=
  let* upi := of_option NullDeref (upis s !! u) in
  let* np := of_option NullDeref (up_np upi) in
  let* n := of_option NullDeref (nodes (ns s) !! np) in
  let* stat := of_option Uninitialised (dn_stat n) in
  Ret (0, u32 (st_size stat)).

Definition diskfs_sync_everything (s : pstate) : pstate := s.
Definition pager_write_page : res unit := Fault AssertFailed.
Definition pager_notify_evict : res unit := Fault AssertFailed.

(** ** Definitions: are there pager users? *)

(** [enable_cache] and [block_cache] on one pager of the bucket, whose info is
    the user data libpager keeps for it. *)
Definition enable_cache (s : pstate) (p u : positive) : res pstate :=
  let s := record_call (ChangeAttributes p true false) s in
  let* upi := of_option NullDeref (upis s !! u) in
  match up_type upi with
  | DISK => Ret s
  | FILE_DATA =>
      let* np := of_option NullDeref (up_np upi) in
      Ret (record_call (Nrele np) (record_call (Nref np) s))
  end.

Definition block_cache (s : pstate) (p : positive) : pstate :=
  record_call (ChangeAttributes p false true) s.

(** [ports_bucket_iterate]: in the order of the bucket. *)
Fixpoint enable_caching (s : pstate) (bucket : list (positive * positive)) : res pstate :=
  match bucket with
  | [] => Ret s
  | (p, u) :: bucket' => let* s := enable_cache s p u in enable_caching s bucket'
  end.

Definition block_caching (s : pstate) (bucket : list (positive * positive)) : pstate :=
  fold_left (fun s b => block_cache s b.1) bucket s.

(** [bucket] is the content of [pager_bucket] at the call and [bucket'] what is
    left of it after the second of sleep. *)
Definition diskfs_pager_users (s : pstate) (bucket bucket' : list (positive * positive))
    : res (pstate * Z) :=
  if Z.of_nat (length bucket) <=? 1 then Ret (s, 0)
  else
    let s := record_call (Sleep 1) (block_caching s bucket) in
    if Z.of_nat (length bucket') <=? 1 then Ret (s, 0)
    else
      let* s := enable_caching s bucket' in
      Ret (record_call EnableBucket s, 1).

(** ** Specification *)

(** A node's [fileinfo] is a live info that belongs to the node. *)
Definition fileinfo_ok (s : pstate) : Prop :=
  forall np n u, nodes (ns s) !! np = Some n -> fileinfo n = Some u ->
    exists p, upis s !! u = Some (UserPagerInfo (Some np) FILE_DATA (Some p)).

(** The right of the pager a node has, unless it is on its way out. *)
Definition live_port (pl : pagerlib) (s : pstate) (n : node) : option Z :=
  u ← fileinfo n; upi ← upis s !! u; p ← up_p upi;
  if pager_get_port pl p =? MACH_PORT_NULL then None else Some (pager_get_port pl p).

(** The page at byte [off] of a file of [size] bytes whose data lie at byte [at]
    of the device: zeros from the end of the file on. *)
Definition file_page (img : image) (at_ off size n : Z) : mem :=
  img_bytes img at_ (Z.min n (size - off)) ++ replicate (Z.to_nat (n - Z.min n (size - off))) Byte.x00.

(** The store gives the bytes of the device at its own block size. *)
Class StoreLaws (e : env) (st : store_t) : Prop := {
  store_log2 : 9 <= log2_block_size st <= 12;
  store_small : img_size (disk_image e) < 2 ^ 31 * 2 ^ log2_block_size st;
  store_read_ok : forall a n, 0 <= a -> 0 <= n ->
    a * 2 ^ log2_block_size st + n <= img_size (disk_image e) ->
    store_read st a n = img_bytes (disk_image e) (a * 2 ^ log2_block_size st) n }.

(** ** Lemmas *)

Lemma add_light_cancel n : add_light (-1) (add_light 1 n) = n.
Proof. destruct n. unfold add_light. simpl. f_equal. lia. Qed.

Lemma fileinfo_ok_update s np f u' :
  (forall n, nodes (ns s) !! np = Some n -> fileinfo (f n) = u') ->
  match u' with
  | Some u => exists p, upis s !! u = Some (UserPagerInfo (Some np) FILE_DATA (Some p))
  | None => True
  end ->
  (forall q n u, q <> np -> nodes (ns s) !! q = Some n -> fileinfo n = Some u ->
     exists p, upis s !! u = Some (UserPagerInfo (Some q) FILE_DATA (Some p))) ->
  fileinfo_ok (set_ns (update_node np f (ns s)) s).
Proof.
  intros Hf Hu Hother q m u Hm Hi. simpl in *. destruct (decide (q = np)) as [->|Hq].
  - rewrite lookup_alter_eq in Hm. destruct (nodes (ns s) !! np) as [n|]; [|done].
    injection Hm as <-. rewrite (Hf n) in Hi by done. subst u'. exact Hu.
  - rewrite lookup_alter_ne in Hm by done. by eapply Hother.
Qed.

(** The branch that makes a new pager. *)
Lemma filemap_create fuel pl s np n u `{PagerLibLaws pl} :
  nodes (ns s) !! np = Some n -> fileinfo n = None -> 0 < references n ->
  malloc_upi pl (upis s) = Some u ->
  exists s', filemap_loop (S fuel) pl s np = Ret (s',
      match pager_create pl (npagers s) with
      | Some p => Some (pager_get_port pl p)
      | None => None
      end) /\
    match pager_create pl (npagers s) with
    | Some p =>
        ns s' = update_node np (set_fileinfo (Some u)) (update_node np (add_light 1) (ns s)) /\
        upis s' = <[u := UserPagerInfo (Some np) FILE_DATA (Some p)]> (upis s)
    | None =>
        ns s' = update_node np (add_light (-1)) (update_node np (add_light 1) (ns s)) /\
        upis s' = upis s /\ node2pagelock s' = false
    end.
Proof.
  intros Hn Hf Href Hu. cbn [filemap_loop]. rewrite Hn, Hu. cbn [of_option res_bind]. rewrite Hf.
  rewrite nref_light_counts. cbn [npagers set_ns].
  destruct (pager_create pl (npagers s)) as [p|] eqn:Hp.
  - pose proof (new_pager_right _ _ Hp).
    replace (pager_get_port pl p =? MACH_PORT_NULL) with false by lia.
    eexists. split; [done|]. done.
  - eexists. split; [done|]. simpl. split; [|done].
    rewrite (nrele_light_counts _ _ (add_light 1 n)); [done| |by left].
    simpl. by rewrite lookup_alter_eq, Hn.
Qed.

(** A node whose pager is being deallocated loses it, and the loop goes round. *)
Lemma filemap_dead fuel pl s np n v :
  nodes (ns s) !! np = Some n -> fileinfo_ok s -> fileinfo n = Some v -> live_port pl s n = None ->
  filemap_loop (S fuel) pl s np =
  filemap_loop fuel pl (set_ns (update_node np (set_fileinfo None) (ns s)) s) np.
Proof.
  intros Hn Hok Hf Hlive. destruct (Hok _ _ _ Hn Hf) as [p Hp]. unfold live_port in Hlive.
  rewrite Hf in Hlive. cbn [mbind option_bind] in Hlive. rewrite Hp in Hlive.
  cbn [mbind option_bind up_p] in Hlive. cbn [filemap_loop]. rewrite Hn. cbn [of_option res_bind].
  rewrite Hf, Hp. cbn [of_option res_bind up_p].
  by destruct (pager_get_port pl p =? MACH_PORT_NULL).
Qed.

Lemma filemap_live fuel pl s np n q :
  nodes (ns s) !! np = Some n -> live_port pl s n = Some q ->
  filemap_loop (S fuel) pl s np = Ret (s, Some q).
Proof.
  intros Hn Hlive. unfold live_port in Hlive. cbn [filemap_loop]. rewrite Hn. cbn [of_option res_bind].
  destruct (fileinfo n) as [v|]; [|done]. cbn [mbind option_bind] in Hlive.
  destruct (upis s !! v) as [upi|]; [|done]. cbn [mbind option_bind of_option res_bind] in *.
  destruct (up_p upi) as [p|]; [|done]. cbn [mbind option_bind of_option res_bind] in *.
  destruct (pager_get_port pl p =? MACH_PORT_NULL); [done|]. by injection Hlive as <-.
Qed.

(** What [diskfs_get_filemap] leaves behind; [u] is the memory for a new info. *)
Definition filemap_result (pl : pagerlib) (s : pstate) (np : positive) (n : node) (u : positive)
    (s' : pstate) (port : Z) : Prop :=
  fileinfo_ok s' /\ (forall q, q <> np -> nodes (ns s') !! q = nodes (ns s) !! q) /\
  match live_port pl s n with
  | Some q => port = q /\ ns s' = ns s /\ upis s' = upis s
  | None =>
      match pager_create pl (npagers s) with
      | Some p =>
          port = pager_get_port pl p /\ port <> MACH_PORT_NULL /\
          nodes (ns s') !! np = Some (set_fileinfo (Some u) (add_light 1 n)) /\
          upis s' = <[u := UserPagerInfo (Some np) FILE_DATA (Some p)]> (upis s)
      | None =>
          port = MACH_PORT_NULL /\ nodes (ns s') !! np = Some (set_fileinfo None n) /\
          upis s' = upis s
      end
  end.

Section Filemap.
Context (pl : pagerlib) (Hpl : PagerLibLaws pl) (s : pstate) (np : positive) (n : node) (u : positive).
Hypothesis Hn : nodes (ns s) !! np = Some n.
Hypothesis Hok : fileinfo_ok s.
Hypothesis Href : 0 < references n.
Hypothesis Hu : malloc_upi pl (upis s) = Some u.

Lemma filemap_none fuel :
  fileinfo n = None ->
  exists s' port, filemap_loop (S fuel) pl s np = Ret (s', port) /\
    filemap_result pl s np n u s' (default MACH_PORT_NULL port) /\
    (port = None -> node2pagelock s' = false).
Proof.
  intros Hf. destruct (filemap_create fuel pl s np n u Hn Hf Href Hu) as (s' & -> & Hs').
  exists s'. eexists. split; [done|]. unfold filemap_result, live_port. rewrite Hf. cbn [mbind option_bind].
  pose proof (malloc_upi_fresh _ _ Hu) as Hfresh.
  destruct (pager_create pl (npagers s)) as [p|] eqn:Hp.
  - destruct Hs' as [Hns Hupis]. split; [|done].
    split; [|split; [intros q Hq; rewrite Hns; simpl; by rewrite !lookup_alter_ne|]].
    + intros q m v Hm Hv. rewrite Hns in Hm. simpl in Hm. rewrite Hupis. destruct (decide (q = np)) as [->|Hq].
      * rewrite !lookup_alter_eq, Hn in Hm. injection Hm as <-. injection Hv as <-.
        exists p. apply lookup_insert_eq.
      * rewrite !lookup_alter_ne in Hm by done. destruct (Hok _ _ _ Hm Hv) as [p' Hp'].
        exists p'. rewrite lookup_insert_ne by congruence. done.
    + split_and!; [done|by eapply new_pager_right| |done]. rewrite Hns. simpl.
      by rewrite !lookup_alter_eq, Hn.
  - destruct Hs' as (Hns & Hupis & Hlock). split; [|done].
    assert (nodes (ns s') !! np = Some (set_fileinfo None n)) as Hnp.
    { rewrite Hns. simpl. rewrite !lookup_alter_eq, Hn. simpl. rewrite add_light_cancel.
      f_equal. destruct n; simpl in *; by subst. }
    split; [|split; [intros q Hq; rewrite Hns; simpl; by rewrite !lookup_alter_ne|done]].
    intros q m v Hm Hv. destruct (decide (q = np)) as [->|Hq].
    + rewrite Hnp in Hm. injection Hm as <-. done.
    + rewrite Hupis. eapply Hok; [|done]. rewrite <- Hm, Hns. simpl. by rewrite !lookup_alter_ne.
Qed.

End Filemap.

(** The loop ends after at most two rounds. *)
Lemma filemap_loop_ok pl s np n u fuel `{PagerLibLaws pl} :
  nodes (ns s) !! np = Some n -> fileinfo_ok s -> 0 < references n ->
  malloc_upi pl (upis s) = Some u -> (2 <= fuel)%nat ->
  exists s' port, filemap_loop fuel pl s np = Ret (s', port) /\
    filemap_result pl s np n u s' (default MACH_PORT_NULL port) /\
    (port = None -> node2pagelock s' = false).
Proof.
  intros Hn Hok Href Hu Hfuel. destruct fuel as [|[|fuel]]; [lia|lia|].
  destruct (live_port pl s n) as [q|] eqn:Hlive.
  { rewrite (filemap_live _ pl s np n q) by done. exists s, (Some q). unfold filemap_result.
    by rewrite Hlive. }
  destruct (fileinfo n) as [v|] eqn:Hf; [|by apply filemap_none].
  rewrite (filemap_dead _ pl s np n v) by done.
  set (s0 := set_ns (update_node np (set_fileinfo None) (ns s)) s).
  assert (nodes (ns s0) !! np = Some (set_fileinfo None n)) as Hn0 by (simpl; by rewrite lookup_alter_eq, Hn).
  assert (fileinfo_ok s0) as Hok0.
  { apply (fileinfo_ok_update s np (set_fileinfo None) None); [done|done|].
    intros q m w _ Hm Hw. by eapply Hok. }
  destruct (filemap_none pl H s0 np _ u Hn0 Hok0 Href Hu fuel eq_refl) as (s' & port & -> & Hres & Hlock).
  exists s', port. split; [done|]. split; [|done]. destruct Hres as (Hok' & Hother & Hres).
  split; [done|]. split; [intros q Hq; rewrite Hother by done; simpl; by rewrite lookup_alter_ne|].
  rewrite Hlive. unfold live_port in Hres. cbn [fileinfo set_fileinfo mbind option_bind] in Hres.
  exact Hres.
Qed.

(** ** Lemmas: pages *)

Lemma img_bytes_take img off k n :
  0 <= k <= n -> take (Z.to_nat k) (img_bytes img off n) = img_bytes img off k.
Proof.
  intros Hk. pose proof (img_bytes_sub img off n 0 k ltac:(lia) ltac:(lia) ltac:(lia)) as H.
  rewrite bytes_at_Some in H by (rewrite ?length_img_bytes; lia).
  injection H as H. rewrite drop_0, Z.add_0_r in H. exact H.
Qed.

Lemma read_and_clear_ok hd e st at_ off size :
  StoreLaws e st -> vm_page_size hd = 4096 -> on_disk e at_ 4096 -> at_ mod 4096 = 0 ->
  0 <= off < 2 ^ 32 - 4096 -> off < size ->
  read_and_clear hd st (s32 (Z.shiftr at_ (log2_block_size st)))
    (if size <? u32 (off + vm_page_size hd) then u32 (off + vm_page_size hd - size) else 0) =
  inr (file_page (disk_image e) at_ off size 4096).
Proof.
  intros Hst Hvm (Ha & _ & Hle) Hmod Hoff Hsize.
  pose proof (@store_log2 _ _ Hst). pose proof (@store_small _ _ Hst).
  assert (exists b, at_ = b * 2 ^ log2_block_size st /\ 0 <= b < 2 ^ 31) as (b & -> & Hb).
  { exists (at_ / 2 ^ log2_block_size st).
    assert (at_ mod 2 ^ log2_block_size st = 0) as Hz.
    { replace 4096 with (2 ^ (12 - log2_block_size st) * 2 ^ log2_block_size st) in Hmod
        by (rewrite <- Z.pow_add_r by lia; by replace (12 - _ + _) with 12 by lia).
      apply Z.div_exact in Hmod; [|lia]. rewrite Hmod, Z.mul_comm, Z.mul_assoc.
      apply Z_mod_mult. }
    pose proof (Z.div_mod at_ (2 ^ log2_block_size st) ltac:(lia)).
    split; [lia|]. split; [apply Z.div_pos; lia|]. apply Z.div_lt_upper_bound; lia. }
  rewrite Z.shiftr_div_pow2, Z.div_mul, (wrapS_small 32 b), Hvm by lia.
  rewrite (wrapU_small 32 (off + 4096)) by lia. unfold read_and_clear, file_page. rewrite Hvm.
  rewrite store_read_ok by lia. rewrite length_img_bytes by lia. cbn [Z.eqb Pos.eqb negb].
  destruct (Z.ltb_spec size (off + 4096)).
  - rewrite wrapU_small by lia. replace (off + 4096 - size =? 0) with false by lia.
    rewrite img_bytes_take by lia. rewrite Z.min_r by lia.
    f_equal. f_equal; [f_equal; lia|]. f_equal. lia.
  - rewrite Z.min_l by lia. change (Z.to_nat (4096 - 4096)) with 0%nat.
    by rewrite app_nil_r.
Qed.

Lemma pager_read_page_ok (fuel : nat) (hd : hurd) (e : env) (st : store_t) (cache : bcache)
    (s : pstate) (u np : positive) (n : node) (p : option positive) (page : Z) (stat : stat_t)
    (inode : dinode_t) (h : nat) (exts : list xad_t) :
  WfEnv e -> StoreLaws e st -> vm_page_size hd = 4096 ->
  upis s !! u = Some (UserPagerInfo (Some np) FILE_DATA p) ->
  nodes (ns s) !! np = Some n -> dn_stat n = Some stat ->
  read_inode fuel e (cache_id n) = Ret inode ->
  xtree (page_at e) h 0 (di_btroot inode) exts -> (h < fuel)%nat -> holding cache None ->
  0 <= page < 2 ^ 32 - 4096 -> page mod 4096 = 0 ->
  (forall blk, file_block exts (page / 4096) = Some blk -> on_disk e (blk * 4096) 4096) ->
  exists cache', holding cache' None /\
    pager_read_page fuel hd e st cache s u page =
    Ret (cache', 1,
         if st_size stat <=? page then inr (zero_page hd)
         else match file_block exts (page / 4096) with
              | Some blk => inr (file_page (disk_image e) (blk * 4096) page (st_size stat) 4096)
              | None => inl (Erc 1)
              end).
Proof.
  intros Hwf Hst Hvm Hu Hn Hstat Hi Htree Hf Hc Hpage Hmod Hd. unfold pager_read_page.
  rewrite Hu. cbn [of_option res_bind up_type up_np]. rewrite Hn. cbn [of_option res_bind].
  rewrite Hi, Hvm. rewrite (wrapS_small 32 4096) by lia. unfold xt_Lookup.
  assert (0 <= page / 4096) by (apply Z.div_pos; lia).
  destruct (xt_Lookup_page_ok e h exts (di_btroot inode) 0 (page / 4096) fuel cache None 4096 1)
    as (cache' & r & Hr & Hans); try done; [by right|].
  pose proof (xt_Lookup_page_pool _ _ _ _ _ _ _ _ _ _ Hr Hc) as Hpool.
  exists cache'. split; [done|]. rewrite Hr. cbn [res_bind]. rewrite Hstat. cbn [of_option res_bind].
  unfold lookup_answer, file_block in *. destruct (ext_find (page / 4096) exts) as [x|]; simpl in *.
  - subst r. simpl. destruct (Z.leb_spec (st_size stat) page); [done|].
    pose proof (read_and_clear_ok hd e st ((addressXAD x + (page / 4096 - offsetXAD x)) * 4096)
      page (st_size stat) Hst Hvm (Hd _ eq_refl) (Z_mod_mult _ _) Hpage ltac:(lia)) as Hread.
    rewrite Hvm in Hread. by rewrite Hread.
  - destruct Hans as (Hrc & _). destruct (Z.eqb_spec (xt_rc r) 0); [done|]. cbn [negb].
    by destruct (st_size stat <=? page).
Qed.

Lemma diskfs_get_filemap_ok (pl : pagerlib) (s : pstate) (np u : positive) (n : node)
    (stat : stat_t) (fuel : nat) :
  PagerLibLaws pl -> nodes (ns s) !! np = Some n -> dn_stat n = Some stat ->
  S_ISDIR (st_mode stat) || S_ISREG (st_mode stat) || S_ISLNK (st_mode stat) = true ->
  node2pagelock s = false -> fileinfo_ok s -> 0 < references n ->
  malloc_upi pl (upis s) = Some u -> (2 <= fuel)%nat ->
  exists s' port, diskfs_get_filemap fuel pl s np = Ret (s', port) /\
    node2pagelock s' = false /\ fileinfo_ok s' /\
    match live_port pl s n with
    | Some q => port = q /\ ns s' = ns s /\ upis s' = upis s
    | None =>
        match pager_create pl (npagers s) with
        | Some p =>
            port = pager_get_port pl p /\ port <> MACH_PORT_NULL /\
            nodes (ns s') !! np = Some (set_fileinfo (Some u) (add_light 1 n)) /\
            upis s' = <[u := UserPagerInfo (Some np) FILE_DATA (Some p)]> (upis s)
        | None =>
            port = MACH_PORT_NULL /\ nodes (ns s') !! np = Some (set_fileinfo None n) /\
            upis s' = upis s
        end
    end.
Proof.
  intros Hpl Hn Hst Hmode Hlock Hok Href Hu Hfuel. unfold diskfs_get_filemap, lock_pager.
  rewrite Hn. cbn [of_option res_bind]. rewrite Hst. cbn [of_option res_bind]. rewrite Hmode, Hlock.
  cbn [negb res_bind].
  destruct (filemap_loop_ok pl (PState (ns s) (upis s) true (npagers s) (trace s)) np n u fuel Hn Hok Href Hu Hfuel)
    as (s' & port & -> & (Hok' & _ & Hres) & Hfree).
  cbn [res_bind]. destruct port as [q|]; (do 2 eexists; split; [done|]).
  - split; [done|]. split; [done|exact Hres].
  - split; [by apply Hfree|]. split; [done|exact Hres].
Qed.

(** ** Properties *)

(** C12: paging in a file.  On a volume with a well-formed extent tree the pager
    gets, for a page inside the file, the 4096 bytes at 4096 times the disk block
    mapped to the page's file block, zeroed from the end of the file on; for a
    page beyond the end a page of zeros; and for a hole inside the file error 1.
    The page is always write-locked and the page buffers are given back. *)
Theorem pager_read_page_file (fuel : nat) (hd : hurd) (e : env) (st : store_t) (cache : bcache)
    (s : pstate) (u np : positive) (n : node) (p : option positive) (page : Z) (stat : stat_t)
    (inode : dinode_t) (h : nat) (exts : list xad_t) :
  WfEnv e -> StoreLaws e st -> vm_page_size hd = 4096 ->
  upis s !! u = Some (UserPagerInfo (Some np) FILE_DATA p) ->
  nodes (ns s) !! np = Some n -> dn_stat n = Some stat ->
  read_inode fuel e (cache_id n) = Ret inode ->
  xtree (page_at e) h 0 (di_btroot inode) exts -> (h < fuel)%nat -> holding cache None ->
  0 <= page < 2 ^ 32 - 4096 -> page mod 4096 = 0 ->
  (forall blk, file_block exts (page / 4096) = Some blk -> on_disk e (blk * 4096) 4096) ->
  exists cache', holding cache' None /\
    pager_read_page fuel hd e st cache s u page =
    Ret (cache', 1,
         if st_size stat <=? page then inr (zero_page hd)
         else match file_block exts (page / 4096) with
              | Some blk => inr (file_page (disk_image e) (blk * 4096) page (st_size stat) 4096)
              | None => inl (Erc 1)
              end).
Proof. apply pager_read_page_ok. Qed.

(** C28: the file pager of a node.  [diskfs_get_filemap] ends after at most two
    rounds of its loop: it hands out the right of the node's pager, and otherwise
    makes the one new pager, which holds a light reference to the node, or reports
    that none can be created with the reference given back.  The lock is free
    again and every [fileinfo] belongs to its node. *)
Theorem diskfs_get_filemap_pager (fuel : nat) (pl : pagerlib) (s : pstate) (np u : positive) (n : node)
    (stat : stat_t) :
  PagerLibLaws pl -> nodes (ns s) !! np = Some n -> dn_stat n = Some stat ->
  S_ISDIR (st_mode stat) || S_ISREG (st_mode stat) || S_ISLNK (st_mode stat) = true ->
  node2pagelock s = false -> fileinfo_ok s -> 0 < references n ->
  malloc_upi pl (upis s) = Some u -> (2 <= fuel)%nat ->
  exists s' port, diskfs_get_filemap fuel pl s np = Ret (s', port) /\
    node2pagelock s' = false /\ fileinfo_ok s' /\
    match live_port pl s n with
    | Some q => port = q /\ ns s' = ns s /\ upis s' = upis s
    | None =>
        match pager_create pl (npagers s) with
        | Some p =>
            port = pager_get_port pl p /\ port <> MACH_PORT_NULL /\
            nodes (ns s') !! np = Some (set_fileinfo (Some u) (add_light 1 n)) /\
            upis s' = <[u := UserPagerInfo (Some np) FILE_DATA (Some p)]> (upis s)
        | None =>
            port = MACH_PORT_NULL /\ nodes (ns s') !! np = Some (set_fileinfo None n) /\
            upis s' = upis s
        end
    end.
Proof.
  intros. by eapply diskfs_get_filemap_ok.
Qed.

(** [pager_clear_user_data] on a file pager frees its info, gives back the
    light reference, and clears the node's [fileinfo] exactly when it still is
    this pager's, so that a pager made in the meantime stays. *)
Theorem pager_clear_user_data_file (pl : pagerlib) (s : pstate) (u np : positive) (n : node)
    (p : option positive) :
  PagerLibLaws pl -> fileinfo_ok s -> upis s !! u = Some (UserPagerInfo (Some np) FILE_DATA p) ->
  nodes (ns s) !! np = Some n -> 0 < references n -> node2pagelock s = false ->
  exists s', pager_clear_user_data pl s u = Ret s' /\ node2pagelock s' = false /\ fileinfo_ok s' /\
    upis s' = delete u (upis s) /\
    nodes (ns s') !! np =
      Some (add_light (-1) (if decide (fileinfo n = Some u) then set_fileinfo None n else n)).
Proof.
  intros Hpl Hok Hu Hn Href Hlock. unfold pager_clear_user_data, lock_pager. rewrite Hu, Hlock.
  cbn [of_option res_bind up_type up_np ns]. rewrite Hn. cbn [of_option res_bind].
  set (f := fun n => if decide (fileinfo n = Some u) then set_fileinfo None n else n).
  set (s0 := if bool_decide _ then _ else _).
  assert (ns (unlock_pager s0) = update_node np f (ns s) /\ upis s0 = upis s) as [Hns Hupis].
  { subst s0 f. case_bool_decide as Hd; (split; [|done]); simpl; unfold update_node, set_nodes.
    - f_equal. apply map_eq. intros q. destruct (decide (q = np)) as [->|];
        [rewrite !lookup_alter_eq, Hn; simpl; by rewrite decide_True|by rewrite !lookup_alter_ne].
    - rewrite alter_id; [by destruct (ns s)|]. intros m Hm. rewrite Hn in Hm. injection Hm as <-.
      by rewrite decide_False. }
  rewrite Hns. rewrite (nrele_light_counts _ _ (f n)).
  2: { simpl. by rewrite lookup_alter_eq, Hn. } 2: { left. subst f. simpl. by case_decide. }
  eexists. split; [done|]. split; [done|]. split; [|split; [simpl; by rewrite Hupis|]].
  - intros q m w Hm Hw. simpl in *. rewrite Hupis. destruct (decide (q = np)) as [->|Hq].
    + rewrite !lookup_alter_eq, Hn in Hm. injection Hm as <-. simpl in Hw. subst f. simpl in Hw.
      case_decide; [done|]. destruct (Hok _ _ _ Hn Hw) as [p' Hp']. exists p'.
      rewrite lookup_delete_ne by congruence. done.
    + rewrite !lookup_alter_ne in Hm by done. destruct (Hok _ _ _ Hm Hw) as [p' Hp']. exists p'.
      rewrite lookup_delete_ne by (intros ->; congruence). done.
  - simpl. by rewrite !lookup_alter_eq, Hn.
Qed.

(** The calls [enable_caching] makes for one pager. *)
Definition enable_calls (s : pstate) (b : positive * positive) : list call :=
  ChangeAttributes b.1 true false ::
  match upis s !! b.2 with
  | Some (UserPagerInfo (Some np) FILE_DATA _) => [Nref np; Nrele np]
  | _ => []
  end.

(** A pager info [enable_cache] can use. *)
Definition usable (s : pstate) (b : positive * positive) : Prop :=
  exists upi, upis s !! b.2 = Some upi /\ (up_type upi = FILE_DATA -> is_Some (up_np upi)).

Lemma block_caching_trace s bucket :
  block_caching s bucket =
  PState (ns s) (upis s) (node2pagelock s) (npagers s)
    (trace s ++ ((fun b => ChangeAttributes b.1 false true) <$> bucket)).
Proof.
  revert s. induction bucket as [|b bucket IH]; intros s; simpl.
  - rewrite app_nil_r. by destruct s.
  - unfold block_caching in *. simpl. rewrite IH. simpl. by rewrite <- app_assoc.
Qed.

Lemma enable_cache_trace s b :
  usable s b ->
  enable_cache s b.1 b.2 =
  Ret (PState (ns s) (upis s) (node2pagelock s) (npagers s) (trace s ++ enable_calls s b)).
Proof.
  intros (upi & Hu & Hnp). unfold enable_cache, enable_calls, record_call.
  cbn [upis]. rewrite Hu. cbn [of_option res_bind].
  destruct upi as [[np|] [|] op]; cbn [up_type up_np of_option res_bind ns upis node2pagelock npagers trace].
  1, 3: done.
  - by rewrite <- !app_assoc.
  - by destruct (Hnp eq_refl).
Qed.

Lemma enable_caching_trace s bucket :
  Forall (usable s) bucket ->
  enable_caching s bucket =
  Ret (PState (ns s) (upis s) (node2pagelock s) (npagers s)
         (trace s ++ concat (enable_calls s <$> bucket))).
Proof.
  revert s. induction bucket as [|[p u] bucket IH]; intros s Hall; cbn [enable_caching].
  - cbn. rewrite app_nil_r. by destruct s.
  - apply Forall_cons_1 in Hall as [Hb Hall].
    pose proof (enable_cache_trace s (p, u) Hb) as He. cbn [fst snd] in He. rewrite He. cbn [res_bind].
    rewrite IH by done. cbn [ns upis node2pagelock npagers trace]. by rewrite <- app_assoc.
Qed.

Lemma pager_users_ok s bucket bucket' :
  Forall (usable s) bucket' ->
  exists s', diskfs_pager_users s bucket bucket' =
      Ret (s', if (1 <? Z.of_nat (length bucket)) && (1 <? Z.of_nat (length bucket')) then 1 else 0) /\
    trace s' = trace s ++
      (if Z.of_nat (length bucket) <=? 1 then []
       else ((fun b => ChangeAttributes b.1 false true) <$> bucket) ++ [Sleep 1] ++
            (if Z.of_nat (length bucket') <=? 1 then []
             else concat (enable_calls s <$> bucket') ++ [EnableBucket])).
Proof.
  intros Hall. unfold diskfs_pager_users.
  destruct (Z.leb_spec (Z.of_nat (length bucket)) 1).
  { exists s. rewrite app_nil_r. by replace (1 <? Z.of_nat (length bucket)) with false by lia. }
  replace (1 <? Z.of_nat (length bucket)) with true by lia. cbn [andb].
  rewrite block_caching_trace. unfold record_call. cbn [ns upis node2pagelock npagers trace].
  destruct (Z.leb_spec (Z.of_nat (length bucket')) 1).
  { replace (1 <? Z.of_nat (length bucket')) with false by lia.
    eexists. split; [done|]. simpl. by rewrite <- !app_assoc. }
  replace (1 <? Z.of_nat (length bucket')) with true by lia.
  rewrite enable_caching_trace by done. cbn [res_bind]. eexists. split; [done|].
  cbn [trace]. by rewrite <- !app_assoc.
Qed.

(** [diskfs_pager_users] answers 1 exactly when more than the disk pager is
    left after caching was blocked everywhere and a second has passed; then, and
    only then, caching is enabled again on every pager that is left, and the
    bucket reopened.  With at most one pager it does nothing at all. *)
Theorem diskfs_pager_users_trace (s : pstate) (bucket bucket' : list (positive * positive)) :
  Forall (usable s) bucket' ->
  exists s' users, diskfs_pager_users s bucket bucket' = Ret (s', users) /\
    (users = 1 <-> 1 < Z.of_nat (length bucket) /\ 1 < Z.of_nat (length bucket')) /\
    trace s' = trace s ++
      (if Z.of_nat (length bucket) <=? 1 then []
       else ((fun b => ChangeAttributes b.1 false true) <$> bucket) ++ [Sleep 1] ++
            (if Z.of_nat (length bucket') <=? 1 then []
             else concat (enable_calls s <$> bucket') ++ [EnableBucket])).
Proof.
  intros Hall. destruct (pager_users_ok s bucket bucket' Hall) as (s' & Heq & Htr).
  eexists s', _. split; [exact Heq|]. split; [|exact Htr].
  destruct (Z.ltb_spec 1 (Z.of_nat (length bucket))), (Z.ltb_spec 1 (Z.of_nat (length bucket'))); cbn; lia.
Qed.

(** ** Witnesses *)

Definition demo_store : store_t :=
  Store 9 0x40000 (fun a n => img_bytes sample_image (a * 512) n).

#[export] Instance demo_store_laws : StoreLaws sample_env demo_store.
Proof. constructor; [simpl; lia|vm_compute; reflexivity|reflexivity]. Qed.

Definition demo_stat (size : Z) : stat_t :=
  Stat JFS_SUPER_MAGIC 77 5 0 0 0x81B6 1 0 0 0 size (Timestruc 0 0) (Timestruc 0 0) (Timestruc 0 0)
    8192 10 0.

(** Node 1 is file 5 and has the file pager of info 1; node 2 has none. *)
Definition demo_node (id : Z) (u : option positive) : node :=
  Node id 2 0 false (Some (demo_stat 5000)) true u None (Bucket id).

Definition demo_pstate : pstate :=
  PState (NState (<[1%positive := demo_node 5 (Some 1%positive)]> {[2%positive := demo_node 7 None]})
            [] false)
    {[1%positive := UserPagerInfo (Some 1%positive) FILE_DATA (Some 1%positive)]} false 1 [].

(** Pagers 1, 2, ... all alive; infos 1 to 3. *)
Definition demo_pagerlib : pagerlib :=
  PagerLib
    (fun h => match h !! 2%positive with
              | None => Some 2%positive
              | Some _ => match h !! 3%positive with None => Some 3%positive | Some _ => Some (fresh (dom h)) end
              end)
    (fun n => Some (Pos.of_succ_nat n))
    (fun p => Zpos p)
    (fun p s => update_node p (add_light 1) s)
    (fun p s =>
       let s' := update_node p (add_light (-1)) s in
       match nodes s !! p with
       | Some n =>
           if (references n =? 0) && (light_references n =? 1)
           then match diskfs_node_norefs s' p with Ret s'' => s'' | _ => s' end
           else s'
       | None => s'
       end).

#[export] Instance demo_pagerlib_laws : PagerLibLaws demo_pagerlib.
Proof.
  constructor; try done; cbn [demo_pagerlib malloc_upi diskfs_nrele_light].
  - intros h u Hu. repeat case_match; simplify_eq; [|done..]. apply not_elem_of_dom, is_fresh.
  - intros p s n -> H. by replace (_ && _) with false by lia.
  - intros p s s' n -> -> -> _ H. cbn [Z.eqb Pos.eqb andb]. by rewrite H.
Qed.

Lemma demo_fileinfo_ok : fileinfo_ok demo_pstate.
Proof.
  intros np n u Hn Hu. cbn [demo_pstate ns nodes] in Hn.
  apply lookup_insert_Some in Hn as [[<- <-]|[_ Hn]].
  - injection Hu as <-. exists 1%positive. reflexivity.
  - apply lookup_singleton_Some in Hn as [<- <-]. done.
Qed.

Lemma pager_read_page_file_witness :
  exists cache', holding cache' None /\
    pager_read_page 1 (demo_hurd None) sample_env demo_store bcache_init demo_pstate 1 4096 =
    Ret (cache', 1, inr (file_page sample_image (31 * 4096) 4096 5000 4096)).
Proof.
  destruct (sample_inode 5 ltac:(lia)) as (di & Hr & _ & Hroot).
  apply (pager_read_page_file 1 (demo_hurd None) sample_env demo_store bcache_init demo_pstate 1 1
    (demo_node 5 (Some 1%positive)) (Some 1%positive) 4096 (demo_stat 5000) di 0 [xad_of 0 2 30]);
    [apply _|apply _|reflexivity|reflexivity|reflexivity|reflexivity|exact Hr| |lia|exact holding_init
    |lia|reflexivity|].
  - rewrite Hroot. apply (leaf_b_sound _ _ _ 3). vm_compute. reflexivity.
  - intros blk Hb. injection Hb as <-. vm_compute. repeat split; congruence.
Defined.

Lemma diskfs_get_filemap_pager_witness :
  exists s', diskfs_get_filemap 2 demo_pagerlib demo_pstate 2 = Ret (s', 2) /\
    node2pagelock s' = false /\ fileinfo_ok s'.
Proof.
  destruct (diskfs_get_filemap_pager 2 demo_pagerlib demo_pstate 2 2 (demo_node 7 None) (demo_stat 5000)
    _ eq_refl eq_refl eq_refl eq_refl demo_fileinfo_ok) as (s' & port & H & Hl & Hok & Hport & _);
    [simpl; lia|reflexivity|lia|].
  exists s'. rewrite H, Hport. split; [reflexivity|]. split; [exact Hl|exact Hok].
Defined.

Lemma pager_clear_user_data_file_witness :
  exists s', pager_clear_user_data demo_pagerlib demo_pstate 1 = Ret s' /\
    nodes (ns s') !! 1%positive = Some (add_light (-1) (demo_node 5 None)).
Proof.
  destruct (pager_clear_user_data_file demo_pagerlib demo_pstate 1 1 (demo_node 5 (Some 1%positive))
    (Some 1%positive) _ demo_fileinfo_ok eq_refl eq_refl) as (s' & H & _ & _ & _ & Hn);
    [simpl; lia|reflexivity|].
  exists s'. split; [exact H|exact Hn].
Defined.

Lemma diskfs_pager_users_trace_witness :
  exists s' users, diskfs_pager_users demo_pstate [(1%positive, 1%positive); (9%positive, 1%positive)]
      [(1%positive, 1%positive)] = Ret (s', users) /\ users <> 1.
Proof.
  destruct (diskfs_pager_users_trace demo_pstate [(1%positive, 1%positive); (9%positive, 1%positive)]
    [(1%positive, 1%positive)]) as (s' & users & H & Hu & _).
  - constructor; [|constructor]. eexists. split; [reflexivity|]. intros _. by eexists.
  - exists s', users. split; [exact H|]. intros E. apply Hu in E as [_ E]. simpl in E. lia.
Defined.
