(* ===== verification/Volume.v ===== *)
(** * The volume as a whole

    An abstract volume, which maps inode numbers to directories and files, and
    the composition of the handlers on it: a lookup in a directory (Dir, DirRead,
    Node, Imap), the pager of the node it returns (Pager), and a page read through
    that pager (Pager, FileRead, Disk). *)

From stdpp Require Import gmap.
From S2P Require Import Prelude Layout Unicode Disk Xtree BufCache Sample Imap FileRead DirRead Node Dir Pager.

(** ** Specification *)

(** What an inode stands for: a list of entries, or a size and extents. *)
Inductive vobject :=
| VDir (ds : list dent)
| VFile (size : Z) (exts : list xad_t).

Definition volume := Z -> option vobject.

(** [e] holds [vol]; [n] bounds the pages on the way through any of its trees.
    The blocks are pages, since the pager takes every block for one. *)
Class HoldsVolume (e : env) (n : nat) (vol : volume) : Prop := {
  vol_number : forall i o, vol i = Some o -> 0 <= i < 2 ^ 32;
  vol_dir : forall i ds, vol i = Some (VDir ds) ->
    exists di, read_inode n e i = Ret di /\ is_dir di /\ dir_contents e (di_btroot di) n ds;
  vol_file : forall i size exts, vol i = Some (VFile size exts) ->
    exists di h, read_inode n e i = Ret di /\ Z.land (di_mode di) IFMT = S_IFREG /\
      di_size di = size /\ xtree (page_at e) h 0 (di_btroot di) exts /\ (h < n)%nat;
  vol_bsize : s_bsize (jfs_sb e) = 4096;
  vol_blocks : forall i size exts K blk, vol i = Some (VFile size exts) ->
    file_block exts K = Some blk -> on_disk e (blk * s_bsize (jfs_sb e)) (s_bsize (jfs_sb e)) }.

(** The entry a name denotes in a directory: the first whose name starts with
    it. *)
Definition resolve (ds : list dent) (name : list Z) : option dent :=
  snd <$> list_find (fun d => name `prefix_of` d_units d) ds.

(** Byte [i] of the file with the given extents, at the block size of the volume;
    [None] in a hole. *)
Definition file_byte (e : env) (exts : list xad_t) (i : Z) : option byte :=
  blk ← file_block exts (i / s_bsize (jfs_sb e));
  Some (img_at (disk_image e) (blk * s_bsize (jfs_sb e) + i mod s_bsize (jfs_sb e))).

(** All bytes of a file without holes. *)
Definition file_contents (e : env) (size : Z) (exts : list xad_t) : option mem :=
  mapM (file_byte e exts) (seqZ 0 size).

(** The page of a file at byte [page], zero from the end of the file on; [None]
    when it touches a hole. *)
Definition volume_page (e : env) (size : Z) (exts : list xad_t) (page : Z) : option mem :=
  mapM (fun i => if i <? size then file_byte e exts i else Some Byte.x00) (seqZ page 4096).

(** ** Lemmas *)

Lemma dir_lookup_resolve name ds g d :
  ascii_name name -> Forall (fun d => ascii_name (d_units d)) ds ->
  resolve ds name = Some d -> dir_lookup name ds g = Some (d_inumber d).
Proof.
  intros Hname Hall Hr. unfold resolve in Hr. rewrite Forall_lookup in Hall.
  destruct (list_find _ ds) as [[i d']|] eqn:E; [|done]. injection Hr as ->.
  apply list_find_Some in E as (Hi & Hp & Hbefore).
  apply (dir_lookup_first _ _ i); [done|apply name_matches_ascii; [done|by eapply Hall|done]|].
  intros j d' Hj Hd' Hm. eapply Hbefore; [exact Hd'|done|].
  apply name_matches_ascii; [done|by eapply Hall|done].
Qed.

(** A lookup that creates a node leaves the pager bookkeeping alone. *)
Lemma fileinfo_ok_new s ns1 np n :
  fileinfo_ok s -> same_but np (ns s) ns1 -> nodes ns1 !! np = Some n -> fileinfo n = None ->
  fileinfo_ok (set_ns ns1 s).
Proof.
  intros Hok Hs Hn Hf q m u Hm Hu. cbn [set_ns ns upis] in *. destruct (decide (q = np)) as [->|Hq].
  - rewrite Hn in Hm. injection Hm as <-. congruence.
  - specialize (Hs q Hq). rewrite Hm in Hs. destruct (nodes (ns s) !! q) as [m'|] eqn:Hm'; [|done].
    injection Hs as Hc. eapply Hok; [exact Hm'|]. congruence.
Qed.

(** The node of an uncached file after its first lookup. *)
Lemma lookup_new_file hd fuel e s inum np di `{HurdLaws hd} :
  cache_ok s -> refcnt_lock s = false -> malloc_ok e sizeof_disknode = true ->
  (forall p, ~ cached s inum p) -> make_node hd (nodes s) = Some np -> catch_exception hd = None ->
  read_inode fuel e inum = Ret di ->
  exists s' n, diskfs_cached_lookup hd fuel e s inum = Ret (s', Some np, None) /\
    same_but np s s' /\ nodes s' !! np = Some n /\ cache_id n = inum /\ references n = 2 /\
    fileinfo n = None /\ dn_stat n = Some (inode_stat hd inum di) /\ cache_ok s' /\
    refcnt_lock s' = false /\ locked n = false.
Proof.
  intros [chain Hok] Hl Hm Hno Hmk Hc Hr.
  pose proof (cached_miss hd fuel e s inum chain Hok Hl Hno) as Hmiss. rewrite Hm, Hmk in Hmiss.
  destruct Hmiss as (s1 & _ & Hok1 & Hl1 & (next & Hnp) & Hsame & _ & ->).
  rewrite (read_node_eq _ _ _ _ _ (new_node inum next)) by done. cbn [cache_id new_node].
  rewrite Hr, Hc. cbn [res_bind]. do 2 eexists. split; [done|]. split.
  { etrans; [exact Hsame|]. etrans; apply same_but_update. }
  cbn [update_node set_nodes nodes]. rewrite !lookup_alter_eq, Hnp. split_and!; try done.
  eexists. do 2 (apply hash_ok_update; [done|]). exact Hok1.
Qed.

(** The bytes of one block. *)
Lemma file_bytes_block e exts a n :
  s_bsize (jfs_sb e) = 4096 -> a mod 4096 = 0 -> 0 < n <= 4096 ->
  mapM (file_byte e exts) (seqZ a n) =
    (blk ← file_block exts (a / 4096); Some (img_bytes (disk_image e) (blk * 4096) n)).
Proof.
  intros Hb Ha Hn.
  assert (forall i, i ∈ seqZ a n -> i / 4096 = a / 4096 /\ i mod 4096 = i - a) as Hi.
  { intros i Hi%seqZ_range. pose proof (Z.div_mod a 4096 ltac:(lia)).
    split; [symmetry; apply (Z.div_unique _ _ _ (i - a)); lia|symmetry; apply (Z.mod_unique _ _ (a / 4096)); lia]. }
  unfold file_byte. rewrite Hb. destruct (file_block exts (a / 4096)) as [blk|] eqn:E; cbn [mbind option_bind].
  - rewrite (mapM_total _ (fun i => img_at (disk_image e) (blk * 4096 + (i - a)))).
    2: { intros i H. destruct (Hi i H) as [-> ->]. by rewrite E. }
    f_equal. unfold img_bytes. replace (seqZ a n) with (Z.add (a - blk * 4096) <$> seqZ (blk * 4096) n)
      by (rewrite fmap_add_seqZ; f_equal; lia).
    rewrite <- list_fmap_compose. apply list_fmap_ext. intros k i _. cbn. f_equal. lia.
  - replace n with (1 + (n - 1)) by lia. rewrite seqZ_app by lia. rewrite mapM_app_option.
    change (seqZ a 1) with [a]. cbn. by rewrite E.
Qed.

(** What the pager computes is the page of the specification. *)
Lemma volume_page_eq e size exts page :
  s_bsize (jfs_sb e) = 4096 -> page mod 4096 = 0 ->
  volume_page e size exts page =
    if size <=? page then Some (replicate 4096 Byte.x00)
    else blk ← file_block exts (page / 4096); Some (file_page (disk_image e) (blk * 4096) page size 4096).
Proof.
  intros Hb Hp. unfold volume_page.
  set (g := fun i => if i <? size then file_byte e exts i else Some Byte.x00).
  assert (forall a n, size <= a -> mapM g (seqZ a n) = Some (replicate (Z.to_nat n) Byte.x00)) as Hz.
  { intros a n Ha. rewrite (mapM_total _ (fun _ => Byte.x00)).
    - by rewrite (const_fmap _ _ Byte.x00), length_seqZ by done.
    - intros i Hi%seqZ_range. unfold g. by replace (i <? size) with false by lia. }
  assert (forall n, 0 < n <= 4096 -> page + n <= size -> mapM g (seqZ page n) =
    (blk ← file_block exts (page / 4096); Some (img_bytes (disk_image e) (blk * 4096) n))) as Hd.
  { intros n Hn Hle. rewrite <- file_bytes_block by done. apply mapM_ext_in. intros i Hi%seqZ_range. unfold g.
    by replace (i <? size) with true by lia. }
  destruct (Z.leb_spec size page); [by apply Hz|]. unfold file_page.
  rewrite (seqZ_split page 4096 (Z.min 4096 (size - page))) by lia. rewrite mapM_app_option, Hd by lia.
  destruct (file_block exts (page / 4096)) as [blk|]; [|done]. cbn [mbind option_bind].
  destruct (Z.le_gt_cases 4096 (size - page)).
  - rewrite Z.min_l by lia. done.
  - rewrite Z.min_r by lia. rewrite Hz by lia. done.
Qed.

(** ** Properties *)

(** Opening and reading a file.  On a volume the device holds, looking up an
    ASCII name that denotes a file not yet cached makes its node, the node's first
    pager can be created, and reading any page through that pager gives the
    volume's page: the file's bytes, zeros after its end, and error 1 exactly for
    holes.  The node cache, the pager infos and the page buffers stay well
    formed. *)
Theorem open_and_read (ld : libdiskfs) (hd : hurd) (pl : pagerlib) (n : nat) (e : env) (st : store_t)
    (vol : volume) (root : option positive) (s : pstate) (cache : bcache) (dp : positive) (dn : node)
    (ds : list dent) (name : list Z) (d : dent) (size : Z) (exts : list xad_t)
    (np u p : positive) (page : Z) :
  LibDiskfsLaws ld -> HurdLaws hd -> PagerLibLaws pl -> WfEnv e -> StoreLaws e st -> HoldsVolume e n vol ->
  vm_page_size hd = 4096 -> catch_exception hd = None ->
  cache_ok (ns s) -> refcnt_lock (ns s) = false -> fileinfo_ok s -> node2pagelock s = false ->
  holding cache None ->
  nodes (ns s) !! dp = Some dn -> vol (cache_id dn) = Some (VDir ds) ->
  ascii_name name -> (length name <= 255)%nat -> is_dot name 0 = false ->
  Forall (fun d => ascii_name (d_units d)) ds -> resolve ds name = Some d ->
  vol (d_inumber d) = Some (VFile size exts) -> (forall q, ~ cached (ns s) (d_inumber d) q) ->
  make_node hd (nodes (ns s)) = Some np -> malloc_upi pl (upis s) = Some u ->
  pager_create pl (npagers s) = Some p -> 0 <= page < 2 ^ 32 - 4096 -> page mod 4096 = 0 ->
  exists ns1 s2 port cache',
    diskfs_lookup_hard ld hd n e root (ns s) dp name (LOOKUP ld) (Some None) =
      Ret (ns1, Some (Some np), None) /\
    diskfs_get_filemap 2 pl (set_ns ns1 s) np = Ret (s2, port) /\ port <> MACH_PORT_NULL /\
    pager_read_page n hd e st cache s2 u page =
      Ret (cache', 1, match volume_page e size exts page with
                      | Some bytes => inr bytes
                      | None => inl (Erc 1)
                      end) /\
    cache_ok ns1 /\ fileinfo_ok s2 /\ holding cache' None.
Proof.
  intros Hld Hhd Hpl Hwf Hst Hvol Hvm Hcatch Hcache Hlock Hfi Hplock Hbuf Hdp Hdir Hname Hlen Hdot Hall
    Hres Hfile Hno Hmk Hu Hp Hpage Hmod.
  destruct (vol_dir _ _ Hdir) as (ddi & Hdr & Hisdir & Hcont).
  destruct (vol_file _ _ _ Hfile) as (fdi & h & Hfr & Hreg & Hsize & Htree & Hh).
  pose proof (vol_number _ _ Hfile) as Hnum.
  destruct (lookup_new_file hd n e (ns s) (d_inumber d) np fdi) as (ns1 & fn & Hcl & Hsame & Hfn & Hid & Href & Hfin & Hstat & Hok1 & _);
    [done|done|apply wf_malloc|done|done|done|done|].
  destruct (diskfs_get_filemap_ok pl (set_ns ns1 s) np u fn (inode_stat hd (d_inumber d) fdi) 2) as (s2 & port & Hgf & _ & Hok2 & Hport);
    [done|done|done| |done|by eapply fileinfo_ok_new|lia|done|lia|].
  { cbn [inode_stat st_mode]. unfold S_ISDIR. change S_IFMT with IFMT. by rewrite Hreg. }
  unfold live_port in Hport. rewrite Hfin in Hport. cbn [mbind option_bind npagers set_ns] in Hport.
  rewrite Hp in Hport. destruct Hport as (-> & Hnull & Hn2 & Hu2).
  destruct (pager_read_page_ok n hd e st cache s2 u np (set_fileinfo (Some u) (add_light 1 fn)) (Some p) page
    (inode_stat hd (d_inumber d) fdi) fdi h exts) as (cache' & Hbuf' & Hread);
    [done..|rewrite Hu2; apply lookup_insert_eq|done|done|by cbn; rewrite Hid|done|done|done|done|done| |].
  { intros blk Hb. rewrite <- (vol_bsize (vol := vol)). by eapply vol_blocks. }
  exists ns1, s2, (pager_get_port pl p), cache'. split_and!; try done.
  - erewrite lookup_plain; [|done..|by left|done|done].
    rewrite (dir_lookup_resolve _ _ _ d) by done. replace (_ =? u64 (-1)) with false; [by rewrite Hcl|].
    change (u64 (-1)) with (2 ^ 64 - 1). lia.
  - rewrite Hread, volume_page_eq by (done || by eapply vol_bsize). cbn [inode_stat st_size]. unfold S_ISLNK. change S_IFMT with IFMT.
    rewrite Hreg, Hsize. change (S_IFREG =? S_IFLNK) with false. cbv iota.
    unfold zero_page. rewrite Hvm. change (Z.to_nat 4096) with 4096%nat.
    destruct (size <=? page); [done|]. by destruct (file_block exts (page / 4096)).
Qed.

(** ** Witnesses *)

Lemma file_block_range exts K blk :
  file_block exts K = Some blk -> exists x, In x exts /\ addressXAD x <= blk < addressXAD x + lengthXAD x.
Proof.
  unfold file_block. destruct (ext_find K exts) as [x|] eqn:E; [|done]. intros [= <-].
  apply ext_find_Some in E as [Hx Hc]. exists x. split; [by apply list_elem_of_In|].
  unfold covers in Hc. lia.
Qed.

Lemma dir_contents_mono e root m n ds :
  (m <= n)%nat -> dir_contents e root m ds -> dir_contents e root n ds.
Proof.
  intros Hmn [flag ds' Hf Hb Hn He|flag i xd p k l ds' Hf Hb Hs Hx Hl Hc Hk Hl'].
  - by apply (dir_inline _ _ _ flag).
  - apply (dir_tree _ _ _ flag i xd p k l); try done; lia.
Qed.

Definition file5 : list xad_t := [xad_of 0 2 30].

Definition sample_volume : volume := fun i =>
  if i =? 2 then Some (VDir sample_root_dir)
  else if i =? 8 then Some (VDir sample_tree_dir)
  else if i =? 5 then Some (VFile 5000 file5)
  else if i =? 7 then Some (VFile 49152 (file7_left ++ file7_right))
  else None.

Lemma sample_file_inode i size :
  In (i, size) [(5, 5000); (7, 49152)] ->
  exists di, read_inode 2 sample_env i = Ret di /\ Z.land (di_mode di) IFMT = S_IFREG /\
    di_size di = size /\ di_btroot di = sample_root i.
Proof.
  intros Hi. destruct (sample_inode_fuel 2 i) as (di & Hr & Hg & Hb); [lia| |].
  { destruct Hi as [[= <- <-]|[[= <- <-]|[]]]; lia. }
  exists di. split; [exact Hr|]. rewrite Hb. clear Hr Hb.
  destruct Hi as [[= <- <-]|[[= <- <-]|[]]]; vm_compute in Hg; injection Hg as <-; repeat split.
Qed.

#[export] Instance sample_holds : HoldsVolume sample_env 2 sample_volume.
Proof.
  assert (forall i o, sample_volume i = Some o ->
    In (i, o) [(2, VDir sample_root_dir); (8, VDir sample_tree_dir); (5, VFile 5000 file5);
               (7, VFile 49152 (file7_left ++ file7_right))]) as Hcases.
  { intros i o H. unfold sample_volume in H. cbn [In].
    destruct (Z.eqb_spec i 2) as [->|]; [injection H as <-; tauto|].
    destruct (Z.eqb_spec i 8) as [->|]; [injection H as <-; tauto|].
    destruct (Z.eqb_spec i 5) as [->|]; [injection H as <-; tauto|].
    destruct (Z.eqb_spec i 7) as [->|]; [injection H as <-; tauto|discriminate]. }
  constructor.
  - intros i o [[= <- _]|[[= <- _]|[[= <- _]|[[= <- _]|[]]]]]%Hcases; lia.
  - intros i ds [[= <- <-]|[[= <- <-]|[[=]|[[=]|[]]]]]%Hcases.
    + destruct (sample_dir_inode 2 2 ltac:(lia) ltac:(simpl; tauto)) as (di & Hr & Hd & Hb).
      exists di. split; [exact Hr|]. split; [exact Hd|].
      apply (dir_contents_mono _ _ 0); [lia|by apply sample_root_contents].
    + destruct (sample_dir_inode 2 8 ltac:(lia) ltac:(simpl; tauto)) as (di & Hr & Hd & Hb).
      exists di. split; [exact Hr|]. split; [exact Hd|by apply sample_tree_contents].
  - intros i size exts [[=]|[[=]|[[= <- <- <-]|[[= <- <- <-]|[]]]]]%Hcases.
    + destruct (sample_file_inode 5 5000 ltac:(simpl; tauto)) as (di & Hr & Hm & Hs & Hb).
      exists di, 0%nat. split; [exact Hr|]. split; [exact Hm|]. split; [exact Hs|]. split; [|lia].
      rewrite Hb. apply (leaf_b_sound _ _ _ 3). vm_compute. reflexivity.
    + destruct (sample_file_inode 7 49152 ltac:(simpl; tauto)) as (di & Hr & Hm & Hs & Hb).
      exists di, 1%nat. split; [exact Hr|]. split; [exact Hm|]. split; [exact Hs|]. split; [|lia].
      rewrite Hb. exact sample_file7.
  - reflexivity.
  - intros i size exts K blk Hi (x & Hx & Hr)%file_block_range.
    assert (30 <= addressXAD x /\ addressXAD x + lengthXAD x <= 58) as Hx'.
    { apply Hcases in Hi as [[=]|[[=]|[[= _ _ <-]|[[= _ _ <-]|[]]]]]; simpl in Hx;
        repeat destruct Hx as [<-|Hx]; try done; vm_compute; split; congruence. }
    change (s_bsize (jfs_sb sample_env)) with 4096. split_and!; [lia|lia|]. change (img_size (disk_image sample_env)) with (64 * 4096). lia.
Qed.

Lemma open_and_read_witness :
  exists s ns1 s2 port cache',
    diskfs_lookup_hard demo_libdiskfs (demo_hurd None) 2 sample_env (Some 1%positive) (ns s) 1
      [0x68; 0x65; 0x6C; 0x6C; 0x6F] 0 (Some None) = Ret (ns1, Some (Some 2%positive), None) /\
    diskfs_get_filemap 2 demo_pagerlib (set_ns ns1 s) 2 = Ret (s2, port) /\
    pager_read_page 2 (demo_hurd None) sample_env demo_store bcache_init s2 2 4096 =
      Ret (cache', 1, inr (file_page sample_image (31 * 4096) 4096 5000 4096)).
Proof.
  destruct (sample_dir_inode 2 2 ltac:(lia) ltac:(simpl; tauto)) as (di & Hr & _).
  assert (make_node (demo_hurd None) (nodes empty_cache) = Some 1%positive) as Hmk
    by (rewrite empty_cache_eq; reflexivity).
  destruct (lookup_new_file (demo_hurd None) 2 sample_env empty_cache 2 1 di empty_cache_ok eq_refl
    eq_refl (empty_cache_none 2) Hmk eq_refl Hr)
    as (s' & n & _ & Hsame & Hn & Hid & _ & Hf & _ & Hok & Hl & _).
  assert (forall q, q <> 1%positive -> nodes s' !! q = None) as Hother.
  { intros q Hq. specialize (Hsame q Hq). rewrite empty_cache_eq in Hsame. cbn [nodes] in Hsame.
    rewrite lookup_empty in Hsame. by destruct (nodes s' !! q). }
  destruct (open_and_read demo_libdiskfs (demo_hurd None) demo_pagerlib 2 sample_env demo_store
    sample_volume (Some 1%positive) (PState s' ∅ false 0 []) bcache_init 1 n sample_root_dir
    [0x68; 0x65; 0x6C; 0x6C; 0x6F] (Dent [0x68; 0x65; 0x6C; 0x6C; 0x6F] 5) 5000 file5 2 2 1 4096)
    as (ns1 & s2 & port & cache' & H1 & H2 & _ & H3 & _);
    [apply _|apply _|apply _|apply _|apply _|apply _|reflexivity|reflexivity|exact Hok|exact Hl| |reflexivity
    |exact holding_init|exact Hn|rewrite Hid; reflexivity|repeat constructor; lia|simpl; lia|reflexivity
    |repeat constructor; lia|vm_compute; reflexivity|reflexivity| | |reflexivity|reflexivity|lia|reflexivity|].
  - intros q m v Hm. destruct (decide (q = 1%positive)) as [->|Hq].
    + cbn [ns] in Hm. rewrite Hn in Hm. injection Hm as <-. rewrite Hf. discriminate.
    + cbn [ns] in Hm. by rewrite Hother in Hm.
  - intros q (m & Hm & Hmid). cbn [ns] in Hm. destruct (decide (q = 1%positive)) as [->|Hq].
    + rewrite Hn in Hm. injection Hm as <-. rewrite Hid in Hmid. discriminate.
    + by rewrite Hother in Hm.
  - cbn [make_node demo_hurd ns]. unfold demo_make_node. rewrite Hn, (Hother 2%positive) by discriminate. reflexivity.
  - exists (PState s' ∅ false 0 []), ns1, s2, port, cache'. split; [exact H1|]. split; [exact H2|exact H3].
Defined.
