(* ===== verification/BtStack.v ===== *)
(** * The B+-tree traversal stack

    The macros [BT_CLR], [BT_PUSH], [BT_POP], [BT_STACK] and [BT_GETSEARCH] of
    jfs_btree.h, and those for the pages of a search.  The translator's own descents do not keep a path, so nothing in
    it uses them; they are the interface the on-disk format's headers offer. *)

From S2P Require Import Prelude Layout.

(** ** Definitions *)

Definition MAXTREEHEIGHT : nat := 8.

(** [btframe_t]; [mp] stands for the metapage pointer. *)
Record btframe := BtFrame { bn : Z; index : Z; lastindex : Z; mp : Z }.

(** [btstack_t]; [top] is the index of the frame the pointer points to, 8 being
    one past the array. *)
Record btstack := BtStack { top : nat; nsplit : Z; stack : list btframe }.

Definition BT_CLR (b : btstack) : btstack := BtStack 0 (nsplit b) (stack b).

Definition BT_PUSH (b : btstack) (BN INDEX : Z) : res btstack :=
  let* f := of_option OutOfBounds (stack b !! top b) in
  let f := BtFrame (s64 BN) (s16 INDEX) (lastindex f) (mp f) in
  let b := BtStack (S (top b)) (nsplit b) (<[top b := f]> (stack b)) in
  if bool_decide (top b = MAXTREEHEIGHT) then Fault AssertFailed else Ret b.

(** The popped frame, if the stack is not empty, and the stack afterwards. *)
Definition BT_POP (b : btstack) : btstack * option btframe :=
  match top b with
  | O => (b, None)
  | S t => let b := BtStack t (nsplit b) (stack b) in (b, stack b !! t)
  end.

Definition BT_STACK (b : btstack) : option btframe :=
  match top b with O => None | S _ => stack b !! top b end.

(** [BN], [MP], whether [P] is the page of [MP] (and not the root in the inode),
    and [INDEX]. *)
Definition BT_GETSEARCH (leaf : btframe) : Z * Z * bool * Z :=
  (bn leaf, mp leaf, negb (bn leaf =? 0), index leaf).

(** ** Definitions: the pages of a search

    Metapages and what is done with them belong to the kernel the headers come from:
    [COMMIT_PAGE], the flags of a page and the functions on pages are parameters. *)

Inductive page_ref := InodeRoot | PageData (mp : Z).

Section Metapages.
Variables (COMMIT_PAGE : Z) (xflag : Z -> Z) (kernel : Type).
Variables (mark_inode_dirty : kernel -> kernel) (mark_metapage_dirty release_metapage : Z -> kernel -> kernel).

Definition BT_IS_ROOT (MP : Z) : bool := Z.land (xflag MP) COMMIT_PAGE =? 0.
Definition BT_PAGE (MP : Z) : page_ref := if BT_IS_ROOT MP then InodeRoot else PageData MP.
Definition BT_MARK_DIRTY (MP : Z) (k : kernel) : kernel :=
  if BT_IS_ROOT MP then mark_inode_dirty k else mark_metapage_dirty MP k.
Definition BT_PUTPAGE (MP : Z) (k : kernel) : kernel := if negb (BT_IS_ROOT MP) then release_metapage MP k else k.
Definition BT_PUTSEARCH (b : btstack) (k : kernel) : res kernel :=
  let* f := of_option OutOfBounds (stack b !! top b) in
  Ret (if negb (BT_IS_ROOT (mp f)) then release_metapage (mp f) k else k).
End Metapages.

(** ** Lemmas *)

Definition bt_ok (b : btstack) : Prop :=
  length (stack b) = MAXTREEHEIGHT /\ (top b < MAXTREEHEIGHT)%nat.

(** The frames pushed and not popped, the last first. *)
Definition path (b : btstack) : list (Z * Z) :=
  (fun f => (bn f, index f)) <$> reverse (take (top b) (stack b)).

(** Seven frames fit; pushing the eighth fails the assertion, although the array
    has room for it. *)
Theorem BT_PUSH_capacity (b : btstack) (BN INDEX : Z) :
  bt_ok b ->
  if decide (S (top b) = MAXTREEHEIGHT) then BT_PUSH b BN INDEX = Fault AssertFailed
  else exists b', BT_PUSH b BN INDEX = Ret b' /\ bt_ok b' /\ path b' = (s64 BN, s16 INDEX) :: path b.
Proof.
  intros [Hlen Htop]. unfold BT_PUSH.
  destruct (lookup_lt_is_Some_2 (stack b) (top b) ltac:(lia)) as [f Hf].
  rewrite Hf. cbn [of_option res_bind top]. case_decide as Hd.
  - by rewrite bool_decide_true.
  - rewrite bool_decide_false by done. eexists. split; [done|]. split.
    + split; cbn [stack top]; [by rewrite length_insert|lia].
    + unfold path. cbn [stack top]. rewrite take_S_r with (x := BtFrame (s64 BN) (s16 INDEX) (lastindex f) (mp f))
        by (apply list_lookup_insert_eq; lia).
      rewrite reverse_snoc, fmap_cons, take_insert_ge by lia. done.
Qed.

Theorem BT_POP_path (b : btstack) :
  bt_ok b ->
  let '(b', f) := BT_POP b in
  bt_ok b' /\ (fun f => (bn f, index f)) <$> f = head (path b) /\ path b' = tail (path b).
Proof.
  intros [Hlen Htop]. unfold BT_POP, path. destruct (top b) as [|t] eqn:Ht.
  - split; [split; lia|]. by rewrite Ht.
  - destruct (lookup_lt_is_Some_2 (stack b) t ltac:(lia)) as [f Hf].
    split; [split; cbn [stack top]; lia|]. cbn [stack top].
    rewrite (take_S_r _ _ _ Hf), reverse_snoc, Hf. done.
Qed.

(** Putting a search back is putting the page of the top frame back; a root is never
    released. *)
Lemma BT_PUTSEARCH_page (COMMIT_PAGE : Z) (xflag : Z -> Z) (kernel : Type) (release : Z -> kernel -> kernel)
    (b : btstack) (k : kernel) f :
  stack b !! top b = Some f ->
  BT_PUTSEARCH COMMIT_PAGE xflag kernel release b k = Ret (BT_PUTPAGE COMMIT_PAGE xflag kernel release (mp f) k) /\ (BT_PAGE COMMIT_PAGE xflag (mp f) = InodeRoot -> BT_PUTSEARCH COMMIT_PAGE xflag kernel release b k = Ret k).
Proof.
  intros Hf. unfold BT_PUTSEARCH, BT_PUTPAGE, BT_PAGE. rewrite Hf. cbn [of_option res_bind].
  by destruct (BT_IS_ROOT COMMIT_PAGE xflag (mp f)).
Qed.
