(* ===== verification/Translator.v ===== *)
(** * The translator process

    The start of [main] in jfs.c, and the constant callbacks of callbacks.c and
    storeinfo.c that make the file system read-only. *)

From stdpp Require Import gmap strings.
From S2P Require Import Prelude Layout Unicode Disk Xtree BufCache Sample Imap FileRead DirRead Node Pager.

(** ** Definitions: start-up *)

Definition JFS_NAME_MAX : Z := 255.
Definition JFS_LINK_MAX : Z := 65535.
Definition diskfs_link_max : Z := JFS_LINK_MAX.
Definition diskfs_name_max : Z := JFS_NAME_MAX.

(** What [main] starts with: null pointers, and the names libdiskfs reports; [PACKAGE]
    and [VERSION] are given by the build. *)
Record statics := Statics {
  diskfs_root_node : option positive; store : option store_t; store_parsed : option positive;
  diskfs_disk_name : option string; diskfs_server_name : string; diskfs_server_version : string;
  diskfs_extra_version : string }.
Definition initial_statics (PACKAGE VERSION : string) : statics :=
  Statics None None None None PACKAGE VERSION "GNU Hurd".

Definition diskfs_synchronous : bool := false.
Definition diskfs_maxsymlinks : Z := 8.
Definition diskfs_shortcut_symlink : bool := true.
Definition diskfs_readonly : bool := true.
Definition diskfs_hard_readonly : bool := true.

(** [store->size < SUPER1_OFF + sizeof jfs_sb - 1]; [jfs_sb] is a pointer of 4
    bytes.  The answer is only logged. *)
Definition device_too_small (st : store_t) : bool := store_size st <? SUPER1_OFF + 4 - 1.

Definition ROOT_INODE : Z := 2.

(** [main] up to [diskfs_startup_diskfs]: the environment, the state and
    [diskfs_root_node].  The return value of [diskfs_cached_lookup] is dropped. *)
Definition main_start (fuel : nat) (hd : hurd) (pl : pagerlib) (disk_pager : option positive)
    (img : image) (malloc_ok : Z -> bool) (s : pstate) : res (env * pstate * option positive) :=
  let* '(s, _) := create_disk_pager pl disk_pager s in
  let* sb := get_hypermetadata img in
  let e := Env img sb malloc_ok in
  let s := set_ns (inode_init (ns s)) s in
  let* '(nst, root, _) := diskfs_cached_lookup hd fuel e (ns s) ROOT_INODE in
  Ret (e, set_ns nst s, root).

(** [jfs_info] without DEBUG and LOGFILE, which no build file defines. *)
Definition jfs_info : Z := 0.

(** libc's keys and answer for [parse_opt], and the fields of its parser state
    that the function uses. *)
Record argp_abi := ArgpAbi { ARGP_KEY_INIT : Z; ARGP_KEY_SUCCESS : Z; ARGP_ERR_UNKNOWN : Z }.
Record argp_state := ArgpState { input : option positive; child_inputs : list (option positive) }.

(** The first child parser gets the input of the parent at ARGP_KEY_INIT; every
    key but two is left to other parsers. *)
Definition parse_opt (abi : argp_abi) (key : Z) (st : argp_state) : res (argp_state * Z) :=
  if key =? ARGP_KEY_INIT abi then
    match child_inputs st with
    | [] => Fault BufferOverflow
    | _ :: rest => Ret (ArgpState (input st) (input st :: rest), 0)
    end
  else if key =? ARGP_KEY_SUCCESS abi then Ret (st, 0)
  else Ret (st, ARGP_ERR_UNKNOWN abi).

(** The option tables of libdiskfs that the translator puts under its own, and a
    parser with its options (name and key) and children; both parsers share an empty
    table of options. *)
Inductive library_argp := diskfs_store_startup_argp | diskfs_std_runtime_argp.
Record argp := Argp {
  argp_options : list (string * Z);
  argp_parser : Z -> argp_state -> res (argp_state * Z);
  argp_children : list library_argp }.
Definition options : list (string * Z) := [].
Definition startup_children : list library_argp := [diskfs_store_startup_argp].
Definition startup_argp (abi : argp_abi) : argp := Argp options (parse_opt abi) startup_children.
Definition runtime_children : list library_argp := [diskfs_std_runtime_argp].
Definition runtime_argp (abi : argp_abi) : argp := Argp options (parse_opt abi) runtime_children.
Definition diskfs_runtime_argp : argp_abi -> argp := runtime_argp.

(** ** Definitions: callbacks

    [Ret] is the return of 0 or of a [void] function; none of them changes
    anything. *)

Definition pager_unlock_page : res unit := Err EROFS.
Definition diskfs_set_translator : res unit := Err EROFS.
Definition diskfs_get_translator : res unit := Err EOPNOTSUPP.
Definition pager_dropweak : res unit := Ret tt.
Definition diskfs_try_dropping_softrefs : res unit := Ret tt.
Definition diskfs_dirempty : res unit := Fault AbortCalled.
Definition diskfs_grow : res unit := Err EROFS.
Definition diskfs_reload_global_state : res unit := Ret tt.
Definition diskfs_alloc_node : res unit := Err EROFS.
Definition diskfs_file_update : res unit := Ret tt.
Definition diskfs_dirremove_hard : res unit := Fault AbortCalled.
Definition diskfs_drop_dirstat : res unit := Ret tt.
Definition diskfs_new_hardrefs : res unit := Ret tt.
Definition diskfs_dirstat_size : Z := 0.
Definition diskfs_null_dirstat : res unit := Ret tt.
Definition VM_PROT_READ : Z := 1.
Definition VM_PROT_EXECUTE : Z := 4.
Definition diskfs_max_user_pager_prot : Z := Z.lor VM_PROT_READ VM_PROT_EXECUTE.
Definition diskfs_write_disknode : res unit := Ret tt.
Definition diskfs_node_iterate : res unit := Ret tt.
Definition diskfs_free_node : res unit := Fault AbortCalled.
Definition diskfs_set_hypermetadata : res unit := Ret tt.
Definition diskfs_lost_hardrefs : res unit := Ret tt.
Definition diskfs_direnter_hard : res unit := Fault AbortCalled.
Definition diskfs_dirrewrite_hard : res unit := Fault AbortCalled.
Definition diskfs_truncate : res unit := Err EROFS.
Definition diskfs_node_reload : res unit := Ret tt.
Definition diskfs_validate_author_change : res unit := Err EROFS.
Definition diskfs_shutdown_pager : res unit := Ret tt.
Definition diskfs_S_file_get_storage_info : res unit := Err EOPNOTSUPP.

(** ** Lemmas *)

Lemma main_start_ok (fuel : nat) (hd : hurd) (pl : pagerlib) (disk_pager : option positive)
    (img : image) (mk : Z -> bool) (s : pstate) (sb : jfs_superblock) (u np : positive) (di : dinode_t) :
  HurdLaws hd -> nodes (ns s) = ∅ -> length (nodehash (ns s)) = Z.to_nat INOHSZ ->
  refcnt_lock (ns s) = false -> malloc_upi pl (upis s) = Some u -> mk sizeof_disknode = true ->
  make_node hd ∅ = Some np -> catch_exception hd = None -> get_hypermetadata img = Ret sb ->
  read_inode fuel (Env img sb mk) ROOT_INODE = Ret di -> is_dir di ->
  exists s' n st, main_start fuel hd pl disk_pager img mk s = Ret (Env img sb mk, s', Some np) /\
    cache_ok (ns s') /\ nodes (ns s') !! np = Some n /\ cache_id n = ROOT_INODE /\
    references n = 2 /\ locked n = false /\ dn_stat n = Some st /\ st_mode st = 0x41FF /\
    st_size st = di_size di /\ st_uid st = di_uid di /\
    upis s' !! u = Some (UserPagerInfo None DISK disk_pager).
Proof.
  intros Hlaws Hn Hlen Hl Hu Hmk Hnp Hcatch Hsb Hr Hd. unfold main_start, create_disk_pager.
  rewrite Hu. cbn [res_bind]. rewrite Hsb. cbn [res_bind ns set_upis set_ns].
  destruct (inode_init_ok (ns s) Hn Hlen) as [chain Hok].
  pose proof (cached_miss hd fuel (Env img sb mk) (inode_init (ns s)) ROOT_INODE chain Hok Hl) as Hmiss.
  cbn [nodes inode_init malloc_ok] in Hmiss. rewrite Hn, Hmk, Hnp in Hmiss.
  destruct Hmiss as (s1 & _ & Hok1 & Hl1 & (next & Hnext) & _ & _ & Heq).
  { intros p (n & Hpn & _). cbn in Hpn. by rewrite Hn, lookup_empty in Hpn. }
  rewrite Heq, (read_node_eq _ _ _ _ _ (new_node ROOT_INODE next)) by done.
  cbn [cache_id new_node]. rewrite Hr, Hcatch. cbn [res_bind].
  do 3 eexists. split; [done|]. cbn [ns set_ns upis]. split.
  { eexists. do 2 (apply hash_ok_update; [done|]). exact Hok1. }
  cbn [nodes update_node set_nodes]. rewrite !lookup_alter_eq, Hnext. split; [done|].
  unfold is_dir in Hd. change IFMT with S_IFMT in Hd. change IFDIR with S_IFDIR in Hd.
  split_and!; try done; cbn [inode_stat st_mode st_size].
  - unfold S_ISDIR. by rewrite Hd.
  - unfold S_ISLNK. by rewrite Hd.
  - apply lookup_insert_eq.
Qed.

(** A parser has a place for the input of every child, and then ARGP_KEY_INIT
    hands the parser's own input to the first. *)
Lemma argp_init_input (abi : argp_abi) (a : argp) (st : argp_state) :
  a = startup_argp abi \/ a = runtime_argp abi ->
  length (child_inputs st) = length (argp_children a) ->
  argp_parser a (ARGP_KEY_INIT abi) st = Ret (ArgpState (input st) [input st], 0).
Proof.
  intros [-> | ->] Hlen; cbn in Hlen |- *; unfold parse_opt; rewrite Z.eqb_refl;
    (destruct (child_inputs st) as [|c [|]]; try done).
Qed.

(** ** Properties *)

(** C29: mounting.  On a device with a JFS superblock whose inode 2 is a readable
    directory, [main] ends up with exactly that inode cached as the root node, a
    directory of mode 0777 with the inode's size and owner, unlocked, with two
    references, and a cache all of whose chains are well formed. *)
Theorem main_start_mounts_root (fuel : nat) (hd : hurd) (pl : pagerlib) (disk_pager : option positive)
    (img : image) (mk : Z -> bool) (s : pstate) (sb : jfs_superblock) (u np : positive) (di : dinode_t) :
  HurdLaws hd -> nodes (ns s) = ∅ -> length (nodehash (ns s)) = Z.to_nat INOHSZ ->
  refcnt_lock (ns s) = false -> malloc_upi pl (upis s) = Some u -> mk sizeof_disknode = true ->
  make_node hd ∅ = Some np -> catch_exception hd = None -> get_hypermetadata img = Ret sb ->
  read_inode fuel (Env img sb mk) ROOT_INODE = Ret di -> is_dir di ->
  exists s' n st, main_start fuel hd pl disk_pager img mk s = Ret (Env img sb mk, s', Some np) /\
    cache_ok (ns s') /\ nodes (ns s') !! np = Some n /\ cache_id n = ROOT_INODE /\
    references n = 2 /\ locked n = false /\ dn_stat n = Some st /\ st_mode st = 0x41FF /\
    st_size st = di_size di /\ st_uid st = di_uid di /\
    upis s' !! u = Some (UserPagerInfo None DISK disk_pager).
Proof. apply main_start_ok. Qed.

(** ** Witnesses *)

Lemma main_start_mounts_root_witness :
  exists s' n, main_start 1 (demo_hurd None) demo_pagerlib None sample_image (fun _ => true)
      (PState empty_cache ∅ false 0 []) = Ret (sample_env, s', Some 1%positive) /\
    nodes (ns s') !! 1%positive = Some n /\ cache_id n = 2.
Proof.
  destruct (sample_dir_inode 1 2 ltac:(lia) ltac:(simpl; tauto)) as (di & Hr & Hd & _).
  destruct (main_start_mounts_root 1 (demo_hurd None) demo_pagerlib None sample_image (fun _ => true)
    (PState empty_cache ∅ false 0 []) sample_sb 2 1 di) as (s' & n & st & H & _ & Hn & Hid & _);
    [apply _|reflexivity|rewrite empty_cache_eq; reflexivity|reflexivity|reflexivity|reflexivity
    |reflexivity|reflexivity|vm_compute; reflexivity|exact Hr|exact Hd|].
  exists s', n. split; [exact H|]. split; [exact Hn|exact Hid].
Defined.
