(* ===== verification/Server.v ===== *)
(** * The translator as a state machine

    Once started, the translator only acts when libdiskfs or libpager calls one
    of its handlers.  This file collects the calls that change its state in one
    step relation, in any order the libraries may choose, and proves what holds
    in every state they can lead to. *)

From stdpp Require Import gmap.
From S2P Require Import Prelude Layout Unicode Disk Xtree BufCache Sample Imap FileRead DirRead Node Dir Pager Volume Translator.

(** ** Definitions *)

(** The whole state: nodes, pager infos and page buffers. *)
Record server := Server { sv_pager : pstate; sv_buffers : bcache }.

Abbreviation sv_nodes sv := (nodes (ns (sv_pager sv))).

(** What a call says about references: [Looked npp] a lookup that stored [npp],
    [Refs np d] that the libraries took ([d] positive) or gave back references
    they hold themselves. *)
Inductive event := Looked (npp : option positive) | Refs (np : positive) (d : Z) | Freed (np : positive) | Other.

(** What the translator is linked with and runs on. *)
Record world := World {
  w_diskfs : libdiskfs; w_hurd : hurd; w_pager : pagerlib; w_store : store_t; w_env : env; w_fuel : nat }.

(** One call.  Every handler runs on the state as it is; what the libraries do
    around it is limited to what they document: they pass nodes and infos that
    exist, ask for a pager of a node they hold a reference to, lock and unlock
    nodes, count references, and forget a node that has none. *)
Inductive serve (w : world) (root : option positive) : event -> server -> server -> Prop :=
| serve_lookup_hard s b dp name type s' npp err :
    lookup_type_ok (w_diskfs w) type ->
    diskfs_lookup_hard (w_diskfs w) (w_hurd w) (w_fuel w) (w_env w) root (ns s) dp name type (Some None)
      = Ret (s', npp, err) ->
    serve w root (Looked (mjoin npp)) (Server s b) (Server (set_ns s' s) b)
| serve_cached_lookup s b inum s' npp err :
    diskfs_cached_lookup (w_hurd w) (w_fuel w) (w_env w) (ns s) inum = Ret (s', npp, err) ->
    serve w root (Looked npp) (Server s b) (Server (set_ns s' s) b)
| serve_get_filemap s b np n s' port :
    nodes (ns s) !! np = Some n -> 0 < references n ->
    diskfs_get_filemap 2 (w_pager w) s np = Ret (s', port) ->
    serve w root Other (Server s b) (Server s' b)
| serve_clear_user_data s b u upi s' :
    upis s !! u = Some upi ->
    (forall np n, up_np upi = Some np -> nodes (ns s) !! np = Some n ->
       0 < references n \/ 1 < light_references n \/ has_links n) ->
    pager_clear_user_data (w_pager w) s u = Ret s' ->
    serve w root Other (Server s b) (Server s' b)
| serve_softrefs s b may_cache np s' :
    pager_softrefs may_cache s np = Ret s' -> serve w root Other (Server s b) (Server s' b)
| serve_read_page s b u page b' lock out :
    pager_read_page (w_fuel w) (w_hurd w) (w_env w) (w_store w) b s u page = Ret (b', lock, out) ->
    serve w root Other (Server s b) (Server s b')
| serve_pager_users s b bucket bucket' s' users :
    diskfs_pager_users s bucket bucket' = Ret (s', users) ->
    serve w root Other (Server s b) (Server s' b)
| serve_lock s b np s' :
    mutex_lock np (ns s) = Ret s' -> serve w root Other (Server s b) (Server (set_ns s' s) b)
| serve_unlock s b np :
    serve w root Other (Server s b) (Server (set_ns (mutex_unlock np (ns s)) s) b)
| serve_references s b np n d :
    nodes (ns s) !! np = Some n -> 0 <= references n + d ->
    serve w root (Refs np d) (Server s b) (Server (set_ns (update_node np (add_reference d) (ns s)) s) b)
| serve_node_norefs s b np n s' :
    nodes (ns s) !! np = Some n -> references n = 0 -> light_references n = 0 ->
    diskfs_node_norefs (ns s) np = Ret s' ->
    serve w root (Freed np) (Server s b) (Server (set_ns s' s) b).

(** Sequences of calls. *)
Inductive serves (w : world) (root : option positive) : list event -> server -> server -> Prop :=
| serves_nil sv : serves w root [] sv sv
| serves_snoc l sv sv1 ev sv2 :
    serves w root l sv sv1 -> serve w root ev sv1 sv2 -> serves w root (l ++ [ev]) sv sv2.

(** The state [main] hands over to the libraries. *)
Inductive booted (w : world) (root : option positive) : server -> Prop :=
| booted_main disk_pager s0 s :
    nodes (ns s0) = ∅ -> length (nodehash (ns s0)) = Z.to_nat INOHSZ -> refcnt_lock (ns s0) = false ->
    upis s0 = ∅ -> node2pagelock s0 = false ->
    main_start (w_fuel w) (w_hurd w) (w_pager w) disk_pager (disk_image (w_env w)) (malloc_ok (w_env w)) s0
      = Ret (w_env w, s, root) ->
    booted w root (Server s bcache_init).

(** A library outside the repository that keeps its promises, a mounted device,
    and no exception. *)
Class WorldLaws (w : world) : Prop := {
  world_diskfs : LibDiskfsLaws (w_diskfs w);
  world_hurd : HurdLaws (w_hurd w);
  world_pager : PagerLibLaws (w_pager w);
  world_env : WfEnv (w_env w);
  world_catch : catch_exception (w_hurd w) = None }.

#[export] Existing Instances world_diskfs world_hurd world_pager world_env.

(** ** Specification *)

(** The info is the file pager's of node [np]. *)
Definition belongs (np : positive) (upi : user_pager_info) : Prop :=
  up_type upi = FILE_DATA /\ up_np upi = Some np.

#[export] Instance belongs_dec np upi : Decision (belongs np upi).
Proof. unfold belongs. apply _. Defined.

Definition pagers_of (m : gmap positive user_pager_info) (np : positive) : Z :=
  Z.of_nat (size (filter (fun x => belongs np x.2) m)).

(** The stat is the one of the inode; a node whose inode cannot be read has none. *)
Definition stat_ok (w : world) (n : node) : Prop :=
  dn_stat n =
  match read_inode (w_fuel w) (w_env w) (cache_id n) with
  | Ret di => Some (inode_stat (w_hurd w) (cache_id n) di)
  | _ => None
  end.

(** Pager infos and nodes fit together: a node has as many light references as
    file pagers, and these have a node that has been read. *)
Record pager_ok (s : pstate) : Prop := {
  po_fileinfo : fileinfo_ok s;
  po_live u upi : upis s !! u = Some upi -> up_type upi = FILE_DATA ->
    exists np n p, upi = UserPagerInfo (Some np) FILE_DATA (Some p) /\
      nodes (ns s) !! np = Some n /\ is_Some (dn_stat n);
  po_light np n : nodes (ns s) !! np = Some n -> light_references n = pagers_of (upis s) np }.

(** The invariant of the translator between two calls. *)
Record server_ok (w : world) (sv : server) : Prop := {
  so_cache : cache_ok (ns (sv_pager sv));
  so_refcnt_lock : refcnt_lock (ns (sv_pager sv)) = false;
  so_pagelock : node2pagelock (sv_pager sv) = false;
  so_pager : pager_ok (sv_pager sv);
  so_references np n : sv_nodes sv !! np = Some n -> 0 <= references n;
  so_stat np n : sv_nodes sv !! np = Some n -> stat_ok w n;
  so_buffers : holding (sv_buffers sv) None }.

(** ** Lemmas: counting pagers *)

Lemma pagers_of_insert m u upi np :
  m !! u = None -> pagers_of (<[u := upi]> m) np = pagers_of m np + (if decide (belongs np upi) then 1 else 0).
Proof.
  intros Hu. unfold pagers_of. rewrite map_filter_insert. cbn [snd]. case_decide.
  - rewrite map_size_insert_None; [lia|]. apply map_lookup_filter_None. by left.
  - rewrite delete_id by done. lia.
Qed.

Lemma pagers_of_delete m u upi np :
  m !! u = Some upi -> pagers_of (delete u m) np = pagers_of m np - (if decide (belongs np upi) then 1 else 0).
Proof.
  intros Hu. rewrite <- (insert_delete_id m u upi Hu) at 2. rewrite pagers_of_insert by apply lookup_delete_eq. lia.
Qed.

Lemma pagers_of_none m np : pagers_of m np = 0 -> forall u upi, m !! u = Some upi -> ~ belongs np upi.
Proof.
  intros H0 u upi Hu Hb. unfold pagers_of in H0.
  assert (filter (fun x => belongs np x.2) m = ∅) as He by (apply map_size_empty_inv; lia).
  apply (map_empty (filter (fun x => belongs np x.2) m)) with u in He as He'.
  apply map_lookup_filter_None in He' as [?|H]; [congruence|]. by destruct (H upi Hu).
Qed.

Lemma pagers_of_two m np u v a b :
  m !! u = Some a -> m !! v = Some b -> u <> v -> belongs np a -> belongs np b -> 2 <= pagers_of m np.
Proof.
  intros Hu Hv Hne Ha Hb. rewrite <- (insert_delete_id m u a Hu), pagers_of_insert by apply lookup_delete_eq.
  rewrite decide_True by done. rewrite <- (insert_delete_id (delete u m) v b) by (by rewrite lookup_delete_ne).
  rewrite pagers_of_insert by apply lookup_delete_eq. rewrite decide_True by done. unfold pagers_of. lia.
Qed.

(** ** Lemmas: lookups *)

(** What a lookup keeps of a node. *)
Definition kept (n n' : node) : Prop :=
  cache_id n' = cache_id n /\ light_references n' = light_references n /\ fileinfo n' = fileinfo n /\
  dn_stat n' = dn_stat n.

(** From [s] to [s'] nodes are only added, and get [gain] hard references. *)
Record evolves (w : world) (s s' : nstate) (gain : positive -> Z) : Prop := {
  ev_old q n : nodes s !! q = Some n ->
    exists n', nodes s' !! q = Some n' /\ kept n n' /\ references n' = references n + gain q;
  ev_new q n' : nodes s' !! q = Some n' -> nodes s !! q = None ->
    references n' = 1 + gain q /\ light_references n' = 0 /\ fileinfo n' = None /\ stat_ok w n';
  ev_none q : nodes s' !! q = None -> gain q = 0;
  ev_cache : cache_ok s';
  ev_lock : refcnt_lock s' = false }.

(** The reference a lookup hands out. *)
Definition handed (npp : option positive) (q : positive) : Z := if decide (npp = Some q) then 1 else 0.

Lemma kept_refl n : kept n n.
Proof. done. Qed.

Lemma stat_ok_kept w n n' : kept n n' -> stat_ok w n -> stat_ok w n'.
Proof. intros (Hi & _ & _ & Hs). unfold stat_ok. by rewrite Hs, Hi. Qed.

Lemma evolves_update w s np f d :
  cache_ok s -> refcnt_lock s = false -> is_Some (nodes s !! np) ->
  (forall n, links (f n) = links n /\ kept n (f n) /\ references (f n) = references n + d) ->
  evolves w s (update_node np f s) (fun q => if decide (np = q) then d else 0).
Proof.
  intros [chain Hok] Hl [m Hm] Hf. split; cbn [update_node set_nodes nodes]; [| | |exists chain|done].
  - intros q n Hn. destruct (decide (np = q)) as [->|Hq].
    + exists (f n). rewrite lookup_alter_eq, Hn. split; [done|]. apply Hf.
    + exists n. rewrite lookup_alter_ne by done. split; [done|]. split; [apply kept_refl|lia].
  - intros q n Hn Hnone. destruct (decide (np = q)) as [->|Hq]; [congruence|].
    rewrite lookup_alter_ne in Hn by done. congruence.
  - intros q Hq. case_decide; [subst q|done]. by rewrite lookup_alter_eq, Hm in Hq.
  - apply hash_ok_update; [|done]. intros n. destruct (Hf n) as (Hlk & (Hid & _) & _). done.
Qed.

Lemma evolves_trans w s s1 s2 g1 g2 :
  evolves w s s1 g1 -> evolves w s1 s2 g2 -> evolves w s s2 (fun q => g1 q + g2 q).
Proof.
  intros H1 H2. split.
  - intros q n Hn. destruct (ev_old _ _ _ _ H1 q n Hn) as (n1 & Hn1 & (A & B & C & D) & Hr1).
    destruct (ev_old _ _ _ _ H2 q n1 Hn1) as (n2 & Hn2 & (A' & B' & C' & D') & Hr2).
    exists n2. split; [done|]. split; [unfold kept; split_and!; congruence|lia].
  - intros q n' Hn' Hnone. destruct (nodes s1 !! q) as [n1|] eqn:Hn1.
    + destruct (ev_new _ _ _ _ H1 q n1 Hn1 Hnone) as (Hr1 & Hl1 & Hf1 & Hs1).
      destruct (ev_old _ _ _ _ H2 q n1 Hn1) as (n2 & Hn2 & Hk & Hr2).
      rewrite Hn' in Hn2. injection Hn2 as <-. pose proof Hk as (_ & ? & ? & _).
      split_and!; [lia|congruence|congruence|by eapply stat_ok_kept].
    + destruct (ev_new _ _ _ _ H2 q n' Hn' Hn1) as (Hr2 & Hl2 & Hf2 & Hs2).
      rewrite (ev_none _ _ _ _ H1 q Hn1). split_and!; [lia|done..].
  - intros q Hq. rewrite (ev_none _ _ _ _ H2 q Hq).
    destruct (nodes s1 !! q) as [n1|] eqn:Hn1; [|by rewrite (ev_none _ _ _ _ H1 q Hn1)].
    destruct (ev_old _ _ _ _ H2 q n1 Hn1) as (n2 & Hn2 & _). congruence.
  - apply H2.
  - apply H2.
Qed.

Lemma evolves_gain w s s' g g' : (forall q, g q = g' q) -> evolves w s s' g -> evolves w s s' g'.
Proof.
  intros He [Hold Hnew Hnone Hc Hl]. split; [| | |done|done].
  - intros q n Hn. rewrite <- He. by apply Hold.
  - intros q n' Hn' Hq. rewrite <- He. by apply Hnew.
  - intros q Hq. rewrite <- He. by apply Hnone.
Qed.

Lemma evolves_refl w s : cache_ok s -> refcnt_lock s = false -> evolves w s s (fun _ => 0).
Proof.
  intros Hok Hl. split; [|congruence|done|done|done]. intros q n Hn. exists n.
  split; [done|]. split; [apply kept_refl|lia].
Qed.

Section Lookups.
Context (w : world) (Hw : WorldLaws w).

(** A node was made for an uncached number and read. *)
Lemma evolves_read s s1 np inum next s2 err :
  same_but np s s1 -> nodes s !! np = None -> nodes s1 !! np = Some (new_node inum next) ->
  cache_ok s1 -> refcnt_lock s1 = false ->
  read_node (w_hurd w) (w_fuel w) (w_env w) s1 np = Ret (s2, err) -> evolves w s s2 (fun _ => 0).
Proof.
  intros Hs Hfresh Hnp [chain Hok] Hl Hr.
  destruct (read_node_effect _ _ _ _ _ _ _ _ Hok Hl Hr) as (Hok2 & Hs2 & (? & n2 & Hn1 & Hn2 & _ & Hr2 & _) & _).
  rewrite Hnp in Hn1. injection Hn1 as <-. assert (same_but np s s2) as Hs' by (by etrans).
  assert (references n2 = 1 /\ light_references n2 = 0 /\ fileinfo n2 = None /\ stat_ok w n2 /\ refcnt_lock s2 = false)
    as Hnew.
  { rewrite (read_node_eq _ _ _ _ _ _ Hnp Hl) in Hr. cbn [cache_id new_node] in Hr. rewrite world_catch in Hr.
    unfold stat_ok. destruct (read_inode (w_fuel w) (w_env w) inum) as [di|er|f|] eqn:Hi; try done;
      injection Hr as <- _; [|rewrite Hnp in Hn2]; [cbn in Hn2; rewrite lookup_alter_eq, Hnp in Hn2|];
      injection Hn2 as <-; cbn; by rewrite Hi. }
  split; [| |done|by exists chain|apply Hnew].
  - intros q n Hn. assert (q <> np) as Hq by congruence. specialize (Hs' q Hq). rewrite Hn in Hs'.
    destruct (nodes s2 !! q) as [n'|]; [|done]. injection Hs' as ???????. exists n'. split; [done|].
    unfold kept. split; [split_and!; congruence|lia].
  - intros q n' Hn' Hnone. destruct (decide (q = np)) as [->|Hq].
    + rewrite Hn2 in Hn'. injection Hn' as <-. rewrite Z.add_0_r. tauto.
    + specialize (Hs' q Hq). by rewrite Hn', Hnone in Hs'.
Qed.

Lemma cached_lookup_evolves s inum s' npp err :
  cache_ok s -> refcnt_lock s = false ->
  diskfs_cached_lookup (w_hurd w) (w_fuel w) (w_env w) s inum = Ret (s', npp, err) ->
  evolves w s s' (handed npp).
Proof.
  intros Hok Hl H. pose proof Hok as [chain Hch].
  destruct (hash_find_cached s chain inum Hch) as (head & o & _ & _ & Ho).
  destruct o as [p|]; [destruct Ho as (n & Hn & Hid)|].
  - rewrite (cached_hit _ _ _ _ _ p n) in H by done. destruct (locked n); [done|]. injection H as <- <- <-.
    assert (evolves w s (update_node p (add_reference 1) s) (fun q => if decide (p = q) then 1 else 0)) as H1
      by (apply evolves_update; [done|done|by exists n|done]).
    eapply evolves_gain; [|eapply evolves_trans; [exact H1|]].
    2: { apply evolves_update with (d := 0); [apply H1|apply H1|cbn; rewrite lookup_alter_eq, Hn; by eexists|].
         intros m. split; [done|]. split; [done|]. cbn. lia. }
    intros q. unfold handed. cbn beta. repeat case_decide; try lia; congruence.
  - pose proof (cached_miss (w_hurd w) (w_fuel w) (w_env w) s inum chain Hch Hl Ho) as Hmiss.
    destruct (if malloc_ok _ sizeof_disknode then _ else _) as [np|].
    2: { rewrite Hmiss in H. injection H as <- <- <-. eapply evolves_gain; [|by apply evolves_refl].
         intros q. unfold handed. by case_decide. }
    destruct Hmiss as (s1 & _ & Hok1 & Hl1 & (next & Hnp) & Hsame & Hfresh & Heq).
    rewrite Heq in H. apply res_bind_inv in H as ([s2 err2] & Hr & [= <- <- <-]).
    assert (evolves w s s2 (fun _ => 0)) as H2.
    { eapply evolves_read; [exact Hsame|exact Hfresh|exact Hnp|by eexists|done|exact Hr]. }
    eapply evolves_gain; [|eapply evolves_trans; [exact H2|]].
    2: { apply evolves_update with (d := 1); [apply H2|apply H2| |done].
         destruct (read_node_effect _ _ _ _ _ _ _ _ Hok1 Hl1 Hr) as (_ & _ & (? & n' & _ & Hn' & _) & _).
         by exists n'. }
    intros q. unfold handed. cbn beta. repeat case_decide; try lia; congruence.
Qed.

Lemma evolves_lock s np b :
  cache_ok s -> refcnt_lock s = false -> evolves w s (update_node np (set_locked b) s) (fun _ => 0).
Proof.
  intros Hok Hl. destruct (nodes s !! np) as [n|] eqn:Hn.
  - eapply evolves_gain; [|apply evolves_update with (d := 0); [done|done|by exists n|]].
    + intros q. cbn beta. by case_decide.
    + intros m. split; [done|]. split; [done|]. cbn. lia.
  - replace (update_node np (set_locked b) s) with s; [by apply evolves_refl|].
    unfold update_node, set_nodes. rewrite alter_id; [by destruct s|]. congruence.
Qed.

Lemma lookup_hard_evolves root s dp name type s' npp err :
  cache_ok s -> refcnt_lock s = false -> lookup_type_ok (w_diskfs w) type ->
  diskfs_lookup_hard (w_diskfs w) (w_hurd w) (w_fuel w) (w_env w) root s dp name type (Some None)
    = Ret (s', npp, err) ->
  evolves w s s' (handed (mjoin npp)).
Proof.
  intros Hok Hl Ht H. destruct (nodes s !! dp) as [dn|] eqn:Hdp;
    [|unfold diskfs_lookup_hard in H; by rewrite Hdp in H].
  rewrite (lookup_hard_eq (w_diskfs w) _ _ _ _ _ _ dn _ _ _ Hdp Ht) in H. cbv zeta in H.
  apply res_bind_inv in H as ([g err1] & _ & H).
  assert (evolves w s s (handed None)) as Hnone.
  { eapply evolves_gain; [|by apply evolves_refl]. intros q. unfold handed. by case_decide. }
  destruct err1 as [err1|]; [injection H as <- <- <-; exact Hnone|].
  assert (forall t t' npp err, cache_ok t -> refcnt_lock t = false ->
    cached_lookup_at (w_hurd w) (w_fuel w) (w_env w) t g (Some None) = Ret (t', npp, err) ->
    evolves w t t' (handed (mjoin npp))) as Hat.
  { intros t t' npp' err' Htok Htl Hc. unfold cached_lookup_at in Hc.
    apply res_bind_inv in Hc as (inum & _ & Hc). apply res_bind_inv in Hc as ([[t1 p] err1] & Hc & [= <- <- <-]).
    by eapply cached_lookup_evolves. }
  case_match; [case_match|case_match].
  - injection H as <- <- <-. exact Hnone.
  - apply res_bind_inv in H as ([[s1 npp1] er1] & Hc & H). apply res_bind_inv in H as (s2 & Hm & [= <- <- <-]).
    pose proof (evolves_lock s dp false Hok Hl) as Hun. fold (mutex_unlock dp s) in Hun.
    pose proof (Hat _ _ _ _ (ev_cache _ _ _ _ Hun) (ev_lock _ _ _ _ Hun) Hc) as Hlk.
    unfold mutex_lock in Hm. apply res_bind_inv in Hm as (m & _ & Hm). destruct (locked m); [done|].
    injection Hm as <-.
    eapply evolves_gain; [|eapply evolves_trans; [exact Hun|eapply evolves_trans; [exact Hlk|apply evolves_lock; apply Hlk]]].
    intros q. cbn. lia.
  - injection H as <- <- <-. rewrite nref_adds.
    eapply evolves_gain; [|apply evolves_update with (d := 1); [done|done|by exists dn|done]].
    intros q. unfold handed. cbn. repeat case_decide; congruence.
  - by eapply Hat.
Qed.

End Lookups.

(** ** Lemmas: pagers *)

(** What the pager operations leave alone. *)
Definition shape (n : node) : Z * Z * option stat_t * (option positive * slotref) :=
  (cache_id n, references n, dn_stat n, links n).

Definition same_shape (s s' : nstate) : Prop :=
  (forall q, shape <$> nodes s' !! q = shape <$> nodes s !! q) /\
  nodehash s' = nodehash s /\ refcnt_lock s' = refcnt_lock s.

#[export] Instance same_shape_preorder : PreOrder same_shape.
Proof.
  split; [done|]. intros s1 s2 s3 (H1 & H2 & H3) (H4 & H5 & H6).
  split; [intros q; by rewrite H4|]. split; congruence.
Qed.

Lemma same_shape_update s np f :
  (forall n, shape (f n) = shape n) -> same_shape s (update_node np f s).
Proof.
  intros Hf. split; [|done]. intros q. cbn. destruct (decide (np = q)) as [->|];
    [rewrite lookup_alter_eq|by rewrite lookup_alter_ne]. destruct (nodes s !! q); [|done]. cbn. by rewrite Hf.
Qed.

Lemma same_shape_cache s s' : same_shape s s' -> cache_ok s -> cache_ok s'.
Proof.
  intros (Hs & Hh & _) [chain Hok]. exists chain. eapply hash_ok_ext; [| |done|exact Hok]; intros q;
    specialize (Hs q); destruct (nodes s' !! q), (nodes s !! q); try done; unfold shape in Hs; cbn in *; congruence.
Qed.

Lemma same_shape_back s s' q n' :
  same_shape s s' -> nodes s' !! q = Some n' -> exists n, nodes s !! q = Some n /\ shape n = shape n'.
Proof.
  intros (Hs & _) Hn. specialize (Hs q). rewrite Hn in Hs. destruct (nodes s !! q) as [n|]; [|done].
  exists n. split; [done|]. by apply Some_inj in Hs.
Qed.

Lemma same_shape_forth s s' q n :
  same_shape s s' -> nodes s !! q = Some n -> exists n', nodes s' !! q = Some n' /\ shape n = shape n'.
Proof.
  intros (Hs & _) Hn. specialize (Hs q). rewrite Hn in Hs. destruct (nodes s' !! q) as [n'|]; [|done].
  exists n'. split; [done|]. by apply Some_inj in Hs.
Qed.

(** The parts of the state the invariant reads. *)
Lemma pager_ok_ext s s' :
  (forall q, (fun n => (fileinfo n, light_references n, dn_stat n)) <$> nodes (ns s') !! q =
             (fun n => (fileinfo n, light_references n, dn_stat n)) <$> nodes (ns s) !! q) ->
  upis s' = upis s -> pager_ok s -> pager_ok s'.
Proof.
  intros Hn Hu [Hf Hl Hc].
  assert (forall q n', nodes (ns s') !! q = Some n' -> exists n, nodes (ns s) !! q = Some n /\
    fileinfo n = fileinfo n' /\ light_references n = light_references n' /\ dn_stat n = dn_stat n') as Hback.
  { intros q n' Hq. specialize (Hn q). rewrite Hq in Hn. destruct (nodes (ns s) !! q) as [n|]; [|done].
    exists n. split; [done|]. by injection Hn. }
  split; rewrite ?Hu.
  - intros q n' u (n & Hq & Hfi & _)%Hback Hi. rewrite Hu. eapply Hf; [done|congruence].
  - intros u upi Hui Ht. destruct (Hl u upi Hui Ht) as (np & n & p & -> & Hq & Hs). specialize (Hn np).
    rewrite Hq in Hn. destruct (nodes (ns s') !! np) as [n'|] eqn:Hn'; [|done]. injection Hn as _ _ Hst.
    exists np, n', p. split; [done|]. split; [done|]. by rewrite Hst.
  - intros q n' (n & Hq & _ & <- & _)%Hback. by apply Hc.
Qed.

(** A node loses its pager, or its pager loses it. *)
Lemma pager_ok_forget s np :
  pager_ok s -> pager_ok (set_ns (update_node np (set_fileinfo None) (ns s)) s).
Proof.
  intros [Hf Hl Hc]. split; cbn [set_ns ns upis update_node set_nodes nodes].
  - intros q n u Hn Hi. cbn in Hn. destruct (decide (np = q)) as [->|Hq].
    + rewrite lookup_alter_eq in Hn. destruct (nodes (ns s) !! q); [|done]. by injection Hn as <-.
    + rewrite lookup_alter_ne in Hn by done. by eapply Hf.
  - intros u upi Hu Ht. destruct (Hl u upi Hu Ht) as (q & n & p & -> & Hn & Hs).
    exists q. destruct (decide (np = q)) as [->|Hq].
    + exists (set_fileinfo None n), p. by rewrite lookup_alter_eq, Hn.
    + exists n, p. by rewrite lookup_alter_ne.
  - intros q n Hn. destruct (decide (np = q)) as [->|Hq].
    + rewrite lookup_alter_eq in Hn. destruct (nodes (ns s) !! q) as [m|] eqn:Hm; [|done].
      injection Hn as <-. exact (Hc q m Hm).
    + rewrite lookup_alter_ne in Hn by done. by apply Hc.
Qed.

(** A node gets a new pager. *)
Lemma pager_ok_create s np n u p :
  pager_ok s -> nodes (ns s) !! np = Some n -> is_Some (dn_stat n) -> upis s !! u = None -> fileinfo n = None ->
  pager_ok (set_upis (<[u := UserPagerInfo (Some np) FILE_DATA (Some p)]> (upis s))
    (set_ns (update_node np (set_fileinfo (Some u)) (update_node np (add_light 1) (ns s))) s)).
Proof.
  intros [Hf Hl Hc] Hn Hs Hu Hfi.
  set (s' := set_upis _ _).
  assert (nodes (ns s') !! np = Some (set_fileinfo (Some u) (add_light 1 n))) as Hn'
    by (cbn; by rewrite !lookup_alter_eq, Hn).
  assert (forall q, q <> np -> nodes (ns s') !! q = nodes (ns s) !! q) as Hother
    by (intros q Hq; cbn; by rewrite !lookup_alter_ne).
  split.
  - intros q m v Hm Hv. cbn [s' set_upis upis]. destruct (decide (q = np)) as [->|Hq].
    + rewrite Hn' in Hm. injection Hm as <-. injection Hv as <-. exists p. apply lookup_insert_eq.
    + rewrite Hother in Hm by done. destruct (Hf q m v Hm Hv) as [p' Hp']. exists p'.
      cbn. rewrite lookup_insert_ne; [done|congruence].
  - intros v upi Hv Ht. change (upis s') with (<[u:=UserPagerInfo (Some np) FILE_DATA (Some p)]> (upis s)) in Hv.
    apply lookup_insert_Some in Hv as [[<- <-]|[Hne Hv]]; [by do 3 eexists|].
    destruct (Hl v upi Hv Ht) as (q & m & p' & -> & Hm & Hst). destruct (decide (q = np)) as [->|Hq].
    + do 3 eexists. split; [done|]. split; [exact Hn'|]. done.
    + exists q, m, p'. by rewrite Hother.
  - intros q m Hm. change (upis s') with (<[u:=UserPagerInfo (Some np) FILE_DATA (Some p)]> (upis s)).
    rewrite pagers_of_insert by done. unfold belongs. cbn. destruct (decide (q = np)) as [->|Hq].
    + rewrite Hn' in Hm. injection Hm as <-. cbn. rewrite decide_True by done. rewrite (Hc np n Hn). lia.
    + rewrite Hother in Hm by done. rewrite decide_False by (intros [_ ?]; congruence).
      rewrite (Hc q m Hm). lia.
Qed.

(** A pager info goes, with the light reference of its node. *)
Lemma pager_ok_delete s u np n p :
  pager_ok s -> upis s !! u = Some (UserPagerInfo (Some np) FILE_DATA p) -> nodes (ns s) !! np = Some n ->
  fileinfo n <> Some u ->
  pager_ok (set_upis (delete u (upis s)) (set_ns (update_node np (add_light (-1)) (ns s)) s)).
Proof.
  intros [Hf Hl Hc] Hu Hn Hne. set (s' := set_upis _ _).
  assert (nodes (ns s') !! np = Some (add_light (-1) n)) as Hn' by (cbn; by rewrite lookup_alter_eq, Hn).
  assert (forall q, q <> np -> nodes (ns s') !! q = nodes (ns s) !! q) as Hother
    by (intros q Hq; cbn; by rewrite lookup_alter_ne).
  split.
  - intros q m v Hm Hv. change (upis s') with (delete u (upis s)).
    assert (exists m0, nodes (ns s) !! q = Some m0 /\ fileinfo m0 = Some v) as (m0 & Hm0 & Hv0).
    { destruct (decide (q = np)) as [->|Hq]; [|rewrite Hother in Hm by done; by exists m].
      rewrite Hn' in Hm. injection Hm as <-. by exists n. }
    destruct (Hf q m0 v Hm0 Hv0) as [p' Hp']. exists p'. rewrite lookup_delete_ne; [done|]. intros <-.
    rewrite Hu in Hp'. injection Hp' as <- _. congruence.
  - intros v upi Hv Ht. change (upis s') with (delete u (upis s)) in Hv.
    apply lookup_delete_Some in Hv as [Hvu Hv]. destruct (Hl v upi Hv Ht) as (q & m & p' & -> & Hm & Hst).
    destruct (decide (q = np)) as [->|Hq].
    + do 3 eexists. split; [done|]. split; [exact Hn'|]. cbn. congruence.
    + exists q, m, p'. by rewrite Hother.
  - intros q m Hm. change (upis s') with (delete u (upis s)). rewrite (pagers_of_delete _ _ _ _ Hu).
    unfold belongs. cbn. destruct (decide (q = np)) as [->|Hq].
    + rewrite Hn' in Hm. injection Hm as <-. cbn. rewrite decide_True by done. rewrite (Hc np n Hn). lia.
    + rewrite Hother in Hm by done. rewrite decide_False by (intros [_ ?]; congruence).
      rewrite (Hc q m Hm). lia.
Qed.

(** A node without pager goes. *)
Lemma pager_ok_free s np n :
  pager_ok s -> nodes (ns s) !! np = Some n -> light_references n = 0 ->
  fileinfo n = None /\ (forall u upi, upis s !! u = Some upi -> ~ belongs np upi) /\
  pager_ok (set_ns (remove_state (ns s) np n) s).
Proof.
  intros [Hf Hl Hc] Hn H0. pose proof (Hc np n Hn) as Hlight. rewrite H0 in Hlight.
  pose proof (pagers_of_none _ _ (eq_sym Hlight)) as Hnone. split; [|split; [done|]].
  { destruct (fileinfo n) as [u|] eqn:Hi; [|done]. destruct (Hf np n u Hn Hi) as [p Hp].
    by destruct (Hnone u _ Hp). }
  set (s' := set_ns _ s).
  assert (nodes (ns s') !! np = None) as Hnp by apply remove_np.
  assert (forall q m, nodes (ns s') !! q = Some m -> exists m0, nodes (ns s) !! q = Some m0 /\ contents m = contents m0)
    as Hback.
  { intros q m Hm. assert (q <> np) as Hq by congruence.
    pose proof (remove_contents (ns s) np n q Hq) as Hk. cbn in Hm. rewrite Hm in Hk.
    destruct (nodes (ns s) !! q) as [m0|]; [|done]. exists m0. split; [done|]. by apply Some_inj in Hk. }
  split.
  - intros q m u (m0 & Hm0 & Hk)%Hback Hu. change (upis s') with (upis s). eapply Hf; [exact Hm0|].
    injection Hk. congruence.
  - intros u upi Hu Ht. destruct (Hl u upi Hu Ht) as (q & m & p & -> & Hm & Hs).
    assert (q <> np) as Hq by (intros ->; by eapply Hnone).
    pose proof (remove_contents (ns s) np n q Hq) as Hk. rewrite Hm in Hk.
    destruct (remove_heap (ns s) np n !! q) as [m'|] eqn:Hm'; [|done].
    apply Some_inj in Hk. exists q, m', p. split; [done|]. split; [exact Hm'|].
    injection Hk. congruence.
  - intros q m (m0 & Hm0 & Hk)%Hback. change (upis s') with (upis s). rewrite <- (Hc q m0 Hm0).
    by injection Hk.
Qed.

(** The triple of fields [pager_ok] reads, through a node update that leaves them. *)
Lemma pager_ok_update s np f :
  (forall n, fileinfo (f n) = fileinfo n /\ light_references (f n) = light_references n /\ dn_stat (f n) = dn_stat n) ->
  pager_ok s -> pager_ok (set_ns (update_node np f (ns s)) s).
Proof.
  intros Hf. apply pager_ok_ext; [|done]. intros q. cbn. destruct (decide (np = q)) as [->|];
    [rewrite lookup_alter_eq|by rewrite lookup_alter_ne].
  destruct (nodes (ns s) !! q) as [n|]; [|done]. cbn. by destruct (Hf n) as (-> & -> & ->).
Qed.

Section PagerSteps.
Context (pl : pagerlib) (Hpl : PagerLibLaws pl).

Lemma filemap_loop_keeps fuel s np n s' o :
  pager_ok s -> nodes (ns s) !! np = Some n -> is_Some (dn_stat n) -> 0 < references n ->
  filemap_loop fuel pl s np = Ret (s', o) ->
  pager_ok s' /\ same_shape (ns s) (ns s') /\ node2pagelock s' = match o with Some _ => node2pagelock s | None => false end.
Proof.
  revert s n. induction fuel as [|fuel IH]; intros s n Hok Hn Hs Hr H; [done|]. cbn [filemap_loop] in H.
  rewrite Hn in H. cbn [of_option res_bind] in H. destruct (fileinfo n) as [v|] eqn:Hfi.
  - destruct (po_fileinfo _ Hok np n v Hn Hfi) as [p Hp]. rewrite Hp in H. cbn [of_option res_bind up_p] in H.
    destruct (pager_get_port pl p =? MACH_PORT_NULL); [|by injection H as <- <-].
    set (s0 := set_ns (update_node np (set_fileinfo None) (ns s)) s) in *.
    destruct (IH s0 (set_fileinfo None n)) as (Hok' & Hsh & Hl); [by apply pager_ok_forget| |done|done|exact H|].
    { cbn. by rewrite lookup_alter_eq, Hn. }
    split; [done|]. split; [|exact Hl]. etrans; [|exact Hsh]. by apply same_shape_update.
  - apply res_bind_inv in H as (u & Hu & H). apply of_option_inv in Hu.
    pose proof (malloc_upi_fresh _ _ Hu) as Hfresh. rewrite nref_light_counts in H. cbn [count_pager npagers set_ns ns] in H.
    destruct (pager_create pl (npagers s)) as [p|] eqn:Hp.
    + pose proof (new_pager_right _ _ Hp). replace (_ =? _) with false in H by lia. injection H as <- <-.
      split; [|split; [|done]].
      * eapply pager_ok_ext; [| |by apply (pager_ok_create s np n u p)]; done.
      * cbn. etrans; by apply same_shape_update.
    + injection H as <- <-. cbn [unlock_pager set_ns ns count_pager node2pagelock].
      rewrite (nrele_light_counts _ _ (add_light 1 n)); [|cbn; by rewrite lookup_alter_eq, Hn|by left].
      split; [|split; [etrans; by apply same_shape_update|done]].
      eapply pager_ok_ext; [| |exact Hok]; [|done]. intros q. cbn. destruct (decide (np = q)) as [->|];
        [rewrite !lookup_alter_eq, Hn|by rewrite !lookup_alter_ne]. cbn. repeat f_equal; lia.
Qed.

Lemma get_filemap_keeps s np n s' port :
  pager_ok s -> node2pagelock s = false -> nodes (ns s) !! np = Some n -> 0 < references n ->
  diskfs_get_filemap 2 pl s np = Ret (s', port) ->
  pager_ok s' /\ same_shape (ns s) (ns s') /\ node2pagelock s' = false.
Proof.
  intros Hok Hl Hn Hr H. unfold diskfs_get_filemap, lock_pager in H. rewrite Hn in H. cbn [of_option res_bind] in H.
  apply res_bind_inv in H as (st & Hst & H). apply of_option_inv in Hst. case_match; [done|].
  rewrite Hl in H. cbn [res_bind] in H. apply res_bind_inv in H as ([s1 o] & Hloop & H).
  apply (filemap_loop_keeps 2 _ np n) in Hloop as (Hok1 & Hsh & Hlk);
    [|by apply (pager_ok_ext s)|exact Hn|by exists st|done].
  destruct o as [q|]; injection H as <- <-; [|done].
  split; [by apply (pager_ok_ext s1)|done].
Qed.

(** The state after a pager info was cleared, before the node may go. *)
Definition cleared (s : pstate) (u np : positive) (n : node) : pstate :=
  set_upis (delete u (upis s))
    (set_ns (update_node np (add_light (-1))
       (if bool_decide (fileinfo n = Some u) then update_node np (set_fileinfo None) (ns s) else ns s)) s).

Lemma cleared_node s u np n :
  nodes (ns s) !! np = Some n ->
  nodes (ns (cleared s u np n)) !! np =
    Some (add_light (-1) (if bool_decide (fileinfo n = Some u) then set_fileinfo None n else n)).
Proof.
  intros Hn. cbn. rewrite lookup_alter_eq. destruct (bool_decide _); cbn; [rewrite lookup_alter_eq|]; by rewrite Hn.
Qed.

Lemma cleared_ok s u np n p :
  pager_ok s -> upis s !! u = Some (UserPagerInfo (Some np) FILE_DATA p) -> nodes (ns s) !! np = Some n ->
  pager_ok (cleared s u np n) /\ same_shape (ns s) (ns (cleared s u np n)).
Proof.
  intros Hok Hu Hn. unfold cleared. case_bool_decide as Hd.
  - split; [|cbn; etrans; by apply same_shape_update].
    apply (pager_ok_delete (set_ns (update_node np (set_fileinfo None) (ns s)) s) u np (set_fileinfo None n) p);
      [by apply pager_ok_forget|done| |done]. cbn. by rewrite lookup_alter_eq, Hn.
  - split; [by eapply pager_ok_delete|by apply same_shape_update].
Qed.

(** [pager_clear_user_data] on a file pager: the node goes with its last
    reference. *)
Lemma clear_user_data_eq s u np n p :
  pager_ok s -> cache_ok (ns s) -> node2pagelock s = false ->
  upis s !! u = Some (UserPagerInfo (Some np) FILE_DATA p) -> nodes (ns s) !! np = Some n -> 0 <= references n ->
  0 < references n \/ 1 < light_references n \/ has_links n ->
  exists s', pager_clear_user_data pl s u = Ret s' /\ upis s' = delete u (upis s) /\ node2pagelock s' = false /\
    ((0 < references n \/ 1 < light_references n) /\ ns s' = ns (cleared s u np n) \/
     references n = 0 /\ light_references n = 1 /\
     exists m, nodes (ns (cleared s u np n)) !! np = Some m /\ light_references m = 0 /\
       ns s' = remove_state (ns (cleared s u np n)) np m).
Proof.
  intros Hok Hcache Hl Hu Hn Hr Hcase. unfold pager_clear_user_data, lock_pager. rewrite Hu, Hl.
  cbn [of_option res_bind up_type up_np ns]. rewrite Hn. cbn [of_option res_bind].
  set (n1 := if bool_decide (fileinfo n = Some u) then set_fileinfo None n else n).
  set (s1 := if bool_decide (fileinfo n = Some u) then update_node np (set_fileinfo None) (ns s) else ns s).
  assert (nodes s1 !! np = Some n1) as Hn1.
  { subst s1 n1. destruct (bool_decide _); [|done]. cbn. by rewrite lookup_alter_eq, Hn. }
  assert (references n1 = references n /\ light_references n1 = light_references n /\ dn_stat n1 = dn_stat n)
    as (Hr1 & Hl1 & Hs1) by (subst n1; by destruct (bool_decide _)).
  match goal with |- context [diskfs_nrele_light pl np ?x] => replace x with s1 end.
  2: { subst s1. by destruct (bool_decide _). }
  assert (1 <= light_references n) as Hge.
  { rewrite (po_light _ Hok np n Hn). rewrite <- (insert_delete_id (upis s) u _ Hu).
    rewrite pagers_of_insert by apply lookup_delete_eq. rewrite decide_True by done. unfold pagers_of. lia. }
  destruct (decide (0 < references n \/ 1 < light_references n)) as [Hc|Hc].
  - rewrite (nrele_light_counts np s1 n1 Hn1) by lia. eexists. split; [done|].
    split; [cbn; by destruct (bool_decide _)|]. split; [done|]. left. split; [done|].
    unfold cleared. fold s1. done.
  - pose proof (cleared_ok s u np n p Hok Hu Hn) as [Hcok Hsh].
    pose proof (cleared_node s u np n Hn) as Hm. fold n1 in Hm.
    pose proof (pager_ok_free _ _ _ Hcok Hm) as Hfree. cbn [light_references add_light] in Hfree.
    destruct (Hfree ltac:(lia)) as (Hfi & _ & _).
    assert (update_node np (add_light (-1)) s1 = ns (cleared s u np n)) as Heq by done.
    pose proof (norefs_eq (ns (cleared s u np n)) np _ Hm Hfi) as Hnr. rewrite <- Heq in Hnr.
    assert (has_links n1) as Hlinks
      by (unfold has_links in *; rewrite Hs1; destruct Hcase as [?|[?|?]]; [lia|lia|done]).
    rewrite (nrele_light_drops np s1 _ n1 Hn1 ltac:(lia) ltac:(lia) Hlinks Hnr).
    eexists. split; [done|]. split; [cbn; by destruct (bool_decide _)|]. split; [done|]. right.
    split; [lia|]. split; [lia|]. exists (add_light (-1) n1). rewrite Heq. split; [exact Hm|].
    split; [cbn; lia|done].
Qed.

End PagerSteps.

(** ** Lemmas: the invariant *)

Lemma pagers_of_zero m np : (forall u upi, m !! u = Some upi -> ~ belongs np upi) -> pagers_of m np = 0.
Proof.
  intros H. unfold pagers_of. replace (filter _ m) with (∅ : gmap positive user_pager_info);
    [by rewrite map_size_empty|]. symmetry. apply map_empty. intros u. apply map_lookup_filter_None.
  right. intros upi Hu. by apply (H u).
Qed.

Lemma server_ok_evolves w s b n' g :
  server_ok w (Server s b) -> evolves w (ns s) n' g -> (forall q, 0 <= g q) ->
  server_ok w (Server (set_ns n' s) b).
Proof.
  intros [Hcache Hl Hpl [Hf Hlive Hlight] Hr Hst Hb] Hev Hg. cbn [sv_pager sv_buffers] in *.
  assert (forall q m, nodes n' !! q = Some m ->
    (exists m0, nodes (ns s) !! q = Some m0 /\ kept m0 m /\ references m = references m0 + g q) \/
    (nodes (ns s) !! q = None /\ references m = 1 + g q /\ light_references m = 0 /\ fileinfo m = None /\ stat_ok w m))
    as Hcases.
  { intros q m Hm. destruct (nodes (ns s) !! q) as [m0|] eqn:Hm0.
    - left. destruct (ev_old _ _ _ _ Hev q m0 Hm0) as (m1 & Hm1 & Hk). rewrite Hm in Hm1. injection Hm1 as <-. eauto.
    - right. split; [done|]. by apply (ev_new _ _ _ _ Hev q). }
  split; cbn [sv_pager sv_buffers set_ns ns upis node2pagelock]; [apply Hev|apply Hev|done| | | |done].
  - split; cbn [set_ns ns upis].
    + intros q m u Hm Hu. destruct (Hcases q m Hm) as [(m0 & Hm0 & (_ & _ & Hfi & _) & _)|(_ & _ & _ & Hfi & _)];
        [|congruence]. eapply Hf; [exact Hm0|congruence].
    + intros u upi Hu Ht. destruct (Hlive u upi Hu Ht) as (q & m & p & -> & Hm & Hs).
      destruct (ev_old _ _ _ _ Hev q m Hm) as (m' & Hm' & (_ & _ & _ & Hd) & _).
      exists q, m', p. by rewrite Hd.
    + intros q m Hm. destruct (Hcases q m Hm) as [(m0 & Hm0 & (_ & -> & _) & _)|(Hnone & _ & -> & _)]; [by apply Hlight|].
      symmetry. apply pagers_of_zero. intros u upi Hu [Ht Hq].
      destruct (Hlive u upi Hu Ht) as (q' & m' & p & -> & Hm' & _). cbn in Hq. congruence.
  - intros q m Hm. specialize (Hg q). destruct (Hcases q m Hm) as [(m0 & Hm0 & _ & ->)|(_ & -> & _)]; [|lia].
    specialize (Hr q m0 Hm0). lia.
  - intros q m Hm. destruct (Hcases q m Hm) as [(m0 & Hm0 & Hk & _)|(_ & _ & _ & _ & ?)]; [|done].
    eapply stat_ok_kept; [exact Hk|by eapply Hst].
Qed.

Lemma stat_ok_shape w n n' : shape n = shape n' -> stat_ok w n -> stat_ok w n'.
Proof. intros [= Hi _ Hs _ _]. unfold stat_ok. by rewrite Hi, Hs. Qed.

Lemma server_ok_shape w s s' b :
  server_ok w (Server s b) -> same_shape (ns s) (ns s') -> pager_ok s' -> node2pagelock s' = false ->
  server_ok w (Server s' b).
Proof.
  intros [Hcache Hl _ _ Hr Hst Hb] Hsh Hok Hpl. cbn [sv_pager sv_buffers] in *.
  split; cbn [sv_pager sv_buffers]; [by eapply same_shape_cache| |done|done| | |done].
  - destruct Hsh as (_ & _ & ->). done.
  - intros q m Hm. destruct (same_shape_back _ _ _ _ Hsh Hm) as (m0 & Hm0 & [= _ <- _ _ _]). by eapply Hr.
  - intros q m Hm. destruct (same_shape_back _ _ _ _ Hsh Hm) as (m0 & Hm0 & Hs).
    eapply stat_ok_shape; [exact Hs|by eapply Hst].
Qed.

Lemma server_ok_free w s b np n :
  server_ok w (Server s b) -> nodes (ns s) !! np = Some n -> light_references n = 0 ->
  server_ok w (Server (set_ns (remove_state (ns s) np n) s) b).
Proof.
  intros [[chain Hcache] Hl Hpl Hok Hr Hst Hb] Hn H0. cbn [sv_pager sv_buffers] in *.
  destruct (pager_ok_free s np n Hok Hn H0) as (_ & _ & Hok').
  assert (forall q m, remove_heap (ns s) np n !! q = Some m ->
    exists m0, nodes (ns s) !! q = Some m0 /\ contents m = contents m0) as Hback.
  { intros q m Hm. assert (q <> np) as Hq by (intros ->; by rewrite remove_np in Hm).
    pose proof (remove_contents (ns s) np n q Hq) as Hk. rewrite Hm in Hk.
    destruct (nodes (ns s) !! q) as [m0|]; [|done]. exists m0. split; [done|]. by apply Some_inj in Hk. }
  split; cbn [sv_pager sv_buffers set_ns ns node2pagelock]; [|done|done|done| | |done].
  - destruct (remove_ok _ _ _ _ Hcache Hn) as [l Hok'']. by eexists.
  - intros q m (m0 & Hm0 & Hk)%Hback. assert (references m = references m0) as -> by (injection Hk; congruence).
    by eapply Hr.
  - intros q m (m0 & Hm0 & Hk)%Hback. eapply (stat_ok_kept w m0); [|by eapply Hst].
    injection Hk. unfold kept. intros. split_and!; congruence.
Qed.

Section Invariant.
Context (w : world) (root : option positive) (Hw : WorldLaws w).

Lemma handed_nonneg npp q : 0 <= handed npp q.
Proof. unfold handed. case_decide; lia. Qed.

Lemma softrefs_keeps may_cache s np s' :
  node2pagelock s = false -> pager_softrefs may_cache s np = Ret s' ->
  ns s' = ns s /\ upis s' = upis s /\ node2pagelock s' = false.
Proof.
  intros Hl H. unfold pager_softrefs, lock_pager in H. rewrite Hl in H. cbn [res_bind ns] in H.
  apply res_bind_inv in H as (n & _ & H). destruct (fileinfo n) as [u|]; [|by injection H as <-].
  apply res_bind_inv in H as (upi & _ & H). apply res_bind_inv in H as (pg & _ & H). by injection H as <-.
Qed.

Lemma enable_caching_keeps s bucket s' :
  enable_caching s bucket = Ret s' -> ns s' = ns s /\ upis s' = upis s /\ node2pagelock s' = node2pagelock s.
Proof.
  revert s. induction bucket as [|[p u] bucket IH]; intros s H; [by injection H as <-|].
  cbn [enable_caching] in H. apply res_bind_inv in H as (s1 & H1 & (-> & -> & ->)%IH).
  unfold enable_cache in H1. apply res_bind_inv in H1 as (upi & _ & H1).
  destruct (up_type upi); [by injection H1 as <-|]. apply res_bind_inv in H1 as (np & _ & H1). by injection H1 as <-.
Qed.

Lemma pager_users_keeps s bucket bucket' s' users :
  diskfs_pager_users s bucket bucket' = Ret (s', users) ->
  ns s' = ns s /\ upis s' = upis s /\ node2pagelock s' = node2pagelock s.
Proof.
  unfold diskfs_pager_users. rewrite block_caching_trace. case_match; [by intros [= <- _]|].
  case_match; [by intros [= <- _]|]. intros (s1 & H1 & H2)%res_bind_inv. injection H2 as <- _.
  by apply enable_caching_keeps in H1.
Qed.

Lemma read_page_pool s b u page b' lock out :
  holding b None ->
  pager_read_page (w_fuel w) (w_hurd w) (w_env w) (w_store w) b s u page = Ret (b', lock, out) -> holding b' None.
Proof.
  intros Hb H. unfold pager_read_page in H. apply res_bind_inv in H as (upi & _ & H).
  destruct (up_type upi); [by injection H as <- _ _|]. apply res_bind_inv in H as (np & _ & H).
  apply res_bind_inv in H as (n & _ & H). destruct (read_inode _ _ _) as [di|er|f|]; try done;
    [|by injection H as <- _ _]. apply res_bind_inv in H as ([b1 r] & Hx & H).
  apply res_bind_inv in H as (stt & _ & H). unfold xt_Lookup in Hx.
  pose proof (xt_Lookup_page_pool _ _ _ _ _ _ _ _ _ _ Hx Hb) as Hb1.
  case_match; [case_match; by injection H as <- _ _|].
  apply res_bind_inv in H as (xa & _ & H). case_match; by injection H as <- _ _.
Qed.

(** The disk pager's info is freed without a look at any node. *)
Lemma clear_disk_ok s b u upi s' :
  server_ok w (Server s b) -> upis s !! u = Some upi -> up_type upi = DISK ->
  pager_clear_user_data (w_pager w) s u = Ret s' -> server_ok w (Server s' b).
Proof.
  intros Hok Hu Ht H. unfold pager_clear_user_data in H. rewrite Hu in H. cbn [of_option res_bind] in H.
  rewrite Ht in H. injection H as <-. pose proof Hok as [_ _ Hpl [Hf Hlive Hlight] _ _ _]. cbn [sv_pager] in *.
  eapply server_ok_shape; [done|done| |done].
  assert (forall q, pagers_of (delete u (upis s)) q = pagers_of (upis s) q) as Hcnt.
  { intros q. rewrite (pagers_of_delete _ _ _ _ Hu), decide_False; [lia|]. intros [? _]. congruence. }
  split; cbn [set_upis upis ns].
  - intros q m v Hm Hv. destruct (Hf q m v Hm Hv) as [p Hp]. exists p. cbn.
    rewrite lookup_delete_ne; [done|]. intros <-. rewrite Hu in Hp. injection Hp as ->. done.
  - intros v upi' [_ Hv]%lookup_delete_Some Ht'. by apply (Hlive v).
  - intros q m Hm. rewrite Hcnt. by apply Hlight.
Qed.

Lemma clear_user_data_ok s b u upi s' :
  server_ok w (Server s b) -> upis s !! u = Some upi ->
  (forall np n, up_np upi = Some np -> nodes (ns s) !! np = Some n ->
     0 < references n \/ 1 < light_references n \/ has_links n) ->
  pager_clear_user_data (w_pager w) s u = Ret s' -> server_ok w (Server s' b).
Proof.
  intros Hok Hu Hg H. destruct (up_type upi) eqn:Ht; [by eapply clear_disk_ok|].
  pose proof Hok as [Hcache Hl Hpl Hpok Hr _ _]. cbn [sv_pager] in *.
  destruct (po_live _ Hpok u upi Hu Ht) as (np & n & p & -> & Hn & _).
  destruct (clear_user_data_eq (w_pager w) _ s u np n (Some p) Hpok Hcache Hpl Hu Hn (Hr np n Hn) (Hg np n eq_refl Hn))
    as (s1 & Hs1 & Hupis & Hlk & Hns).
  rewrite Hs1 in H. injection H as <-.
  destruct (cleared_ok s u np n (Some p) Hpok Hu Hn) as [Hcok Hsh].
  assert (server_ok w (Server (cleared s u np n) b)) as Hcl by (by eapply server_ok_shape).
  assert (forall sx, ns s1 = ns sx -> upis s1 = upis sx -> server_ok w (Server sx b) -> server_ok w (Server s1 b)) as Hext.
  { intros sx He1 He2 Hsx. eapply server_ok_shape; [exact Hsx|by rewrite He1| |done].
    eapply pager_ok_ext; [by rewrite He1|done|apply Hsx]. }
  destruct Hns as [[_ Hns]|(_ & _ & m & Hm & H0 & Hns)].
  - by apply (Hext (cleared s u np n)).
  - apply (Hext (set_ns (remove_state (ns (cleared s u np n)) np m) (cleared s u np n))); [done|done|].
    by apply server_ok_free.
Qed.

Lemma references_ok s b np n d :
  server_ok w (Server s b) -> nodes (ns s) !! np = Some n -> 0 <= references n + d ->
  server_ok w (Server (set_ns (update_node np (add_reference d) (ns s)) s) b).
Proof.
  intros [[chain Hc] Hl Hpl Hpok Hr Hst Hb] Hn Hd.
  split; cbn [sv_pager sv_buffers set_ns ns node2pagelock] in *; [|done|done|by apply pager_ok_update| | |done].
  - exists chain. by apply hash_ok_update.
  - intros q m Hm. cbn in Hm. destruct (decide (np = q)) as [->|Hq];
      [rewrite lookup_alter_eq, Hn in Hm; by injection Hm as <-|]. rewrite lookup_alter_ne in Hm by done. by eapply Hr.
  - intros q m Hm. cbn in Hm. destruct (decide (np = q)) as [->|Hq];
      [rewrite lookup_alter_eq, Hn in Hm; injection Hm as <-; by apply (Hst q n)|].
    rewrite lookup_alter_ne in Hm by done. by eapply Hst.
Qed.

(** Every handler preserves the invariant. *)
Lemma serve_ok ev sv sv' : server_ok w sv -> serve w root ev sv sv' -> server_ok w sv'.
Proof.
  intros Hok Hs. pose proof Hok as [Hcache Hl Hpl Hpok Hr Hst Hb].
  destruct Hs as [s b dp name type s' npp err Ht H|s b inum s' npp err H|s b np n s' port Hn Hrf H
    |s b u upi s' Hu Hg H|s b may_cache np s' H|s b u page b' lock out H|s b bucket bucket' s' users H
    |s b np s' H|s b np|s b np n d Hn Hd|s b np n s' Hn H0 H1 H]; cbn [sv_pager sv_buffers] in *.
  - eapply server_ok_evolves; [done|by eapply lookup_hard_evolves|apply handed_nonneg].
  - eapply server_ok_evolves; [done|by eapply cached_lookup_evolves|apply handed_nonneg].
  - destruct (get_filemap_keeps _ _ s np n s' port Hpok Hpl Hn Hrf H) as (? & ? & ?). by eapply server_ok_shape.
  - by eapply clear_user_data_ok.
  - destruct (softrefs_keeps may_cache s np s' Hpl H) as (He & Hu & ?).
    eapply server_ok_shape; [done|by rewrite He|by apply (pager_ok_ext s); rewrite ?He|done].
  - split; cbn [sv_pager sv_buffers]; try done. by eapply read_page_pool.
  - destruct (pager_users_keeps _ _ _ _ _ H) as (He & Hu & Hk).
    eapply server_ok_shape; [done|by rewrite He|by apply (pager_ok_ext s); rewrite ?He|congruence].
  - unfold mutex_lock in H. apply res_bind_inv in H as (n & Hn & H). destruct (locked n); [done|]. injection H as <-.
    eapply server_ok_evolves; [done|by apply evolves_lock|done].
  - eapply server_ok_evolves; [done|by apply evolves_lock|done].
  - by eapply references_ok.
  - destruct (pager_ok_free s np n Hpok Hn H1) as (Hfi & _ & _).
    rewrite (norefs_eq (ns s) np n Hn Hfi) in H. injection H as <-. by apply server_ok_free.
Qed.

Lemma serves_ok l sv sv' : server_ok w sv -> serves w root l sv sv' -> server_ok w sv'.
Proof. intros Hok. induction 1; [done|]. eauto using serve_ok. Qed.

End Invariant.

(** ** Lemmas: start-up *)

Section Boot.
Context (w : world) (root : option positive) (Hw : WorldLaws w).

Lemma booted_step sv :
  booted w root sv -> exists s1 n', server_ok w (Server s1 bcache_init) /\ nodes (ns s1) = ∅ /\
    evolves w (ns s1) n' (handed root) /\ sv = Server (set_ns n' s1) bcache_init.
Proof.
  intros [disk_pager s0 s Hn Hlen Hl Hu Hpl H]. unfold main_start in H.
  apply res_bind_inv in H as ([s1 u] & Hdisk & H). apply res_bind_inv in H as (sb & Hsb & H).
  apply res_bind_inv in H as ([[nst rt] err] & Hlook & [= He <- ->]). rewrite He in Hlook. cbn [set_ns ns] in *.
  unfold create_disk_pager in Hdisk. destruct (malloc_upi (w_pager w) (upis s0)) as [v|]; [|done].
  injection Hdisk as <- <-. cbn [set_upis ns] in *. rewrite Hu in *.
  set (s2 := set_ns (inode_init (ns s0)) (set_upis _ s0)) in *.
  assert (nodes (ns s2) = ∅) as Hempty by exact Hn.
  pose proof (inode_init_ok (ns s0) Hn Hlen) as Hcache.
  exists s2, nst. split; [|split; [done|split; [by eapply cached_lookup_evolves|done]]].
  split; cbn [sv_pager sv_buffers]; [done|done|done| | | |exact holding_init].
  - split.
    + intros np n x Hx. by rewrite Hempty, lookup_empty in Hx.
    + intros x upi Hx Ht. cbn in Hx. apply lookup_insert_Some in Hx as [[_ <-]|[_ Hx]]; [done|].
      by rewrite lookup_empty in Hx.
    + intros np n Hx. by rewrite Hempty, lookup_empty in Hx.
  - intros np n Hx. by rewrite Hempty, lookup_empty in Hx.
  - intros np n Hx. by rewrite Hempty, lookup_empty in Hx.
Qed.

Lemma reachable_ok l sv0 sv : booted w root sv0 -> serves w root l sv0 sv -> server_ok w sv.
Proof.
  intros Hb Hs. eapply serves_ok; [done| |done].
  destruct (booted_step _ Hb) as (s1 & n' & Hok & _ & Hev & ->).
  eapply server_ok_evolves; [done|done|apply handed_nonneg].
Qed.

(** ** Lemmas: references *)

Definition event_gain (ev : event) (q : positive) : Z :=
  match ev with
  | Looked npp => handed npp q
  | Refs np d => if decide (np = q) then d else 0
  | Freed _ | Other => 0
  end.

(** The hard references the libraries hold after the calls [l], the one of
    [diskfs_root_node] among them. *)
Definition held (l : list event) (q : positive) : Z :=
  handed root q + foldr (fun ev => Z.add (event_gain ev q)) 0 l.

(** The libraries never give back a reference they do not hold. *)
Definition honest (l : list event) : Prop := forall l1 l2 q, l = l1 ++ l2 -> 0 <= held l1 q.

Lemma held_snoc l ev q : held (l ++ [ev]) q = held l q + event_gain ev q.
Proof. unfold held. induction l as [|ev' l IH]; cbn in *; lia. Qed.

Lemma honest_prefix l1 l2 : honest (l1 ++ l2) -> honest l1.
Proof. intros H l q' q ->. apply (H l (q' ++ l2)). by rewrite app_assoc. Qed.

(** What a call does to nodes all of which are referenced. *)
Record accounted (s s' : nstate) (gain : positive -> Z) : Prop := {
  ac_old q n : nodes s !! q = Some n ->
    exists n', nodes s' !! q = Some n' /\ cache_id n' = cache_id n /\ references n' = references n + gain q;
  ac_new q n' : nodes s' !! q = Some n' -> nodes s !! q = None -> references n' = 1 + gain q;
  ac_none q : nodes s' !! q = None -> gain q = 0 }.

Lemma accounted_evolves s s' g : evolves w s s' g -> accounted s s' g.
Proof.
  intros H. split.
  - intros q n Hn. destruct (ev_old _ _ _ _ H q n Hn) as (n' & ? & (? & _) & ?). by exists n'.
  - intros q n' Hn' Hq. by apply (ev_new _ _ _ _ H q n').
  - apply H.
Qed.

Lemma accounted_shape s s' : same_shape s s' -> accounted s s' (fun _ => 0).
Proof.
  intros H. split; [| |done].
  - intros q n Hn. destruct (same_shape_forth _ _ _ _ H Hn) as (n' & ? & [= -> -> _ _ _]).
    exists n'. split_and!; [done|done|lia].
  - intros q n' Hn' Hq. destruct (same_shape_back _ _ _ _ H Hn') as (n & ? & _). congruence.
Qed.

Lemma serve_accounted ev sv sv' :
  server_ok w sv -> (forall q n, sv_nodes sv !! q = Some n -> 1 <= references n) ->
  serve w root ev sv sv' -> accounted (ns (sv_pager sv)) (ns (sv_pager sv')) (event_gain ev).
Proof.
  intros Hok Href Hs. pose proof Hok as [Hcache Hl Hpl Hpok _ _ _].
  assert (forall s, cache_ok s -> refcnt_lock s = false -> accounted s s (fun _ => 0)) as Hrefl
    by (intros; by apply accounted_evolves, evolves_refl).
  destruct Hs as [s b dp name type s' npp err Ht H|s b inum s' npp err H|s b np n s' port Hn Hrf H
    |s b u upi s' Hu Hg H|s b may_cache np s' H|s b u page b' lock out H|s b bucket bucket' s' users H
    |s b np s' H|s b np|s b np n d Hn Hd|s b np n s' Hn H0 H1 H]; cbn [sv_pager set_ns ns event_gain] in *.
  - by eapply accounted_evolves, lookup_hard_evolves.
  - by eapply accounted_evolves, cached_lookup_evolves.
  - apply accounted_shape. exact (proj1 (proj2 (get_filemap_keeps _ _ s np n s' port Hpok Hpl Hn Hrf H))).
  - destruct (up_type upi) eqn:Ht.
    { unfold pager_clear_user_data in H. rewrite Hu in H. cbn [of_option res_bind] in H. rewrite Ht in H.
      injection H as <-. by apply Hrefl. }
    destruct (po_live _ Hpok u upi Hu Ht) as (np & n & p & -> & Hn & _). specialize (Href np n Hn).
    destruct (clear_user_data_eq (w_pager w) _ s u np n (Some p) Hpok Hcache Hpl Hu Hn ltac:(lia) (Hg np n eq_refl Hn))
      as (s1 & Hs1 & _ & _ & Hns). rewrite Hs1 in H. injection H as <-.
    destruct Hns as [[_ ->]|(? & _)]; [|lia]. apply accounted_shape. exact (proj2 (cleared_ok s u np n (Some p) Hpok Hu Hn)).
  - destruct (softrefs_keeps may_cache s np s' Hpl H) as (-> & _). by apply Hrefl.
  - by apply Hrefl.
  - destruct (pager_users_keeps _ _ _ _ _ H) as (-> & _). by apply Hrefl.
  - unfold mutex_lock in H. apply res_bind_inv in H as (n & Hn & H). destruct (locked n); [done|].
    injection H as <-. by apply accounted_evolves, evolves_lock.
  - by apply accounted_evolves, evolves_lock.
  - apply accounted_evolves, evolves_update; [done|done|by exists n|done].
  - specialize (Href np n Hn). lia.
Qed.

(** The account of a node: one reference more than the libraries hold. *)
Definition account_ok (l : list event) (sv : server) : Prop :=
  forall q, match sv_nodes sv !! q with
            | Some n => references n = held l q + 1
            | None => held l q = 0
            end.

Lemma account_step l ev sv sv' :
  server_ok w sv -> honest l -> account_ok l sv -> serve w root ev sv sv' ->
  account_ok (l ++ [ev]) sv' /\ accounted (ns (sv_pager sv)) (ns (sv_pager sv')) (event_gain ev).
Proof.
  intros Hok Hh Hacc Hs. assert (accounted (ns (sv_pager sv)) (ns (sv_pager sv')) (event_gain ev)) as Ha.
  { eapply serve_accounted; [done| |done]. intros q n Hn. specialize (Hacc q). rewrite Hn in Hacc.
    specialize (Hh l [] q (eq_sym (app_nil_r l))). lia. }
  split; [|done]. intros q. rewrite held_snoc. specialize (Hacc q).
  destruct (sv_nodes sv !! q) as [n|] eqn:Hn.
  - destruct (ac_old _ _ _ Ha q n Hn) as (n' & -> & _ & ->). lia.
  - destruct (sv_nodes sv' !! q) as [n'|] eqn:Hn'.
    + rewrite (ac_new _ _ _ Ha q n' Hn' Hn). lia.
    + rewrite (ac_none _ _ _ Ha q Hn'). lia.
Qed.

Lemma account_booted sv : booted w root sv -> account_ok [] sv.
Proof.
  intros (s1 & n' & _ & Hempty & Hev & ->)%booted_step q. unfold held.
  cbn [sv_pager set_ns ns foldr]. destruct (nodes n' !! q) as [n|] eqn:Hn.
  - rewrite (proj1 (ev_new _ _ _ _ Hev q n Hn ltac:(by rewrite Hempty))). lia.
  - rewrite (ev_none _ _ _ _ Hev q Hn). lia.
Qed.

Lemma account_run l l' sv sv' :
  server_ok w sv -> account_ok l sv -> serves w root l' sv sv' -> honest (l ++ l') ->
  account_ok (l ++ l') sv' /\
  forall q n, sv_nodes sv !! q = Some n -> exists n', sv_nodes sv' !! q = Some n' /\ cache_id n' = cache_id n.
Proof.
  intros Hok Hacc Hs. induction Hs as [sv|l' sv sv1 ev sv2 Hs IH H]; intros Hh.
  - rewrite app_nil_r. split; [done|]. by eauto.
  - rewrite app_assoc in Hh |- *. pose proof (honest_prefix _ _ Hh) as Hh1.
    destruct (IH Hok Hacc Hh1) as [Hacc1 Hkeep].
    destruct (account_step _ ev sv1 sv2 (serves_ok _ _ _ _ _ _ Hok Hs) Hh1 Hacc1 H) as [Hacc2 Ha].
    split; [done|]. intros q n Hn. destruct (Hkeep q n Hn) as (n1 & Hn1 & Hid1).
    destruct (ac_old _ _ _ Ha q n1 Hn1) as (n2 & Hn2 & Hid2 & _). exists n2. split; [done|congruence].
Qed.

End Boot.

(** ** Properties *)

(** C10: the invariant of the translator.  In every state the libraries can lead
    it to after [main], whatever they call in whatever order, the node cache is
    well formed, both locks are free, every node has as many light references as
    file pagers and no negative count, every pager belongs to a node that has
    been read, every [fileinfo] is a live pager of its node, every [stat] is the
    one of the node's inode on the disk, and no page buffer is lost. *)
Theorem server_invariant (w : world) (root : option positive) (l : list event) (sv0 sv : server) :
  WorldLaws w -> booted w root sv0 -> serves w root l sv0 sv -> server_ok w sv.
Proof. intros Hw. by apply reachable_ok. Qed.

(** The end of a pager.  In every reachable state [pager_clear_user_data] on a
    file pager returns with its info gone.  A node with other references has one
    light reference less; a node that had only this one is gone from the cache. *)
Theorem clear_last_pager (w : world) (root : option positive) (l : list event) (sv0 sv : server)
    (u np : positive) (n : node) (p : option positive) :
  WorldLaws w -> booted w root sv0 -> serves w root l sv0 sv ->
  upis (sv_pager sv) !! u = Some (UserPagerInfo (Some np) FILE_DATA p) -> sv_nodes sv !! np = Some n ->
  0 < references n \/ 1 < light_references n \/ has_links n ->
  exists s', pager_clear_user_data (w_pager w) (sv_pager sv) u = Ret s' /\
    upis s' = delete u (upis (sv_pager sv)) /\ node2pagelock s' = false /\
    if decide (references n = 0 /\ light_references n = 1)
    then nodes (ns s') !! np = None /\ forall q, ~ cached (ns s') (cache_id n) q
    else exists n', nodes (ns s') !! np = Some n' /\ fileinfo n' <> Some u /\
           references n' = references n /\ light_references n' = light_references n - 1.
Proof.
  intros Hw Hb Hs Hu Hn Hcase. destruct (reachable_ok _ _ _ _ _ _ Hb Hs) as [Hcache _ Hpl Hpok Hr _ _].
  destruct (clear_user_data_eq (w_pager w) _ _ u np n p Hpok Hcache Hpl Hu Hn (Hr np n Hn) Hcase)
    as (s' & Heq & Hupis & Hlk & Hns).
  exists s'. do 3 (split; [done|]). pose proof (cleared_node (sv_pager sv) u np n Hn) as Hm.
  destruct Hns as [[Hc Hns]|(Hr0 & Hl1 & m & Hm' & _ & Hns)].
  - rewrite decide_False by lia. rewrite Hns. eexists. split; [exact Hm|]. by case_bool_decide.
  - rewrite decide_True by done. rewrite Hns. split; [apply remove_np|].
    destruct (cleared_ok _ u np n p Hpok Hu Hn) as [_ Hsh].
    destruct (same_shape_cache _ _ Hsh Hcache) as [chain Hok].
    intros q (x & (Hq & x' & Hx' & Hid)%remove_back & Hxid). apply Hq.
    eapply (hash_inj _ _ Hok); [exact Hx'|exact Hm'|].
    rewrite Hid, Hxid. rewrite Hm in Hm'. injection Hm' as <-. by case_bool_decide.
Qed.

(** C31: nodes are never forgotten.  Every lookup hands out one reference, but a
    node is made with one that nobody ever gets: as long as the libraries give
    back only what they hold, a cached node has exactly one hard reference more
    than they hold, so that it stays in the cache, under its number, for good. *)
Theorem nodes_are_kept_forever (w : world) (root : option positive) (l l' : list event) (sv0 sv sv' : server)
    (np : positive) (n : node) :
  WorldLaws w -> booted w root sv0 -> serves w root l sv0 sv -> serves w root l' sv sv' ->
  honest root (l ++ l') -> sv_nodes sv !! np = Some n ->
  exists n', sv_nodes sv' !! np = Some n' /\ cache_id n' = cache_id n /\
    references n' = held root (l ++ l') np + 1 /\ 0 < references n'.
Proof.
  intros Hw Hb Hs Hs' Hh Hn. pose proof (reachable_ok _ _ _ _ _ _ Hb Hs) as Hok.
  assert (server_ok w sv0) as Hok0 by (eapply reachable_ok; [done|exact Hb|apply serves_nil]).
  destruct (account_run w root Hw [] l sv0 sv Hok0 (account_booted _ _ _ _ Hb) Hs (honest_prefix _ _ _ Hh))
    as [Hacc _].
  destruct (account_run w root Hw l l' sv sv' Hok Hacc Hs' Hh) as [Hacc' Hkeep].
  destruct (Hkeep np n Hn) as (n' & Hn' & Hid). exists n'. specialize (Hacc' np). rewrite Hn' in Hacc'.
  specialize (Hh (l ++ l') [] np (eq_sym (app_nil_r _))). split_and!; [done|done|done|lia].
Qed.

(** ** Witnesses *)

(** The sample volume under a given Hurd. *)
Definition demo_world_of (hd : hurd) : world :=
  World demo_libdiskfs hd demo_pagerlib demo_store sample_env 2.

Definition demo_world : world := demo_world_of (demo_hurd None).

Lemma demo_world_of_laws hd : HurdLaws hd -> catch_exception hd = None -> WorldLaws (demo_world_of hd).
Proof. intros Hhd Hc. constructor; try apply _; assumption. Qed.

#[export] Instance demo_world_laws : WorldLaws demo_world.
Proof. apply demo_world_of_laws; [apply _|reflexivity]. Qed.

(** The sample volume is mounted; the root has two references. *)
Lemma boots hd np :
  HurdLaws hd -> catch_exception hd = None -> make_node hd ∅ = Some np ->
  exists sv n, booted (demo_world_of hd) (Some np) sv /\ sv_nodes sv !! np = Some n /\
    cache_id n = 2 /\ references n = 2 /\ fileinfo n = None /\ has_links n /\
    (exists st, dn_stat n = Some st /\ st_mode st = 0x41FF) /\
    upis (sv_pager sv) = {[2%positive := UserPagerInfo None DISK None]} /\
    (forall q, q <> np -> sv_nodes sv !! q = None) /\ locked n = false.
Proof.
  intros Hhd Hcatch Hmk. destruct (sample_inode_fuel 2 2 ltac:(lia) ltac:(lia)) as (di & Hr & Hg & _).
  assert (di_nlink di <> 0 /\ Z.land (di_mode di) S_IFMT = S_IFDIR) as [Hlinks Hdir]
    by (clear Hr; vm_compute in Hg; injection Hg as <-; split; [discriminate|reflexivity]).
  clear Hg. set (s1 := inode_init empty_cache). assert (nodes s1 = ∅) as Hempty by reflexivity.
  assert (cache_ok s1) as Hok by (apply inode_init_ok; by rewrite empty_cache_eq).
  destruct (lookup_new_file hd 2 sample_env s1 2 np di Hok eq_refl eq_refl)
    as (s' & n & Hl & Hsame & Hn & Hid & Href & Hfi & Hst & _ & _ & Hlk);
    [intros p (m & Hm & _); by rewrite Hempty, lookup_empty in Hm|by rewrite Hempty|exact Hcatch|exact Hr|].
  exists (Server (PState s' {[2%positive := UserPagerInfo None DISK None]} false 0 []) bcache_init), n.
  assert (main_start 2 hd demo_pagerlib None sample_image (fun _ => true) (PState empty_cache ∅ false 0 []) =
    Ret (sample_env, PState s' {[2%positive := UserPagerInfo None DISK None]} false 0 [], Some np)) as Hmain.
  { unfold main_start. assert (get_hypermetadata sample_image = Ret sample_sb) as -> by (vm_compute; reflexivity).
    assert (create_disk_pager demo_pagerlib None (PState empty_cache ∅ false 0 []) =
      Ret (PState empty_cache {[2%positive := UserPagerInfo None DISK None]} false 0 [], 2%positive)) as -> by reflexivity.
    cbn [res_bind ns set_ns]. change (Env sample_image sample_sb (fun _ => true)) with sample_env.
    fold s1. unfold ROOT_INODE. rewrite Hl. reflexivity. }
  split.
  { eapply booted_main; [| | | | |exact Hmain]; cbn [ns upis node2pagelock]; by rewrite ?empty_cache_eq. }
  cbn [sv_pager ns upis]. split; [exact Hn|]. split; [exact Hid|]. split; [exact Href|]. split; [exact Hfi|].
  split; [|split; [|split; [reflexivity|split; [|exact Hlk]]]].
  - exists (inode_stat hd 2 di). split; [exact Hst|exact Hlinks].
  - exists (inode_stat hd 2 di). split; [exact Hst|]. cbn [inode_stat st_mode]. unfold S_ISDIR. by rewrite Hdir.
  - intros q Hq. clearbody s1. specialize (Hsame q Hq). rewrite Hempty, lookup_empty in Hsame.
    clear - Hsame. by destruct (nodes s' !! q).
Qed.

Lemma demo_booted :
  exists sv n, booted demo_world (Some 1%positive) sv /\ sv_nodes sv !! 1%positive = Some n /\
    cache_id n = 2 /\ references n = 2 /\ fileinfo n = None /\ has_links n /\
    (exists st, dn_stat n = Some st /\ st_mode st = 0x41FF) /\
    upis (sv_pager sv) = {[2%positive := UserPagerInfo None DISK None]} /\
    (forall q, q <> 1%positive -> sv_nodes sv !! q = None) /\ locked n = false.
Proof. apply boots; [apply _|reflexivity|reflexivity]. Qed.

Lemma server_invariant_witness :
  exists sv0 sv, booted demo_world (Some 1%positive) sv0 /\
    serves demo_world (Some 1%positive) [Refs 1 (-1)] sv0 sv /\ server_ok demo_world sv.
Proof.
  destruct demo_booted as ([s b] & n & Hb & Hn & _ & Href & _).
  assert (serves demo_world (Some 1%positive) [Refs 1 (-1)] (Server s b)
    (Server (set_ns (update_node 1 (add_reference (-1)) (ns s)) s) b)) as Hs.
  { apply (serves_snoc _ _ []) with (Server s b); [constructor|]. apply (serve_references _ _ s b 1 n (-1)); [exact Hn|lia]. }
  eexists _, _. split; [exact Hb|]. split; [exact Hs|].
  exact (server_invariant demo_world (Some 1%positive) _ _ _ _ Hb Hs).
Defined.

Lemma nodes_are_kept_forever_witness :
  exists sv n, serves demo_world (Some 1%positive) [Refs 1 (-1)] sv
      (Server (set_ns (update_node 1 (add_reference (-1)) (ns (sv_pager sv))) (sv_pager sv)) (sv_buffers sv)) /\
    alter (add_reference (-1)) 1%positive (sv_nodes sv) !! 1%positive = Some n /\ cache_id n = 2 /\ references n = 1.
Proof.
  destruct demo_booted as ([s b] & n & Hb & Hn & Hid & Href & _).
  assert (serves demo_world (Some 1%positive) [Refs 1 (-1)] (Server s b)
    (Server (set_ns (update_node 1 (add_reference (-1)) (ns s)) s) b)) as Hs.
  { apply (serves_snoc _ _ []) with (Server s b); [constructor|]. apply (serve_references _ _ s b 1 n (-1)); [exact Hn|lia]. }
  destruct (nodes_are_kept_forever demo_world (Some 1%positive) [] [Refs 1 (-1)] _ _ _ 1 n _ Hb (serves_nil _ _ _) Hs)
    as (n' & Hn' & Hid' & Href' & _); [|exact Hn|].
  - intros l1 l2 q Hl. destruct l1 as [|ev l1]; [unfold held; cbn; pose proof (handed_nonneg (Some 1%positive) q); lia|].
    injection Hl as <- Hl. apply eq_sym, app_eq_nil in Hl as [-> ->]. unfold held. cbn. unfold handed.
    repeat case_decide; congruence || lia.
  - exists (Server s b), n'. split; [exact Hs|]. split; [exact Hn'|]. split; [congruence|exact Href'].
Defined.

(** The root gets a pager, loses its hard references, and then the pager. *)
Lemma clear_last_pager_witness :
  exists s s', pager_clear_user_data demo_pagerlib s 3 = Ret s' /\ nodes (ns s') !! 1%positive = None.
Proof.
  destruct demo_booted as ([s b] & n & Hb & Hn & Hid & Href & Hfi & Hlinks & (stt & Hst & Hmode) & Hu & _).
  cbn [sv_pager] in Hn, Hu.
  pose proof (reachable_ok _ _ _ [] _ _ Hb (serves_nil _ _ _)) as [_ _ Hpl Hpok _ _ _]. cbn [sv_pager] in Hpl, Hpok.
  assert (light_references n = 0) as Hlight by (rewrite (po_light _ Hpok 1%positive n Hn), Hu; reflexivity).
  assert (malloc_upi demo_pagerlib (upis s) = Some 3%positive) as Hmal by (rewrite Hu; reflexivity).
  destruct (diskfs_get_filemap_ok demo_pagerlib s 1 3 n stt 2 _ Hn Hst) as (s1 & port & Hget & _ & _ & Hres);
    [by rewrite Hmode|done|apply Hpok|lia|done|lia|].
  unfold live_port in Hres. rewrite Hfi in Hres. cbn [mbind option_bind pager_create demo_pagerlib] in Hres.
  destruct Hres as (_ & _ & Hn1 & Hu1).
  set (s2 := set_ns (update_node 1 (add_reference (-2)) (ns s1)) s1).
  assert (serves demo_world (Some 1%positive) [Other; Refs 1 (-2)] (Server s b) (Server s2 b)) as Hs.
  { apply (serves_snoc _ _ [Other]) with (Server s1 b); [apply (serves_snoc _ _ []) with (Server s b); [constructor|]|].
    - apply (serve_get_filemap _ _ s b 1 n s1 port); [exact Hn|lia|exact Hget].
    - apply (serve_references _ _ s1 b 1 _ (-2) Hn1). cbn. lia. }
  assert (nodes (ns s2) !! 1%positive = Some (add_reference (-2) (set_fileinfo (Some 3%positive) (add_light 1 n)))) as Hn2
    by (cbn; by rewrite lookup_alter_eq, Hn1).
  assert (upis s2 !! 3%positive = Some (UserPagerInfo (Some 1%positive) FILE_DATA (Some (Pos.of_succ_nat (npagers s)))))
    as Hu2 by (cbn; rewrite Hu1; apply lookup_insert_eq).
  destruct (clear_last_pager demo_world (Some 1%positive) _ _ (Server s2 b) 3 1 _ _ _ Hb Hs Hu2 Hn2)
    as (s' & H & _ & _ & Hgone); [by right; right|].
  rewrite decide_True in Hgone by (cbn; lia). exists s2, s'. split; [exact H|exact (proj1 Hgone)].
Defined.
