(* ===== verification/Session.v ===== *)
(** * Serving a volume

    What a client of the running translator sees of the volume it serves: in
    every state the calls of Server can lead to, nodes show the attributes of
    their objects, pagers deliver their bytes, and looking a path up component by
    component leads to the object the path denotes, cached or not. *)

From stdpp Require Import gmap.
From S2P Require Import Prelude Layout Unicode Disk Xtree BufCache Sample Imap FileRead DirRead Node Dir Pager Volume Translator Server.

(** ** Specification *)

(** The object a path denotes, by the volume alone. *)
Fixpoint resolve_path (vol : volume) (i : Z) (names : list (list Z)) : option Z :=
  match names with
  | [] => Some i
  | name :: names' =>
      match vol i with
      | Some (VDir ds) => d ← resolve ds name; resolve_path vol (d_inumber d) names'
      | _ => None
      end
  end.

(** The path leads through directories with entries; all names are ASCII and do
    not start with a dot. *)
Fixpoint path_ok (vol : volume) (i : Z) (names : list (list Z)) : Prop :=
  match names with
  | [] => is_Some (vol i)
  | name :: names' =>
      exists ds, vol i = Some (VDir ds) /\ ds <> [] /\ ascii_name name /\ (length name <= 255)%nat /\
        is_dot name 0 = false /\ Forall (fun d => ascii_name (d_units d)) ds /\
        forall d, resolve ds name = Some d -> path_ok vol (d_inumber d) names'
  end.

(** A client walks a path: it looks each name up in the directory it has, and
    unlocks the node it gets. *)
Fixpoint walk (w : world) (root : option positive) (s : nstate) (dp : positive) (names : list (list Z))
    : res (nstate * positive) :=
  match names with
  | [] => Ret (s, dp)
  | name :: names' =>
      let* '(s, npp, err) :=
        diskfs_lookup_hard (w_diskfs w) (w_hurd w) (w_fuel w) (w_env w) root s dp name
          (LOOKUP (w_diskfs w)) (Some None) in
      match err, mjoin npp with
      | Some err, _ => Err err
      | None, Some np => walk w root (mutex_unlock np s) np names'
      | None, None => Fault NullDeref
      end
  end.

(** The node shows the object its number stands for. *)
Definition shows (vol : volume) (n : node) : Prop :=
  forall o, vol (cache_id n) = Some o -> exists st, dn_stat n = Some st /\
    match o with
    | VDir _ => st_mode st = Z.lor S_IFDIR 0x1FF
    | VFile size _ => st_mode st = Z.lor S_IFREG 0x1B6 /\ st_size st = size
    end.

(** No thread has a node locked. *)
Definition idle (s : nstate) : Prop := forall q n, nodes s !! q = Some n -> locked n = false.

(** ** Lemmas *)

Section Session.
Context (w : world) (root : option positive) (vol : volume).
Context (Hw : WorldLaws w) (Hvol : HoldsVolume (w_env w) (w_fuel w) vol).

Lemma vol_inode i o :
  vol i = Some o -> exists di, read_inode (w_fuel w) (w_env w) i = Ret di /\
    match o with
    | VDir _ => Z.land (di_mode di) S_IFMT = S_IFDIR
    | VFile size _ => Z.land (di_mode di) S_IFMT = S_IFREG /\ di_size di = size
    end.
Proof.
  intros Hi. destruct o as [ds|size exts].
  - destruct (vol_dir _ _ Hi) as (di & Hr & Hd & _). by exists di.
  - destruct (vol_file _ _ _ Hi) as (di & h & Hr & Hm & Hs & _). by exists di.
Qed.

Lemma stat_shows n : stat_ok w n -> shows vol n.
Proof.
  intros Hs o Ho. destruct (vol_inode _ _ Ho) as (di & Hr & Hdi). unfold stat_ok in Hs. rewrite Hr in Hs.
  eexists. split; [exact Hs|]. cbn [inode_stat st_mode st_size]. unfold S_ISDIR, S_ISLNK. destruct o as [ds|size exts].
  - by rewrite Hdi.
  - destruct Hdi as [-> ->]. done.
Qed.

(** An entry that is not there. *)
Lemma dir_lookup_unresolved name ds :
  ascii_name name -> Forall (fun d => ascii_name (d_units d)) ds -> ds <> [] ->
  resolve ds name = None -> dir_lookup name ds None = Some (u64 (-1)).
Proof.
  intros Hn Hall Hne Hr. unfold resolve in Hr.
  destruct (list_find _ ds) as [[]|] eqn:E; [done|]. apply list_find_None in E.
  apply dir_lookup_none; [|done]. rewrite Forall_forall in E, Hall |- *. intros d Hd Hm. apply (E d Hd).
  apply name_matches_ascii in Hm; [done|done|by apply Hall].
Qed.

(** A lookup in a directory of the volume. *)
Lemma lookup_in_volume s dp dn ds name :
  nodes s !! dp = Some dn -> vol (cache_id dn) = Some (VDir ds) -> ds <> [] -> ascii_name name ->
  (length name <= 255)%nat -> is_dot name 0 = false -> Forall (fun d => ascii_name (d_units d)) ds ->
  (forall d, resolve ds name = Some d -> is_Some (vol (d_inumber d))) ->
  diskfs_lookup_hard (w_diskfs w) (w_hurd w) (w_fuel w) (w_env w) root s dp name (LOOKUP (w_diskfs w)) (Some None) =
  match resolve ds name with
  | Some d =>
      let* '(s, p, err) := diskfs_cached_lookup (w_hurd w) (w_fuel w) (w_env w) s (d_inumber d) in
      Ret (s, Some p, err)
  | None => Ret (s, Some None, Some ENOENT)
  end.
Proof.
  intros Hdp Hv Hne Hname Hlen Hdot Hall Hmem. destruct (vol_dir _ _ Hv) as (ddi & Hdr & Hisdir & Hcont).
  rewrite (lookup_plain (w_diskfs w) (w_hurd w) (w_fuel w) (w_env w) root s dp dn ddi (w_fuel w) ds) by
    (done || apply _ || by left).
  destruct (resolve ds name) as [d|] eqn:Hr.
  - rewrite (dir_lookup_resolve _ _ _ d) by done. destruct (Hmem d eq_refl) as [o Ho].
    pose proof (vol_number _ _ Ho). replace (_ =? u64 (-1)) with false; [done|].
    change (u64 (-1)) with (2 ^ 64 - 1). lia.
  - rewrite dir_lookup_unresolved by done. done.
Qed.

(** Looking a number of the volume up, when there is memory and nobody holds the
    lock of its node. *)
Lemma cached_lookup_total s i o :
  cache_ok s -> refcnt_lock s = false -> (forall q n, nodes s !! q = Some n -> cache_id n = i -> locked n = false) ->
  (forall h, is_Some (make_node (w_hurd w) h)) -> vol i = Some o ->
  exists s' np n, diskfs_cached_lookup (w_hurd w) (w_fuel w) (w_env w) s i = Ret (s', Some np, None) /\
    nodes s' !! np = Some n /\ cache_id n = i /\
    forall q m, q <> np -> nodes s' !! q = Some m -> exists m0, nodes s !! q = Some m0 /\ locked m0 = locked m.
Proof.
  intros Hok Hl Hfree Hmem Ho. destruct (vol_inode _ _ Ho) as (di & Hr & _).
  pose proof Hok as [chain Hch]. destruct (hash_find_cached s chain i Hch) as (head & o' & _ & _ & Hfind).
  destruct o' as [p|]; [destruct Hfind as (n & Hn & Hid)|].
  - eexists _, p, _. rewrite (cached_hit _ _ _ _ _ p n) by done. rewrite (Hfree p n Hn Hid). split; [done|].
    cbn [update_node set_nodes nodes]. rewrite !lookup_alter_eq, Hn. split; [done|].
    split; [done|]. intros q m Hq. rewrite !lookup_alter_ne by done. intros Hm. by exists m.
  - destruct (Hmem (nodes s)) as [np Hmk].
    destruct (lookup_new_file (w_hurd w) (w_fuel w) (w_env w) s i np di Hok Hl)
      as (s' & n & Heq & Hsame & Hn & Hid & _);
      [apply wf_malloc|done|done|by apply world_catch|done|].
    exists s', np, n. split; [done|]. split; [done|]. split; [done|].
    intros q m Hq Hm. specialize (Hsame q Hq).
    rewrite Hm in Hsame. destruct (nodes s !! q) as [m0|] eqn:Hm0; [|done].
    apply Some_inj in Hsame. exists m0. split; [done|]. injection Hsame. congruence.
Qed.

(** The same while nobody holds any lock; afterwards the client unlocks the node. *)
Lemma cached_lookup_idle s i o :
  cache_ok s -> refcnt_lock s = false -> idle s -> (forall h, is_Some (make_node (w_hurd w) h)) ->
  vol i = Some o ->
  exists s' np n, diskfs_cached_lookup (w_hurd w) (w_fuel w) (w_env w) s i = Ret (s', Some np, None) /\
    nodes (mutex_unlock np s') !! np = Some n /\ cache_id n = i /\ idle (mutex_unlock np s').
Proof.
  intros Hok Hl Hidle Hmem Ho.
  destruct (cached_lookup_total s i o Hok Hl ltac:(intros q n Hn _; by eapply Hidle) Hmem Ho)
    as (s' & np & n & Heq & Hn & Hid & Hother).
  exists s', np, (set_locked false n). split; [done|].
  cbn [mutex_unlock update_node set_nodes nodes]. rewrite lookup_alter_eq, Hn. split; [done|].
  split; [done|]. intros q m. cbn. destruct (decide (np = q)) as [->|Hq].
  - rewrite lookup_alter_eq, Hn. by intros [= <-].
  - rewrite lookup_alter_ne by done. intros Hm. destruct (Hother q m) as (m0 & Hm0 & <-); [congruence|done|].
    by eapply Hidle.
Qed.

(** The node a lookup returns is referenced. *)
Lemma handed_references s s' np n :
  (forall q m, nodes s !! q = Some m -> 0 <= references m) -> evolves w s s' (handed (Some np)) ->
  nodes (mutex_unlock np s') !! np = Some n -> 0 < references n.
Proof.
  intros Hr Hev Hn. cbn in Hn. rewrite lookup_alter_eq in Hn.
  destruct (nodes s' !! np) as [m|] eqn:Hm; [|done]. injection Hn as <-. cbn [set_locked references].
  assert (handed (Some np) np = 1) as H1 by (unfold handed; by rewrite decide_True).
  destruct (nodes s !! np) as [m0|] eqn:Hm0.
  - destruct (ev_old _ _ _ _ Hev np m0 Hm0) as (m' & Hm' & _ & Href). specialize (Hr np m0 Hm0).
    rewrite Hm in Hm'. injection Hm' as <-. lia.
  - destruct (ev_new _ _ _ _ Hev np m Hm Hm0) as (Href & _). lia.
Qed.

Lemma walk_ok names ps b dp dn :
  server_ok w (Server ps b) -> idle (ns ps) -> (forall h, is_Some (make_node (w_hurd w) h)) ->
  nodes (ns ps) !! dp = Some dn -> path_ok vol (cache_id dn) names ->
  match resolve_path vol (cache_id dn) names with
  | Some i =>
      exists s' np n, walk w root (ns ps) dp names = Ret (s', np) /\ nodes s' !! np = Some n /\
        cache_id n = i /\ locked n = false /\ shows vol n /\ server_ok w (Server (set_ns s' ps) b) /\
        (0 < references dn -> 0 < references n)
  | None => walk w root (ns ps) dp names = Err ENOENT
  end.
Proof.
  revert ps dp dn. induction names as [|name names IH]; intros ps dp dn Hok Hidle Hmem Hdp Hpath.
  - exists (ns ps), dp, dn. split; [done|]. split; [done|]. split; [done|]. split; [by eapply Hidle|].
    split; [apply stat_shows; by eapply (so_stat _ _ Hok)|]. split; [by destruct ps|done].
  - cbn [path_ok] in Hpath. destruct Hpath as (ds & Hv & Hne & Hname & Hlen & Hdot & Hall & Hnext).
    cbn [resolve_path walk]. rewrite Hv.
    assert (forall d, resolve ds name = Some d -> is_Some (vol (d_inumber d))) as Hin.
    { intros d Hd. specialize (Hnext d Hd). destruct names; [done|]. destruct Hnext as (? & -> & _). done. }
    rewrite (lookup_in_volume _ dp dn ds) by done.
    destruct (resolve ds name) as [d|] eqn:Hr; [|done]. cbn [mbind option_bind].
    destruct (Hin d eq_refl) as [o Ho].
    destruct (cached_lookup_idle (ns ps) (d_inumber d) o) as (s' & np & n & Heq & Hn & Hid & Hidle');
      [apply Hok|apply Hok|done|done|done|].
    pose proof (cached_lookup_evolves w Hw (ns ps) (d_inumber d) s' (Some np) None
      (so_cache _ _ Hok) (so_refcnt_lock _ _ Hok) Heq) as Hev.
    pose proof (evolves_lock w s' np false (ev_cache _ _ _ _ Hev) (ev_lock _ _ _ _ Hev)) as Hev2.
    fold (mutex_unlock np s') in Hev2.
    assert (server_ok w (Server (set_ns (mutex_unlock np s') ps) b)) as Hok'.
    { eapply server_ok_evolves; [done|exact (evolves_trans _ _ _ _ _ _ Hev Hev2)|].
      intros q. cbn. pose proof (handed_nonneg (Some np) q). lia. }
    rewrite Heq. cbn [res_bind mjoin option_join]. specialize (Hnext d eq_refl). rewrite <- Hid in Hnext |- *.
    specialize (IH (set_ns (mutex_unlock np s') ps) np n Hok' Hidle' Hmem Hn Hnext).
    destruct (resolve_path _ _ _); [|done]. destruct IH as (s2 & np2 & n2 & ? & ? & ? & ? & ? & ? & Href).
    exists s2, np2, n2. split_and!; try done. intros _. apply Href. eapply handed_references; [intros q m; apply (so_references _ _ Hok q m)|exact Hev|exact Hn].
Qed.

(** The size a pager reports, and a page it delivers, whenever the invariant
    holds. *)
Lemma file_stat ps b np n size exts :
  server_ok w (Server ps b) -> nodes (ns ps) !! np = Some n -> vol (cache_id n) = Some (VFile size exts) ->
  exists di h, read_inode (w_fuel w) (w_env w) (cache_id n) = Ret di /\
    xtree (page_at (w_env w)) h 0 (di_btroot di) exts /\ (h < w_fuel w)%nat /\
    dn_stat n = Some (inode_stat (w_hurd w) (cache_id n) di) /\
    st_size (inode_stat (w_hurd w) (cache_id n) di) = size /\
    S_ISREG (st_mode (inode_stat (w_hurd w) (cache_id n) di)) = true.
Proof.
  intros Hok Hn Hfile. destruct (vol_file _ _ _ Hfile) as (di & h & Hr & Hreg & Hsize & Htree & Hh).
  pose proof (so_stat _ _ Hok np n Hn) as Hso. unfold stat_ok in Hso. rewrite Hr in Hso.
  exists di, h. split_and!; try done; cbn [inode_stat st_size st_mode]; unfold S_ISLNK, S_ISDIR;
    change S_IFMT with IFMT; by rewrite Hreg.
Qed.

Lemma extent_ok ps b u np n p size exts :
  server_ok w (Server ps b) -> upis ps !! u = Some (UserPagerInfo (Some np) FILE_DATA p) ->
  nodes (ns ps) !! np = Some n -> vol (cache_id n) = Some (VFile size exts) ->
  pager_report_extent ps u = Ret (0, u32 size).
Proof.
  intros Hok Hu Hn Hfile. destruct (file_stat ps b np n size exts Hok Hn Hfile) as (di & _ & _ & _ & _ & Hst & Hsz & _).
  unfold pager_report_extent. rewrite Hu. cbn [of_option res_bind up_np]. rewrite Hn. cbn [of_option res_bind].
  rewrite Hst. cbn [of_option res_bind]. by rewrite Hsz.
Qed.

Lemma page_ok ps b u np n p size exts page :
  StoreLaws (w_env w) (w_store w) -> vm_page_size (w_hurd w) = 4096 -> server_ok w (Server ps b) ->
  upis ps !! u = Some (UserPagerInfo (Some np) FILE_DATA p) ->
  nodes (ns ps) !! np = Some n -> vol (cache_id n) = Some (VFile size exts) ->
  0 <= page < 2 ^ 32 - 4096 -> page mod 4096 = 0 ->
  exists b', pager_read_page (w_fuel w) (w_hurd w) (w_env w) (w_store w) b ps u page =
    Ret (b', 1, match volume_page (w_env w) size exts page with
                | Some bytes => inr bytes
                | None => inl (Erc 1)
                end) /\ holding b' None.
Proof.
  intros Hst Hvm Hok Hu Hn Hfile Hpage Hmod.
  destruct (file_stat ps b np n size exts Hok Hn Hfile) as (di & h & Hr & Htree & Hh & Hso & Hsz & _).
  destruct (pager_read_page_ok (w_fuel w) (w_hurd w) (w_env w) (w_store w) b ps u np n p page
    _ di h exts (world_env (w := w)) Hst Hvm Hu Hn Hso Hr Htree Hh (so_buffers _ _ Hok) Hpage Hmod) as (b' & Hb' & Hread).
  { intros blk Hblk. rewrite <- (vol_bsize (vol := vol)). by eapply vol_blocks. }
  exists b'. split; [|done]. rewrite Hread, Hsz, volume_page_eq by (done || by eapply vol_bsize).
  unfold zero_page. rewrite Hvm.
  change (Z.to_nat 4096) with 4096%nat. destruct (size <=? page); [done|]. by destruct (file_block exts (page / 4096)).
Qed.

End Session.

(** ** Properties *)

(** C9: every page of every file, in every reachable state.  Whatever was called
    before, a pager of a node whose number is a file of the volume delivers the
    volume's page at every page offset: the file's bytes, zeros after its end,
    and error 1 exactly for holes; and the node shows the file's size. *)
Theorem pages_of_the_volume (w : world) (root : option positive) (vol : volume) (l : list event)
    (sv0 sv : server) (u np : positive) (n : node) (p : option positive) (size : Z) (exts : list xad_t) (page : Z) :
  WorldLaws w -> StoreLaws (w_env w) (w_store w) -> HoldsVolume (w_env w) (w_fuel w) vol ->
  vm_page_size (w_hurd w) = 4096 -> booted w root sv0 -> serves w root l sv0 sv ->
  upis (sv_pager sv) !! u = Some (UserPagerInfo (Some np) FILE_DATA p) -> sv_nodes sv !! np = Some n ->
  vol (cache_id n) = Some (VFile size exts) -> 0 <= page < 2 ^ 32 - 4096 -> page mod 4096 = 0 ->
  pager_report_extent (sv_pager sv) u = Ret (0, u32 size) /\
  exists b', pager_read_page (w_fuel w) (w_hurd w) (w_env w) (w_store w) (sv_buffers sv) (sv_pager sv) u page =
    Ret (b', 1, match volume_page (w_env w) size exts page with
                | Some bytes => inr bytes
                | None => inl (Erc 1)
                end) /\ holding b' None.
Proof.
  intros Hw Hst Hvol Hvm Hb Hs Hu Hn Hfile Hpage Hmod. destruct sv as [ps b].
  pose proof (reachable_ok _ _ _ _ _ _ Hb Hs) as Hok. cbn [sv_pager sv_buffers] in *.
  split; [exact (extent_ok w vol Hvol ps b u np n p size exts Hok Hu Hn Hfile)|].
  exact (page_ok w vol Hw Hvol ps b u np n p size exts page Hst Hvm Hok Hu Hn Hfile Hpage Hmod).
Qed.

(** C8: path lookup.  From every reachable state in which no node is locked, and
    with memory for nodes, walking a path of any length component by component
    ends at an unlocked node of the inode the path denotes in the volume, which
    shows that object, whether its nodes were cached or not and whatever the
    cache holds besides; the invariant of the translator still holds.  A path
    whose next name is no entry fails with [ENOENT]. *)
Theorem path_lookup (w : world) (root : option positive) (vol : volume) (l : list event) (sv0 sv : server)
    (dp : positive) (dn : node) (names : list (list Z)) :
  WorldLaws w -> HoldsVolume (w_env w) (w_fuel w) vol -> booted w root sv0 -> serves w root l sv0 sv ->
  idle (ns (sv_pager sv)) -> (forall h, is_Some (make_node (w_hurd w) h)) ->
  sv_nodes sv !! dp = Some dn -> path_ok vol (cache_id dn) names ->
  match resolve_path vol (cache_id dn) names with
  | Some i =>
      exists s' np n, walk w root (ns (sv_pager sv)) dp names = Ret (s', np) /\ nodes s' !! np = Some n /\
        cache_id n = i /\ locked n = false /\ shows vol n /\
        server_ok w (Server (set_ns s' (sv_pager sv)) (sv_buffers sv))
  | None => walk w root (ns (sv_pager sv)) dp names = Err ENOENT
  end.
Proof.
  intros Hw Hvol Hb Hs Hidle Hmem Hdp Hpath. destruct sv as [ps b].
  pose proof (walk_ok w root vol Hw Hvol names ps b dp dn) as Hwalk.
  destruct (resolve_path _ _ _); [|apply Hwalk; [by eapply reachable_ok|done..]].
  destruct Hwalk as (s' & np & n & ? & ? & ? & ? & ? & ? & _); [by eapply reachable_ok|done..|].
  by exists s', np, n.
Qed.

(** ** Witnesses *)

(** A Hurd that never runs out of nodes. *)
Definition roomy_hurd : hurd := Hurd 4096 77 None (fun h => Some (fresh (dom h))).

#[export] Instance roomy_hurd_laws : HurdLaws roomy_hurd.
Proof. constructor. intros h p [= <-]. apply not_elem_of_dom. apply is_fresh. Qed.

Lemma booted_idle sv np n :
  sv_nodes sv !! np = Some n -> (forall q, q <> np -> sv_nodes sv !! q = None) -> locked n = false ->
  idle (ns (sv_pager sv)).
Proof.
  intros Hn Hother Hlk q m Hm. destruct (decide (q = np)) as [->|Hq]; [|by rewrite Hother in Hm].
  rewrite Hn in Hm. by injection Hm as <-.
Qed.

(** The paths "tree/alpha" and "tree/beta". *)
Lemma sample_path name :
  In name [[0x61; 0x6C; 0x70; 0x68; 0x61]; [0x62; 0x65; 0x74; 0x61]] ->
  path_ok sample_volume 2 [[0x74; 0x72; 0x65; 0x65]; name].
Proof.
  intros Hname. exists sample_root_dir. split; [reflexivity|]. split; [discriminate|].
  split; [repeat constructor; lia|]. split; [simpl; lia|]. split; [reflexivity|]. split; [repeat constructor; lia|].
  intros d Hd. vm_compute in Hd. injection Hd as <-. exists sample_tree_dir. split; [reflexivity|].
  split; [discriminate|].
  split; [destruct Hname as [<-|[<-|[]]]; repeat constructor; lia|].
  split; [destruct Hname as [<-|[<-|[]]]; simpl; lia|].
  split; [destruct Hname as [<-|[<-|[]]]; reflexivity|]. split; [repeat constructor; lia|].
  intros d Hd. destruct Hname as [<-|[<-|[]]]; vm_compute in Hd; [injection Hd as <-; by eexists|discriminate Hd].
Qed.

(** "tree/alpha" is inode 5; "tree/beta" is not there. *)
Lemma path_lookup_witness :
  exists sv s' np n, walk (demo_world_of roomy_hurd) (Some np.1) (ns (sv_pager sv)) np.1
      [[0x74; 0x72; 0x65; 0x65]; [0x61; 0x6C; 0x70; 0x68; 0x61]] = Ret (s', np.2) /\
    nodes s' !! np.2 = Some n /\ cache_id n = 5 /\
    walk (demo_world_of roomy_hurd) (Some np.1) (ns (sv_pager sv)) np.1
      [[0x74; 0x72; 0x65; 0x65]; [0x62; 0x65; 0x74; 0x61]] = Err ENOENT.
Proof.
  destruct (boots roomy_hurd (fresh (∅ : gset positive))) as (sv & n0 & Hb & Hn0 & Hid0 & _ & _ & _ & _ & _ & Hother & Hlk);
    [apply _|reflexivity|cbn; by rewrite dom_empty_L|].
  pose proof (booted_idle _ _ _ Hn0 Hother Hlk) as Hidle.
  assert (WorldLaws (demo_world_of roomy_hurd)) as Hw by (apply demo_world_of_laws; [apply _|reflexivity]).
  assert (forall h, is_Some (make_node roomy_hurd h)) as Hmem by (intros h; by eexists).
  assert (forall name, In name [[0x61; 0x6C; 0x70; 0x68; 0x61]; [0x62; 0x65; 0x74; 0x61]] ->
    path_ok sample_volume (cache_id n0) [[0x74; 0x72; 0x65; 0x65]; name]) as Hpath by (rewrite Hid0; exact sample_path).
  pose proof (path_lookup (demo_world_of roomy_hurd) _ sample_volume [] sv sv _ n0 _ Hw sample_holds Hb
    (serves_nil _ _ _) Hidle Hmem Hn0 (Hpath _ ltac:(by left))) as Hfound.
  pose proof (path_lookup (demo_world_of roomy_hurd) _ sample_volume [] sv sv _ n0 _ Hw sample_holds Hb
    (serves_nil _ _ _) Hidle Hmem Hn0 (Hpath _ ltac:(by right; left))) as Hmissing.
  rewrite Hid0 in Hfound, Hmissing. vm_compute (resolve_path _ _ _) in Hfound. vm_compute (resolve_path _ _ _) in Hmissing.
  destruct Hfound as (s' & np & n & H & Hn & Hid & _).
  exists sv, s', (fresh (∅ : gset positive), np), n. split; [exact H|]. split; [exact Hn|]. split; [exact Hid|exact Hmissing].
Defined.

Lemma pages_of_the_volume_witness :
  exists sv b', pager_read_page 2 (demo_hurd None) sample_env demo_store (sv_buffers sv) (sv_pager sv) 3 4096 =
    Ret (b', 1, inr (file_page sample_image (31 * 4096) 4096 5000 4096)).
Proof.
  destruct demo_booted as ([s b] & n0 & Hb & Hn0 & Hid0 & _ & _ & _ & _ & Hu & Hother & _).
  cbn [sv_pager] in Hn0, Hu, Hother.
  pose proof (reachable_ok demo_world _ _ [] _ _ Hb (serves_nil _ _ _)) as [Hc Hl Hpl Hpok _ _ _].
  cbn [sv_pager] in Hc, Hl, Hpl, Hpok.
  destruct (sample_inode_fuel 2 5 ltac:(lia) ltac:(lia)) as (di & Hr & Hg & _).
  assert (S_ISREG (st_mode (inode_stat (demo_hurd None) 5 di)) = true) as Hreg
    by (clear Hr; vm_compute in Hg; injection Hg as <-; reflexivity). clear Hg.
  destruct (lookup_new_file (demo_hurd None) 2 sample_env (ns s) 5 2 di Hc Hl eq_refl)
    as (ns1 & n & Hlook & Hsame & Hn & Hid & Href & Hfi & Hst & _ & _ & _).
  { intros q (m & Hm & Hmid). destruct (decide (q = 1%positive)) as [->|Hq];
      [rewrite Hn0 in Hm; injection Hm as <-; congruence|]. rewrite (Hother q Hq) in Hm. discriminate Hm. }
  { cbn [make_node demo_hurd]. unfold demo_make_node. rewrite Hn0, (Hother 2%positive) by discriminate. reflexivity. }
  { reflexivity. }
  { exact Hr. }
  assert (serve demo_world (Some 1%positive) (Looked (Some 2%positive)) (Server s b) (Server (set_ns ns1 s) b)) as Hs1
    by (apply (serve_cached_lookup demo_world _ s b 5 ns1 (Some 2%positive) None); exact Hlook).
  pose proof (serve_ok demo_world _ _ _ _ _ (reachable_ok demo_world _ _ [] _ _ Hb (serves_nil _ _ _)) Hs1)
    as [_ _ Hpl1 Hpok1 _ _ _]. cbn [sv_pager] in Hpl1, Hpok1.
  destruct (diskfs_get_filemap_ok demo_pagerlib (set_ns ns1 s) 2 3 n (inode_stat (demo_hurd None) 5 di) 2 _ Hn Hst)
    as (s2 & port & Hget & _ & _ & Hres);
    [by rewrite Hreg, orb_true_r|exact Hpl1|apply Hpok1|lia|cbn [set_ns upis]; rewrite Hu; reflexivity|lia|].
  unfold live_port in Hres. rewrite Hfi in Hres. cbn [mbind option_bind pager_create demo_pagerlib] in Hres.
  destruct Hres as (_ & _ & Hn2 & Hu2).
  assert (serves demo_world (Some 1%positive) [Looked (Some 2%positive); Other] (Server s b) (Server s2 b)) as Hs.
  { apply (serves_snoc _ _ [Looked (Some 2%positive)]) with (Server (set_ns ns1 s) b).
    - apply (serves_snoc _ _ []) with (Server s b); [constructor|exact Hs1].
    - apply (serve_get_filemap _ _ (set_ns ns1 s) b 2 n s2 port); [exact Hn|lia|exact Hget]. }
  assert (upis s2 !! 3%positive = Some (UserPagerInfo (Some 2%positive) FILE_DATA (Some (Pos.of_succ_nat (npagers s)))))
    as Hu3 by (rewrite Hu2; apply lookup_insert_eq).
  assert (sample_volume (cache_id (set_fileinfo (Some 3%positive) (add_light 1 n))) = Some (VFile 5000 file5)) as Hvol
    by (cbn [cache_id set_fileinfo add_light]; by rewrite Hid).
  destruct (pages_of_the_volume demo_world (Some 1%positive) sample_volume _ _ (Server s2 b) 3 2 _ _ 5000 file5 4096
    _ _ sample_holds eq_refl Hb Hs Hu3 Hn2 Hvol) as (_ & b' & H & _); [lia|reflexivity|].
  exists (Server s2 b), b'. exact H.
Defined.
