(* ===== verification/Reading.v ===== *)
(** * Reading whole files

    A client that opens a path and reads the file it leads to from its first
    byte to its last: lookups along the path (dir.c), the memory object of the
    node (pager.c), and one page after the other through its pager. *)

From stdpp Require Import gmap.
From S2P Require Import Prelude Layout Unicode Disk Xtree BufCache Sample Imap FileRead DirRead Node Dir Pager Volume Translator Server Session.

(** ** Specification *)

(** The pages from byte [page] on, the last one cut at the size; at most [k] of
    them. *)
Fixpoint fetch (k : nat) (w : world) (b : bcache) (s : pstate) (u : positive) (size page : Z)
    : res (bcache * page_outcome) :=
  match k with
  | O => NoFuel
  | S k' =>
      if size <=? page then Ret (b, inr [])
      else
        let* '(b, _, out) := pager_read_page (w_fuel w) (w_hurd w) (w_env w) (w_store w) b s u page in
        match out with
        | inl err => Ret (b, inl err)
        | inr bytes =>
            let* '(b, rest) := fetch k' w b s u size (page + 4096) in
            Ret (b, match rest with
                    | inl err => inl err
                    | inr more => inr (take (Z.to_nat (size - page)) bytes ++ more)
                    end)
        end
  end.

(** Open and read; the memory object is the one [fileinfo] points to. *)
Definition read_path (k : nat) (w : world) (root : option positive) (s : pstate) (b : bcache) (dp : positive)
    (names : list (list Z)) : res (pstate * bcache * page_outcome) :=
  let* '(nst, np) := walk w root (ns s) dp names in
  let* '(s, port) := diskfs_get_filemap 2 (w_pager w) (set_ns nst s) np in
  if port =? MACH_PORT_NULL then Ret (s, b, inl ENOMEM)
  else
    let* n := of_option NullDeref (nodes (ns s) !! np) in
    let* u := of_option NullDeref (fileinfo n) in
    let* '(_, size) := pager_report_extent s u in
    let* '(b, out) := fetch k w b s u size 0 in
    Ret (s, b, out).

(** ** Lemmas *)

(** The part of a page before the end of the file is the file's. *)
Lemma volume_page_bytes e size exts page :
  page < size ->
  mapM (file_byte e exts) (seqZ page (Z.min 4096 (size - page))) =
    take (Z.to_nat (size - page)) <$> volume_page e size exts page.
Proof.
  intros Hlt. unfold volume_page. set (n := Z.min 4096 (size - page)).
  set (g := fun i => if i <? size then file_byte e exts i else Some Byte.x00).
  rewrite (seqZ_split page 4096 n) by lia. rewrite mapM_app_option.
  rewrite (mapM_ext_in g (file_byte e exts) (seqZ page n)).
  2: { intros i Hi%seqZ_range. unfold g. by replace (i <? size) with true by lia. }
  destruct (mapM _ (seqZ page n)) as [x|] eqn:Ex; [|done]. cbn [mbind option_bind].
  assert (length x = Z.to_nat n) as Hx by (apply length_mapM in Ex; rewrite <- Ex; apply length_seqZ).
  rewrite (mapM_total g (fun _ => Byte.x00)).
  2: { intros i Hi%seqZ_range. unfold g. by replace (i <? size) with false by lia. }
  cbn [fmap option_fmap option_map mbind option_bind]. f_equal. destruct (Z.le_gt_cases 4096 (size - page)).
  - replace (4096 - n) with 0 by lia. change (seqZ (page + n) 0) with (@nil Z). cbn [fmap list_fmap].
    rewrite app_nil_r, take_ge by lia. done.
  - replace n with (size - page) in Hx by lia. by rewrite <- Hx, take_app_length.
Qed.

Section Reading.
Context (w : world) (root : option positive) (vol : volume).
Context (Hw : WorldLaws w) (Hvol : HoldsVolume (w_env w) (w_fuel w) vol).
Context (Hst : StoreLaws (w_env w) (w_store w)) (Hvm : vm_page_size (w_hurd w) = 4096).

(** Page after page, the rest of the file. *)
Lemma fetch_ok k ps b u np n p size exts page :
  server_ok w (Server ps b) -> upis ps !! u = Some (UserPagerInfo (Some np) FILE_DATA p) ->
  nodes (ns ps) !! np = Some n -> vol (cache_id n) = Some (VFile size exts) ->
  size < 2 ^ 32 - 4096 -> 0 <= page -> page mod 4096 = 0 -> Z.max 0 (size - page) + 4096 <= 4096 * Z.of_nat k ->
  exists b', fetch k w b ps u size page =
      Ret (b', match mapM (file_byte (w_env w) exts) (seqZ page (size - page)) with
               | Some bytes => inr bytes
               | None => inl (Erc 1)
               end) /\ holding b' None.
Proof.
  revert b page. induction k as [|k IH]; intros b page Hok Hu Hn Hfile Hmax Hpage Hmod Hk.
  all: cbn [fetch]; destruct (Z.leb_spec size page); try lia.
  { rewrite seqZ_nil by lia. exists b. split; [done|apply Hok]. }
  destruct (page_ok w vol Hw Hvol ps b u np n p size exts page Hst Hvm Hok Hu Hn Hfile) as (b1 & Hread & Hb1);
    [lia|done|]. rewrite Hread. cbn [res_bind].
  rewrite (seqZ_split page (size - page) (Z.min 4096 (size - page))) by lia.
  rewrite mapM_app_option, volume_page_bytes by done.
  destruct (volume_page _ size exts page) as [bytes|]; [|by exists b1]. cbn [fmap option_fmap option_map mbind option_bind].
  assert (server_ok w (Server ps b1)) as Hok1 by (destruct Hok; by constructor).
  destruct (IH b1 (page + 4096)) as (b2 & Hrest & Hb2); [done..|lia| |lia|].
  { rewrite Z.add_mod, Hmod by lia. done. }
  exists b2. split; [|done]. rewrite Hrest. cbn [res_bind]. do 2 f_equal.
  replace (seqZ (page + Z.min 4096 (size - page)) (size - page - Z.min 4096 (size - page)))
    with (seqZ (page + 4096) (size - (page + 4096))); [by destruct (mapM _ _)|].
  destruct (Z.le_gt_cases 4096 (size - page)); [f_equal; lia|]. rewrite !seqZ_nil by lia. done.
Qed.

(** The mode of a node of the volume is one [diskfs_get_filemap] asserts. *)
Lemma object_mode ps b np n :
  server_ok w (Server ps b) -> nodes (ns ps) !! np = Some n -> is_Some (vol (cache_id n)) ->
  exists st, dn_stat n = Some st /\ S_ISDIR (st_mode st) || S_ISREG (st_mode st) || S_ISLNK (st_mode st) = true.
Proof.
  intros Hok Hn [o Ho]. destruct (stat_shows w vol Hvol n (so_stat _ _ Hok np n Hn) o Ho) as (st & Hstat & Hm).
  exists st. split; [done|]. destruct o as [ds|size exts]; [by rewrite Hm|]. destruct Hm as [-> _]. done.
Qed.

(** The memory object of a node of the volume. *)
Lemma open_ok ps b np n :
  server_ok w (Server ps b) -> nodes (ns ps) !! np = Some n -> 0 < references n -> is_Some (vol (cache_id n)) ->
  (forall h, is_Some (malloc_upi (w_pager w) h)) -> (forall i, is_Some (pager_create (w_pager w) i)) ->
  exists s' port n' u p, diskfs_get_filemap 2 (w_pager w) ps np = Ret (s', port) /\ port <> MACH_PORT_NULL /\
    server_ok w (Server s' b) /\ nodes (ns s') !! np = Some n' /\ cache_id n' = cache_id n /\
    fileinfo n' = Some u /\ upis s' !! u = Some (UserPagerInfo (Some np) FILE_DATA (Some p)).
Proof.
  intros Hok Hn Href Hvn Hmem Hpagers. destruct (object_mode ps b np n Hok Hn Hvn) as (st & Hstat & Hmode).
  destruct (Hmem (upis ps)) as [u Hu]. destruct (Hpagers (npagers ps)) as [p Hp].
  destruct (diskfs_get_filemap_ok (w_pager w) ps np u n _ 2 _ Hn Hstat) as (s' & port & Heq & _ & Hfi & Hres);
    [done|apply Hok|apply (so_pager _ _ Hok)|done|done|lia|].
  assert (server_ok w (Server s' b)) as Hok'.
  { eapply (serve_ok w root Hw); [exact Hok|]. by eapply serve_get_filemap. }
  destruct (live_port (w_pager w) ps n) as [q|] eqn:Hlive.
  - destruct Hres as (-> & Hns & Hupis). unfold live_port in Hlive.
    destruct (fileinfo n) as [v|] eqn:Hv; [|done].
    destruct (po_fileinfo _ (so_pager _ _ Hok) np n v Hn Hv) as [pv Hpv]. cbn [sv_pager] in Hpv.
    cbn [mbind option_bind] in Hlive. rewrite Hpv in Hlive. cbn [mbind option_bind up_p] in Hlive.
    destruct (Z.eqb_spec (pager_get_port (w_pager w) pv) MACH_PORT_NULL); [done|]. injection Hlive as <-.
    exists s', (pager_get_port (w_pager w) pv), n, v, pv. rewrite Hns, Hupis. by split_and!.
  - rewrite Hp in Hres. destruct Hres as (-> & Hnull & Hn' & Hupis).
    eexists s', _, _, u, p. split; [exact Heq|]. split; [done|]. split; [done|]. split; [exact Hn'|].
    split; [done|]. split; [done|]. rewrite Hupis. apply lookup_insert_eq.
Qed.

End Reading.

(** ** Properties *)

(** C1: reading a file by its path.  From every reachable state in which no node
    is locked, a client that walks a path of any length to a file, asks for its
    memory object and reads it page by page gets exactly the bytes of the file in
    the volume, whatever was cached before, the last page cut at the file's size;
    a file with a hole fails with error 1.  The invariant of the translator still
    holds. *)
Theorem read_path_contents (w : world) (root : option positive) (vol : volume) (l : list event) (sv0 sv : server)
    (dp : positive) (dn : node) (names : list (list Z)) (i size : Z) (exts : list xad_t) (k : nat) :
  WorldLaws w -> StoreLaws (w_env w) (w_store w) -> HoldsVolume (w_env w) (w_fuel w) vol ->
  vm_page_size (w_hurd w) = 4096 -> booted w root sv0 -> serves w root l sv0 sv ->
  idle (ns (sv_pager sv)) -> (forall h, is_Some (make_node (w_hurd w) h)) ->
  (forall h, is_Some (malloc_upi (w_pager w) h)) -> (forall n, is_Some (pager_create (w_pager w) n)) ->
  sv_nodes sv !! dp = Some dn -> 0 < references dn -> path_ok vol (cache_id dn) names ->
  resolve_path vol (cache_id dn) names = Some i -> vol i = Some (VFile size exts) ->
  0 <= size < 2 ^ 32 - 4096 -> size + 4096 <= 4096 * Z.of_nat k ->
  exists s' b', read_path k w root (sv_pager sv) (sv_buffers sv) dp names =
      Ret (s', b', match file_contents (w_env w) size exts with
                   | Some bytes => inr bytes
                   | None => inl (Erc 1)
                   end) /\ server_ok w (Server s' b').
Proof.
  intros Hw Hst Hvol Hvm Hb Hs Hidle Hmem Hupi Hpagers Hdp Hdref Hpath Hres Hfile Hsize Hk.
  destruct sv as [ps b]. cbn [sv_pager sv_buffers] in *.
  pose proof (walk_ok w root vol Hw Hvol names ps b dp dn (reachable_ok _ _ _ _ _ _ Hb Hs) Hidle Hmem Hdp Hpath) as Hwalk.
  rewrite Hres in Hwalk. destruct Hwalk as (nst & np & n & Hw1 & Hn & <- & _ & _ & Hok1 & Href).
  destruct (open_ok w root vol Hw Hvol (set_ns nst ps) b np n Hok1 Hn (Href Hdref) ltac:(by eexists) Hupi Hpagers)
    as (s' & port & n' & u & p & Hmap & Hnull & Hok2 & Hn' & Hid & Hfi & Hu).
  rewrite <- Hid in Hfile.
  destruct (fetch_ok w vol Hw Hvol Hst Hvm k s' b u np n' (Some p) size exts 0 Hok2 Hu Hn' Hfile)
    as (b' & Hfetch & Hb'); [lia|lia|done|lia|].
  exists s', b'. split; [|destruct Hok2; by constructor].
  unfold read_path. rewrite Hw1. cbn [res_bind]. rewrite Hmap. cbn [res_bind].
  replace (port =? MACH_PORT_NULL) with false by lia. rewrite Hn'. cbn [of_option res_bind]. rewrite Hfi.
  cbn [of_option res_bind]. rewrite (extent_ok w vol Hvol s' b u np n' (Some p) size exts Hok2 Hu Hn' Hfile).
  cbn [res_bind]. rewrite wrapU_small by lia. rewrite Hfetch. cbn [res_bind].
  unfold file_contents. by rewrite Z.sub_0_r.
Qed.

(** ** Witness *)

(** "tree/alpha" again: 5000 bytes in the blocks 30 and 31. *)
Lemma read_path_contents_witness :
  exists sv s' b' dp, read_path 3 (demo_world_of roomy_hurd) (Some dp) (sv_pager sv) (sv_buffers sv) dp
      [[0x74; 0x72; 0x65; 0x65]; [0x61; 0x6C; 0x70; 0x68; 0x61]] =
    Ret (s', b', inr (img_bytes sample_image (30 * 4096) 5000)).
Proof.
  destruct (boots roomy_hurd (fresh (∅ : gset positive))) as (sv & n0 & Hb & Hn0 & Hid0 & Href & _ & _ & _ & _ & Hother & Hlk);
    [apply _|reflexivity|cbn; by rewrite dom_empty_L|].
  assert (WorldLaws (demo_world_of roomy_hurd)) as Hw by (apply demo_world_of_laws; [apply _|reflexivity]).
  assert (forall h, is_Some (make_node roomy_hurd h)) as Hmem by (intros h; by eexists).
  assert (forall h, is_Some (malloc_upi demo_pagerlib h)) as Hupi by (intros h; cbn; repeat case_match; by eexists).
  assert (forall n, is_Some (pager_create demo_pagerlib n)) as Hpagers by (intros n; by eexists).
  assert (resolve_path sample_volume (cache_id n0) [[0x74; 0x72; 0x65; 0x65]; [0x61; 0x6C; 0x70; 0x68; 0x61]] = Some 5)
    as Hres by (rewrite Hid0; vm_compute; reflexivity).
  destruct (read_path_contents (demo_world_of roomy_hurd) _ sample_volume [] sv sv _ n0 _ 5 5000 file5 3 Hw _ sample_holds
    eq_refl Hb (serves_nil _ _ _) (booted_idle _ _ _ Hn0 Hother Hlk) Hmem Hupi Hpagers Hn0 ltac:(lia) ltac:(rewrite Hid0; apply sample_path; simpl; tauto) Hres eq_refl
    ltac:(lia) ltac:(lia)) as (s' & b' & H & _).
  assert (file_contents sample_env 5000 file5 = Some (img_bytes sample_image (30 * 4096) 5000)) as Hc
    by (vm_compute; reflexivity).
  change (w_env (demo_world_of roomy_hurd)) with sample_env in H. rewrite Hc in H.
  exists sv, s', b', (fresh (∅ : gset positive)). exact H.
Defined.
