(* ===== verification/Service.v ===== *)
(** * Every request is served

    The handlers as one function from requests to replies, and its contract: in
    every reachable state every request the libraries may make is answered, and
    the answer is the one the abstract volume gives, whatever was asked before. *)

From stdpp Require Import gmap.
From S2P Require Import Prelude Layout Unicode Disk Xtree BufCache Sample Imap FileRead DirRead Node Dir Pager Volume Translator Server Session Reading.

(** ** Definitions *)

(** The calls of libdiskfs and libpager, with the arguments the handlers use. *)
Inductive request :=
| LookupHard (dp : positive) (name : list Z)
| CachedLookup (inum : Z)
| GetDirects (np : positive) (entry cap : Z)
| GetFilemap (np : positive)
| ReadPage (u : positive) (page : Z)
| ReportExtent (u : positive)
| Softrefs (may_cache : bool) (np : positive)
| ClearUserData (u : positive)
| NodeNorefs (np : positive)
| PagerUsers (bucket bucket' : list (positive * positive)).

Inductive reply :=
| RNode (np : positive)
| RErrno (err : error_t)
| RRecords (recs : listing) (amt datacnt : Z)
| RRight (port : Z)
| RPage (out : page_outcome)
| RExtent (size : Z)
| RUsers (users : Z)
| RVoid.

(** The reply of a lookup: its error number, or the node it stored. *)
Definition lookup_reply (npp : option positive) (err : option error_t) : reply :=
  match err, npp with
  | Some err, _ => RErrno err
  | None, Some np => RNode np
  | None, None => RVoid
  end.

(** The server after a handler that changed the nodes, or all but the buffers. *)
Definition with_nodes (sv : server) (nst : nstate) : server := Server (set_ns nst (sv_pager sv)) (sv_buffers sv).
Definition with_pager (sv : server) (s : pstate) : server := Server s (sv_buffers sv).

Definition handle (w : world) (abi : dirent_abi) (root : option positive) (sv : server) (req : request)
    : res (server * reply) :=
  match req with
  | LookupHard dp name =>
      let* '(nst, npp, err) :=
        diskfs_lookup_hard (w_diskfs w) (w_hurd w) (w_fuel w) (w_env w) root (ns (sv_pager sv)) dp name
          (LOOKUP (w_diskfs w)) (Some None) in
      Ret (with_nodes sv nst, lookup_reply (mjoin npp) err)
  | CachedLookup inum =>
      let* '(nst, npp, err) := diskfs_cached_lookup (w_hurd w) (w_fuel w) (w_env w) (ns (sv_pager sv)) inum in
      Ret (with_nodes sv nst, lookup_reply npp err)
  | GetDirects np entry cap =>
      let* n := of_option NullDeref (sv_nodes sv !! np) in
      let* '(recs, amt, datacnt) := diskfs_get_directs (w_fuel w) abi (w_env w) n entry cap in
      Ret (sv, RRecords recs amt datacnt)
  | GetFilemap np =>
      let* '(s, port) := diskfs_get_filemap 2 (w_pager w) (sv_pager sv) np in
      Ret (with_pager sv s, RRight port)
  | ReadPage u page =>
      let* '(b, _, out) :=
        pager_read_page (w_fuel w) (w_hurd w) (w_env w) (w_store w) (sv_buffers sv) (sv_pager sv) u page in
      Ret (Server (sv_pager sv) b, RPage out)
  | ReportExtent u => let* '(_, size) := pager_report_extent (sv_pager sv) u in Ret (sv, RExtent size)
  | Softrefs may_cache np => let* s := pager_softrefs may_cache (sv_pager sv) np in Ret (with_pager sv s, RVoid)
  | ClearUserData u => let* s := pager_clear_user_data (w_pager w) (sv_pager sv) u in Ret (with_pager sv s, RVoid)
  | NodeNorefs np => let* nst := diskfs_node_norefs (ns (sv_pager sv)) np in Ret (with_nodes sv nst, RVoid)
  | PagerUsers bucket bucket' =>
      let* '(s, users) := diskfs_pager_users (sv_pager sv) bucket bucket' in Ret (with_pager sv s, RUsers users)
  end.

(** ** Specification *)

(** No thread holds the lock of a node of number [i]. *)
Definition unlocked (sv : server) (i : Z) : Prop :=
  forall q n, sv_nodes sv !! q = Some n -> cache_id n = i -> locked n = false.

(** What the libraries may ask for: about nodes and infos that exist, objects of
    the volume, node locks that can be had. *)
Definition allowed (w : world) (abi : dirent_abi) (vol : volume) (sv : server) (req : request) : Prop :=
  match req with
  | LookupHard dp name =>
      exists n ds, sv_nodes sv !! dp = Some n /\ vol (cache_id n) = Some (VDir ds) /\ ds <> [] /\ ascii_name name /\
        (length name <= 255)%nat /\ is_dot name 0 = false /\ Forall (fun d => ascii_name (d_units d)) ds /\
        forall d, resolve ds name = Some d -> is_Some (vol (d_inumber d)) /\ unlocked sv (d_inumber d)
  | CachedLookup inum => is_Some (vol inum) /\ unlocked sv inum
  | GetDirects np entry cap =>
      exists n ds, sv_nodes sv !! np = Some n /\ vol (cache_id n) = Some (VDir ds) /\ 0 <= entry /\
        Forall (fun d => (length (d_units d) <= 99)%nat) ds /\ 30 * (sizeof_dirent abi + 102) <= cap
  | GetFilemap np => exists n, sv_nodes sv !! np = Some n /\ 0 < references n /\ is_Some (vol (cache_id n))
  | ReadPage u page =>
      (exists np n p size exts, upis (sv_pager sv) !! u = Some (UserPagerInfo (Some np) FILE_DATA p) /\
        sv_nodes sv !! np = Some n /\ vol (cache_id n) = Some (VFile size exts)) /\
      0 <= page < 2 ^ 32 - 4096 /\ page mod 4096 = 0
  | ReportExtent u =>
      exists np n p size exts, upis (sv_pager sv) !! u = Some (UserPagerInfo (Some np) FILE_DATA p) /\
        sv_nodes sv !! np = Some n /\ vol (cache_id n) = Some (VFile size exts)
  | Softrefs _ np => is_Some (sv_nodes sv !! np)
  | ClearUserData u =>
      exists upi, upis (sv_pager sv) !! u = Some upi /\
        forall np n, up_np upi = Some np -> sv_nodes sv !! np = Some n ->
          0 < references n \/ 1 < light_references n \/ has_links n
  | NodeNorefs np => exists n, sv_nodes sv !! np = Some n /\ references n = 0 /\ light_references n = 0
  | PagerUsers _ bucket' => Forall (usable (sv_pager sv)) bucket'
  end.

(** A node of the server that stands for inode [i] of the volume. *)
Definition stands_for (vol : volume) (sv : server) (np : positive) (i : Z) : Prop :=
  exists n, sv_nodes sv !! np = Some n /\ cache_id n = i /\ shows vol n.

(** The answer the volume gives, in terms of the numbers nodes stand for. *)
Definition answers (e : env) (abi : dirent_abi) (vol : volume) (sv sv' : server) (req : request) (rep : reply) : Prop :=
  match req with
  | LookupHard dp name =>
      forall n ds, sv_nodes sv !! dp = Some n -> vol (cache_id n) = Some (VDir ds) ->
      match resolve ds name with
      | Some d => exists np, rep = RNode np /\ stands_for vol sv' np (d_inumber d)
      | None => rep = RErrno ENOENT
      end
  | CachedLookup inum => exists np, rep = RNode np /\ stands_for vol sv' np inum
  | GetDirects np entry cap =>
      forall n ds, sv_nodes sv !! np = Some n -> vol (cache_id n) = Some (VDir ds) ->
      let shown := take 30 (drop (Z.to_nat entry) ds) in
      rep = RRecords (records abi 0 shown) (Z.of_nat (length shown)) (records_size abi (take 29 shown))
  | GetFilemap np =>
      exists port n' u p, rep = RRight port /\ port <> MACH_PORT_NULL /\ sv_nodes sv' !! np = Some n' /\
        fileinfo n' = Some u /\ upis (sv_pager sv') !! u = Some (UserPagerInfo (Some np) FILE_DATA (Some p))
  | ReadPage u page =>
      forall np n p size exts, upis (sv_pager sv) !! u = Some (UserPagerInfo (Some np) FILE_DATA p) ->
        sv_nodes sv !! np = Some n -> vol (cache_id n) = Some (VFile size exts) ->
      rep = RPage (match volume_page e size exts page with Some bytes => inr bytes | None => inl (Erc 1) end)
  | ReportExtent u =>
      forall np n p size exts, upis (sv_pager sv) !! u = Some (UserPagerInfo (Some np) FILE_DATA p) ->
        sv_nodes sv !! np = Some n -> vol (cache_id n) = Some (VFile size exts) -> rep = RExtent (u32 size)
  | Softrefs _ _ => rep = RVoid /\ sv_nodes sv' = sv_nodes sv
  | ClearUserData u => rep = RVoid /\ upis (sv_pager sv') = delete u (upis (sv_pager sv))
  | NodeNorefs np => rep = RVoid /\ sv_nodes sv' !! np = None
  | PagerUsers bucket bucket' =>
      rep = RUsers (if (1 <? Z.of_nat (length bucket)) && (1 <? Z.of_nat (length bucket')) then 1 else 0)
  end.

(** ** Lemmas *)

Section Service.
Context (w : world) (abi : dirent_abi) (root : option positive) (vol : volume).
Context (Hw : WorldLaws w) (Hvol : HoldsVolume (w_env w) (w_fuel w) vol) (Habi : DirentLaws abi).
Context (Hst : StoreLaws (w_env w) (w_store w)) (Hvm : vm_page_size (w_hurd w) = 4096).
Context (Hmem : forall h, is_Some (make_node (w_hurd w) h)) (Hupi : forall h, is_Some (malloc_upi (w_pager w) h))
  (Hpagers : forall n, is_Some (pager_create (w_pager w) n)).

(** A request is served: the reply is the volume's, and the server has made at
    most one step. *)
Definition served (sv : server) (req : request) : Prop :=
  exists sv' rep, handle w abi root sv req = Ret (sv', rep) /\ answers (w_env w) abi vol sv sv' req rep /\
    (sv' = sv \/ exists ev, serve w root ev sv sv').

Lemma served_lookup sv dp name :
  server_ok w sv -> allowed w abi vol sv (LookupHard dp name) -> served sv (LookupHard dp name).
Proof.
  intros Hok (n & ds & Hn & Hv & Hne & Hname & Hlen & Hdot & Hall & Hnext). destruct sv as [ps b].
  cbn [sv_pager] in *.
  pose proof (lookup_in_volume w root vol Hw Hvol (ns ps) dp n ds name Hn Hv Hne Hname Hlen Hdot Hall
    ltac:(intros d Hd; apply (Hnext d Hd))) as Hlook.
  unfold served. cbn [handle sv_pager].
  destruct (resolve ds name) as [d|] eqn:Hr.
  - destruct (Hnext d eq_refl) as [[o Ho] Hfree].
    destruct (cached_lookup_total w vol Hw Hvol (ns ps) (d_inumber d) o) as (s' & np & m & Heq & Hm & Hid & _);
      [apply Hok|apply Hok|exact Hfree|done|done|].
    rewrite Heq in Hlook. cbn [res_bind] in Hlook.
    assert (serve w root (Looked (Some np)) (Server ps b) (Server (set_ns s' ps) b)) as Hs
      by (eapply (serve_lookup_hard w root ps b dp name _ s' (Some (Some np)) None); [by left|exact Hlook]).
    rewrite Hlook. cbn [res_bind]. do 2 eexists. split; [done|]. split; [|right; by eexists].
    cbn [answers]. intros n0 ds0 Hn0 Hv0. cbn [sv_pager] in Hn0. rewrite Hn in Hn0. injection Hn0 as <-.
    rewrite Hv in Hv0. injection Hv0 as <-. rewrite Hr. exists np. split; [done|]. exists m.
    split; [exact Hm|]. split; [done|]. eapply stat_shows; [done|].
    eapply so_stat; [by eapply (serve_ok w root Hw)|exact Hm].
  - rewrite Hlook. cbn [res_bind]. do 2 eexists. split; [done|].
    split; [|right; eexists; eapply (serve_lookup_hard w root ps b dp name _ _ (Some None) (Some ENOENT)); [by left|exact Hlook]].
    cbn [answers]. intros n0 ds0 Hn0 Hv0. cbn [sv_pager] in Hn0. rewrite Hn in Hn0. injection Hn0 as <-.
    rewrite Hv in Hv0. injection Hv0 as <-. by rewrite Hr.
Qed.

Lemma served_cached sv inum :
  server_ok w sv -> allowed w abi vol sv (CachedLookup inum) -> served sv (CachedLookup inum).
Proof.
  intros Hok [[o Ho] Hfree]. destruct sv as [ps b].
  destruct (cached_lookup_total w vol Hw Hvol (ns ps) inum o) as (s' & np & m & Heq & Hm & Hid & _);
    [apply Hok|apply Hok|exact Hfree|done|done|].
  assert (serve w root (Looked (Some np)) (Server ps b) (Server (set_ns s' ps) b)) as Hs
    by (by eapply serve_cached_lookup).
  unfold served. cbn [handle sv_pager]. rewrite Heq. cbn [res_bind]. do 2 eexists. split; [done|].
  split; [|right; by eexists]. exists np. split; [done|]. exists m. split; [exact Hm|]. split; [done|].
  eapply stat_shows; [done|]. eapply so_stat; [by eapply (serve_ok w root Hw)|exact Hm].
Qed.

Lemma served_directs sv np entry cap :
  allowed w abi vol sv (GetDirects np entry cap) -> served sv (GetDirects np entry cap).
Proof.
  intros (n & ds & Hn & Hv & He & Hl & Hcap). destruct (vol_dir _ _ Hv) as (di & Hr & Hd & Hc).
  destruct (get_directs_ok (w_fuel w) abi (w_env w) n di (w_fuel w) ds entry cap) as [Heq _]; try done; [apply _|].
  unfold served. cbn [handle]. rewrite Hn. cbn [of_option res_bind]. rewrite Heq. cbn [res_bind].
  do 2 eexists. split; [done|]. split; [|by left]. intros n0 ds0 Hn0 Hv0. rewrite Hn in Hn0. injection Hn0 as <-.
  rewrite Hv in Hv0. by injection Hv0 as <-.
Qed.

Lemma served_filemap sv np :
  server_ok w sv -> allowed w abi vol sv (GetFilemap np) -> served sv (GetFilemap np).
Proof.
  intros Hok (n & Hn & Href & Hv). destruct sv as [ps b].
  destruct (open_ok w root vol Hw Hvol ps b np n Hok Hn Href Hv Hupi Hpagers)
    as (s' & port & n' & u & p & Heq & Hnull & _ & Hn' & _ & Hfi & Hu).
  unfold served. cbn [handle sv_pager]. rewrite Heq. cbn [res_bind]. do 2 eexists. split; [done|].
  split; [by exists port, n', u, p|]. right. eexists. by eapply serve_get_filemap.
Qed.

Lemma served_page sv u page :
  server_ok w sv -> allowed w abi vol sv (ReadPage u page) -> served sv (ReadPage u page).
Proof.
  intros Hok ((np & n & p & size & exts & Hu & Hn & Hv) & Hp & Hmod). destruct sv as [ps b]. cbn [sv_pager] in *.
  destruct (page_ok w vol Hw Hvol ps b u np n p size exts page Hst Hvm Hok Hu Hn Hv Hp Hmod) as (b' & Heq & _).
  unfold served. cbn [handle sv_pager sv_buffers]. rewrite Heq. cbn [res_bind]. do 2 eexists. split; [done|].
  split; [|right; eexists; by eapply serve_read_page].
  intros np0 n0 p0 size0 exts0 Hu0 Hn0 Hv0. cbn [sv_pager] in *. rewrite Hu in Hu0. injection Hu0 as <- <-.
  rewrite Hn in Hn0. injection Hn0 as <-. rewrite Hv in Hv0. by injection Hv0 as <- <-.
Qed.

Lemma served_extent sv u :
  server_ok w sv -> allowed w abi vol sv (ReportExtent u) -> served sv (ReportExtent u).
Proof.
  intros Hok (np & n & p & size & exts & Hu & Hn & Hv). destruct sv as [ps b]. cbn [sv_pager] in *.
  unfold served. cbn [handle sv_pager]. rewrite (extent_ok w vol Hvol ps b u np n p size exts Hok Hu Hn Hv).
  cbn [res_bind]. do 2 eexists. split; [done|]. split; [|by left].
  intros np0 n0 p0 size0 exts0 Hu0 Hn0 Hv0. cbn [sv_pager] in *. rewrite Hu in Hu0. injection Hu0 as <- <-.
  rewrite Hn in Hn0. injection Hn0 as <-. rewrite Hv in Hv0. by injection Hv0 as <- <-.
Qed.

Lemma served_softrefs sv may_cache np :
  server_ok w sv -> allowed w abi vol sv (Softrefs may_cache np) -> served sv (Softrefs may_cache np).
Proof.
  intros Hok [n Hn]. destruct sv as [ps b]. cbn [sv_pager] in *.
  assert (exists s', pager_softrefs may_cache ps np = Ret s') as [s' Heq].
  { unfold pager_softrefs, lock_pager. pose proof (so_pagelock _ _ Hok) as Hl. cbn [sv_pager] in Hl. rewrite Hl.
    cbn [res_bind ns]. rewrite Hn.
    cbn [of_option res_bind]. destruct (fileinfo n) as [u|] eqn:Hfi; [|by eexists].
    destruct (po_fileinfo _ (so_pager _ _ Hok) np n u Hn Hfi) as [p Hp]. cbn [upis sv_pager] in *. rewrite Hp. by eexists. }
  unfold served. cbn [handle sv_pager]. rewrite Heq. cbn [res_bind]. do 2 eexists. split; [done|].
  split; [|right; eexists; by eapply serve_softrefs].
  destruct (softrefs_keeps may_cache ps np s' (so_pagelock _ _ Hok) Heq) as (Hns & _). split; [done|].
  cbn [with_pager sv_pager]. by rewrite Hns.
Qed.

Lemma served_clear sv u :
  server_ok w sv -> allowed w abi vol sv (ClearUserData u) -> served sv (ClearUserData u).
Proof.
  intros Hok (upi & Hu & Hg). destruct sv as [ps b]. cbn [sv_pager] in *.
  assert (exists s', pager_clear_user_data (w_pager w) ps u = Ret s' /\ upis s' = delete u (upis ps)) as (s' & Heq & Hdel).
  { destruct (up_type upi) eqn:Ht.
    - unfold pager_clear_user_data. rewrite Hu. cbn [of_option res_bind]. rewrite Ht. by eexists.
    - destruct (po_live _ (so_pager _ _ Hok) u upi Hu Ht) as (np & n & p & -> & Hn & _).
      destruct (clear_user_data_eq (w_pager w) _ ps u np n (Some p) (so_pager _ _ Hok) (so_cache _ _ Hok)
        (so_pagelock _ _ Hok) Hu Hn (so_references _ _ Hok np n Hn) (Hg np n eq_refl Hn)) as (s' & Heq & Hdel & _).
      by exists s'. }
  unfold served. cbn [handle sv_pager]. rewrite Heq. cbn [res_bind]. do 2 eexists. split; [done|].
  split; [by split|]. right. eexists. by eapply serve_clear_user_data.
Qed.

Lemma served_norefs sv np :
  server_ok w sv -> allowed w abi vol sv (NodeNorefs np) -> served sv (NodeNorefs np).
Proof.
  intros Hok (n & Hn & Hr & Hl). destruct sv as [ps b]. cbn [sv_pager] in *.
  destruct (pager_ok_free ps np n (so_pager _ _ Hok) Hn Hl) as (Hfi & _ & _).
  unfold served. cbn [handle sv_pager]. rewrite (norefs_eq (ns ps) np n Hn Hfi). cbn [res_bind].
  do 2 eexists. split; [done|]. split; [split; [done|apply remove_np]|].
  right. eexists. eapply serve_node_norefs; [exact Hn|done|done|]. by apply norefs_eq.
Qed.

Lemma served_users sv bucket bucket' :
  allowed w abi vol sv (PagerUsers bucket bucket') -> served sv (PagerUsers bucket bucket').
Proof.
  intros Hall. destruct sv as [ps b]. destruct (pager_users_ok ps bucket bucket' Hall) as (s' & Heq & _).
  unfold served. cbn [handle sv_pager]. rewrite Heq. cbn [res_bind]. do 2 eexists. split; [done|].
  split; [done|]. right. eexists. by eapply serve_pager_users.
Qed.

Lemma request_served sv req : server_ok w sv -> allowed w abi vol sv req -> served sv req.
Proof.
  intros Hok Hreq.
  destruct req; [apply served_lookup|apply served_cached|apply served_directs|apply served_filemap|apply served_page
    |apply served_extent|apply served_softrefs|apply served_clear|apply served_norefs|apply served_users]; done.
Qed.

End Service.

(** ** Properties *)

(** The contract of the translator.  In every reachable state, with memory
    and ports to be had, every request the libraries may make returns: no handler
    stops, loops, or waits for a lock.  Its reply is the one the abstract volume
    gives - the node of the inode a name denotes, [ENOENT], the records of the
    directory from an entry on, the bytes of a page, the size of a file, a right
    to the node's memory object - whatever has been asked before, and the state it
    leaves is reachable again. *)
Theorem every_request_served (w : world) (abi : dirent_abi) (root : option positive) (vol : volume) (l : list event)
    (sv0 sv : server) (req : request) :
  WorldLaws w -> HoldsVolume (w_env w) (w_fuel w) vol -> DirentLaws abi -> StoreLaws (w_env w) (w_store w) ->
  vm_page_size (w_hurd w) = 4096 -> (forall h, is_Some (make_node (w_hurd w) h)) ->
  (forall h, is_Some (malloc_upi (w_pager w) h)) -> (forall n, is_Some (pager_create (w_pager w) n)) ->
  booted w root sv0 -> serves w root l sv0 sv -> allowed w abi vol sv req ->
  exists sv' rep l', handle w abi root sv req = Ret (sv', rep) /\ answers (w_env w) abi vol sv sv' req rep /\
    serves w root (l ++ l') sv0 sv'.
Proof.
  intros Hw Hvol Habi Hst Hvm Hmem Hupi Hpagers Hb Hs Hreq. pose proof (reachable_ok _ _ _ _ _ _ Hb Hs) as Hok.
  destruct (request_served w abi root vol Hw Hvol Habi Hst Hvm Hmem Hupi Hpagers sv req Hok Hreq)
    as (sv' & rep & Heq & Hans & Hstep).
  exists sv', rep. destruct Hstep as [->|[ev Hev]].
  - exists []. by rewrite app_nil_r.
  - exists [ev]. split; [done|]. split; [done|]. by eapply serves_snoc.
Qed.

(** ** Witness *)

(** The first request of a client: "tree" in the root. *)
Lemma every_request_served_witness :
  exists sv sv' dp np, handle (demo_world_of roomy_hurd) demo_abi (Some dp) sv (LookupHard dp [0x74; 0x72; 0x65; 0x65]) =
      Ret (sv', RNode np) /\ stands_for sample_volume sv' np 8.
Proof.
  destruct (boots roomy_hurd (fresh (∅ : gset positive))) as (sv & n0 & Hb & Hn0 & Hid0 & _ & _ & _ & _ & _ & Hother & Hlk);
    [apply _|reflexivity|cbn; by rewrite dom_empty_L|].
  assert (WorldLaws (demo_world_of roomy_hurd)) as Hw by (apply demo_world_of_laws; [apply _|reflexivity]).
  assert (forall h, is_Some (make_node roomy_hurd h)) as Hmem by (intros h; by eexists).
  assert (forall h, is_Some (malloc_upi demo_pagerlib h)) as Hupi by (intros h; cbn; repeat case_match; by eexists).
  assert (forall n, is_Some (pager_create demo_pagerlib n)) as Hpagers by (intros n; by eexists).
  assert (sample_volume (cache_id n0) = Some (VDir sample_root_dir)) as Hv0 by (rewrite Hid0; reflexivity).
  destruct (sample_path [0x61; 0x6C; 0x70; 0x68; 0x61]) as (ds & Hv & Hne & Hname & Hlen & Hdot & Hall & Hnext);
    [by left|]. rewrite <- Hid0, Hv0 in Hv. injection Hv as <-.
  destruct (every_request_served (demo_world_of roomy_hurd) demo_abi (Some (fresh (∅ : gset positive))) sample_volume []
    sv sv (LookupHard (fresh (∅ : gset positive)) [0x74; 0x72; 0x65; 0x65]) Hw sample_holds _ _ eq_refl Hmem Hupi
    Hpagers Hb (serves_nil _ _ _)) as (sv' & rep & l' & Heq & Hans & _).
  { exists n0, sample_root_dir. split_and!; try done. intros d Hd. split.
    - destruct (Hnext d Hd) as (ds & Hds & _). by eexists.
    - intros q n Hn _. exact (booted_idle _ _ _ Hn0 Hother Hlk q n Hn). }
  specialize (Hans n0 sample_root_dir Hn0 Hv0). vm_compute (resolve _ _) in Hans.
  destruct Hans as (np & -> & Hnp). exists sv, sv', (fresh (∅ : gset positive)), np. split; [exact Heq|exact Hnp].
Defined.
