(* ===== verification/PagerSteps.v ===== *)
(** * The steps of threads that make and end pagers

    libdiskfs asks for memory objects in one thread per request, and libpager
    ends a pager in yet another thread as soon as its last reference goes.  Here
    [diskfs_get_filemap] and [pager_clear_user_data] (pager.c) are cut into the
    steps between which other threads run, around their lock [node2pagelock], and
    pagers die at any time nobody holds a reference to them. *)

From stdpp Require Import gmap relations.
From S2P Require Import Prelude Layout Disk Xtree BufCache Sample Imap FileRead DirRead Node Dir Pager Volume Translator Server.

(** ** Definitions *)

Inductive task :=
| FilemapOf (np : positive)   (* diskfs_get_filemap (np, prot) *)
| ClearInfo (u : positive).   (* pager_clear_user_data (upi) *)

(** Where a thread is; P is shared by both functions or belongs to
    [diskfs_get_filemap], C to [pager_clear_user_data]. *)
Inductive ppc :=
| PCall                                  (* the assertion, or the test of upi->type *)
| PLock                                  (* spin_lock (&node2pagelock) *)
| PTest                                  (* the body of the loop: if (!np->dn->fileinfo) ... *)
| PAgain                                 (* the same, after right == MACH_PORT_NULL *)
| PRef (u : positive)                    (* diskfs_nref_light (np) *)
| PCreate (u : positive)                 (* upi->p = pager_create (...) *)
| PGiveUp (u : positive)                 (* diskfs_nrele_light (np); free (upi) *)
| PAbandon                               (* spin_unlock; return MACH_PORT_NULL *)
| PInstall (u p : positive)              (* np->dn->fileinfo = upi *)
| PPort (u p : positive)                 (* right = pager_get_port; ports_port_deref *)
| PUnlock (port : Z)                    (* spin_unlock *)
| PInsert (port : Z)                    (* mach_port_insert_right *)
| CTest                                  (* if (upi->np->dn->fileinfo == upi) ... *)
| CUnlock                                (* spin_unlock *)
| CRelease                               (* diskfs_nrele_light (upi->np) *)
| CFree (gone : option positive)         (* free (upi); [gone] has been released *)
| PReturn (port : Z).

(** The state of pager.c, and the infos whose pager has no reference left. *)
Record pagers := Pagers { pg_state : pstate; pg_dead : gset positive }.

(** [pager_get_port (upi->p)]: null for a pager being deallocated. *)
Definition port_right (pl : pagerlib) (dead : gset positive) (u p : positive) : Z :=
  if decide (u ∈ dead) then MACH_PORT_NULL else pager_get_port pl p.

Definition set_lock (b : bool) (s : pstate) : pstate := PState (ns s) (upis s) b (npagers s) (trace s).

(** [do ... while] once, for the node [np]. *)
Definition filemap_round (pl : pagerlib) (st : pagers) (np : positive) : res (pagers * ppc) :=
  let s := pg_state st in
  let* n := of_option NullDeref (nodes (ns s) !! np) in
  match fileinfo n with
  | None =>
      let* u := of_option NullDeref (malloc_upi pl (upis s)) in
      Ret (Pagers (set_upis (<[u := UserPagerInfo (Some np) FILE_DATA None]> (upis s)) s) (pg_dead st), PRef u)
  | Some u =>
      let* upi := of_option NullDeref (upis s !! u) in
      let* p := of_option NullDeref (up_p upi) in
      let port := port_right pl (pg_dead st) u p in
      if port =? MACH_PORT_NULL
      then Ret (Pagers (set_ns (update_node np (set_fileinfo None) (ns s)) s) (pg_dead st), PAgain)
      else Ret (st, PUnlock port)
  end.

(** One step of [diskfs_get_filemap]; [None] when it waits or has returned. *)
Definition filemap_step (pl : pagerlib) (st : pagers) (np : positive) (at_ : ppc) : option (res (pagers * ppc)) :=
  let s := pg_state st in
  let keep s' := Pagers s' (pg_dead st) in
  match at_ with
  | PCall =>
      Some (let* n := of_option NullDeref (nodes (ns s) !! np) in
            let* stat := of_option Uninitialised (dn_stat n) in
            let mode := st_mode stat in
            if negb (S_ISDIR mode || S_ISREG mode || S_ISLNK mode) then Fault AssertFailed else Ret (st, PLock))
  | PLock => if node2pagelock s then None else Some (Ret (keep (set_lock true s), PTest))
  | PTest | PAgain => Some (filemap_round pl st np)
  | PRef u => Some (Ret (keep (set_ns (diskfs_nref_light pl np (ns s)) s), PCreate u))
  | PCreate u =>
      Some (let created := pager_create pl (npagers s) in
            let s := count_pager s in
            match created with
            | None => Ret (keep s, PGiveUp u)
            | Some p =>
                Ret (keep (set_upis (<[u := UserPagerInfo (Some np) FILE_DATA (Some p)]> (upis s)) s), PInstall u p)
            end)
  | PGiveUp u =>
      Some (Ret (keep (set_upis (delete u (upis s)) (set_ns (diskfs_nrele_light pl np (ns s)) s)), PAbandon))
  | PAbandon => Some (Ret (keep (set_lock false s), PReturn MACH_PORT_NULL))
  | PInstall u p => Some (Ret (keep (set_ns (update_node np (set_fileinfo (Some u)) (ns s)) s), PPort u p))
  | PPort u p =>
      Some (let port := port_right pl (pg_dead st) u p in
            Ret (keep (record_call (PortDeref p) s),
                 if port =? MACH_PORT_NULL then PAgain else PUnlock port))
  | PUnlock port => Some (Ret (keep (set_lock false s), PInsert port))
  | PInsert port => Some (Ret (keep (record_call (InsertRight port) s), PReturn port))
  | _ => None
  end.

(** One step of [pager_clear_user_data]. *)
Definition clear_step (pl : pagerlib) (st : pagers) (u : positive) (at_ : ppc) : option (res (pagers * ppc)) :=
  let s := pg_state st in
  let keep s' := Pagers s' (pg_dead st) in
  match at_ with
  | PCall =>
      Some (let* upi := of_option NullDeref (upis s !! u) in
            Ret (st, match up_type upi with DISK => CFree None | FILE_DATA => PLock end))
  | PLock => if node2pagelock s then None else Some (Ret (keep (set_lock true s), CTest))
  | CTest =>
      Some (let* upi := of_option NullDeref (upis s !! u) in
            let* np := of_option NullDeref (up_np upi) in
            let* n := of_option NullDeref (nodes (ns s) !! np) in
            Ret (keep (if bool_decide (fileinfo n = Some u)
                       then set_ns (update_node np (set_fileinfo None) (ns s)) s else s), CUnlock))
  | CUnlock => Some (Ret (keep (set_lock false s), CRelease))
  | CRelease =>
      Some (let* upi := of_option NullDeref (upis s !! u) in
            let* np := of_option NullDeref (up_np upi) in
            Ret (keep (set_ns (diskfs_nrele_light pl np (ns s)) s), CFree (Some np)))
  | CFree _ =>
      Some (Ret (Pagers (set_upis (delete u (upis s)) s) (pg_dead st ∖ {[u]}), PReturn 0))
  | _ => None
  end.

Definition pager_step (pl : pagerlib) (st : pagers) (t : task) (at_ : ppc) : option (res (pagers * ppc)) :=
  match t with
  | FilemapOf np => filemap_step pl st np at_
  | ClearInfo u => clear_step pl st u at_
  end.

(** A thread run alone; a lock it has to wait for is never released. *)
Fixpoint pager_alone (k : nat) (pl : pagerlib) (st : pagers) (t : task) (at_ : ppc) : res (pagers * Z) :=
  match at_ with
  | PReturn port => Ret (st, port)
  | _ =>
      match k with
      | O => NoFuel
      | S k' =>
          match pager_step pl st t at_ with
          | None => Fault SelfDeadlock
          | Some r => let* '(st, at_) := r in pager_alone k' pl st t at_
          end
      end
  end.

(** The threads, with the number of pagers that have died so far. *)
Record paging := Paging { pg_pagers : pagers; pg_deaths : nat; pg_threads : list (task * ppc) }.

(** The thread has the reference [pager_create] returned. *)
Definition holds_pager (u : positive) (x : task * ppc) : Prop :=
  match x.2 with PInstall v _ | PPort v _ => u = v | _ => False end.

(** A thread makes a step; or a pager loses its last reference, and libpager
    starts [pager_clear_user_data] on its info. *)
Inductive paging_step (pl : pagerlib) : paging -> paging -> Prop :=
| paging_thread st d ts i t at_ st' at' :
    ts !! i = Some (t, at_) -> pager_step pl st t at_ = Some (Ret (st', at')) ->
    paging_step pl (Paging st d ts) (Paging st' d (<[i := (t, at')]> ts))
| paging_death s dead d ts u np p :
    upis s !! u = Some (UserPagerInfo (Some np) FILE_DATA (Some p)) -> u ∉ dead ->
    (forall x, x ∈ ts -> ~ holds_pager u x) ->
    paging_step pl (Paging (Pagers s dead) d ts)
      (Paging (Pagers s ({[u]} ∪ dead)) (S d) (ts ++ [(ClearInfo u, PCall)])).

(** Requests for the memory objects of [nps]. *)
Definition filemap_requests (s : pstate) (nps : list positive) : paging :=
  Paging (Pagers s ∅) 0 ((fun np => (FilemapOf np, PCall)) <$> nps).

(** ** Definitions: an executable scheduler *)

(** What happens next. *)
Inductive turn := Runs (i : nat) | Dies (u : positive).

#[export] Instance holds_pager_dec u x : Decision (holds_pager u x).
Proof. unfold holds_pager. destruct (x.2); apply _. Defined.

Definition play_one (pl : pagerlib) (c : paging) (e : turn) : option paging :=
  match e with
  | Runs i =>
      '(t, at_) ← pg_threads c !! i;
      match pager_step pl (pg_pagers c) t at_ with
      | Some (Ret (st', at')) => Some (Paging st' (pg_deaths c) (<[i := (t, at')]> (pg_threads c)))
      | _ => None
      end
  | Dies u =>
      let st := pg_pagers c in
      match upis (pg_state st) !! u with
      | Some (UserPagerInfo (Some _) FILE_DATA (Some _)) =>
          if decide ((u ∉ pg_dead st) /\ Forall (fun x => ~ holds_pager u x) (pg_threads c))
          then Some (Paging (Pagers (pg_state st) ({[u]} ∪ pg_dead st)) (S (pg_deaths c))
                       (pg_threads c ++ [(ClearInfo u, PCall)]))
          else None
      | _ => None
      end
  end.

Fixpoint play (pl : pagerlib) (c : paging) (es : list turn) : option paging :=
  match es with [] => Some c | e :: es' => c' ← play_one pl c e; play pl c' es' end.

(** ** Lemmas: the scheduler *)

Lemma play_steps pl es c c' : play pl c es = Some c' -> nsteps (paging_step pl) (length es) c c'.
Proof.
  revert c. induction es as [|e es IH]; intros c H; [injection H as <-; constructor|].
  cbn [play] in H. apply bind_Some in H as (c1 & H1 & H). apply nsteps_l with c1; [|by apply IH].
  destruct c as [[s dead] d ts], e as [i|u]; cbn [play_one pg_pagers pg_threads pg_deaths pg_state pg_dead] in H1.
  - apply bind_Some in H1 as ([t at_] & Hi & H1). repeat case_match; try done. injection H1 as <-. by eapply paging_thread.
  - repeat case_match; try done. injection H1 as <-. destruct_and!. eapply paging_death; [done|done|].
    by apply Forall_forall.
Qed.

(** ** Lemmas: counting infos *)

Lemma size_grows (X Y : gset positive) u : u ∉ X -> u ∉ Y -> size (({[u]} ∪ X) ∖ Y) = S (size (X ∖ Y)).
Proof.
  intros HX HY. replace (({[u]} ∪ X) ∖ Y) with ({[u]} ∪ X ∖ Y) by set_solver.
  rewrite size_union by set_solver. by rewrite size_singleton.
Qed.

Lemma size_shrinks (X : gset positive) u : u ∈ X -> size X = S (size (X ∖ {[u]})).
Proof.
  intros Hu. rewrite (union_difference_singleton_L u X) at 1 by done.
  rewrite size_union by set_solver. by rewrite size_singleton.
Qed.

Lemma difference_twice (X Y : gset positive) u : X ∖ ({[u]} ∪ Y) = (X ∖ Y) ∖ {[u]}.
Proof. set_solver. Qed.

Lemma difference_both (X Y : gset positive) u : u ∈ Y -> (X ∖ {[u]}) ∖ (Y ∖ {[u]}) = X ∖ Y.
Proof.
  intros Hu. apply set_eq. intros x. rewrite !elem_of_difference, elem_of_singleton.
  destruct (decide (x = u)) as [->|]; tauto.
Qed.

Lemma difference_first (X Y : gset positive) u : (X ∖ {[u]}) ∖ Y = (X ∖ Y) ∖ {[u]}.
Proof. set_solver. Qed.

(** ** Lemmas: one thread alone *)

Section Alone.
Context (pl : pagerlib) (Hpl : PagerLibLaws pl).

Lemma pager_alone_next k st t at_ :
  match at_ with PReturn _ => False | _ => True end ->
  pager_alone (S k) pl st t at_ =
    match pager_step pl st t at_ with
    | None => Fault SelfDeadlock
    | Some r => let* '(st, at_) := r in pager_alone k pl st t at_
    end.
Proof. by destruct at_. Qed.

Lemma pager_alone_return k st t port : pager_alone k pl st t (PReturn port) = Ret (st, port).
Proof. by destruct k. Qed.

Ltac next := rewrite pager_alone_next by done; cbn [pager_step filemap_step clear_step pg_state pg_dead res_bind].

Lemma none_dead (u : positive) : (∅ ∖ {[u]} : gset positive) = ∅.
Proof. apply leibniz_equiv, set_equiv. intros x. rewrite elem_of_difference, elem_of_empty. tauto. Qed.

Lemma port_right_live u p : port_right pl ∅ u p = pager_get_port pl p.
Proof. unfold port_right. by rewrite decide_False by set_solver. Qed.

(** The loop, from its test to the return of the function. *)
Lemma loop_alone fuel s np at_ k :
  at_ = PTest \/ at_ = PAgain -> filemap_loop fuel pl s np <> NoFuel ->
  pager_alone (5 * fuel + 2 + k) pl (Pagers s ∅) (FilemapOf np) at_ =
    let* '(s, port) := filemap_loop fuel pl s np in
    match port with
    | None => Ret (Pagers s ∅, MACH_PORT_NULL)
    | Some port => Ret (Pagers (record_call (InsertRight port) (unlock_pager s)) ∅, port)
    end.
Proof.
  revert s at_ k. induction fuel as [|fuel IH]; intros s at_ k Hat Hne; [done|].
  replace (5 * S fuel + 2 + k)%nat with (S (S (S (S (S (S (S (5 * fuel + k)))))))) by lia.
  cbn [filemap_loop] in *. rewrite pager_alone_next by (by destruct Hat as [->| ->]).
  assert (pager_step pl (Pagers s ∅) (FilemapOf np) at_ = Some (filemap_round pl (Pagers s ∅) np)) as ->
    by (by destruct Hat as [->| ->]). unfold filemap_round. cbn [pg_state pg_dead].
  destruct (nodes (ns s) !! np) as [n|]; [|done]. cbn [of_option res_bind] in *.
  destruct (fileinfo n) as [u|].
  - destruct (upis s !! u) as [upi|]; [|done]. cbn [of_option res_bind] in *.
    destruct (up_p upi) as [p|]; [|done]. cbn [of_option res_bind] in *. rewrite port_right_live.
    destruct (pager_get_port pl p =? MACH_PORT_NULL); cbn [res_bind].
    + replace (S (S (S (S (S (S (5 * fuel + k))))))) with (5 * fuel + 2 + (4 + k))%nat by lia.
      apply IH; [by right|done].
    + do 2 next. by rewrite pager_alone_return.
  - destruct (malloc_upi pl (upis s)) as [u|] eqn:Hu; [|done]. cbn [of_option res_bind] in *.
    pose proof (malloc_upi_fresh _ _ Hu) as Hfresh. next. next. cbn [set_ns set_upis npagers count_pager] in *.
    destruct (pager_create pl (npagers s)) as [p|]; cbn [res_bind].
    + next. next. rewrite port_right_live. unfold set_upis, set_ns, record_call, count_pager in *.
      cbn [upis ns node2pagelock npagers trace] in *. rewrite insert_insert_eq.
      destruct (pager_get_port pl p =? MACH_PORT_NULL).
      * replace (S (S (5 * fuel + k))) with (5 * fuel + 2 + k)%nat by lia. apply IH; [by right|done].
      * do 2 next. by rewrite pager_alone_return.
    + do 2 next. rewrite pager_alone_return. unfold set_upis, set_ns, count_pager, unlock_pager, set_lock.
      cbn [upis ns node2pagelock npagers trace]. by rewrite delete_insert_id.
Qed.

Lemma filemap_alone fuel s np k :
  diskfs_get_filemap fuel pl s np <> NoFuel ->
  pager_alone (5 * fuel + 4 + k) pl (Pagers s ∅) (FilemapOf np) PCall =
    let* '(s, port) := diskfs_get_filemap fuel pl s np in Ret (Pagers s ∅, port).
Proof.
  unfold diskfs_get_filemap. intros Hne.
  replace (5 * fuel + 4 + k)%nat with (S (S (5 * fuel + 2 + k))) by lia. next.
  destruct (nodes (ns s) !! np) as [n|]; [|done]. cbn [of_option res_bind] in *.
  destruct (dn_stat n) as [stat|]; [|done]. cbn [of_option res_bind] in *.
  destruct (negb _); [done|]. cbn [res_bind]. next. unfold lock_pager in *.
  destruct (node2pagelock s); [done|]. cbn [res_bind] in *. fold (set_lock true s) in *.
  rewrite loop_alone; [|by left|].
  - destruct (filemap_loop fuel pl (set_lock true s) np) as [[s' [port|]]| | |]; done.
  - by destruct (filemap_loop fuel pl (set_lock true s) np).
Qed.

Lemma clear_alone s u k :
  pager_alone (6 + k) pl (Pagers s ∅) (ClearInfo u) PCall =
    let* s := pager_clear_user_data pl s u in Ret (Pagers s ∅, 0).
Proof.
  unfold pager_clear_user_data. cbn [Nat.add]. next. destruct (upis s !! u) as [upi|] eqn:Hu; [|done].
  cbn [of_option res_bind]. destruct (up_type upi).
  - next. by rewrite pager_alone_return, none_dead.
  - next. unfold lock_pager. destruct (node2pagelock s); [done|]. cbn [res_bind]. next.
    cbn [set_lock upis ns]. rewrite Hu. cbn [of_option res_bind].
    destruct (up_np upi) as [np|] eqn:Hnp; [|done]. cbn [of_option res_bind].
    destruct (nodes (ns s) !! np) as [n|]; [|done]. cbn [of_option res_bind].
    do 2 next. set (s1 := if bool_decide _ then _ else _).
    assert (upis s1 = upis s) as Hs1 by (subst s1; by case_bool_decide).
    cbn [set_lock upis]. rewrite Hs1, Hu. cbn [of_option res_bind]. rewrite Hnp. cbn [of_option res_bind].
    next. rewrite pager_alone_return, none_dead. subst s1. by case_bool_decide.
Qed.

End Alone.

(** ** Theorems: a thread that runs alone *)

(** C19: Cutting the functions into steps changes nothing as long as one thread runs
    at a time: a thread that makes its steps without interruption does what
    [diskfs_get_filemap] and [pager_clear_user_data] do, outcome and state, and a
    number of steps that is enough is given. *)
Theorem pagers_alone (fuel : nat) (pl : pagerlib) (s : pstate) `{PagerLibLaws pl} :
  (forall np k, diskfs_get_filemap fuel pl s np <> NoFuel ->
     pager_alone (5 * fuel + 4 + k) pl (Pagers s ∅) (FilemapOf np) PCall =
       let* '(s', port) := diskfs_get_filemap fuel pl s np in Ret (Pagers s' ∅, port)) /\
  (forall u k, pager_alone (6 + k) pl (Pagers s ∅) (ClearInfo u) PCall =
     let* s' := pager_clear_user_data pl s u in Ret (Pagers s' ∅, 0)).
Proof. split; intros; [by apply filemap_alone|by apply clear_alone]. Qed.

(** ** Witness *)

Lemma pagers_alone_witness :
  pager_alone 14 demo_pagerlib (Pagers demo_pstate ∅) (FilemapOf 2) PCall =
    (let* '(s', port) := diskfs_get_filemap 2 demo_pagerlib demo_pstate 2 in Ret (Pagers s' ∅, port)) /\
  pager_alone 6 demo_pagerlib (Pagers demo_pstate ∅) (ClearInfo 1) PCall =
    (let* s' := pager_clear_user_data demo_pagerlib demo_pstate 1 in Ret (Pagers s' ∅, 0)).
Proof.
  destruct (pagers_alone 2 demo_pagerlib demo_pstate) as [Hf Hc]. split.
  - apply (Hf 2%positive 0%nat). vm_compute. discriminate.
  - apply (Hc 1%positive 0%nat).
Defined.
