(* ===== verification/PagerThreads.v ===== *)
(** * Pagers made and ended concurrently

    Any number of threads run [diskfs_get_filemap] (pager.c) while pagers lose
    their last reference and libpager ends them with [pager_clear_user_data], in
    any interleaving of the steps of PagerSteps.  The invariant [paging_ok] says
    what each thread knows at each of its points; every step keeps it. *)

From stdpp Require Import gmap relations.
From S2P Require Import Prelude Layout Disk Xtree BufCache Sample Imap FileRead DirRead Node Dir Pager Volume Translator Server PagerSteps.

(** ** Specification *)

(** The thread is between [spin_lock] and [spin_unlock]. *)
Definition inside (x : task * ppc) : bool :=
  match x.2 with
  | PTest | PAgain | PRef _ | PCreate _ | PGiveUp _ | PAbandon | PInstall _ _ | PPort _ _ | PUnlock _
  | CTest | CUnlock => true
  | _ => false
  end.

(** The info [u] is being made for [np] and has no pager yet. *)
Definition making (np u : positive) (x : task * ppc) : Prop :=
  x.1 = FilemapOf np /\ match x.2 with PRef v | PCreate v | PGiveUp v => u = v | _ => False end.

(** Its pager is not yet the one of the node. *)
Definition installing (np u : positive) (x : task * ppc) : Prop :=
  x.1 = FilemapOf np /\ match x.2 with PInstall v _ => u = v | _ => False end.

(** The info is being cleared. *)
Definition clearing (u : positive) (x : task * ppc) : Prop :=
  x.1 = ClearInfo u /\ match x.2 with PReturn _ => False | _ => True end.

(** An info exists whose light reference is not yet, or no longer, counted. *)
Definition owes (np : positive) (x : task * ppc) : nat :=
  match x with
  | (FilemapOf q, PRef _) | (ClearInfo _, CFree (Some q)) => if decide (q = np) then 1 else 0
  | _ => 0
  end.

(** The node's memory object is [port]. *)
Definition given (pl : pagerlib) (s : pstate) (n : node) (port : Z) : Prop :=
  exists u upi p, fileinfo n = Some u /\ upis s !! u = Some upi /\ up_p upi = Some p /\ pager_get_port pl p = port.

Definition file_info (np : positive) (p : option positive) : user_pager_info := UserPagerInfo (Some np) FILE_DATA p.

(** Some call of [pager_create] returns 0. *)
Definition creation_fails (pl : pagerlib) : Prop := exists k, pager_create pl k = None.

(** What a thread of [diskfs_get_filemap] knows of its node. *)
Definition filemap_knows (pl : pagerlib) (st : pagers) (d : nat) (np : positive) (n : node) (at_ : ppc) : Prop :=
  let s := pg_state st in
  match at_ with
  | PCall | PLock | PTest => True
  | PAgain => fileinfo n = None
  | PRef u | PCreate u => fileinfo n = None /\ upis s !! u = Some (file_info np None) /\ u ∉ pg_dead st
  | PGiveUp u =>
      fileinfo n = None /\ upis s !! u = Some (file_info np None) /\ (u ∉ pg_dead st) /\ creation_fails pl
  | PAbandon => creation_fails pl
  | PInstall u p => fileinfo n = None /\ upis s !! u = Some (file_info np (Some p)) /\ u ∉ pg_dead st
  | PPort u p => fileinfo n = Some u /\ upis s !! u = Some (file_info np (Some p)) /\ u ∉ pg_dead st
  | PUnlock port | PInsert port => port <> MACH_PORT_NULL /\ (d = 0%nat -> given pl s n port)
  | PReturn port =>
      if port =? MACH_PORT_NULL then creation_fails pl else d = 0%nat -> given pl s n port
  | _ => False
  end.

(** What a thread of [pager_clear_user_data] knows of its info. *)
Definition clear_knows (st : pagers) (u : positive) (at_ : ppc) : Prop :=
  let s := pg_state st in
  exists np p, upis s !! u = Some (file_info np (Some p)) /\ u ∈ pg_dead st /\
    match at_ with
    | PCall | PLock | CTest => True
    | CUnlock | CRelease => forall q n, nodes (ns s) !! q = Some n -> fileinfo n <> Some u
    | CFree gone => gone = Some np /\ forall q n, nodes (ns s) !! q = Some n -> fileinfo n <> Some u
    | _ => False
    end.

Definition mode_ok (n : node) : Prop :=
  exists st, dn_stat n = Some st /\ S_ISDIR (st_mode st) || S_ISREG (st_mode st) || S_ISLNK (st_mode st) = true.

Definition thread_ok (pl : pagerlib) (st : pagers) (d : nat) (x : task * ppc) : Prop :=
  match x.1 with
  | FilemapOf np =>
      exists n, nodes (ns (pg_state st)) !! np = Some n /\ mode_ok n /\ filemap_knows pl st d np n x.2
  | ClearInfo u => (exists port, x.2 = PReturn port) \/ clear_knows st u x.2
  end.

(** Nodes and infos, with the threads that are between making them fit. *)
Record infos_ok (pl : pagerlib) (st : pagers) (ts : list (task * ppc)) : Prop := {
  io_references q n : nodes (ns (pg_state st)) !! q = Some n -> 0 < references n;
  io_infos u upi : upis (pg_state st) !! u = Some upi -> up_type upi = FILE_DATA ->
    exists np n p, upi = file_info np p /\ nodes (ns (pg_state st)) !! np = Some n /\ is_Some (dn_stat n) /\
      match p with
      | None => exists x, x ∈ ts /\ making np u x
      | Some p => pager_get_port pl p <> MACH_PORT_NULL
      end;
  io_fileinfo : fileinfo_ok (pg_state st);
  io_light np n : nodes (ns (pg_state st)) !! np = Some n ->
    light_references n + Z.of_nat (sum_list_with (owes np) ts) = pagers_of (upis (pg_state st)) np;
  io_live u np p n : upis (pg_state st) !! u = Some (file_info np (Some p)) -> u ∉ pg_dead st ->
    nodes (ns (pg_state st)) !! np = Some n -> fileinfo n = Some u \/ exists x, x ∈ ts /\ installing np u x;
  io_dead u : u ∈ pg_dead st -> exists x, x ∈ ts /\ clearing u x }.

(** Between requests: no node is unreferenced, and every file pager is its
    node's and has a right. *)
Record settled (pl : pagerlib) (s : pstate) : Prop := {
  se_lock : node2pagelock s = false;
  se_references q n : nodes (ns s) !! q = Some n -> 0 < references n;
  se_pager : pager_ok s;
  se_infos u np p : upis s !! u = Some (file_info np (Some p)) ->
    pager_get_port pl p <> MACH_PORT_NULL /\ exists n, nodes (ns s) !! np = Some n /\ fileinfo n = Some u }.

(** Nodes of files, directories and links. *)
Definition requestable (s : pstate) (nps : list positive) : Prop :=
  forall np, np ∈ nps -> exists n, nodes (ns s) !! np = Some n /\ mode_ok n.

(** The steps a thread has still to make; 7 are those of a pager's end. *)
Definition rank (x : task * ppc) : nat :=
  match x with
  | (FilemapOf _, at_) =>
      match at_ with
      | PCall => 17 | PLock => 16 | PTest => 15 | PAgain => 14 | PRef _ => 6 | PCreate _ => 5 | PInstall _ _ => 4
      | PPort _ _ => 3 | PUnlock _ => 2 | PInsert _ => 1 | PGiveUp _ => 2 | PAbandon => 1 | _ => 0
      end
  | (ClearInfo _, at_) =>
      match at_ with PCall => 6 | PLock => 5 | CTest => 4 | CUnlock => 3 | CRelease => 2 | CFree _ => 1 | _ => 0 end
  end.

(** Infos whose pager can still die. *)
Definition lives (st : pagers) : nat := size (dom (upis (pg_state st)) ∖ pg_dead st).

Definition to_come (c : paging) : nat := 7 * lives (pg_pagers c) + sum_list_with rank (pg_threads c).

Definition returned (x : task * ppc) : Prop := exists port, x.2 = PReturn port.

(** Some thread could make a step. *)
Definition enabled (pl : pagerlib) (c : paging) : Prop :=
  exists i t at_ st' at', pg_threads c !! i = Some (t, at_) /\ pager_step pl (pg_pagers c) t at_ = Some (Ret (st', at')).

(** The invariant. *)
Record paging_ok (pl : pagerlib) (c : paging) : Prop := {
  pk_excl i j x y : pg_threads c !! i = Some x -> pg_threads c !! j = Some y ->
    inside x = true -> inside y = true -> i = j;
  pk_lock : node2pagelock (pg_state (pg_pagers c)) = true <-> exists x, x ∈ pg_threads c /\ inside x = true;
  pk_once i j x y u : pg_threads c !! i = Some x -> pg_threads c !! j = Some y ->
    clearing u x -> clearing u y -> i = j;
  pk_threads x : x ∈ pg_threads c -> thread_ok pl (pg_pagers c) (pg_deaths c) x;
  pk_infos : infos_ok pl (pg_pagers c) (pg_threads c);
  pk_deaths : pg_deaths c = 0%nat -> pg_dead (pg_pagers c) = ∅ }.

(** ** Lemmas: what a step of one thread leaves to the others *)

Section Company.
Context (pl : pagerlib) (Hpl : PagerLibLaws pl).

(** The info a thread relies on. *)
Definition focus (v : positive) (x : task * ppc) : Prop :=
  match x.1 with
  | ClearInfo _ => clearing v x
  | FilemapOf _ =>
      match x.2 with PRef u | PCreate u | PGiveUp u | PInstall u _ | PPort u _ => u = v | _ => False end
  end.

(** The state changes only in what the thread does not rely on. *)
Definition stable (st : pagers) (d : nat) (st' : pagers) (d' : nat) (z : task * ppc) : Prop :=
  let s := pg_state st in let s' := pg_state st' in
  same_shape (ns s) (ns s') /\
  (forall v np p, upis s !! v = Some (file_info np p) -> focus v z ->
     upis s' !! v = upis s !! v /\ (v ∈ pg_dead st' <-> v ∈ pg_dead st)) /\
  (inside z = true -> forall q n n', nodes (ns s) !! q = Some n -> nodes (ns s') !! q = Some n' ->
     fileinfo n' = fileinfo n) /\
  (forall v, clearing v z -> forall q n', nodes (ns s') !! q = Some n' -> fileinfo n' = Some v ->
     v ∉ pg_dead st \/ exists n, nodes (ns s) !! q = Some n /\ fileinfo n = Some v) /\
  (d' = 0%nat -> d = 0%nat /\ forall q n n' port, nodes (ns s) !! q = Some n -> nodes (ns s') !! q = Some n' ->
     given pl s n port -> given pl s' n' port).

Lemma clear_knows_stable st d st' d' u at_ :
  stable st d st' d' (ClearInfo u, at_) -> clear_knows st u at_ -> clear_knows st' u at_.
Proof.
  intros (_ & Hinfo & _ & Hclear & _) (np & p & Hu & Hdead & Hat). exists np, p.
  destruct (Hinfo u np (Some p) Hu) as [-> Hiff]; [by destruct at_|]. split; [done|]. split; [by apply Hiff|].
  destruct at_; try done.
  1, 2: intros q n' Hn' Hf; destruct (Hclear u ltac:(done) q n' Hn' Hf) as [?|(n & Hn & Hfn)]; [done|by eapply Hat].
  destruct Hat as [-> Hat]. split; [done|]. intros q n' Hn' Hf.
  destruct (Hclear u ltac:(done) q n' Hn' Hf) as [?|(n & Hn & Hfn)]; [done|by eapply Hat].
Qed.

Lemma filemap_knows_stable st d st' d' np n n' at_ :
  stable st d st' d' (FilemapOf np, at_) -> nodes (ns (pg_state st)) !! np = Some n ->
  nodes (ns (pg_state st')) !! np = Some n' -> filemap_knows pl st d np n at_ -> filemap_knows pl st' d' np n' at_.
Proof.
  intros (_ & Hinfo & Hfi & _ & Hgiven) Hn Hn' Hat.
  destruct at_; try done; cbn [filemap_knows] in *.
  1: by rewrite (Hfi eq_refl np n n').
  1-5: rewrite (Hfi eq_refl np n n' Hn Hn'); destruct Hat as (? & Hu & ?);
    destruct (Hinfo _ _ _ Hu eq_refl) as [-> Hiff]; rewrite Hiff; tauto.
  1, 2: destruct Hat as [? Hg]; split; [done|]; intros Hd; destruct (Hgiven Hd) as [? Hgn];
    eapply Hgn; [exact Hn|exact Hn'|by apply Hg].
  destruct (port =? MACH_PORT_NULL); [done|]. intros Hd. destruct (Hgiven Hd) as [? Hgn].
  eapply Hgn; [exact Hn|exact Hn'|by apply Hat].
Qed.

Lemma thread_ok_stable st d st' d' z : stable st d st' d' z -> thread_ok pl st d z -> thread_ok pl st' d' z.
Proof.
  destruct z as [[np|u] at_]; unfold thread_ok; cbn [fst snd]; intros Hs Hok.
  - destruct Hok as (n & Hn & Hm & Hk). pose proof Hs as (Hsh & _).
    destruct (same_shape_forth _ _ np n Hsh Hn) as (n' & Hn' & Hshape). exists n'. split; [done|].
    split; [|by eapply filemap_knows_stable]. unfold mode_ok in *. injection Hshape. by intros _ _ <- _ _.
  - destruct Hok as [?|Hk]; [by left|right]. by eapply clear_knows_stable.
Qed.

(** The lock is kept, taken or given back. *)
Definition lock_moves (x y : task * ppc) (b b' : bool) : Prop :=
  (inside y = inside x /\ b' = b) \/
  (inside x = false /\ b = false /\ inside y = true /\ b' = true) \/
  (inside x = true /\ inside y = false /\ b' = false).

(** The thread at [i] makes a step. *)
Lemma paging_ok_thread st d ts i x y st' :
  paging_ok pl (Paging st d ts) -> ts !! i = Some x ->
  lock_moves x y (node2pagelock (pg_state st)) (node2pagelock (pg_state st')) ->
  (forall u, clearing u y -> clearing u x) ->
  (forall z, z ∈ ts -> (inside x = true -> inside z = false) -> (forall u, clearing u x -> ~ clearing u z) ->
     stable st d st' d z) ->
  thread_ok pl st' d y -> infos_ok pl st' (<[i := y]> ts) -> (d = 0%nat -> pg_dead st' = ∅) ->
  paging_ok pl (Paging st' d (<[i := y]> ts)).
Proof.
  intros [Hexcl Hlock Honce Hthr _ _] Hi Hmove Hclr Hstab Hy Hinf Hd. cbn [pg_pagers pg_deaths pg_threads] in *.
  assert (forall j z, <[i := y]> ts !! j = Some z -> j = i /\ z = y \/ j <> i /\ ts !! j = Some z) as Hcases.
  { intros j z. destruct (decide (i = j)) as [->|Hij].
    - rewrite list_lookup_insert_eq by (by eapply lookup_lt_Some). intros [= <-]. by left.
    - rewrite list_lookup_insert_ne by done. right. by split. }
  assert (<[i := y]> ts !! i = Some y) as Hiy by (apply list_lookup_insert_eq; by eapply lookup_lt_Some).
  assert (forall j z, j <> i -> ts !! j = Some z -> inside z = true -> inside y = true -> False) as Halone.
  { intros j z Hj Hz Hiz Hiny. destruct Hmove as [[Hxy _]|[(_ & Hb & _)|(_ & Hny & _)]]; [| |congruence].
    - apply Hj. eapply Hexcl; [exact Hz|exact Hi|done|congruence].
    - assert (node2pagelock (pg_state st) = true) by (apply Hlock; exists z; split; [by eapply list_elem_of_lookup_2|done]).
      congruence. }
  split; cbn [pg_pagers pg_deaths pg_threads]; [| | | |exact Hinf|exact Hd].
  - intros j k z z' [[-> ->]|[Hj Hz]]%Hcases [[-> ->]|[Hk Hz']]%Hcases Hin Hin'; [done| | |by eapply Hexcl].
    + by destruct (Halone k z').
    + by destruct (Halone j z).
  - destruct Hmove as [[Hxy ->]|[(Hx & Hb & Hiny & ->)|(Hx & Hny & ->)]].
    + rewrite Hlock. split.
      * intros He. eapply exists_insert; [exact Hi|exact He|congruence].
      * intros (z & Hz & Hin). apply list_elem_of_lookup in Hz as [j [[-> ->]|[Hj Hz]]%Hcases].
        -- exists x. split; [by eapply list_elem_of_lookup_2|congruence].
        -- exists z. split; [by eapply list_elem_of_lookup_2|done].
    + split; [|done]. intros _. exists y. split; [by eapply list_elem_of_lookup_2|done].
    + split; [done|]. intros (z & Hz & Hin). apply list_elem_of_lookup in Hz as [j [[-> ->]|[Hj Hz]]%Hcases].
      * congruence.
      * exfalso. apply Hj. eapply Hexcl; [exact Hz|exact Hi|done|done].
  - intros j k z z' u [[-> ->]|[Hj Hz]]%Hcases [[-> ->]|[Hk Hz']]%Hcases Hin Hin'; [done| | |by eapply Honce].
    + eapply Honce; [exact Hi|exact Hz'|by apply Hclr|done].
    + eapply Honce; [exact Hz|exact Hi|done|by apply Hclr].
  - intros z Hz. apply list_elem_of_lookup in Hz as [j [[-> ->]|[Hj Hz]]%Hcases]; [done|].
    assert (z ∈ ts) as Hin by (by eapply list_elem_of_lookup_2).
    apply (thread_ok_stable st d); [|by apply Hthr]. apply Hstab; [done| |].
    + intros Hx. destruct (inside z) eqn:Hiz; [|done]. exfalso. apply Hj. by eapply Hexcl.
    + intros u Hcx Hcz. apply Hj. by eapply Honce.
Qed.

(** ** Lemmas: each kind of step *)

Lemma stable_state st d st' z :
  ns (pg_state st') = ns (pg_state st) -> upis (pg_state st') = upis (pg_state st) -> pg_dead st' = pg_dead st ->
  stable st d st' d z.
Proof.
  intros Hns Hu Hd. unfold stable. rewrite Hns, Hu, Hd. split; [done|]. split; [done|].
  split; [intros _ q n n' ? ?; congruence|]. split; [intros v _ q n' Hn' Hf; right; by exists n'|].
  intros ->. split; [done|]. intros q n n' port Hn Hn' (u & upi & p & ? & ? & ? & ?).
  exists u, upi, p. rewrite Hu. split_and!; congruence.
Qed.

Section Moves.
Context (st : pagers) (ts : list (task * ppc)) (i : nat) (x y : task * ppc).
Hypothesis Hi : ts !! i = Some x.
Hypothesis Hok : infos_ok pl st ts.

Lemma owed_moves np :
  (sum_list_with (owes np) (<[i := y]> ts) + owes np x = sum_list_with (owes np) ts + owes np y)%nat.
Proof. by apply sum_list_with_insert. Qed.

(** Nothing but the lock, the trace and the number of pagers changes. *)
Lemma infos_same st' :
  ns (pg_state st') = ns (pg_state st) -> upis (pg_state st') = upis (pg_state st) -> pg_dead st' = pg_dead st ->
  (forall np u, making np u x -> making np u y) -> (forall np u, installing np u x -> installing np u y) ->
  (forall u, clearing u x -> clearing u y) -> (forall np, owes np x = owes np y) ->
  infos_ok pl st' (<[i := y]> ts).
Proof.
  intros Hns Hu Hd Hmk Hin Hcl How. destruct Hok as [Hr Hinf Hfi Hl Hlive Hdead].
  split; rewrite ?Hns, ?Hu, ?Hd; [done| | | | |].
  - intros u upi Hui Ht. destruct (Hinf u upi Hui Ht) as (np & n & p & -> & Hn & Hst & Hp). exists np, n, p.
    split_and!; try done. destruct p; [done|]. eapply exists_insert; [exact Hi|exact Hp|apply Hmk].
  - intros np n u Hn Hf. rewrite Hns in Hn. destruct (Hfi np n u Hn Hf) as [p Hp]. exists p. by rewrite Hu.
  - intros np n Hn. rewrite <- (Hl np n Hn). pose proof (owed_moves np) as Ho. rewrite (How np) in Ho. lia.
  - intros u np p n Hui Hnd Hn. destruct (Hlive u np p n Hui Hnd Hn) as [?|He]; [by left|right].
    eapply exists_insert; [exact Hi|exact He|apply Hin].
  - intros u Hud. eapply exists_insert; [exact Hi|by apply Hdead|apply Hcl].
Qed.

(** A new info without pager. *)
Lemma infos_malloc np n u :
  nodes (ns (pg_state st)) !! np = Some n -> is_Some (dn_stat n) -> upis (pg_state st) !! u = None ->
  x = (FilemapOf np, PTest) \/ x = (FilemapOf np, PAgain) -> y = (FilemapOf np, PRef u) ->
  infos_ok pl (Pagers (set_upis (<[u := file_info np None]> (upis (pg_state st))) (pg_state st)) (pg_dead st)) (<[i := y]> ts).
Proof.
  intros Hn Hst Hu Hx Hy. destruct Hok as [Hr Hinf Hfi Hl Hlive Hdead].
  assert (forall q, owes q x = 0%nat) as How by (intros q; destruct Hx as [E|E]; by rewrite E).
  assert (forall q v, ~ making q v x) as Hmk by (intros q v [_ H]; destruct Hx as [E|E]; by rewrite E in H).
  assert (forall q v, ~ installing q v x) as Hin by (intros q v [_ H]; destruct Hx as [E|E]; by rewrite E in H).
  assert (forall v, ~ clearing v x) as Hcl by (intros v [H _]; destruct Hx as [E|E]; by rewrite E in H).
  split; cbn [pg_state pg_dead set_upis ns upis]; [done| | | | |].
  - intros v upi Hv Ht. apply lookup_insert_Some in Hv as [[<- <-]|[Hne Hv]].
    + exists np, n, None. split_and!; try done. exists y. split; [|by rewrite Hy].
      eapply list_elem_of_lookup_2, list_lookup_insert_eq, lookup_lt_Some, Hi.
    + destruct (Hinf v upi Hv Ht) as (q & m & p & -> & Hm & Hs & Hp). exists q, m, p. split_and!; try done.
      destruct p; [done|]. eapply exists_insert; [exact Hi|exact Hp|]. intros H. by apply Hmk in H.
  - intros q m v Hm Hf. destruct (Hfi q m v Hm Hf) as [p Hp]. exists p. cbn [upis set_upis pg_state].
    rewrite lookup_insert_ne; [done|intros ->; congruence].
  - intros q m Hm. rewrite pagers_of_insert by done. rewrite <- (Hl q m Hm).
    pose proof (owed_moves q) as Ho. rewrite (How q), Hy in Ho. rewrite Hy. cbn [owes] in Ho.
    unfold belongs. cbn [file_info up_type up_np].
    repeat case_decide; try lia; exfalso; intuition congruence.
  - intros v q p m Hv Hnd Hm. apply lookup_insert_Some in Hv as [[_ [=]]|[Hne Hv]].
    destruct (Hlive v q p m Hv Hnd Hm) as [?|He]; [by left|right].
    eapply exists_insert; [exact Hi|exact He|]. intros H. by apply Hin in H.
  - intros v Hv. eapply exists_insert; [exact Hi|by apply Hdead|]. intros H. by apply Hcl in H.
Qed.

(** One node changes: its light references, or its [fileinfo]. *)
Lemma infos_update np n f (d : Z) :
  nodes (ns (pg_state st)) !! np = Some n ->
  references (f n) = references n /\ dn_stat (f n) = dn_stat n /\ light_references (f n) = light_references n + d ->
  (forall q, Z.of_nat (owes q y) + (if decide (q = np) then d else 0) = Z.of_nat (owes q x)) ->
  (forall u, fileinfo (f n) = Some u -> exists p, upis (pg_state st) !! u = Some (file_info np (Some p))) ->
  (forall u, u ∉ pg_dead st -> fileinfo n = Some u \/ (exists z, z ∈ ts /\ installing np u z) ->
     fileinfo (f n) = Some u \/ exists z, z ∈ <[i := y]> ts /\ installing np u z) ->
  (forall q v, making q v x -> making q v y) -> (forall q v, q <> np -> ~ installing q v x) ->
  (forall v, clearing v x -> clearing v y) ->
  infos_ok pl (Pagers (set_ns (update_node np f (ns (pg_state st))) (pg_state st)) (pg_dead st)) (<[i := y]> ts).
Proof.
  intros Hn (Hfr & Hfs & Hfl) How Hff Hflive Hmk Hin Hcl. destruct Hok as [Hr Hinf Hfi Hl Hlive Hdead].
  assert (forall q m, nodes (update_node np f (ns (pg_state st))) !! q = Some m ->
    q = np /\ m = f n \/ q <> np /\ nodes (ns (pg_state st)) !! q = Some m) as Hback.
  { intros q m Hm. cbn in Hm. destruct (decide (q = np)) as [->|Hq].
    - rewrite lookup_alter_eq, Hn in Hm. injection Hm as <-. by left.
    - rewrite lookup_alter_ne in Hm by done. by right. }
  split; cbn [pg_state pg_dead set_ns ns upis].
  - intros q m [[-> ->]|[Hq Hm]]%Hback; [rewrite Hfr|]; by eapply Hr.
  - intros v upi Hv Ht. destruct (Hinf v upi Hv Ht) as (q & m & p & -> & Hm & Hs & Hp).
    exists q, (if decide (q = np) then f n else m), p. split; [done|].
    split; [cbn; case_decide as Hq; [by rewrite Hq, lookup_alter_eq, Hn|by rewrite lookup_alter_ne]|].
    split; [case_decide; [rewrite Hfs; congruence|done]|]. destruct p; [done|].
    eapply exists_insert; [exact Hi|exact Hp|apply Hmk].
  - intros q m v [[-> ->]|[Hq Hm]]%Hback Hf; [by apply Hff|by eapply Hfi].
  - intros q m Hm. pose proof (owed_moves q) as Ho. specialize (How q).
    apply Hback in Hm as [[-> ->]|[Hq Hm]]; [rewrite <- (Hl np n Hn), Hfl; rewrite decide_True in How by done
                                            |rewrite <- (Hl q m Hm); rewrite decide_False in How by done]; lia.
  - intros v q p m Hv Hnd [[-> ->]|[Hq Hm]]%Hback; [by apply Hflive; [|by eapply Hlive]|].
    destruct (Hlive v q p m Hv Hnd Hm) as [Hf|He]; [by left|right].
    eapply exists_insert; [exact Hi|exact He|]. intros H. by destruct (Hin q v Hq).
  - intros v Hv. eapply exists_insert; [exact Hi|by apply Hdead|apply Hcl].
Qed.

(** The new info gets its pager. *)
Lemma infos_created np u p :
  upis (pg_state st) !! u = Some (file_info np None) -> pager_get_port pl p <> MACH_PORT_NULL ->
  x = (FilemapOf np, PCreate u) -> y = (FilemapOf np, PInstall u p) ->
  infos_ok pl (Pagers (set_upis (<[u := file_info np (Some p)]> (upis (pg_state st))) (pg_state st)) (pg_dead st))
    (<[i := y]> ts).
Proof.
  intros Hu Hport Hx Hy. destruct Hok as [Hr Hinf Hfi Hl Hlive Hdead].
  split; cbn [pg_state pg_dead set_upis ns upis]; [done| | | | |].
  - intros v upi Hv Ht. apply lookup_insert_Some in Hv as [[<- <-]|[Hne Hv]].
    + destruct (Hinf u _ Hu eq_refl) as (q & m & p' & [= <- <-] & Hm & Hs & _). by exists np, m, (Some p).
    + destruct (Hinf v upi Hv Ht) as (q & m & p' & -> & Hm & Hs & Hp). exists q, m, p'. split_and!; try done.
      destruct p'; [done|]. eapply exists_insert; [exact Hi|exact Hp|]. intros [_ H]. rewrite Hx in H. by destruct Hne.
  - intros q m v Hm Hf. destruct (Hfi q m v Hm Hf) as [p' Hp]. exists p'. cbn [upis set_upis pg_state].
    rewrite lookup_insert_ne; [done|intros ->; unfold file_info in *; congruence].
  - intros q m Hm. rewrite <- insert_delete_eq, pagers_of_insert by apply lookup_delete_eq.
    rewrite (pagers_of_delete _ _ _ _ Hu), <- (Hl q m Hm).
    pose proof (owed_moves q) as Ho. assert (owes q x = 0%nat) as Hox by (by rewrite Hx).
    assert (owes q y = 0%nat) as Hoy by (by rewrite Hy). unfold belongs.
    cbn [file_info up_type up_np]. repeat case_decide; try lia; exfalso; intuition congruence.
  - intros v q p' m Hv Hnd Hm. apply lookup_insert_Some in Hv as [[<- [= <- <-]]|[Hne Hv]].
    + right. exists y. split; [|by rewrite Hy]. eapply list_elem_of_lookup_2, list_lookup_insert_eq, lookup_lt_Some, Hi.
    + destruct (Hlive v q p' m Hv Hnd Hm) as [?|He]; [by left|right].
      eapply exists_insert; [exact Hi|exact He|]. intros [_ H]. by rewrite Hx in H.
  - intros v Hv. eapply exists_insert; [exact Hi|by apply Hdead|]. intros [H _]. by rewrite Hx in H.
Qed.

End Moves.

(** An info goes: with the light reference of its node, when no pager could be
    made for it, or with the debt of a thread that has released it. *)
Lemma infos_freed st ts i x y np u p :
  ts !! i = Some x -> infos_ok pl st ts ->
  upis (pg_state st) !! u = Some (file_info np p) ->
  (forall q n, nodes (ns (pg_state st)) !! q = Some n -> fileinfo n <> Some u) ->
  (forall q, Z.of_nat (owes q x) = Z.of_nat (owes q y) + (if decide (q = np) then 1 else 0)) ->
  (forall q v, v <> u -> ~ making q v x) -> (forall q v, ~ installing q v x) ->
  (forall v, v <> u -> ~ clearing v x) ->
  (p = None -> u ∉ pg_dead st) ->
  infos_ok pl (Pagers (set_upis (delete u (upis (pg_state st))) (pg_state st)) (pg_dead st ∖ {[u]})) (<[i := y]> ts).
Proof.
  intros Hi [Hr Hinf Hfi Hl Hlive Hdead] Hu Hnone How Hmk Hin Hcl Hp.
  split; cbn [pg_state pg_dead set_upis ns upis]; [done| | | | |].
  - intros v upi [Hne Hv]%lookup_delete_Some Ht.
    destruct (Hinf v upi Hv Ht) as (q & m & p' & -> & Hm & Hs & Hp'). exists q, m, p'. split_and!; try done.
    destruct p'; [done|]. eapply exists_insert; [exact Hi|exact Hp'|]. intros H. by destruct (Hmk q v).
  - intros q m v Hm Hf. destruct (Hfi q m v Hm Hf) as [p' Hp']. exists p'. cbn [upis set_upis pg_state].
    rewrite lookup_delete_ne; [done|]. intros <-. by destruct (Hnone q m Hm).
  - intros q m Hm. rewrite (pagers_of_delete _ _ _ _ Hu), <- (Hl q m Hm). specialize (How q).
    pose proof (sum_list_with_insert (owes q) ts i x y Hi) as Ho. unfold belongs. cbn [file_info up_type up_np].
    repeat case_decide; try lia; exfalso; intuition congruence.
  - intros v q p' m [Hne Hv]%lookup_delete_Some Hnd Hm.
    destruct (Hlive v q p' m Hv ltac:(set_solver) Hm) as [?|He]; [by left|right].
    eapply exists_insert; [exact Hi|exact He|]. intros H. by apply Hin in H.
  - intros v [Hv Hne]%elem_of_difference. eapply exists_insert; [exact Hi|by apply Hdead|].
    intros H. destruct (Hcl v); [set_solver|done].
Qed.

(** ** Lemmas: every step keeps the invariant *)

(** [fileinfo] stays, and only infos in [U] change. *)
Lemma stable_change st d st' z (U : positive -> Prop) :
  same_shape (ns (pg_state st)) (ns (pg_state st')) ->
  (forall q n n', nodes (ns (pg_state st)) !! q = Some n -> nodes (ns (pg_state st')) !! q = Some n' ->
     fileinfo n' = fileinfo n) ->
  (forall v, ~ U v -> upis (pg_state st') !! v = upis (pg_state st) !! v /\ (v ∈ pg_dead st' <-> v ∈ pg_dead st)) ->
  (forall v np p, U v -> upis (pg_state st) !! v = Some (file_info np p) -> ~ focus v z) ->
  (d = 0%nat -> forall v upi, U v -> upis (pg_state st) !! v = Some upi -> up_p upi = None) ->
  stable st d st' d z.
Proof.
  intros Hsh Hfi Hinf Hfocus Hnop. split; [done|]. split; [|split; [by intros _|split]].
  - intros v np p Hv Hz. apply Hinf. intros HU. by apply (Hfocus v np p).
  - intros v _ q n' Hn' Hf. right. destruct (same_shape_back _ _ q n' Hsh Hn') as (n & Hn & _). exists n.
    split; [done|]. by rewrite <- (Hfi q n n').
  - intros Hd. split; [done|]. intros q n n' port Hn Hn' (u & upi & p & Hf & Hu & Hp & Hport).
    exists u, upi, p. rewrite (Hfi q n n') by done. split; [done|]. split; [|done].
    rewrite (proj1 (Hinf u ltac:(intros HU; rewrite (Hnop Hd u upi HU Hu) in Hp; done))). done.
Qed.

(** One node's [fileinfo] changes while the thread is outside the lock. *)
Lemma stable_fileinfo st d np n f z :
  nodes (ns (pg_state st)) !! np = Some n -> (forall m, shape (f m) = shape m) -> inside z = false ->
  (forall v, fileinfo (f n) = Some v -> fileinfo n = Some v \/ v ∉ pg_dead st) ->
  (d = 0%nat -> forall port, ~ given pl (pg_state st) n port) ->
  stable st d (Pagers (set_ns (update_node np f (ns (pg_state st))) (pg_state st)) (pg_dead st)) d z.
Proof.
  intros Hn Hf Hz Hv Hg. split; [by apply same_shape_update|]. cbn [pg_state pg_dead set_ns upis ns].
  split; [done|]. split; [by rewrite Hz|]. split.
  - intros v _ q n' Hn' Hfv. cbn in Hn'. destruct (decide (np = q)) as [<-|Hq].
    + rewrite lookup_alter_eq, Hn in Hn'. injection Hn' as <-.
      destruct (Hv v Hfv) as [?|?]; [right; by exists n|by left].
    + rewrite lookup_alter_ne in Hn' by done. right. by exists n'.
  - intros Hd. split; [done|]. intros q m m' port Hm Hm' Hgm. cbn in Hm'. destruct (decide (np = q)) as [<-|Hq].
    + rewrite Hn in Hm. injection Hm as <-. by destruct (Hg Hd port).
    + rewrite lookup_alter_ne in Hm' by done. assert (m' = m) as -> by congruence. exact Hgm.
Qed.

Lemma fileinfo_update s np f q n n' :
  (forall m, fileinfo (f m) = fileinfo m) -> nodes s !! q = Some n -> nodes (update_node np f s) !! q = Some n' ->
  fileinfo n' = fileinfo n.
Proof.
  intros Hf Hn Hn'. cbn in Hn'. destruct (decide (np = q)) as [->|Hq].
  - rewrite lookup_alter_eq, Hn in Hn'. by injection Hn' as <-.
  - rewrite lookup_alter_ne in Hn' by done. congruence.
Qed.

(** The light reference of a node goes; nodes are referenced, so that they stay. *)
Lemma nrele_light_stays st ts np n :
  infos_ok pl st ts -> nodes (ns (pg_state st)) !! np = Some n ->
  diskfs_nrele_light pl np (ns (pg_state st)) = update_node np (add_light (-1)) (ns (pg_state st)).
Proof. intros Hok Hn. eapply nrele_light_counts; [exact Hn|]. left. by eapply io_references. Qed.

Ltac roles := unfold making, installing, clearing; cbn [fst snd]; intros; intuition congruence.

Section Steps.
Context (st : pagers) (d : nat) (ts : list (task * ppc)) (i : nat).
Hypothesis Hok : paging_ok pl (Paging st d ts).

Lemma no_deaths : d = 0%nat -> pg_dead st = ∅.
Proof. exact (pk_deaths _ _ Hok). Qed.

(** Dead infos are still there. *)
Lemma fresh_not_dead u : upis (pg_state st) !! u = None -> u ∉ pg_dead st.
Proof.
  intros Hfresh Hdead. destruct (io_dead _ _ _ (pk_infos _ _ Hok) u Hdead) as (z & Hz & [Hz1 Hz2]).
  pose proof (pk_threads _ _ Hok z Hz) as Hzok. destruct z as [t az]. cbn [fst snd] in *. subst t.
  destruct Hzok as [[port Hr]|(q & p & Huz & _)]; cbn [snd pg_pagers] in *; [by rewrite Hr in Hz2|congruence].
Qed.

(** A step that touches nothing but the lock, the trace and the number of pagers. *)
Lemma quiet_step t at_ at' st' :
  ts !! i = Some (t, at_) -> ns (pg_state st') = ns (pg_state st) -> upis (pg_state st') = upis (pg_state st) ->
  pg_dead st' = pg_dead st ->
  lock_moves (t, at_) (t, at') (node2pagelock (pg_state st)) (node2pagelock (pg_state st')) ->
  (forall np u, making np u (t, at_) -> making np u (t, at')) ->
  (forall np u, installing np u (t, at_) -> installing np u (t, at')) ->
  (forall u, clearing u (t, at_) <-> clearing u (t, at')) -> (forall np, owes np (t, at_) = owes np (t, at')) ->
  thread_ok pl st d (t, at') -> paging_ok pl (Paging st' d (<[i := (t, at')]> ts)).
Proof.
  intros Hi Hns Hu Hdead Hlock Hmk Hin Hcl How Hy.
  eapply paging_ok_thread; [exact Hok|exact Hi|exact Hlock|intros u; apply Hcl| | | |].
  - intros z _ _ _. by apply stable_state.
  - apply (thread_ok_stable st d); [by apply stable_state|done].
  - eapply infos_same; [exact Hi|apply (pk_infos _ _ Hok)|done|done|done|done|done|intros u; apply Hcl|done].
  - rewrite Hdead. exact no_deaths.
Qed.

(** Once more through the loop: the pager of the node is dying. *)
Lemma round_forgets np at_ n u p :
  ts !! i = Some (FilemapOf np, at_) -> at_ = PTest \/ at_ = PAgain ->
  nodes (ns (pg_state st)) !! np = Some n -> mode_ok n -> fileinfo n = Some u ->
  upis (pg_state st) !! u = Some (file_info np (Some p)) -> port_right pl (pg_dead st) u p = MACH_PORT_NULL ->
  paging_ok pl (Paging (Pagers (set_ns (update_node np (set_fileinfo None) (ns (pg_state st))) (pg_state st)) (pg_dead st)) d
    (<[i := (FilemapOf np, PAgain)]> ts)).
Proof.
  intros Hi Hat Hn Hmode Hf Hp Hnull. pose proof (pk_infos _ _ Hok) as Hinf. cbn [pg_pagers pg_threads] in Hinf.
  assert (inside (FilemapOf np, at_) = true) as Hinside by (by destruct Hat as [->| ->]).
  assert (u ∈ pg_dead st) as Hdead.
  { unfold port_right in Hnull. case_decide; [done|].
    destruct (io_infos _ _ _ Hinf u _ Hp eq_refl) as (q & m & p' & [= <- <-] & _ & _ & Hport). done. }
  eapply paging_ok_thread; [exact Hok|exact Hi| | | | | |].
  - left. by rewrite Hinside.
  - roles.
  - intros z _ Hz _. apply (stable_fileinfo st d np n); [done|done|by apply Hz|by left|].
    intros Hd. rewrite (no_deaths Hd) in Hdead. by apply not_elem_of_empty in Hdead.
  - exists (set_fileinfo None n). cbn [pg_state set_ns ns update_node set_nodes nodes].
    rewrite lookup_alter_eq, Hn. by split_and!.
  - eapply (infos_update _ _ _ _ _ Hi Hinf np n _ 0); [done|by split_and!; [..|cbn; lia]| | | |destruct Hat as [->| ->]; roles| |roles].
    + intros q. destruct Hat as [->| ->]; cbn; by case_decide.
    + done.
    + intros v Hv [Hfv|(z & Hz & Hinst)]; [congruence|]. right. eapply exists_insert; [exact Hi|by exists z|].
      intros [_ HH]. by destruct Hat as [->| ->].
    + intros q v _ [_ HH]. by destruct Hat as [->| ->].
  - apply (pk_deaths _ _ Hok).
Qed.

(** The node has no pager: an info is allocated. *)
Lemma round_allocates np at_ n u :
  ts !! i = Some (FilemapOf np, at_) -> at_ = PTest \/ at_ = PAgain ->
  nodes (ns (pg_state st)) !! np = Some n -> mode_ok n -> fileinfo n = None ->
  malloc_upi pl (upis (pg_state st)) = Some u ->
  paging_ok pl (Paging (Pagers (set_upis (<[u := file_info np None]> (upis (pg_state st))) (pg_state st)) (pg_dead st)) d
    (<[i := (FilemapOf np, PRef u)]> ts)).
Proof.
  intros Hi Hat Hn Hmode Hf Hu. pose proof (pk_infos _ _ Hok) as Hinf. cbn [pg_pagers pg_threads] in Hinf.
  pose proof (malloc_upi_fresh _ _ Hu) as Hfresh. pose proof (fresh_not_dead u Hfresh) as Hnd.
  eapply paging_ok_thread; [exact Hok|exact Hi| | | | | |].
  - left. by destruct Hat as [->| ->].
  - roles.
  - intros z _ _ _. apply (stable_change st d _ z (fun v => v = u)); cbn [pg_state pg_dead set_upis ns upis].
    + done.
    + intros q m m' Hm Hm'. congruence.
    + intros v Hv. by rewrite lookup_insert_ne by congruence.
    + intros v q p ->. congruence.
    + intros _ v upi ->. congruence.
  - exists n. split; [done|]. split; [done|]. split; [done|]. cbn [pg_state set_upis upis pg_dead].
    by rewrite lookup_insert_eq.
  - destruct Hmode as (stt & Hstt & _).
    eapply infos_malloc; [exact Hi|exact Hinf|exact Hn|by eexists|exact Hfresh| |done].
    destruct Hat as [->| ->]; [by left|by right].
  - apply (pk_deaths _ _ Hok).
Qed.

Lemma round_keeps np at_ st' at' :
  ts !! i = Some (FilemapOf np, at_) -> at_ = PTest \/ at_ = PAgain ->
  filemap_round pl st np = Ret (st', at') -> paging_ok pl (Paging st' d (<[i := (FilemapOf np, at')]> ts)).
Proof.
  intros Hi Hat H. assert ((FilemapOf np, at_) ∈ ts) as Hin by (by eapply list_elem_of_lookup_2).
  destruct (pk_threads _ _ Hok _ Hin) as (n & Hn & Hmode & Hk). cbn [pg_pagers pg_deaths fst snd] in *.
  pose proof (pk_infos _ _ Hok) as Hinf. cbn [pg_pagers pg_threads] in Hinf.
  unfold filemap_round in H. rewrite Hn in H. cbn [of_option res_bind] in H. destruct (fileinfo n) as [u|] eqn:Hf.
  - destruct (io_fileinfo _ _ _ Hinf np n u Hn Hf) as [p Hp]. rewrite Hp in H. cbn [of_option res_bind up_p] in H.
    destruct (Z.eqb_spec (port_right pl (pg_dead st) u p) MACH_PORT_NULL) as [Hnull|Hlive]; injection H as <- <-;
      [by eapply round_forgets|].
    assert (u ∉ pg_dead st) as Hnd by (unfold port_right in Hlive; by case_decide).
    assert (port_right pl (pg_dead st) u p = pager_get_port pl p) as Hport by (unfold port_right; by rewrite decide_False).
    apply (quiet_step _ at_); [done|done|done|done|left; by destruct Hat as [->| ->]| | |roles|by destruct Hat as [->| ->]|].
    + intros q v [_ HH]. by destruct Hat as [->| ->].
    + intros q v [_ HH]. by destruct Hat as [->| ->].
    + exists n. split; [done|]. split; [done|]. split; [done|]. intros _.
      by exists u, (file_info np (Some p)), p.
  - apply res_bind_inv in H as (u & Hu & [= <- <-]). apply of_option_inv in Hu. by eapply round_allocates.
Qed.

Lemma in_threads x : ts !! i = Some x -> x ∈ ts.
Proof. by apply list_elem_of_lookup_2. Qed.

(** Who relies on an info. *)
Lemma focus_dead z u :
  z ∈ ts -> focus u z -> (u ∈ pg_dead st /\ clearing u z) \/ ((u ∉ pg_dead st) /\ inside z = true).
Proof.
  intros Hz Hu. pose proof (pk_threads _ _ Hok z Hz) as Hzok. destruct z as [[np|v] at_]; cbn [focus fst snd] in Hu.
  - right. destruct Hzok as (n & _ & _ & Hk). cbn [pg_pagers pg_deaths snd] in Hk.
    destruct at_; try done; subst; destruct Hk as (_ & _ & Hnd); tauto.
  - left. split; [|done]. destruct Hu as [[= ->] Hat]. destruct Hzok as [[port Hr]|(q & p & _ & Hd & _)]; [|done].
    cbn [snd] in *. by rewrite Hr in Hat.
Qed.

(** Light references of a node. *)
Lemma light_step x y np n dlt :
  ts !! i = Some x -> nodes (ns (pg_state st)) !! np = Some n -> inside y = inside x ->
  (forall q, Z.of_nat (owes q y) + (if decide (q = np) then dlt else 0) = Z.of_nat (owes q x)) ->
  (forall q v, making q v x -> making q v y) -> (forall q v, ~ installing q v x) ->
  (forall v, clearing v x <-> clearing v y) -> thread_ok pl st d y ->
  paging_ok pl (Paging (Pagers (set_ns (update_node np (add_light dlt) (ns (pg_state st))) (pg_state st)) (pg_dead st))
    d (<[i := y]> ts)).
Proof.
  intros Hi Hn Hin How Hmk Hinst Hcl Hy.
  assert (forall z, stable st d
    (Pagers (set_ns (update_node np (add_light dlt) (ns (pg_state st))) (pg_state st)) (pg_dead st)) d z) as Hstab.
  { intros z. apply (stable_change _ _ _ _ (fun _ => False)); [by apply same_shape_update| |done|done|done].
    intros q m m'. by apply fileinfo_update. }
  eapply paging_ok_thread; [exact Hok|exact Hi|by left|intros u; apply Hcl|by intros z _ _ _| | |exact no_deaths].
  - by eapply thread_ok_stable.
  - eapply (infos_update st ts i x y Hi (pk_infos _ _ Hok) np n _ dlt); try done.
    + intros u Hf. by eapply (io_fileinfo _ _ _ (pk_infos _ _ Hok) np n).
    + intros u _ [Hf|(z & Hz & HH)]; [by left|right]. eapply exists_insert; [exact Hi|by exists z|].
      intros H. by apply Hinst in H.
    + intros v. apply Hcl.
Qed.

Lemma create_keeps np u st' at' :
  ts !! i = Some (FilemapOf np, PCreate u) ->
  filemap_step pl st np (PCreate u) = Some (Ret (st', at')) -> paging_ok pl (Paging st' d (<[i := (FilemapOf np, at')]> ts)).
Proof.
  intros Hi H. destruct (pk_threads _ _ Hok _ (in_threads _ Hi)) as (n & Hn & Hmode & Hf & Hu & Hnd).
  cbn [pg_pagers pg_deaths fst snd] in *. cbn [filemap_step] in H.
  destruct (pager_create pl (npagers (pg_state st))) as [p|] eqn:Hp; injection H as <- <-.
  - eapply paging_ok_thread; [exact Hok|exact Hi|by left|roles| | | |exact no_deaths].
    + intros z Hz Hin _. apply (stable_change st d _ z (fun v => v = u)); cbn [pg_state pg_dead set_upis count_pager ns upis].
      * done.
      * intros q m m' Hm Hm'. congruence.
      * intros v Hv. by rewrite lookup_insert_ne by congruence.
      * intros v q p' -> _ Hfoc. destruct (focus_dead z u Hz Hfoc) as [[? _]|[_ ?]]; [done|]. by rewrite Hin in H.
      * intros _ v upi -> Hv. rewrite Hu in Hv. by injection Hv as <-.
    + exists n. split; [done|]. split; [done|]. split; [done|]. cbn [pg_state set_upis count_pager upis pg_dead].
      by rewrite lookup_insert_eq.
    + eapply infos_created in Hu as Hinf; [|exact Hi|exact (pk_infos _ _ Hok)|by eapply new_pager_right|done|done].
      destruct Hinf as [H1 H2 H3 H4 H5 H6]. by split.
  - apply (quiet_step _ (PCreate u)); [done|done|done|done|by left|roles|roles|roles|done|].
    exists n. cbn. split_and!; try done. by exists (npagers (pg_state st)).
Qed.

(** No pager could be made: the light reference and the info go again. *)
Lemma give_up_keeps np u st' at' :
  ts !! i = Some (FilemapOf np, PGiveUp u) ->
  filemap_step pl st np (PGiveUp u) = Some (Ret (st', at')) -> paging_ok pl (Paging st' d (<[i := (FilemapOf np, at')]> ts)).
Proof.
  intros Hi [= <- <-]. destruct (pk_threads _ _ Hok _ (in_threads _ Hi)) as (n & Hn & Hmode & Hf & Hu & Hnd & Hfails).
  cbn [pg_pagers pg_deaths fst snd] in *. rewrite (nrele_light_stays st ts np n (pk_infos _ _ Hok) Hn).
  assert (pg_dead st ∖ {[u]} = pg_dead st) as Hsame by (apply difference_disjoint_L; set_solver).
  assert (forall q m, nodes (ns (pg_state st)) !! q = Some m -> fileinfo m <> Some u) as Hnone.
  { intros q m Hm Hfm. destruct (io_fileinfo _ _ _ (pk_infos _ _ Hok) q m u Hm Hfm) as [p Hp].
    cbn [pg_pagers] in Hp. by rewrite Hu in Hp. }
  eapply paging_ok_thread; [exact Hok|exact Hi|by left|roles| | | |exact no_deaths].
  - intros z Hz Hin _. apply (stable_change st d _ z (fun v => v = u)); cbn [pg_state pg_dead set_upis set_ns ns upis].
    + by apply same_shape_update.
    + intros q m m'. by apply fileinfo_update.
    + intros v Hv. by rewrite lookup_delete_ne by congruence.
    + intros v q p' -> _ Hfoc. destruct (focus_dead z u Hz Hfoc) as [[? _]|[_ ?]]; [done|]. by rewrite Hin in H.
    + intros _ v upi -> Hv. rewrite Hu in Hv. by injection Hv as <-.
  - exists (add_light (-1) n). cbn [pg_state set_upis set_ns ns update_node set_nodes nodes].
    rewrite lookup_alter_eq, Hn. by split_and!.
  - assert (infos_ok pl (Pagers (set_ns (update_node np (add_light (-1)) (ns (pg_state st))) (pg_state st)) (pg_dead st))
      (<[i := (FilemapOf np, PRef u)]> ts)) as Hmid.
    { eapply (infos_update st ts i _ _ Hi (pk_infos _ _ Hok) np n _ (-1)); try done.
      - intros q. cbn. repeat case_decide; try lia; congruence.
      - cbn. by rewrite Hf.
      - intros v _ [Hfv|(z & Hz & HH)]; [congruence|right]. eapply exists_insert; [exact Hi|by exists z|roles].
      - roles. }
    rewrite <- (list_insert_insert_eq ts i _ (FilemapOf np, PRef u)).
    epose proof (infos_freed _ _ i (FilemapOf np, PRef u) (FilemapOf np, PAbandon) np u None _ Hmid Hu) as Hfin.
    cbn [pg_dead] in Hfin. rewrite Hsame in Hfin. apply Hfin; [|cbn|roles|roles|roles|done].
    + intros q m' Hm'. destruct (same_shape_back (ns (pg_state st)) _ q m' (same_shape_update _ np (add_light (-1)) ltac:(done)) Hm') as (m & Hm & _).
      rewrite (fileinfo_update _ np (add_light (-1)) q m m' ltac:(done) Hm Hm'). by eapply Hnone.
    + intros q. repeat case_decide; lia || congruence.
  Unshelve. apply list_lookup_insert_eq. by eapply lookup_lt_Some.
Qed.

Lemma install_keeps np u p st' at' :
  ts !! i = Some (FilemapOf np, PInstall u p) ->
  filemap_step pl st np (PInstall u p) = Some (Ret (st', at')) -> paging_ok pl (Paging st' d (<[i := (FilemapOf np, at')]> ts)).
Proof.
  intros Hi [= <- <-]. destruct (pk_threads _ _ Hok _ (in_threads _ Hi)) as (n & Hn & Hmode & Hf & Hu & Hnd).
  cbn [pg_pagers pg_deaths fst snd] in *.
  eapply paging_ok_thread; [exact Hok|exact Hi|by left|roles| | | |exact no_deaths].
  - intros z _ Hz _. apply (stable_fileinfo st d np n); [done|done|by apply Hz| |].
    + intros v [= <-]. by right.
    + intros _ port (v & _ & _ & Hfv & _). congruence.
  - exists (set_fileinfo (Some u) n). cbn [pg_state set_ns ns update_node set_nodes nodes].
    rewrite lookup_alter_eq, Hn. by split_and!.
  - eapply (infos_update st ts i _ _ Hi (pk_infos _ _ Hok) np n _ 0); try done.
    + by split_and!; [..|cbn; lia].
    + intros q. cbn. by case_decide.
    + intros v [= <-]. by exists p.
    + intros v _ [Hfv|(z & Hz & HH)]; [congruence|left]. apply list_elem_of_lookup in Hz as [j Hj].
      assert (j = i) as ->.
      { apply (pk_excl _ _ Hok j i z _ Hj Hi); [|done]. destruct HH as [_ HH]. by destruct z as [? []]. }
      cbn [pg_threads] in *. rewrite Hi in Hj. injection Hj as <-. cbn. by destruct HH as [_ ->].
    + roles.
Qed.

(** Every step of [diskfs_get_filemap]. *)
Lemma filemap_keeps np at_ st' at' :
  ts !! i = Some (FilemapOf np, at_) -> filemap_step pl st np at_ = Some (Ret (st', at')) ->
  paging_ok pl (Paging st' d (<[i := (FilemapOf np, at')]> ts)).
Proof.
  intros Hi H. destruct (pk_threads _ _ Hok _ (in_threads _ Hi)) as (n & Hn & Hmode & Hk).
  cbn [pg_pagers pg_deaths fst snd] in *.
  destruct at_ as [| | | |u|u|u| |u p|u p|port|port| | | |gone|port]; try done.
  - cbn [filemap_step] in H. destruct Hmode as (sta & Hsta & Hm). rewrite Hn in H. cbn [of_option res_bind] in H.
    rewrite Hsta in H. cbn [of_option res_bind] in H. rewrite Hm in H. injection H as <- <-.
    apply (quiet_step _ PCall); [done|done|done|done|by left|roles|roles|roles|done|].
    exists n. split; [done|]. split; [by exists sta|done].
  - cbn [filemap_step] in H. destruct (node2pagelock (pg_state st)) eqn:Hl; [done|]. injection H as <- <-.
    apply (quiet_step _ PLock); [done|done|done|done| |roles|roles|roles|done|by exists n]. right. left. by rewrite Hl.
  - injection H as H. apply (round_keeps np PTest); [done|by left|done].
  - injection H as H. apply (round_keeps np PAgain); [done|by right|done].
  - injection H as <- <-. rewrite (nref_light_counts np). destruct Hk as (Hf & Hu & Hnd).
    apply (light_step (FilemapOf np, PRef u) _ np n 1); [done|done|done| |roles|roles|roles|by exists n].
    intros q. cbn. repeat case_decide; lia || congruence.
  - by eapply create_keeps.
  - by eapply give_up_keeps.
  - injection H as <- <-. apply (quiet_step _ PAbandon); [done|done|done|done| |roles|roles|roles|done|].
    + right. right. done.
    + by exists n.
  - by eapply install_keeps.
  - injection H as <- <-. destruct Hk as (Hf & Hu & Hnd). unfold port_right. rewrite decide_False by done.
    destruct (io_infos _ _ _ (pk_infos _ _ Hok) u _ Hu eq_refl) as (q & m & p' & [= <- <-] & _ & _ & Hport).
    apply Z.eqb_neq in Hport as Hnull. rewrite Hnull.
    apply (quiet_step _ (PPort u p)); [done|done|done|done|by left|roles|roles|roles|done|].
    exists n. split; [done|]. split; [done|]. split; [done|]. intros _. by exists u, (file_info np (Some p)), p.
  - injection H as <- <-. apply (quiet_step _ (PUnlock port)); [done|done|done|done| |roles|roles|roles|done|by exists n].
    right. right. done.
  - injection H as <- <-. apply (quiet_step _ (PInsert port)); [done|done|done|done|by left|roles|roles|roles|done|].
    exists n. split; [done|]. split; [done|]. destruct Hk as [Hnull Hg]. cbn.
    apply Z.eqb_neq in Hnull. by rewrite Hnull.
Qed.

(** A pager that has been cleared from its node. *)
Lemma clear_test_keeps u st' at' :
  ts !! i = Some (ClearInfo u, CTest) -> clear_step pl st u CTest = Some (Ret (st', at')) ->
  paging_ok pl (Paging st' d (<[i := (ClearInfo u, at')]> ts)).
Proof.
  intros Hi H. destruct (pk_threads _ _ Hok _ (in_threads _ Hi)) as [[port ?]|(np & p & Hu & Hdead & _)]; [done|].
  cbn [pg_pagers pg_deaths fst snd clear_step] in *. rewrite Hu in H. cbn [of_option res_bind up_np file_info] in H.
  destruct (io_infos _ _ _ (pk_infos _ _ Hok) u _ Hu eq_refl) as (q & n & p' & [= <- <-] & Hn & _).
  cbn [pg_pagers] in Hn. rewrite Hn in H. cbn [of_option res_bind] in H. injection H as <- <-.
  assert (forall q m, q <> np -> nodes (ns (pg_state st)) !! q = Some m -> fileinfo m <> Some u) as Hother.
  { intros q m Hq Hm Hf. destruct (io_fileinfo _ _ _ (pk_infos _ _ Hok) q m u Hm Hf) as [p' Hp'].
    cbn [pg_pagers] in Hp'. unfold file_info in Hu. congruence. }
  case_bool_decide as Hf.
  - eapply paging_ok_thread; [exact Hok|exact Hi|by left|roles| | | |exact no_deaths].
    + intros z _ Hz _. apply (stable_fileinfo st d np n); [done|done|by apply Hz|by left|].
      intros Hd. rewrite (no_deaths Hd) in Hdead. by apply not_elem_of_empty in Hdead.
    + right. exists np, p. split_and!; [done|done|]. intros q m Hm Hfm. cbn in Hm. destruct (decide (q = np)) as [->|Hq].
      * rewrite lookup_alter_eq, Hn in Hm. by injection Hm as <-.
      * rewrite lookup_alter_ne in Hm by done. by apply (Hother q m).
    + eapply (infos_update st ts i _ _ Hi (pk_infos _ _ Hok) np n _ 0); try done.
      * by split_and!; [..|cbn; lia].
      * intros q. cbn. by case_decide.
      * intros v Hv [Hfv|(z & Hz & HH)]; [congruence|right]. eapply exists_insert; [exact Hi|by exists z|roles].
      * roles.
  - apply (quiet_step _ CTest); [done|done|done|done|by left|roles|roles|roles|done|].
    right. exists np, p. split_and!; [done|done|]. intros q m Hm Hfm. destruct (decide (q = np)) as [->|Hq].
    + congruence.
    + by apply (Hother q m).
Qed.

(** Every step of [pager_clear_user_data]. *)
Lemma clear_keeps u at_ st' at' :
  ts !! i = Some (ClearInfo u, at_) -> clear_step pl st u at_ = Some (Ret (st', at')) ->
  paging_ok pl (Paging st' d (<[i := (ClearInfo u, at')]> ts)).
Proof.
  intros Hi H. destruct (pk_threads _ _ Hok _ (in_threads _ Hi)) as [[port Hr]|(np & p & Hu & Hdead & Hk)].
  { cbn [snd] in Hr. by subst. }
  cbn [pg_pagers pg_deaths fst snd] in *.
  destruct (io_infos _ _ _ (pk_infos _ _ Hok) u _ Hu eq_refl) as (q & n & p' & [= <- <-] & Hn & _).
  cbn [pg_pagers] in Hn. destruct at_ as [| | | |v|v|v| |v w|v w|port|port| | | |gone|port]; try done.
  - cbn [clear_step] in H. rewrite Hu in H. injection H as <- <-.
    apply (quiet_step _ PCall); [done|done|done|done|by left|roles|roles|roles|done|]. right. by exists np, p.
  - cbn [clear_step] in H. destruct (node2pagelock (pg_state st)) eqn:Hl; [done|]. injection H as <- <-.
    apply (quiet_step _ PLock); [done|done|done|done| |roles|roles|roles|done|].
    + right. left. by rewrite Hl.
    + right. by exists np, p.
  - by apply clear_test_keeps.
  - injection H as <- <-. apply (quiet_step _ CUnlock); [done|done|done|done| |roles|roles|roles|done|].
    + right. right. done.
    + right. by exists np, p.
  - cbn [clear_step] in H. rewrite Hu in H. injection H as <- <-.
    rewrite (nrele_light_stays st ts np n (pk_infos _ _ Hok) Hn).
    apply (light_step (ClearInfo u, CRelease) _ np n (-1)); [done|done|done| |roles|roles|roles|].
    + intros q. cbn. repeat case_decide; lia || congruence.
    + right. by exists np, p.
  - destruct Hk as [-> Hnone]. injection H as <- <-.
    eapply paging_ok_thread; [exact Hok|exact Hi|by left|roles| | | |].
    + intros z Hz _ Hone. apply (stable_change st d _ z (fun v => v = u)); cbn [pg_state pg_dead set_upis ns upis].
      * done.
      * intros q m m' Hm Hm'. congruence.
      * intros v Hv. rewrite lookup_delete_ne by congruence. split; [done|]. rewrite elem_of_difference, elem_of_singleton. tauto.
      * intros v q p' -> _ Hfoc. destruct (focus_dead z u Hz Hfoc) as [[_ Hcl]|[? _]]; [|done]. by destruct (Hone u).
      * intros Hd v upi -> _. rewrite (no_deaths Hd) in Hdead. by apply not_elem_of_empty in Hdead.
    + left. by exists 0.
    + apply (infos_freed st ts i (ClearInfo u, CFree (Some np)) _ np u (Some p));
        [done|exact (pk_infos _ _ Hok)|done|done| |roles|roles|roles|done].
      intros q. cbn. repeat case_decide; lia || congruence.
    + intros Hd. cbn [pg_dead]. rewrite (no_deaths Hd). apply none_dead.
Qed.

End Steps.

(** A thread that owes nothing joins. *)
Lemma infos_joined st ts y : infos_ok pl st ts -> (forall q, owes q y = 0%nat) -> infos_ok pl st (ts ++ [y]).
Proof.
  intros [Hr Hinf Hfi Hl Hlive Hdead] How. split; [done| |done| | |].
  - intros v upi Hv Ht. destruct (Hinf v upi Hv Ht) as (q & n & p & -> & Hn & Hs & Hp). exists q, n, p.
    split_and!; try done. destruct p; [done|by apply exists_snoc].
  - intros q n Hn. rewrite <- (Hl q n Hn), sum_list_with_app. cbn. rewrite How. lia.
  - intros v q p n Hv Hnv Hn. destruct (Hlive v q p n Hv Hnv Hn) as [?|He]; [by left|right]. by apply exists_snoc.
  - intros v Hv. by apply exists_snoc, Hdead.
Qed.

Lemma paging_ok_joined st d ts y st' d' :
  paging_ok pl (Paging st d ts) -> inside y = false -> node2pagelock (pg_state st') = node2pagelock (pg_state st) ->
  (forall u z, clearing u y -> z ∈ ts -> ~ clearing u z) -> (forall z, z ∈ ts -> stable st d st' d' z) ->
  thread_ok pl st' d' y -> infos_ok pl st' (ts ++ [y]) -> (d' = 0%nat -> pg_dead st' = ∅) ->
  paging_ok pl (Paging st' d' (ts ++ [y])).
Proof.
  intros [Hexcl Hlock Honce Hthr _ _] Hy Hb Hcl Hstab Hyok Hinf Hd. cbn [pg_pagers pg_deaths pg_threads] in *.
  split; cbn [pg_pagers pg_deaths pg_threads]; [| | | |exact Hinf|exact Hd].
  - intros j k x z [Hx|[_ ->]]%lookup_snoc_cases [Hz|[_ ->]]%lookup_snoc_cases Hin Hin'; try congruence. by eapply Hexcl.
  - rewrite Hb, Hlock. split; [apply exists_snoc|]. intros (x & Hx & Hin). exists x. split; [|done].
    apply elem_of_app in Hx as [?|Hx]; [done|]. apply list_elem_of_singleton in Hx as ->. congruence.
  - intros j k x z v [Hx|[-> ->]]%lookup_snoc_cases [Hz|[-> ->]]%lookup_snoc_cases Hcx Hcz; [by eapply Honce| | |done].
    + destruct (Hcl v x Hcz); [by eapply list_elem_of_lookup_2|done].
    + destruct (Hcl v z Hcx); [by eapply list_elem_of_lookup_2|done].
  - intros z [Hz|Hz]%elem_of_app; [by apply (thread_ok_stable st d); [apply Hstab|apply Hthr]|].
    by apply list_elem_of_singleton in Hz as ->.
Qed.

(** A pager dies: its info is not one a thread is working on. *)
Lemma death_keeps s dead d ts u np p :
  upis s !! u = Some (file_info np (Some p)) -> u ∉ dead -> (forall x, x ∈ ts -> ~ holds_pager u x) ->
  paging_ok pl (Paging (Pagers s dead) d ts) ->
  paging_ok pl (Paging (Pagers s ({[u]} ∪ dead)) (S d) (ts ++ [(ClearInfo u, PCall)])).
Proof.
  intros Hu Hnd Hheld Hok. pose proof (pk_threads _ _ Hok) as Hthr. pose proof (pk_infos _ _ Hok) as Hinf.
  cbn [pg_pagers pg_deaths pg_threads pg_state pg_dead] in *.
  assert (forall z, z ∈ ts -> ~ focus u z) as Hfree.
  { intros z Hz Hfoc. destruct (focus_dead _ _ _ Hok z u Hz Hfoc) as [[? _]|[_ Hin]]; [done|].
    specialize (Hthr z Hz). specialize (Hheld z Hz). destruct z as [[q|v] at_].
    - destruct Hthr as (n & _ & _ & Hk). destruct at_; try done; cbn in Hfoc, Hk; subst;
        try (by apply Hheld); destruct Hk as (_ & Hk & _); unfold file_info in *; congruence.
    - destruct Hfoc as [[= ->] Hat]. destruct Hthr as [[port Hp]|(q & p' & _ & ? & _)]; [|done]. cbn [snd] in *. by subst. }
  assert (forall v, v <> u -> v ∈ {[u]} ∪ dead <-> v ∈ dead) as Hsame
    by (intros v Hv; rewrite elem_of_union, elem_of_singleton; tauto).
  eapply paging_ok_joined; [exact Hok|done|done| | | | |done].
  - intros v [t at_] [[= ->] _] Hz [Ht Hcl]. cbn in Ht. subst t. by apply (Hfree (ClearInfo v, at_)).
  - intros z Hz. split; [done|]. cbn [pg_state pg_dead].
    split; [|split; [intros _ q n n' ? ?; congruence|split; [intros v _ q n' Hn' Hf; right; by exists n'|done]]].
    intros v q p' _ Hfoc. split; [done|]. apply Hsame. intros ->. by apply (Hfree z).
  - right. exists np, p. cbn. split_and!; [done|apply elem_of_union_l, elem_of_singleton_2; done|done].
  - destruct (infos_joined _ _ (ClearInfo u, PCall) Hinf ltac:(done)) as [Hr Hi Hfi Hl Hlive Hdead].
    split; cbn [pg_state pg_dead] in *; [done|done|done|done| |].
    + intros v q p' n Hv Hnv Hn. apply (Hlive v q p' n Hv); [|done]. intros Hd. by apply Hnv, elem_of_union_r.
    + intros v Hv. destruct (decide (v = u)) as [->|Hne]; [|by apply Hdead, Hsame].
      exists (ClearInfo u, PCall). split; [|done]. apply elem_of_app. right. by apply list_elem_of_singleton.
Qed.

Lemma paging_keeps c c' : paging_step pl c c' -> paging_ok pl c -> paging_ok pl c'.
Proof.
  intros [st d ts i t at_ st' at' Hi H|s dead d ts u np p Hu Hnd Hheld] Hok.
  - destruct t as [np|u]; [by eapply filemap_keeps|by eapply clear_keeps].
  - by eapply death_keeps.
Qed.

Lemma paging_reachable c c' : rtc (paging_step pl) c c' -> paging_ok pl c -> paging_ok pl c'.
Proof. intros H. induction H; [done|]. intros Hok. by eapply IHrtc, paging_keeps. Qed.

(** ** Lemmas: no step goes wrong, and every step is one fewer to come *)

Hypothesis Hroom : forall h, is_Some (malloc_upi pl h).

Lemma pager_progress st d ts i t at_ :
  paging_ok pl (Paging st d ts) -> ts !! i = Some (t, at_) ->
  (exists st' at', pager_step pl st t at_ = Some (Ret (st', at'))) \/
  (at_ = PLock /\ node2pagelock (pg_state st) = true /\ pager_step pl st t at_ = None) \/
  (returned (t, at_) /\ pager_step pl st t at_ = None).
Proof.
  intros Hok Hi. pose proof (pk_infos _ _ Hok) as Hinf.
  pose proof (pk_threads _ _ Hok _ (list_elem_of_lookup_2 _ _ _ Hi)) as Hx.
  cbn [pg_pagers pg_threads] in *. destruct t as [np|u].
  - destruct Hx as (n & Hn & (sta & Hsta & Hm) & Hk). cbn [pager_step pg_pagers pg_deaths fst snd] in *.
    assert (exists st' at', filemap_round pl st np = Ret (st', at')) as (st' & at' & Hround).
    { unfold filemap_round. rewrite Hn. cbn [of_option res_bind]. destruct (fileinfo n) as [u|] eqn:Hf.
      - destruct (io_fileinfo _ _ _ Hinf np n u Hn Hf) as [p Hp]. rewrite Hp. cbn [of_option res_bind up_p].
        destruct (_ =? _); by eexists _, _.
      - destruct (Hroom (upis (pg_state st))) as [u ->]. by eexists _, _. }
    destruct at_ as [| | | |v|v|v| |v p|v p|port|port| | | |gone|port]; try done; cbn [filemap_step].
    1: left; rewrite Hn; cbn [of_option res_bind]; rewrite Hsta; cbn [of_option res_bind]; rewrite Hm; by eexists _, _.
    1: destruct (node2pagelock (pg_state st)); [right; left; done|left; by eexists _, _].
    1, 2: left; exists st', at'; by rewrite Hround.
    2: left; destruct (pager_create _ _); by eexists _, _.
    1-7: left; by eexists _, _.
    right. right. split; [by exists port|done].
  - destruct Hx as [[port Hr]|(np & p & Hu & Hdead & Hk)]; cbn [snd] in *.
    { right. right. subst. split; [by exists port|done]. }
    destruct (io_infos _ _ _ Hinf u _ Hu eq_refl) as (q & n & p' & [= <- <-] & Hn & _).
    destruct at_ as [| | | |v|v|v| |v w|v w|port|port| | | |gone|port]; try done; cbn [pager_step clear_step].
    2: destruct (node2pagelock (pg_state st)); [right; left; done|left; by eexists _, _].
    all: left; rewrite ?Hu; cbn [of_option res_bind file_info up_np up_type]; rewrite ?Hn; by eexists _, _.
Qed.

Lemma lives_same st st' : dom (upis (pg_state st')) ∖ pg_dead st' = dom (upis (pg_state st)) ∖ pg_dead st -> lives st' = lives st.
Proof. unfold lives. by intros ->. Qed.

Lemma lives_malloc s dead u upi :
  upis s !! u = None -> u ∉ dead -> lives (Pagers (set_upis (<[u := upi]> (upis s)) s) dead) = S (lives (Pagers s dead)).
Proof. intros Hu%not_elem_of_dom Hd. unfold lives. cbn [pg_state pg_dead set_upis upis]. rewrite dom_insert_L. by apply size_grows. Qed.

Lemma filemap_step_less st d ts i np at_ st' at' :
  paging_ok pl (Paging st d ts) -> ts !! i = Some (FilemapOf np, at_) ->
  filemap_step pl st np at_ = Some (Ret (st', at')) ->
  (7 * lives st' + rank (FilemapOf np, at') < 7 * lives st + rank (FilemapOf np, at_))%nat.
Proof.
  intros Hok Hi H. pose proof (pk_infos _ _ Hok) as Hinf.
  destruct (pk_threads _ _ Hok _ (list_elem_of_lookup_2 _ _ _ Hi)) as (n & Hn & Hmode & Hk).
  cbn [pg_pagers pg_deaths pg_threads fst snd] in *.
  assert (forall s', upis s' = upis (pg_state st) -> lives (Pagers s' (pg_dead st)) = lives st) as Hsame.
  { intros s' Hs. apply lives_same. cbn [pg_state pg_dead]. by rewrite Hs. }
  assert (at_ = PTest \/ at_ = PAgain /\ fileinfo n = None -> filemap_round pl st np = Ret (st', at') ->
    (7 * lives st' + rank (FilemapOf np, at') < 7 * lives st + rank (FilemapOf np, at_))%nat) as Hround.
  { unfold filemap_round. rewrite Hn. cbn [of_option res_bind]. intros Hat HR. destruct (fileinfo n) as [u|] eqn:Hf.
    - destruct Hat as [->|[_ [=]]]. destruct (io_fileinfo _ _ _ Hinf np n u Hn Hf) as [p Hp]. rewrite Hp in HR.
      cbn [of_option res_bind up_p] in HR. destruct (_ =? _); injection HR as <- <-; [rewrite Hsame by done|]; cbn; lia.
    - apply res_bind_inv in HR as (u & Hu & [= <- <-]). apply of_option_inv in Hu.
      pose proof (malloc_upi_fresh _ _ Hu) as Hfresh. destruct st as [s dead]. cbn [pg_state pg_dead] in *.
      rewrite lives_malloc; [|done|by apply (fresh_not_dead _ _ _ Hok)].
      destruct Hat as [->|[-> _]]; cbn; lia. }
  destruct at_ as [| | | |v|v|v| |v p|v p|port|port| | | |gone|port]; try done; cbn [filemap_step] in H.
  - injection H as H. apply res_bind_inv in H as (m & _ & H). apply res_bind_inv in H as (sta & _ & H).
    destruct (negb _); [done|]. injection H as <- <-. cbn. lia.
  - destruct (node2pagelock _); [done|]. injection H as <- <-. rewrite Hsame by done. cbn. lia.
  - injection H as H. apply Hround; [by left|done].
  - injection H as H. apply Hround; [by right|done].
  - injection H as <- <-. rewrite Hsame by done. cbn. lia.
  - destruct Hk as (_ & Hv & _). destruct (pager_create _ _); injection H as <- <-; [rewrite (lives_same st)|rewrite Hsame by done].
    + cbn. lia.
    + cbn [pg_state pg_dead set_upis upis count_pager]. by rewrite dom_insert_lookup_L.
    + cbn. lia.
  - destruct Hk as (_ & Hv & Hd & _). injection H as <- <-. unfold lives. cbn [pg_state pg_dead set_upis upis].
    rewrite dom_delete_L, difference_first. rewrite (size_shrinks (dom (upis (pg_state st)) ∖ pg_dead st) v); [cbn; lia|].
    apply elem_of_difference. split; [by apply elem_of_dom|done].
  - injection H as <- <-. rewrite Hsame by done. cbn. lia.
  - injection H as <- <-. rewrite Hsame by done. cbn. lia.
  - destruct Hk as (_ & Hv & Hd). injection H as <- <-. rewrite Hsame by done. unfold port_right.
    rewrite decide_False by done. destruct (io_infos _ _ _ Hinf v _ Hv eq_refl) as (q & m & p' & [= <- <-] & _ & _ & Hport).
    apply Z.eqb_neq in Hport. rewrite Hport. cbn. lia.
  - injection H as <- <-. rewrite Hsame by done. cbn. lia.
  - injection H as <- <-. rewrite Hsame by done. cbn. lia.
Qed.

Lemma clear_step_less st d ts i u at_ st' at' :
  paging_ok pl (Paging st d ts) -> ts !! i = Some (ClearInfo u, at_) ->
  clear_step pl st u at_ = Some (Ret (st', at')) ->
  (7 * lives st' + rank (ClearInfo u, at') < 7 * lives st + rank (ClearInfo u, at_))%nat.
Proof.
  intros Hok Hi H. pose proof (pk_infos _ _ Hok) as Hinf.
  destruct (pk_threads _ _ Hok _ (list_elem_of_lookup_2 _ _ _ Hi)) as [[port Hr]|(np & p & Hu & Hdead & Hk)].
  { cbn [snd] in Hr. by subst. }
  cbn [pg_pagers pg_deaths pg_threads fst snd] in *.
  destruct (io_infos _ _ _ Hinf u _ Hu eq_refl) as (q & n & p' & [= <- <-] & Hn & _).
  assert (forall s', upis s' = upis (pg_state st) -> lives (Pagers s' (pg_dead st)) = lives st) as Hsame.
  { intros s' Hs. apply lives_same. cbn [pg_state pg_dead]. by rewrite Hs. }
  destruct at_ as [| | | |v|v|v| |v w|v w|port|port| | | |gone|port]; try done; cbn [clear_step] in H.
  - rewrite Hu in H. injection H as <- <-. cbn. lia.
  - destruct (node2pagelock _); [done|]. injection H as <- <-. rewrite Hsame by done. cbn. lia.
  - rewrite Hu in H. cbn [of_option res_bind file_info up_np] in H. rewrite Hn in H. injection H as <- <-.
    rewrite Hsame by (by case_bool_decide). cbn. lia.
  - injection H as <- <-. rewrite Hsame by done. cbn. lia.
  - rewrite Hu in H. injection H as <- <-. rewrite Hsame by done. cbn. lia.
  - injection H as <- <-. rewrite (lives_same st); [cbn; lia|]. cbn [pg_state pg_dead set_upis upis].
    rewrite dom_delete_L. by apply difference_both.
Qed.

Lemma paging_less c c' : paging_step pl c c' -> paging_ok pl c -> (to_come c' < to_come c)%nat.
Proof.
  intros [st d ts i t at_ st' at' Hi H|s dead d ts u np p Hu Hnd Hheld] Hok; unfold to_come; cbn [pg_pagers pg_threads].
  - pose proof (sum_list_with_insert rank ts i _ (t, at') Hi) as Hsum.
    assert (7 * lives st' + rank (t, at') < 7 * lives st + rank (t, at_))%nat; [|lia].
    destruct t; [eapply filemap_step_less|eapply clear_step_less]; [exact Hok|exact Hi|exact H|exact Hok|exact Hi|exact H].
  - rewrite sum_list_with_app. cbn. unfold lives. cbn [pg_state pg_dead]. rewrite difference_twice.
    rewrite (size_shrinks (dom (upis s) ∖ dead) u); [lia|].
    apply elem_of_difference. split; [by apply elem_of_dom|done].
Qed.

Lemma paging_run_length k c c' : nsteps (paging_step pl) k c c' -> paging_ok pl c -> (k + to_come c' <= to_come c)%nat.
Proof.
  intros H. induction H as [c|k c c1 c' H1 _ IH]; intros Hok; [lia|].
  pose proof (paging_less _ _ H1 Hok). pose proof (IH (paging_keeps _ _ H1 Hok)). lia.
Qed.

(** When nothing can step, every thread has returned. *)
Lemma stuck_returned c x : paging_ok pl c -> ~ enabled pl c -> x ∈ pg_threads c -> returned x.
Proof.
  destruct c as [st d ts]. intros Hok Hstuck Hx. apply list_elem_of_lookup in Hx as [i Hi]. destruct x as [t at_].
  cbn [pg_threads] in Hi.
  destruct (pager_progress _ _ _ _ _ _ Hok Hi) as [(st' & at' & H)|[(_ & Hlock & _)|[Hr _]]]; [|exfalso|done].
  - destruct Hstuck. by exists i, t, at_, st', at'.
  - apply (pk_lock _ _ Hok) in Hlock as (z & Hz & Hin). apply list_elem_of_lookup in Hz as [j Hj]. destruct z as [t' at''].
    cbn [pg_threads] in Hj.
    destruct (pager_progress _ _ _ _ _ _ Hok Hj) as [(st' & at' & H)|[(-> & _)|[[port Hr] _]]].
    + destruct Hstuck. by exists j, t', at'', st', at'.
    + done.
    + cbn [snd] in Hr. by subst.
Qed.

(** ** Lemmas: the start and the end *)

Lemma requests_in s nps x : x ∈ pg_threads (filemap_requests s nps) -> exists np, np ∈ nps /\ x = (FilemapOf np, PCall).
Proof. cbn. intros (np & -> & Hnp)%list_elem_of_fmap. by exists np. Qed.

Lemma settled_start s nps :
  settled pl s -> requestable s nps -> paging_ok pl (filemap_requests s nps).
Proof.
  intros [Hlock Href [Hfi Hlive Hlight] Hinfos] Hnps.
  assert (forall i x, pg_threads (filemap_requests s nps) !! i = Some x -> exists np, np ∈ nps /\ x = (FilemapOf np, PCall)) as Hthr.
  { intros i x Hx. eapply requests_in, list_elem_of_lookup_2, Hx. }
  split; [| | | | |done].
  - by intros i j x y (np & _ & ->)%Hthr.
  - cbn [pg_pagers filemap_requests pg_state]. rewrite Hlock. split; [done|]. by intros (x & (np & _ & ->)%requests_in & Hx).
  - intros i j x y u (np & _ & ->)%Hthr _ [[=] _].
  - intros x (np & Hnp & ->)%requests_in. destruct (Hnps np Hnp) as (n & Hn & Hm). by exists n.
  - split; cbn [filemap_requests pg_pagers pg_state pg_dead]; [done| |done| | |].
    + intros u upi Hu Ht. destruct (Hlive u upi Hu Ht) as (np & n & p & -> & Hn & Hs). exists np, n, (Some p).
      split_and!; try done. by destruct (Hinfos u np p Hu).
    + intros np n Hn. rewrite <- (Hlight np n Hn).
      rewrite sum_list_with_zero; [lia|]. by intros x (q & _ & ->)%requests_in.
    + intros u np p n Hu _ Hn. left. destruct (Hinfos u np p Hu) as (_ & m & Hm & Hf). congruence.
    + intros u Hu. by apply not_elem_of_empty in Hu.
Qed.

Lemma requests_to_come s nps : to_come (filemap_requests s nps) = (17 * length nps + 7 * size (upis s))%nat.
Proof.
  unfold to_come, lives. cbn [filemap_requests pg_pagers pg_threads pg_state pg_dead].
  rewrite difference_empty_L, size_dom. induction nps as [|np nps IH]; cbn in *; lia.
Qed.

Lemma settled_end c :
  paging_ok pl c -> (forall x, x ∈ pg_threads c -> returned x) -> settled pl (pg_state (pg_pagers c)) /\ pg_dead (pg_pagers c) = ∅.
Proof.
  intros [_ Hlock _ _ [Href Hinf Hfi Hl Hlive Hdead] _] Hret.
  assert (forall (P : task * ppc -> Prop), (forall t port, ~ P (t, PReturn port)) -> ~ exists x, x ∈ pg_threads c /\ P x) as Hno.
  { intros P HP ([t at_] & Hx & Hp). destruct (Hret _ Hx) as [port Hr]. cbn in Hr. subst. by apply (HP t port). }
  assert (pg_dead (pg_pagers c) = ∅) as Hnone.
  { apply set_eq. intros u. split; [|by intros ?%not_elem_of_empty]. intros Hu%Hdead. exfalso. revert Hu. apply Hno. by intros t port [_ ?]. }
  assert (forall u upi, upis (pg_state (pg_pagers c)) !! u = Some upi -> up_type upi = FILE_DATA -> exists np n p,
    upi = file_info np (Some p) /\ nodes (ns (pg_state (pg_pagers c))) !! np = Some n /\ is_Some (dn_stat n) /\
    pager_get_port pl p <> MACH_PORT_NULL) as Hlast.
  { intros u upi Hu Ht. destruct (Hinf u upi Hu Ht) as (np & n & [p|] & -> & Hn & Hs & Hp); [by exists np, n, p|].
    exfalso. revert Hp. apply Hno. by intros t port [_ ?]. }
  split; [|done]. split; [|done| |].
  - destruct (node2pagelock _); [|done]. exfalso. eapply Hno; [|by apply Hlock]. done.
  - split; [done| |].
    + intros u upi Hu Ht. destruct (Hlast u upi Hu Ht) as (np & n & p & ? & ? & ? & _). by exists np, n, p.
    + intros np n Hn. rewrite <- (Hl np n Hn), sum_list_with_zero; [lia|].
      intros [t at_] Hx. destruct (Hret _ Hx) as [port Hr]. cbn in Hr. subst. by destruct t.
  - intros u np p Hu. destruct (Hlast u _ Hu eq_refl) as (q & n & p' & [= <- <-] & Hn & _ & Hport). split; [done|].
    exists n. split; [done|]. destruct (Hlive u np p n Hu) as [?|He]; [rewrite Hnone; by apply not_elem_of_empty|done|done|].
    exfalso. revert He. apply Hno. by intros t port [_ ?].
Qed.

(** The requests are still there. *)
Lemma requests_stay c c' i np at_ :
  rtc (paging_step pl) c c' -> pg_threads c !! i = Some (FilemapOf np, at_) ->
  exists at_', pg_threads c' !! i = Some (FilemapOf np, at_').
Proof.
  intros H. revert at_. induction H as [c|c c1 c' H1 _ IH]; intros at_ Hi; [by exists at_|].
  destruct H1 as [st d ts j t at1 st' at2 Hj _|s dead d ts u q p _ _ _]; cbn [pg_threads] in *.
  - destruct (decide (j = i)) as [->|Hne].
    + assert (t = FilemapOf np) as -> by congruence. apply (IH at2), list_lookup_insert_eq. by eapply lookup_lt_Some.
    + apply (IH at_). by rewrite list_lookup_insert_ne.
  - apply (IH at_). by apply lookup_app_l_Some.
Qed.

Lemma given_live s n port : port <> MACH_PORT_NULL -> given pl s n port -> live_port pl s n = Some port.
Proof.
  intros Hport (u & upi & p & Hf & Hu & Hp & Hg). unfold live_port. rewrite Hf. cbn [mbind option_bind]. rewrite Hu.
  cbn [mbind option_bind]. rewrite Hp. cbn [mbind option_bind]. rewrite Hg. apply Z.eqb_neq in Hport. by rewrite Hport.
Qed.

(** What a request that has returned was given. *)
Lemma returned_port c np port :
  paging_ok pl c -> (FilemapOf np, PReturn port) ∈ pg_threads c ->
  if port =? MACH_PORT_NULL then creation_fails pl
  else pg_deaths c = 0%nat -> exists n, nodes (ns (pg_state (pg_pagers c))) !! np = Some n /\
    live_port pl (pg_state (pg_pagers c)) n = Some port.
Proof.
  intros Hok Hx. destruct (pk_threads _ _ Hok _ Hx) as (n & Hn & _ & Hk). cbn [snd filemap_knows] in Hk.
  destruct (Z.eqb_spec port MACH_PORT_NULL) as [_|Hport]; [done|]. intros Hd. exists n. split; [done|].
  apply given_live; [done|by apply Hk].
Qed.

(** A node has at most one pager that is alive. *)
Lemma one_live_pager c np u v p q :
  paging_ok pl c -> let st := pg_pagers c in
  upis (pg_state st) !! u = Some (file_info np (Some p)) -> upis (pg_state st) !! v = Some (file_info np (Some q)) ->
  u ∉ pg_dead st -> v ∉ pg_dead st -> u = v.
Proof.
  intros Hok st Hu Hv Hud Hvd. pose proof (pk_infos _ _ Hok) as Hinf.
  destruct (io_infos _ _ _ Hinf u _ Hu eq_refl) as (q' & n & p' & [= <- <-] & Hn & _).
  assert (forall z w, z ∈ pg_threads c -> installing np w z -> fileinfo n = None) as Hnone.
  { intros [t at_] w Hz [Ht Hat]. cbn [fst snd] in *. subst t. destruct at_; try done.
    destruct (pk_threads _ _ Hok _ Hz) as (m & Hm & _ & Hf & _). congruence. }
  destruct (io_live _ _ _ Hinf u np p n Hu Hud Hn) as [Hf|(x & Hx & Hinx)],
    (io_live _ _ _ Hinf v np q n Hv Hvd Hn) as [Hg|(y & Hy & Hiny)].
  - congruence.
  - specialize (Hnone y v Hy Hiny). congruence.
  - specialize (Hnone x u Hx Hinx). congruence.
  - apply list_elem_of_lookup in Hx as [i Hi], Hy as [j Hj]. destruct Hinx as [_ Hxa], Hiny as [_ Hya].
    assert (i = j) as ->.
    { apply (pk_excl _ _ Hok i j x y Hi Hj); [by destruct x as [? []]|by destruct y as [? []]]. }
    assert (x = y) as -> by congruence. destruct y as [? []]; try done. cbn in *. congruence.
Qed.

End Company.

(** ** Theorems *)

(** Whatever the interleaving of any number of requests for memory objects, with
    pagers that die at any time: no thread goes wrong (no null or dangling info,
    node or pager is dereferenced), at most one thread is between [spin_lock] and
    [spin_unlock], a node's [fileinfo] is null or an info with a pager that belongs
    to the node, and a node never has two pagers that are alive.  While no pager
    dies, the port a request has been given is that of the node's pager: two requests
    for one node are given one memory object. *)
Theorem interleaved_pagers_safe (pl : pagerlib) (s : pstate) (nps : list positive) (c : paging) `{PagerLibLaws pl} :
  settled pl s -> requestable s nps -> (forall h, is_Some (malloc_upi pl h)) ->
  rtc (paging_step pl) (filemap_requests s nps) c ->
  let st := pg_pagers c in
  (forall i t at_ r, pg_threads c !! i = Some (t, at_) -> pager_step pl st t at_ = Some r ->
     exists st' at', r = Ret (st', at')) /\
  (forall i j x y, pg_threads c !! i = Some x -> pg_threads c !! j = Some y ->
     inside x = true -> inside y = true -> i = j) /\
  fileinfo_ok (pg_state st) /\
  (forall np u v p q, upis (pg_state st) !! u = Some (file_info np (Some p)) ->
     upis (pg_state st) !! v = Some (file_info np (Some q)) -> u ∉ pg_dead st -> v ∉ pg_dead st -> u = v) /\
  (pg_deaths c = 0%nat -> forall np port, (FilemapOf np, PReturn port) ∈ pg_threads c -> port <> MACH_PORT_NULL ->
     exists n, nodes (ns (pg_state st)) !! np = Some n /\ live_port pl (pg_state st) n = Some port).
Proof.
  intros Hs Hnps Hroom Hsteps st. pose proof (paging_reachable pl _ _ _ Hsteps (settled_start pl s nps Hs Hnps)) as Hok.
  split; [|split; [exact (pk_excl _ _ Hok)|split; [exact (io_fileinfo _ _ _ (pk_infos _ _ Hok))|split]]].
  - intros i t at_ r Hi Hr. subst st. destruct c as [st d ts]. cbn [pg_pagers pg_threads] in *.
    destruct (pager_progress pl Hroom _ _ _ _ _ _ Hok Hi) as [(st' & at' & He)|[(_ & _ & He)|[_ He]]];
      rewrite He in Hr; [injection Hr as <-; by exists st', at'|done|done].
  - intros np u v p q. by apply (one_live_pager pl).
  - intros Hd np port Hx Hport. pose proof (returned_port pl _ np port Hok Hx) as Hr.
    apply Z.eqb_neq in Hport. rewrite Hport in Hr. by apply Hr.
Qed.

(** Every interleaving ends, after at most 17 steps for each request and 7 for
    each pager there was; and when no thread can make a step, every request has
    returned and the state is as between requests again: the lock is free, the light
    references of every node are the number of its file pagers, and every pager is
    its node's.  A request has returned a null port only if [pager_create] can fail. *)
Theorem interleaved_pagers_end (pl : pagerlib) (s : pstate) (nps : list positive) (k : nat) (c : paging) `{PagerLibLaws pl} :
  settled pl s -> requestable s nps -> (forall h, is_Some (malloc_upi pl h)) ->
  nsteps (paging_step pl) k (filemap_requests s nps) c ->
  (k <= 17 * length nps + 7 * size (upis s))%nat /\
  (~ enabled pl c ->
     settled pl (pg_state (pg_pagers c)) /\
     forall i np, nps !! i = Some np -> exists port, pg_threads c !! i = Some (FilemapOf np, PReturn port) /\
       (port = MACH_PORT_NULL -> creation_fails pl)).
Proof.
  intros Hs Hnps Hroom Hn. pose proof (settled_start pl s nps Hs Hnps) as Hstart.
  assert (rtc (paging_step pl) (filemap_requests s nps) c) as Hsteps by (apply rtc_nsteps; by exists k).
  pose proof (paging_reachable pl _ _ _ Hsteps Hstart) as Hok. split.
  - pose proof (paging_run_length pl _ _ _ _ Hn Hstart) as Hk. rewrite requests_to_come in Hk. lia.
  - intros Hstuck. pose proof (stuck_returned pl Hroom c) as Hret.
    split; [by apply settled_end; [|intros x; by apply Hret]|]. intros i np Hi.
    destruct (requests_stay pl _ _ i np PCall Hsteps) as [at_ Hat]; [cbn; by rewrite list_lookup_fmap, Hi|].
    assert ((FilemapOf np, at_) ∈ pg_threads c) as Hx by (by eapply list_elem_of_lookup_2).
    destruct (Hret _ Hok Hstuck Hx) as [port Hr]. cbn [snd] in Hr. subst at_. exists port. split; [done|].
    intros ->. exact (returned_port pl _ np _ Hok Hx).
Qed.

(** ** Witnesses *)

(** Node 1 has the pager of info 1, node 2 has none. *)
Definition paging_start : pstate :=
  PState (NState (<[1%positive := add_light 1 (demo_node 5 (Some 1%positive))]> {[2%positive := demo_node 7 None]}) [] false)
    {[1%positive := file_info 1 (Some 1%positive)]} false 1 [].

(** Both nodes are asked for; the pager of node 1 dies after the first request has
    taken the lock. *)
Definition paging_run : list turn :=
  [Runs 0; Runs 1; Runs 0; Dies 1; Runs 2; Runs 0; Runs 0; Runs 0; Runs 0; Runs 0; Runs 0; Runs 0; Runs 2; Runs 2; Runs 0;
   Runs 2; Runs 1; Runs 2; Runs 1; Runs 1; Runs 2; Runs 1; Runs 1; Runs 1; Runs 1; Runs 1].

Lemma paging_start_settled : settled demo_pagerlib paging_start.
Proof.
  assert (forall np n, nodes (ns paging_start) !! np = Some n ->
    np = 1%positive /\ n = add_light 1 (demo_node 5 (Some 1%positive)) \/ np = 2%positive /\ n = demo_node 7 None) as Hnodes.
  { cbn [paging_start ns nodes]. intros np n [[<- <-]|[_ [<- <-]%lookup_singleton_Some]]%lookup_insert_Some; [by left|by right]. }
  assert (forall u upi, upis paging_start !! u = Some upi -> u = 1%positive /\ upi = file_info 1 (Some 1%positive)) as Hupis.
  { cbn [paging_start upis]. by intros u upi [<- <-]%lookup_singleton_Some. }
  split; [done| | |].
  - by intros q n [[-> ->]|[-> ->]]%Hnodes.
  - split.
    + intros np n u [[-> ->]|[-> ->]]%Hnodes [=<-]. by exists 1%positive.
    + intros u upi [-> ->]%Hupis _. eexists 1%positive, _, 1%positive. split; [done|]. split; [reflexivity|]. by eexists.
    + intros np n [[-> ->]|[-> ->]]%Hnodes; reflexivity.
  - intros u np p [-> [= -> ->]]%Hupis. split; [done|]. eexists. by split; [reflexivity|].
Qed.

Lemma paging_start_requestable : requestable paging_start [1%positive; 2%positive].
Proof.
  intros np Hnp. apply elem_of_cons in Hnp as [->|Hnp]; [|apply list_elem_of_singleton in Hnp as ->];
    (eexists; split; [reflexivity|]; eexists; split; reflexivity).
Qed.

Lemma demo_pagerlib_roomy h : is_Some (malloc_upi demo_pagerlib h).
Proof. cbn. repeat case_match; by eexists. Qed.

Lemma interleaved_pagers_end_witness :
  exists c, play demo_pagerlib (filemap_requests paging_start [1; 2]%positive) paging_run = Some c /\
    settled demo_pagerlib (pg_state (pg_pagers c)) /\ (length paging_run <= 41)%nat.
Proof.
  destruct (play demo_pagerlib (filemap_requests paging_start [1; 2]%positive) paging_run) as [c|] eqn:Hc;
    [|vm_compute in Hc; discriminate Hc].
  exists c. split; [reflexivity|].
  destruct (interleaved_pagers_end demo_pagerlib paging_start [1; 2]%positive (length paging_run) c
    paging_start_settled paging_start_requestable demo_pagerlib_roomy (play_steps _ _ _ _ Hc)) as [Hk Hend].
  split; [|exact Hk]. apply Hend. intros (i & t & at_ & st' & at' & Hi & H).
  assert (pg_threads <$> play demo_pagerlib (filemap_requests paging_start [1; 2]%positive) paging_run =
    Some [(FilemapOf 1, PReturn 2); (FilemapOf 2, PReturn 3); (ClearInfo 1, PReturn 0)]) as Hthr by (vm_compute; reflexivity).
  rewrite Hc in Hthr. injection Hthr as Hthr. rewrite Hthr in Hi.
  destruct i as [|[|[|i]]]; [injection Hi as <- <-; discriminate H..|discriminate Hi].
Defined.

Lemma interleaved_pagers_safe_witness :
  exists c, play demo_pagerlib (filemap_requests paging_start [1; 2]%positive) (take 12 paging_run) = Some c /\
    fileinfo_ok (pg_state (pg_pagers c)).
Proof.
  destruct (play demo_pagerlib (filemap_requests paging_start [1; 2]%positive) (take 12 paging_run)) as [c|] eqn:Hc;
    [|vm_compute in Hc; discriminate Hc].
  exists c. split; [reflexivity|].
  destruct (interleaved_pagers_safe demo_pagerlib paging_start [1; 2]%positive c paging_start_settled
    paging_start_requestable demo_pagerlib_roomy) as (_ & _ & Hok & _); [|exact Hok].
  apply rtc_nsteps. eexists. apply (play_steps _ _ _ _ Hc).
Defined.
