(* ===== verification/Concurrent.v ===== *)
(** * Lookups and pagers, concurrently

    The translator as libdiskfs runs it: threads that look inode numbers up
    (Interleave), threads that make memory objects of the nodes found and threads
    that end pagers (PagerThreads), all over the same nodes.  A step of one kind is
    the environment of the other; what it leaves alone is stated by [lookup_frame]
    and by [same_shape]. *)

From stdpp Require Import gmap relations.
From S2P Require Import Prelude Layout Disk Xtree BufCache Sample Imap FileRead DirRead Node Interleave Dir Pager Volume Translator Server PagerSteps PagerThreads.

(** ** Definitions *)

(** The pager threads and the state of pager.c with the node cache in it, the lookup
    threads, and the number of memory objects asked for so far. *)
Record system := System { sy_paging : paging; sy_lookups : list (Z * pc); sy_opens : nat }.

Definition cache_of (c : paging) : nstate := ns (pg_state (pg_pagers c)).

Definition with_cache (s : nstate) (c : paging) : paging :=
  Paging (Pagers (set_ns s (pg_state (pg_pagers c))) (pg_dead (pg_pagers c))) (pg_deaths c) (pg_threads c).

Definition spawn (t : task) (c : paging) : paging :=
  Paging (pg_pagers c) (pg_deaths c) (pg_threads c ++ [(t, PCall)]).

(** A lookup makes a step; a pager thread does, or a pager dies; or the client of a
    lookup that has returned asks for the memory object of the node, once it has
    been read. *)
Inductive system_step (hd : hurd) (fuel : nat) (e : env) (pl : pagerlib) : system -> system -> Prop :=
| system_lookup c ls k i inum at_ s' at' :
    ls !! i = Some (inum, at_) -> thread_step hd fuel e (cache_of c) inum at_ = Some (Ret (s', at')) ->
    system_step hd fuel e pl (System c ls k) (System (with_cache s' c) (<[i := (inum, at')]> ls) k)
| system_pager c c' ls k :
    paging_step pl c c' -> system_step hd fuel e pl (System c ls k) (System c' ls k)
| system_open c ls k i inum np n :
    ls !! i = Some (inum, Done (Some np) None) -> nodes (cache_of c) !! np = Some n -> is_Some (dn_stat n) ->
    system_step hd fuel e pl (System c ls k) (System (spawn (FilemapOf np) c) ls (S k)).

(** Lookups of [inums] start; no memory object has been asked for. *)
Definition system_start (s : pstate) (inums : list Z) : system :=
  System (filemap_requests s []) ((fun inum => (inum, Call)) <$> inums) 0.

(** What happens next, and an executable scheduler. *)
Inductive schedule := LookupRuns (i : nat) | PagerTurn (t : turn) | Opens (i : nat).

Definition act (hd : hurd) (fuel : nat) (e : env) (pl : pagerlib) (c : system) (a : schedule) : option system :=
  let '(System pg ls k) := c in
  match a with
  | LookupRuns i =>
      '(inum, at_) ← ls !! i;
      match thread_step hd fuel e (cache_of pg) inum at_ with
      | Some (Ret (s', at')) => Some (System (with_cache s' pg) (<[i := (inum, at')]> ls) k)
      | _ => None
      end
  | PagerTurn t => pg' ← play_one pl pg t; Some (System pg' ls k)
  | Opens i =>
      match ls !! i with
      | Some (_, Done (Some np) None) =>
          n ← nodes (cache_of pg) !! np; _ ← dn_stat n; Some (System (spawn (FilemapOf np) pg) ls (S k))
      | _ => None
      end
  end.

Fixpoint perform (hd : hurd) (fuel : nat) (e : env) (pl : pagerlib) (c : system) (l : list schedule) : option system :=
  match l with [] => Some c | a :: l' => c' ← act hd fuel e pl c a; perform hd fuel e pl c' l' end.

(** ** Specification *)

(** A count that has been loaded and not yet stored. *)
Definition load_ok (at_ : pc) : Prop :=
  match at_ with HitStore _ v | MissStore _ v _ => 0 < v | _ => True end.

(** What a lookup leaves of the nodes for the pager threads. *)
Record lookup_frame (s s' : nstate) : Prop := {
  lf_kept q n : nodes s !! q = Some n -> exists n', nodes s' !! q = Some n' /\ fileinfo n' = fileinfo n /\
    light_references n' = light_references n /\ 0 < references n' /\ (dn_stat n' = dn_stat n \/ mode_ok n');
  lf_new q n' : nodes s' !! q = Some n' -> nodes s !! q = None ->
    0 < references n' /\ light_references n' = 0 /\ fileinfo n' = None /\ dn_stat n' = None }.

(** A thread of either kind could make a step. *)
Definition busy (hd : hurd) (fuel : nat) (e : env) (pl : pagerlib) (c : system) : Prop :=
  enabled pl (sy_paging c) \/
  exists i inum at_ s' at', sy_lookups c !! i = Some (inum, at_) /\
    thread_step hd fuel e (cache_of (sy_paging c)) inum at_ = Some (Ret (s', at')).

(** An inode can be read, or cannot; the device is not too short for it. *)
Definition readable (fuel : nat) (e : env) (inum : Z) : Prop :=
  (exists di, read_inode fuel e inum = Ret di) \/ (exists er, read_inode fuel e inum = Err er).

(** The translator with a well-formed cache and no thread. *)
Record at_rest (pl : pagerlib) (s : pstate) : Prop := {
  ar_cache : cache_ok (ns s);
  ar_lock : refcnt_lock (ns s) = false;
  ar_settled : settled pl s;
  ar_stats q n : nodes (ns s) !! q = Some n -> is_Some (dn_stat n) -> mode_ok n }.

Record system_ok (hd : hurd) (fuel : nat) (e : env) (pl : pagerlib) (c : system) : Prop := {
  sk_paging : paging_ok pl (sy_paging c);
  sk_conf : conf_ok hd fuel e (Config (cache_of (sy_paging c)) (sy_lookups c));
  sk_loads i inum at_ : sy_lookups c !! i = Some (inum, at_) -> load_ok at_;
  sk_stats q n : nodes (cache_of (sy_paging c)) !! q = Some n -> is_Some (dn_stat n) -> mode_ok n }.

(** ** Lemmas: a lookup among pager threads *)

Section Lookup.
Context (hd : hurd) (fuel : nat) (e : env) (Hhd : HurdLaws hd).

Lemma inode_stat_mode id di n : mode_ok (set_stat (inode_stat hd id di) n).
Proof.
  exists (inode_stat hd id di). split; [done|]. cbn [inode_stat st_mode]. by destruct (S_ISDIR (di_mode di)).
Qed.

Lemma lookup_frame_refl s s' :
  nodes s' = nodes s -> (forall q n, nodes s !! q = Some n -> 0 < references n) -> lookup_frame s s'.
Proof.
  intros Heq Hr. split; rewrite Heq; [|congruence]. intros q n Hn. exists n. split_and!; try done; [by eapply Hr|by left].
Qed.

(** One node changes in what the pagers do not use. *)
Lemma lookup_frame_update s s' p f :
  nodes s' = nodes (update_node p f s) -> (forall q n, nodes s !! q = Some n -> 0 < references n) ->
  (forall n, nodes s !! p = Some n -> fileinfo (f n) = fileinfo n /\ light_references (f n) = light_references n /\
     0 < references (f n) /\ (dn_stat (f n) = dn_stat n \/ mode_ok (f n))) ->
  lookup_frame s s'.
Proof.
  intros Heq Hr Hf. split; rewrite Heq; cbn [update_node set_nodes nodes]; intros q n Hn.
  - destruct (decide (p = q)) as [->|Hq].
    + exists (f n). rewrite lookup_alter_eq, Hn. split; [done|]. by apply Hf.
    + exists n. rewrite lookup_alter_ne by done. split_and!; try done; [by eapply Hr|by left].
  - intros Hnone. destruct (decide (p = q)) as [->|Hq];
      [by rewrite lookup_alter_eq, Hnone in Hn|rewrite lookup_alter_ne in Hn by done; congruence].
Qed.

(** The new node. *)
Lemma lookup_frame_create s s' p :
  same_but p s s' -> nodes s !! p = None -> (exists inum next, nodes s' !! p = Some (new_node inum next)) ->
  (forall q n, nodes s !! q = Some n -> 0 < references n) -> lookup_frame s s'.
Proof.
  intros Hsame Hfresh (inum & next & Hnp) Hr. split.
  - intros q n Hn. assert (q <> p) as Hq by congruence. specialize (Hsame q Hq). rewrite Hn in Hsame.
    destruct (nodes s' !! q) as [n'|]; [|done]. apply Some_inj in Hsame. exists n'.
    assert (0 < references n) by (by eapply Hr). destruct n, n'. unfold contents, set_hnext, set_hprevp in Hsame. cbn in *.
    injection Hsame as -> -> -> -> -> -> ->. split_and!; try done. by left.
  - intros q n' Hn' Hnone. destruct (decide (q = p)) as [->|Hq].
    + rewrite Hnp in Hn'. injection Hn' as <-. done.
    + specialize (Hsame q Hq). by rewrite Hn', Hnone in Hsame.
Qed.

Lemma lookup_frames s inum at_ s' at' :
  cache_ok s -> pc_ok fuel e s inum at_ -> load_ok at_ -> (forall q n, nodes s !! q = Some n -> 0 < references n) ->
  thread_step hd fuel e s inum at_ = Some (Ret (s', at')) -> lookup_frame s s' /\ load_ok at'.
Proof.
  intros [chain Hok] Hpc Hload Hr H.
  destruct at_; try (cbn [load_ok] in Hload);
    try (step_inv H; (split; [by apply lookup_frame_refl|try done; by eapply Hr])).
  - step_inv H. split; [|done]. eapply lookup_frame_update; [done|done|]. intros m _.
    cbn. split_and!; try done; [lia|by left].
  - step_inv H. split; [|done]. eapply lookup_frame_update; [done|done|]. intros m Hm.
    split_and!; try done; [exact (Hr p m Hm)|by left].
  - cbn [thread_step] in H.
    assert (lookup_frame s (spin_unlock s)) as Hsame by (by apply lookup_frame_refl).
    destruct (negb (malloc_ok e sizeof_disknode)); [by injection H as <- <-|].
    destruct (make_node hd (nodes s)) as [np|] eqn:Hmk; [|by injection H as <- <-].
    pose proof (make_node_fresh _ _ Hmk) as Hfresh.
    destruct (hash_insert_ok s chain np inum Hok Hfresh Hpc) as (s1 & Hins & _ & _ & (next & Hnp) & Hbut).
    rewrite Hins in H. injection H as <- <-. split; [|done].
    apply (lookup_frame_create s (spin_unlock s1) np); [done|done|by exists inum, next|done].
  - cbn [thread_step] in H. destruct (catch_exception hd) as [err|].
    + injection H as <- <-. split; [by apply lookup_frame_refl|done].
    + destruct (nodes s !! p) as [n|] eqn:Hn; [|done]. injection H as <- <-. split; [|done].
      eapply (lookup_frame_update _ _ p (set_stat (inode_stat hd (cache_id n) di))); [done|done|]. intros m Hm.
      split_and!; try done; [exact (Hr p m Hm)|right; apply inode_stat_mode].
  - step_inv H. split; [|done]. eapply lookup_frame_update; [done|done|]. intros m _.
    cbn. split_and!; try done; [lia|by left].
Qed.
End Lookup.

(** ** Lemmas: pager threads among lookups *)

Section Pagers.
Context (pl : pagerlib) (Hpl : PagerLibLaws pl).

Lemma lookup_frame_back s s' q n' u :
  lookup_frame s s' -> nodes s' !! q = Some n' -> fileinfo n' = Some u ->
  exists n, nodes s !! q = Some n /\ fileinfo n = Some u.
Proof.
  intros Hf Hn' Hu. destruct (nodes s !! q) as [n|] eqn:Hn.
  - destruct (lf_kept _ _ Hf q n Hn) as (m & Hm & Hfi & _). exists n. split; [done|]. congruence.
  - destruct (lf_new _ _ Hf q n' Hn' Hn) as (_ & _ & Hnone & _). congruence.
Qed.

Lemma lookup_frame_mode s s' q n :
  lookup_frame s s' -> nodes s !! q = Some n -> mode_ok n -> exists n', nodes s' !! q = Some n' /\
    mode_ok n' /\ fileinfo n' = fileinfo n /\ light_references n' = light_references n.
Proof.
  intros Hf Hn Hm. destruct (lf_kept _ _ Hf q n Hn) as (n' & Hn' & Hfi & Hl & _ & Hst). exists n'.
  split_and!; try done. destruct Hst as [Hst|?]; [|done]. unfold mode_ok in *. by rewrite Hst.
Qed.

Lemma given_frame s s' st n n' port :
  fileinfo n' = fileinfo n -> given pl (set_ns s st) n port -> given pl (set_ns s' st) n' port.
Proof. intros Hf (u & upi & p & Hu & H). exists u, upi, p. by rewrite Hf. Qed.

Lemma thread_ok_frame st d s' x :
  lookup_frame (ns (pg_state st)) s' -> thread_ok pl st d x ->
  thread_ok pl (Pagers (set_ns s' (pg_state st)) (pg_dead st)) d x.
Proof.
  intros Hf. destruct x as [[np|u] at_]; unfold thread_ok; cbn [fst snd].
  - intros (n & Hn & Hm & Hk). destruct (lookup_frame_mode _ _ np n Hf Hn Hm) as (n' & Hn' & Hm' & Hfi & _).
    exists n'. split; [done|]. split; [done|]. destruct at_; cbn [filemap_knows pg_state pg_dead set_ns upis] in *;
      rewrite ?Hfi; try done.
    all: try (destruct Hk as [Hport Hk]; split; [done|]; intros Hd; specialize (Hk Hd)).
    3: destruct (port =? MACH_PORT_NULL); [done|]; intros Hd; specialize (Hk Hd).
    all: destruct Hk as (u & upi & p & Hu & HH); exists u, upi, p; by rewrite Hfi.
  - intros [?|(np & p & Hu & Hd & Hat)]; [by left|right]. exists np, p. split; [done|]. split; [done|].
    assert ((forall q n, nodes (ns (pg_state st)) !! q = Some n -> fileinfo n <> Some u) ->
      forall q n, nodes s' !! q = Some n -> fileinfo n <> Some u) as Hnone.
    { intros HH q n' Hn' Hfi. destruct (lookup_frame_back _ _ q n' u Hf Hn' Hfi) as (n & Hn & Hnf). by apply (HH q n). }
    destruct at_; try done; [by apply Hnone|by apply Hnone|]. destruct Hat as [-> Hat]. split; [done|by apply Hnone].
Qed.

(** Nobody owes a reference of a node that does not exist, and no info belongs to it. *)
Lemma owes_absent c x q :
  paging_ok pl c -> x ∈ pg_threads c -> nodes (cache_of c) !! q = None -> owes q x = 0%nat.
Proof.
  intros Hok Hx Hq. pose proof (pk_threads _ _ Hok x Hx) as Hxok. destruct x as [[np|u] at_]; unfold thread_ok in Hxok; cbn [fst snd] in Hxok.
  - destruct Hxok as (n & Hn & _). destruct at_; try done. cbn. rewrite decide_False; [done|].
    intros ->. unfold cache_of in Hq. congruence.
  - destruct Hxok as [[port ->]|(np & p & Hu & _ & Hat)]; [done|].
    destruct (io_infos _ _ _ (pk_infos _ _ Hok) u _ Hu eq_refl) as (q' & n & p' & [= <- <-] & Hn & _).
    destruct at_ as [| | | |v|v|v| |v w|v w|port|port| | | |gone|port]; try done. destruct Hat as [-> _].
    cbn. rewrite decide_False; [done|]. intros ->. unfold cache_of in Hq. congruence.
Qed.

Lemma pagers_of_absent c q :
  paging_ok pl c -> nodes (cache_of c) !! q = None -> pagers_of (upis (pg_state (pg_pagers c))) q = 0.
Proof.
  intros Hok Hq. unfold pagers_of.
  replace (filter _ _) with (∅ : gmap positive user_pager_info); [by rewrite map_size_empty|].
  symmetry. apply map_empty. intros u. apply map_lookup_filter_None. right. intros upi Hu [Ht Hnp]. cbn in *.
  destruct (io_infos _ _ _ (pk_infos _ _ Hok) u upi Hu Ht) as (np & n & p & -> & Hn & _). cbn in Hnp.
  injection Hnp as ->. unfold cache_of in Hq. congruence.
Qed.

Lemma paging_frame c s' :
  lookup_frame (cache_of c) s' -> paging_ok pl c -> paging_ok pl (with_cache s' c).
Proof.
  intros Hf Hok. pose proof (pk_threads _ _ Hok) as Hthr.
  assert (forall q, nodes (cache_of c) !! q = None ->
    pagers_of (upis (pg_state (pg_pagers c))) q = 0 /\ sum_list_with (owes q) (pg_threads c) = 0%nat) as Habs.
  { intros q Hq. split; [by apply pagers_of_absent|]. apply sum_list_with_zero. intros x Hx. by apply (owes_absent c). }
  destruct Hok as [Hexcl Hlock Honce _ [Hr Hinf Hfi Hl Hlive Hdead] Hd].
  destruct c as [st d ts]. unfold with_cache, cache_of in *. cbn [pg_pagers pg_threads pg_deaths] in *.
  split; cbn [pg_pagers pg_threads pg_deaths]; [done|done|done|intros x Hx; by apply thread_ok_frame; [|apply Hthr]| |done].
  split; cbn [pg_state pg_dead set_ns ns upis].
  - intros q n' Hn'. destruct (nodes (ns (pg_state st)) !! q) as [n|] eqn:Hn.
    + destruct (lf_kept _ _ Hf q n Hn) as (m & Hm & _ & _ & ? & _). congruence.
    + by destruct (lf_new _ _ Hf q n' Hn' Hn).
  - intros u upi Hu Ht. destruct (Hinf u upi Hu Ht) as (np & n & p & -> & Hn & [sta Hs] & Hp).
    destruct (lf_kept _ _ Hf np n Hn) as (n' & Hn' & _ & _ & _ & Hst). exists np, n', p. split_and!; try done.
    destruct Hst as [->|(sta' & -> & _)]; by eexists.
  - intros q n' u Hn' Hu. destruct (lookup_frame_back _ _ q n' u Hf Hn' Hu) as (n & Hn & Hnu). by apply (Hfi q n).
  - intros q n' Hn'. destruct (nodes (ns (pg_state st)) !! q) as [n|] eqn:Hn.
    + destruct (lf_kept _ _ Hf q n Hn) as (m & Hm & _ & Hlm & _). rewrite Hm in Hn'. injection Hn' as <-.
      rewrite Hlm. by apply Hl.
    + destruct (lf_new _ _ Hf q n' Hn' Hn) as (_ & -> & _). destruct (Habs q Hn) as [-> ->]. done.
  - intros u np p n' Hu Hnd Hn'. destruct (Hinf u _ Hu eq_refl) as (q & n & p' & [= <- <-] & Hn & _).
    destruct (lf_kept _ _ Hf np n Hn) as (m & Hm & Hmf & _). rewrite Hm in Hn'. injection Hn' as <-. rewrite Hmf.
    by apply (Hlive u np p).
  - done.
Qed.
End Pagers.

(** ** Lemmas: lookups among pager threads *)

Section System.
Context (hd : hurd) (fuel : nat) (e : env) (pl : pagerlib) (Hhd : HurdLaws hd) (Hpl : PagerLibLaws pl).

(** What a step of the pager threads leaves of the cache for the lookups. *)
Lemma pager_step_shape c c' : paging_ok pl c -> paging_step pl c c' -> same_shape (cache_of c) (cache_of c').
Proof.
  intros Hok Hstep. destruct Hstep as [st d ts i t at_ st' at' Hi H|]; [|done].
  unfold cache_of. cbn [pg_pagers].
  pose proof (pk_threads _ _ Hok _ (list_elem_of_lookup_2 _ _ _ Hi)) as Hx. cbn [pg_pagers pg_deaths] in Hx.
  assert (forall np f, (forall n, shape (f n) = shape n) ->
    same_shape (ns (pg_state st)) (update_node np f (ns (pg_state st)))) as Hup by (intros; by apply same_shape_update).
  destruct t as [np|u]; cbn [pager_step] in H.
  - destruct Hx as (n & Hn & _). destruct at_; try done; cbn [filemap_step] in H.
    + injection H as H. repeat (apply res_bind_inv in H as (? & _ & H)). case_match; [done|]. by injection H as <- <-.
    + case_match; [done|]. by injection H as <- <-.
    + injection H as H. unfold filemap_round in H. rewrite Hn in H. cbn [of_option res_bind] in H.
      destruct (fileinfo n); res_inv; [|done]. case_match; res_inv; [by apply Hup|done].
    + injection H as H. unfold filemap_round in H. rewrite Hn in H. cbn [of_option res_bind] in H.
      destruct (fileinfo n); res_inv; [|done]. case_match; res_inv; [by apply Hup|done].
    + injection H as <- <-. cbn [pg_state set_ns ns]. rewrite nref_light_counts. by apply Hup.
    + case_match; by injection H as <- <-.
    + injection H as <- <-. cbn [pg_state set_upis set_ns ns].
      rewrite (nrele_light_stays pl Hpl st ts np n (pk_infos _ _ Hok) Hn). by apply Hup.
    + by injection H as <- <-.
    + injection H as <- <-. by apply Hup.
    + by injection H as <- <-.
    + by injection H as <- <-.
    + by injection H as <- <-.
  - destruct at_; try done; cbn [clear_step] in H.
    + injection H as H. res_inv. done.
    + case_match; [done|]. by injection H as <- <-.
    + injection H as H. res_inv. case_bool_decide; [by apply Hup|done].
    + by injection H as <- <-.
    + injection H as H. apply res_bind_inv in H as (upi & Hu & H). apply of_option_inv in Hu.
      apply res_bind_inv in H as (np & Hnp & H). apply of_option_inv in Hnp. injection H as <- <-.
      destruct Hx as [[port ?]|(q & p & Hu' & _)]; [done|]. rewrite Hu' in Hu. injection Hu as <-. injection Hnp as <-.
      destruct (io_infos _ _ _ (pk_infos _ _ Hok) u _ Hu' eq_refl) as (q' & n & p' & [= <- <-] & Hn & _).
      cbn [pg_state set_ns ns]. rewrite (nrele_light_stays pl Hpl st ts q n (pk_infos _ _ Hok) Hn). by apply Hup.
    + by injection H as <- <-.
Qed.

Lemma same_shape_cached s s' i q : same_shape s s' -> cached s' i q <-> cached s i q.
Proof.
  intros Hs. split; intros (n & Hn & Hi).
  - destruct (same_shape_back _ _ _ _ Hs Hn) as (m & Hm & Heq). exists m. split; [done|]. injection Heq. congruence.
  - destruct (same_shape_forth _ _ _ _ Hs Hn) as (m & Hm & Heq). exists m. split; [done|]. injection Heq. congruence.
Qed.

Lemma conf_frame s s' ls : same_shape s s' -> conf_ok hd fuel e (Config s ls) -> conf_ok hd fuel e (Config s' ls).
Proof.
  intros Hs [Hcache Hpcs Hexcl Hheld Hfree]. pose proof Hs as (_ & _ & Hl). cbn [shared threads] in *.
  split; cbn [shared threads]; rewrite ?Hl; try done; [by eapply same_shape_cache|].
  intros i inum at_ Hi. specialize (Hpcs i inum at_ Hi).
  destruct at_ as [| | | | | | | | | | | |[q|] err]; cbn [pc_ok] in *; try done; try (by apply (same_shape_cached s s')).
  - intros q Hq. by apply (Hpcs q), (same_shape_cached s s').
  - destruct Hpcs. split; [by apply (same_shape_cached s s')|done].
  - destruct Hpcs. split; [by apply (same_shape_cached s s')|done].
Qed.

(** A new request for the memory object of a node that has been read. *)
Lemma spawn_keeps c np n :
  paging_ok pl c -> nodes (cache_of c) !! np = Some n -> mode_ok n -> paging_ok pl (spawn (FilemapOf np) c).
Proof.
  destruct c as [st d ts]. intros Hok Hn Hm.
  eapply (paging_ok_joined pl st d ts); [exact Hok|done|done| | | | |exact (pk_deaths _ _ Hok)].
  - by intros u z [[=] _].
  - intros z _. by apply stable_state.
  - by exists n.
  - apply infos_joined; [exact (pk_infos _ _ Hok)|done].
Qed.

Lemma system_keeps c c' : system_step hd fuel e pl c c' -> system_ok hd fuel e pl c -> system_ok hd fuel e pl c'.
Proof.
  intros Hstep [Hpg Hconf Hload Hstat]. destruct Hstep as [c ls k i inum at_ s' at' Hi H|c c' ls k Hp|c ls k i inum np n Hi Hn Hs];
    cbn [sy_paging sy_lookups] in *.
  - destruct (lookup_frames hd fuel e Hhd (cache_of c) inum at_ s' at' (co_cache _ _ _ _ Hconf)
      (co_pcs _ _ _ _ Hconf _ _ _ Hi) (Hload _ _ _ Hi) (io_references _ _ _ (pk_infos _ _ Hpg)) H) as [Hf Hl].
    split; cbn [sy_paging sy_lookups].
    + by apply paging_frame.
    + eapply (conf_step_ok hd fuel e Hhd (Config (cache_of c) ls)); [done|by econstructor].
    + intros j i' a [(-> & -> & ->)|[_ Hj]]%moved_lookup; [done|by eapply Hload].
    + intros q n' Hn' Hs. change (nodes s' !! q = Some n') in Hn'. destruct (nodes (cache_of c) !! q) as [n|] eqn:Hn.
      * destruct (lf_kept _ _ Hf q n Hn) as (m & Hm & _ & _ & _ & Hst). rewrite Hm in Hn'. injection Hn' as <-.
        destruct Hst as [Hst|?]; [|done]. rewrite Hst in Hs. specialize (Hstat q n Hn Hs). unfold mode_ok in *. by rewrite Hst.
      * destruct (lf_new _ _ Hf q n' Hn' Hn) as (_ & _ & _ & Hst). rewrite Hst in Hs. by destruct Hs.
  - pose proof (pager_step_shape _ _ Hpg Hp) as Hshape. split; cbn [sy_paging sy_lookups].
    + by eapply paging_keeps.
    + by eapply conf_frame.
    + done.
    + intros q n' Hn' Hs. destruct (same_shape_back _ _ _ _ Hshape Hn') as (n & Hn & Heq). injection Heq. intros _ _ Hst _ _.
      rewrite <- Hst in Hs. specialize (Hstat q n Hn Hs). unfold mode_ok in *. by rewrite <- Hst.
  - split; cbn [sy_paging sy_lookups]; [|done|done|done]. eapply spawn_keeps; [done|exact Hn|by eapply Hstat].
Qed.

Lemma system_reachable c c' : rtc (system_step hd fuel e pl) c c' -> system_ok hd fuel e pl c -> system_ok hd fuel e pl c'.
Proof. intros H. induction H; [done|]. intros Hok. by eapply IHrtc, system_keeps. Qed.

Lemma start_ok s inums : at_rest pl s -> system_ok hd fuel e pl (system_start s inums).
Proof.
  intros [Hcache Hlock Hset Hstat]. split; cbn [system_start sy_paging sy_lookups]; [| | |done].
  - apply settled_start; [done|]. by intros np ?%not_elem_of_nil.
  - by apply requests_ok.
  - intros i inum at_ Hi. apply list_lookup_fmap_Some in Hi as (x & [= _ ->] & _). done.
Qed.

(** Every step is one fewer to come; asking for a memory object is 17 more. *)
Definition left_over (c : system) : nat := to_come (sy_paging c) + work (sy_lookups c).

Lemma system_less c c' :
  system_step hd fuel e pl c c' -> system_ok hd fuel e pl c ->
  (S (left_over c') + 18 * sy_opens c <= left_over c + 18 * sy_opens c')%nat.
Proof.
  intros Hstep [Hpg _ _ _]. unfold left_over.
  destruct Hstep as [c ls k i inum at_ s' at' Hi H|c c' ls k Hp|c ls k i inum np n Hi Hn Hs]; cbn [sy_paging sy_lookups sy_opens] in *.
  - change (to_come (with_cache s' c)) with (to_come c).
    pose proof (work_insert _ _ _ _ _ Hi (step_rank hd fuel e _ _ _ _ _ H)). lia.
  - pose proof (paging_less pl Hpl _ _ Hp Hpg). lia.
  - unfold to_come. cbn [spawn pg_pagers pg_threads]. rewrite sum_list_with_app. cbn. lia.
Qed.

Lemma system_run_length k c c' :
  nsteps (system_step hd fuel e pl) k c c' -> system_ok hd fuel e pl c ->
  (k + left_over c' + 18 * sy_opens c <= left_over c + 18 * sy_opens c')%nat.
Proof.
  intros H. induction H as [c|k c c1 c' H1 _ IH]; intros Hok; [lia|].
  pose proof (system_less _ _ H1 Hok). pose proof (IH (system_keeps _ _ H1 Hok)). lia.
Qed.

Lemma start_left s inums : left_over (system_start s inums) = (8 * length inums + 7 * size (upis s))%nat.
Proof.
  unfold left_over. cbn [system_start sy_paging sy_lookups]. rewrite requests_to_come.
  pose proof (work_requests (ns s) inums) as Hw. cbn [requests threads] in Hw. rewrite Hw. cbn. lia.
Qed.

Lemma lookup_numbers c c' : rtc (system_step hd fuel e pl) c c' -> (sy_lookups c').*1 = (sy_lookups c).*1.
Proof.
  induction 1 as [|c1 c2 c3 Hs _ IH]; [done|]. rewrite IH. destruct Hs as [c ls k i inum at_ s' at' Hi _|c c' ls k _|c ls k i inum np n _ _ _]; [|done|done].
  cbn [sy_lookups]. rewrite list_fmap_insert. apply list_insert_id. by rewrite list_lookup_fmap, Hi.
Qed.

Lemma lookup_requested s inums c i inum at_ :
  rtc (system_step hd fuel e pl) (system_start s inums) c -> sy_lookups c !! i = Some (inum, at_) -> inum ∈ inums.
Proof.
  intros Hs Hi. replace inums with (sy_lookups c).*1.
  { apply list_elem_of_fmap. exists (inum, at_). split; [done|by eapply list_elem_of_lookup_2]. }
  rewrite (lookup_numbers _ _ Hs). cbn. rewrite <- list_fmap_compose. apply list_fmap_id.
Qed.

(** Lookups on their own are a run of the system. *)
Lemma lookups_run x y :
  rtc (conf_step hd fuel e) x y -> forall pg k, cache_of pg = shared x ->
  rtc (system_step hd fuel e pl) (System pg (threads x) k) (System (with_cache (shared y) pg) (threads y) k).
Proof.
  induction 1 as [x|x x1 y Hs _ IH]; intros pg k Hpg.
  - rewrite <- Hpg. by destruct pg as [[[] ?] ? ?].
  - destruct Hs as [s ls i inum at_ s' at' Hi H]. cbn [shared threads] in *.
    eapply rtc_l; [|exact (IH (with_cache s' pg) k eq_refl)]. eapply system_lookup; [exact Hi|]. by rewrite Hpg.
Qed.

(** What is true when no thread can go on. *)
Lemma system_rests c :
  (forall h, is_Some (malloc_upi pl h)) -> catch_exception hd = None -> system_ok hd fuel e pl c ->
  (forall i inum at_, sy_lookups c !! i = Some (inum, at_) -> readable fuel e inum) -> ~ busy hd fuel e pl c ->
  settled pl (pg_state (pg_pagers (sy_paging c))) /\ (forall x, x ∈ pg_threads (sy_paging c) -> returned x) /\
  forall i inum at_, sy_lookups c !! i = Some (inum, at_) ->
    (exists npp err, at_ = Done npp err) \/
    (exists p m, at_ = NodeLock p /\ nodes (cache_of (sy_paging c)) !! p = Some m /\ locked m = true).
Proof.
  intros Hroom Hcatch [Hpg Hconf _ _] Hread Hidle.
  assert (~ enabled pl (sy_paging c)) as Hstuck by (intros ?; apply Hidle; by left).
  assert (forall x, x ∈ pg_threads (sy_paging c) -> returned x) as Hret by (intros x; by apply (stuck_returned pl Hroom)).
  split; [by apply settled_end|]. split; [exact Hret|].
  apply (blocked_threads hd fuel e Hhd _ Hconf Hcatch Hread).
  intros i inum at_ s' at' Hi Hs. apply Hidle. right. by exists i, inum, at_, s', at'.
Qed.

Lemma perform_steps l c c' : perform hd fuel e pl c l = Some c' -> nsteps (system_step hd fuel e pl) (length l) c c'.
Proof.
  revert c. induction l as [|a l IH]; intros c H; [injection H as <-; constructor|].
  cbn [perform] in H. apply bind_Some in H as (c1 & H1 & H). apply nsteps_l with c1; [|by apply IH].
  destruct c as [pg ls k], a as [i|t|i]; cbn [act] in H1.
  - apply bind_Some in H1 as ([inum at_] & Hi & H1). repeat case_match; try done. injection H1 as <-. by eapply system_lookup.
  - apply bind_Some in H1 as (pg' & Hp & [= <-]). apply system_pager.
    pose proof (play_steps pl [t] pg pg') as Hplay. cbn [play] in Hplay. rewrite Hp in Hplay. cbn in Hplay.
    specialize (Hplay eq_refl). by apply nsteps_once_inv in Hplay.
  - destruct (ls !! i) as [[inum []]|] eqn:Hi; try done. destruct npp as [np|], err; try done.
    apply bind_Some in H1 as (n & Hn & H1). apply bind_Some in H1 as (sta & Hs & [= <-]).
    by eapply system_open.
Qed.

End System.

(** ** Theorems *)

(** C4: Lookups and pagers share the nodes safely.  From a state at rest, with any
    number of lookups, any number of requests for the memory objects of the nodes they
    return, and pagers that die at any time, however all of them are interleaved: no
    thread goes wrong; the hash chains stay well formed and every [fileinfo] is null or
    belongs to its node; each of the two locks is held by at most one thread; a node has
    at most one pager that is alive; and two lookups of a number that have returned a
    node have the same, so that, while no pager dies, the clients that ask for its memory
    object are given the same port. *)
Theorem concurrent_translator_safe (hd : hurd) (fuel : nat) (e : env) (pl : pagerlib) (s : pstate) (inums : list Z)
    (c : system) `{HurdLaws hd} `{PagerLibLaws pl} :
  at_rest pl s -> (forall inum, inum ∈ inums -> readable fuel e inum) -> (forall h, is_Some (malloc_upi pl h)) ->
  rtc (system_step hd fuel e pl) (system_start s inums) c ->
  let st := pg_pagers (sy_paging c) in
  (forall i inum at_ r, sy_lookups c !! i = Some (inum, at_) ->
     thread_step hd fuel e (cache_of (sy_paging c)) inum at_ = Some r -> exists s' at', r = Ret (s', at')) /\
  (forall i t at_ r, pg_threads (sy_paging c) !! i = Some (t, at_) -> pager_step pl st t at_ = Some r ->
     exists st' at', r = Ret (st', at')) /\
  cache_ok (cache_of (sy_paging c)) /\ fileinfo_ok (pg_state st) /\
  (forall i j inum at_ inum' at', sy_lookups c !! i = Some (inum, at_) -> sy_lookups c !! j = Some (inum', at') ->
     holds at_ = true -> holds at' = true -> i = j) /\
  (forall i j x y, pg_threads (sy_paging c) !! i = Some x -> pg_threads (sy_paging c) !! j = Some y ->
     inside x = true -> inside y = true -> i = j) /\
  (forall np u v p q, upis (pg_state st) !! u = Some (file_info np (Some p)) ->
     upis (pg_state st) !! v = Some (file_info np (Some q)) -> u ∉ pg_dead st -> v ∉ pg_dead st -> u = v) /\
  (forall i j inum p q err err', sy_lookups c !! i = Some (inum, Done (Some p) err) ->
     sy_lookups c !! j = Some (inum, Done (Some q) err') ->
     p = q /\
     forall port port', (FilemapOf p, PReturn port) ∈ pg_threads (sy_paging c) ->
       (FilemapOf q, PReturn port') ∈ pg_threads (sy_paging c) -> pg_deaths (sy_paging c) = 0%nat ->
       port <> MACH_PORT_NULL -> port' <> MACH_PORT_NULL -> port = port').
Proof.
  intros Hrest Hread Hroom Hsteps st.
  pose proof (system_reachable hd fuel e pl _ _ _ _ Hsteps (start_ok hd fuel e pl s inums Hrest)) as [Hpg Hconf _ _].
  split; [|split; [|split; [exact (co_cache _ _ _ _ Hconf)|split; [exact (io_fileinfo _ _ _ (pk_infos _ _ Hpg))|
    split; [exact (co_excl _ _ _ _ Hconf)|split; [exact (pk_excl _ _ Hpg)|split]]]]]].
  - intros i inum at_ r Hi Hr. eapply (step_no_fault hd fuel e); [done|exact (co_cache _ _ _ _ Hconf)
      |by eapply (co_pcs _ _ _ _ Hconf)| |exact Hr]. eapply Hread, lookup_requested; [exact Hsteps|exact Hi].
  - intros i t at_ r Hi Hr. subst st. destruct (sy_paging c) as [st d ts]. cbn [pg_pagers pg_threads] in *.
    destruct (pager_progress pl Hroom _ _ _ _ _ _ Hpg Hi) as [(st' & at' & He)|[(_ & _ & He)|[_ He]]];
      rewrite He in Hr; [injection Hr as <-; by exists st', at'|done|done].
  - intros np u v p q. by apply (one_live_pager pl).
  - intros i j inum p q err err' Hi Hj. assert (p = q) as <-.
    { eapply cached_fun; [exact (co_cache _ _ _ _ Hconf)|exact (co_pcs _ _ _ _ Hconf _ _ _ Hi)|exact (co_pcs _ _ _ _ Hconf _ _ _ Hj)]. }
    split; [done|]. intros port port' Hp Hp' Hd Hne Hne'.
    pose proof (returned_port pl _ _ _ Hpg Hp) as H1. pose proof (returned_port pl _ _ _ Hpg Hp') as H2.
    apply Z.eqb_neq in Hne, Hne'. rewrite Hne in H1. rewrite Hne' in H2.
    destruct (H1 Hd) as (n & Hn & Hlive), (H2 Hd) as (m & Hm & Hlive'). congruence.
Qed.

(** C5: Concurrent work ends.  A run is no longer than 8 steps for each lookup, 18 for
    each request for a memory object and 7 for each pager there was, as long as the
    inodes can be read; and when no thread can go on, the pager threads have all
    returned and their state is settled again (lock free, light references balanced),
    and every lookup has returned or waits for the mutex of a node that is locked. *)
Theorem concurrent_translator_ends (hd : hurd) (fuel : nat) (e : env) (pl : pagerlib) (s : pstate) (inums : list Z)
    (k : nat) (c : system) `{HurdLaws hd} `{PagerLibLaws pl} :
  at_rest pl s -> (forall inum, inum ∈ inums -> readable fuel e inum) -> (forall h, is_Some (malloc_upi pl h)) ->
  catch_exception hd = None ->
  nsteps (system_step hd fuel e pl) k (system_start s inums) c ->
  (k <= 8 * length inums + 18 * sy_opens c + 7 * size (upis s))%nat /\
  (~ busy hd fuel e pl c ->
     settled pl (pg_state (pg_pagers (sy_paging c))) /\ (forall x, x ∈ pg_threads (sy_paging c) -> returned x) /\
     forall i inum at_, sy_lookups c !! i = Some (inum, at_) ->
       (exists npp err, at_ = Done npp err) \/
       (exists p m, at_ = NodeLock p /\ nodes (cache_of (sy_paging c)) !! p = Some m /\ locked m = true)).
Proof.
  intros Hrest Hread Hroom Hcatch Hn. pose proof (start_ok hd fuel e pl s inums Hrest) as Hstart.
  assert (rtc (system_step hd fuel e pl) (system_start s inums) c) as Hsteps by (apply rtc_nsteps; by exists k).
  split.
  - pose proof (system_run_length hd fuel e pl _ _ _ _ _ Hn Hstart) as Hk. rewrite start_left in Hk. cbn in Hk. lia.
  - apply system_rests; [done..| |].
    + exact (system_reachable hd fuel e pl _ _ _ _ Hsteps Hstart).
    + intros i inum at_ Hi. eapply Hread, lookup_requested; [exact Hsteps|exact Hi].
Qed.

(** C32: A client can be given a node too early.  Two threads look an uncached number up;
    the second is given the node, as a success, before the first has read the inode, and
    a request for the memory object of the node it got evaluates an assertion about a mode
    that nobody has stored. *)
Theorem unread_node_opened (hd : hurd) (fuel : nat) (e : env) (pl : pagerlib) (s : pstate) (inum : Z) (np : positive)
    `{HurdLaws hd} :
  cache_ok (ns s) -> refcnt_lock (ns s) = false -> malloc_ok e sizeof_disknode = true ->
  (forall p, ~ cached (ns s) inum p) -> make_node hd (nodes (ns s)) = Some np ->
  exists c, rtc (system_step hd fuel e pl) (system_start s [inum; inum]) c /\
    sy_lookups c !! 1%nat = Some (inum, Done (Some np) None) /\
    pager_step pl (pg_pagers (sy_paging c)) (FilemapOf np) PCall = Some (Fault Uninitialised).
Proof.
  intros Hok Hl Hm Hno Hmk.
  destruct (unread_node hd fuel e (ns s) inum np ltac:(done) Hok Hl Hm Hno Hmk) as (c & n & Hsteps & Hthr & Hn & Hst & _).
  pose proof (lookups_run hd fuel e pl _ _ Hsteps (filemap_requests s []) 0%nat eq_refl) as Hrun.
  eexists. split; [exact Hrun|]. cbn [sy_lookups sy_paging]. rewrite Hthr. split; [done|].
  cbn [pager_step filemap_step with_cache pg_pagers pg_state set_ns ns]. rewrite Hn. cbn [of_option res_bind]. by rewrite Hst.
Qed.

(** ** Witnesses *)

Definition empty_translator : pstate := PState empty_cache ∅ false 0 [].

(** Two clients look file 5 up at the same time and ask for its memory object. *)
Definition two_clients : list schedule :=
  [LookupRuns 0; LookupRuns 0; LookupRuns 0; LookupRuns 1; LookupRuns 0; LookupRuns 1; LookupRuns 1; LookupRuns 1;
   LookupRuns 1; LookupRuns 0; LookupRuns 1; LookupRuns 0; LookupRuns 0; LookupRuns 0; Opens 1; Opens 0;
   PagerTurn (Runs 0); PagerTurn (Runs 1); PagerTurn (Runs 0); PagerTurn (Runs 0); PagerTurn (Runs 0); PagerTurn (Runs 0);
   PagerTurn (Runs 0); PagerTurn (Runs 0); PagerTurn (Runs 0); PagerTurn (Runs 1); PagerTurn (Runs 1); PagerTurn (Runs 0);
   PagerTurn (Runs 1); PagerTurn (Runs 1)].

Lemma empty_at_rest : at_rest demo_pagerlib empty_translator.
Proof.
  split; cbn [empty_translator ns]; [apply empty_cache_ok|by rewrite empty_cache_eq| |rewrite empty_cache_eq; done].
  split; cbn [empty_translator ns upis node2pagelock]; [done|by rewrite empty_cache_eq| |done].
  split; cbn [empty_translator ns upis]; rewrite ?empty_cache_eq; done.
Qed.

Lemma file_five_readable inum : inum ∈ [5; 5] -> readable 1 sample_env inum.
Proof.
  intros Hi. assert (inum = 5) as -> by (apply list_elem_of_In in Hi; by destruct Hi as [<-|[<-|[]]]). left.
  destruct (sample_inode 5 ltac:(lia)) as (di & Hr & _). by exists di.
Qed.

Lemma two_clients_run :
  exists c, perform (demo_hurd None) 1 sample_env demo_pagerlib (system_start empty_translator [5; 5]) two_clients = Some c /\
    sy_lookups c = [(5, Done (Some 1%positive) None); (5, Done (Some 1%positive) None)] /\
    pg_threads (sy_paging c) = [(FilemapOf 1, PReturn 1); (FilemapOf 1, PReturn 1)].
Proof.
  assert ((fun c => (sy_lookups c, pg_threads (sy_paging c))) <$>
    perform (demo_hurd None) 1 sample_env demo_pagerlib (system_start empty_translator [5; 5]) two_clients =
    Some ([(5, Done (Some 1%positive) None); (5, Done (Some 1%positive) None)],
          [(FilemapOf 1, PReturn 1); (FilemapOf 1, PReturn 1)])) as Hl by (vm_compute; reflexivity).
  apply fmap_Some in Hl as (c & Hc & Heq). exists c. split; [exact Hc|].
  split; [exact (eq_sym (f_equal fst Heq))|exact (eq_sym (f_equal snd Heq))].
Qed.

Lemma concurrent_translator_safe_witness :
  exists c, perform (demo_hurd None) 1 sample_env demo_pagerlib (system_start empty_translator [5; 5]) two_clients = Some c /\
    sy_lookups c = [(5, Done (Some 1%positive) None); (5, Done (Some 1%positive) None)] /\
    fileinfo_ok (pg_state (pg_pagers (sy_paging c))).
Proof.
  destruct two_clients_run as (c & Hc & Hl & _). exists c. split; [exact Hc|]. split; [exact Hl|].
  destruct (concurrent_translator_safe (demo_hurd None) 1 sample_env demo_pagerlib empty_translator [5; 5] c
    empty_at_rest file_five_readable demo_pagerlib_roomy) as (_ & _ & _ & Hok & _); [|exact Hok].
  apply rtc_nsteps. eexists. apply (perform_steps _ _ _ _ _ _ _ Hc).
Defined.

Lemma concurrent_translator_ends_witness :
  exists c, perform (demo_hurd None) 1 sample_env demo_pagerlib (system_start empty_translator [5; 5]) two_clients = Some c /\
    settled demo_pagerlib (pg_state (pg_pagers (sy_paging c))).
Proof.
  destruct two_clients_run as (c & Hc & Hl & Ht). exists c. split; [exact Hc|].
  apply (concurrent_translator_ends (demo_hurd None) 1 sample_env demo_pagerlib empty_translator [5; 5] _ c
    empty_at_rest file_five_readable demo_pagerlib_roomy eq_refl (perform_steps _ _ _ _ _ _ _ Hc)).
  intros [(i & t & at_ & st' & at' & Hi & H)|(i & inum & at_ & s' & at' & Hi & H)].
  - rewrite Ht in Hi. destruct i as [|[|i]]; [injection Hi as <- <-; discriminate H..|discriminate Hi].
  - rewrite Hl in Hi. destruct i as [|[|i]]; [injection Hi as <- <-; discriminate H..|discriminate Hi].
Defined.

Lemma unread_node_opened_witness :
  exists c, rtc (system_step (demo_hurd None) 1 sample_env demo_pagerlib) (system_start empty_translator [2; 2]) c /\
    pager_step demo_pagerlib (pg_pagers (sy_paging c)) (FilemapOf 1) PCall = Some (Fault Uninitialised).
Proof.
  destruct empty_ready as (Hok & Hl & Hm & Hno & Hmk).
  destruct (unread_node_opened (demo_hurd None) 1 sample_env demo_pagerlib empty_translator 2 1 Hok Hl Hm Hno Hmk)
    as (c & Hrun & _ & Hf).
  exists c. split; [exact Hrun|exact Hf].
Defined.
