(* ===== verification/Linear.v ===== *)
(** * Concurrent lookups are linearizable

    The abstract specification of [diskfs_cached_lookup] (dir.c) for its clients: an
    atomic lookup-or-insert on a finite map from inode numbers to nodes.  Every
    history of calls and returns of the concurrent translator (Concurrent) has an order
    of its lookups, compatible with the order in which they were called and returned,
    in which the atomic operation gives each of them the result it returned. *)

From stdpp Require Import gmap relations.
From S2P Require Import Prelude Layout Disk Xtree Sample Imap Node Interleave Pager Volume Server PagerSteps PagerThreads Concurrent.

(** ** Specification: the atomic lookup *)

(** [*npp] and the value returned. *)
Abbreviation result := (option positive * option error_t)%type.

(** What [read_node] returns for a new node of number [inum]. *)
Definition read_error (hd : hurd) (fuel : nat) (e : env) (inum : Z) : option error_t :=
  match read_inode fuel e inum with
  | Ret _ => catch_exception hd
  | Err _ => Some (Erc 1)
  | _ => None
  end.

(** The node of the number; or a node no other number has; or no memory for one. *)
Inductive lookup_spec (hd : hurd) (fuel : nat) (e : env) (M : gmap Z positive) (inum : Z)
    : result -> gmap Z positive -> Prop :=
| spec_hit p : M !! inum = Some p -> lookup_spec hd fuel e M inum (Some p, None) M
| spec_miss p :
    M !! inum = None -> (forall i, M !! i <> Some p) ->
    lookup_spec hd fuel e M inum (Some p, read_error hd fuel e inum) (<[inum := p]> M)
| spec_no_memory :
    M !! inum = None -> malloc_ok e sizeof_disknode = false \/ (exists h, make_node hd h = None) ->
    lookup_spec hd fuel e M inum (None, Some ENOMEM) M.

(** Lookups one after another, each with the thread that made it. *)
Inductive sequential (hd : hurd) (fuel : nat) (e : env) (M0 : gmap Z positive)
    : list (nat * Z * result) -> gmap Z positive -> Prop :=
| sequential_nil : sequential hd fuel e M0 [] M0
| sequential_snoc ops M i inum r M' :
    sequential hd fuel e M0 ops M -> lookup_spec hd fuel e M inum r M' ->
    sequential hd fuel e M0 (ops ++ [(i, inum, r)]) M'.

(** ** Specification: histories *)

Inductive occurrence := Invoked (i : nat) | Returned (i : nat) (r : result).

Definition seen (i : nat) (at_ at' : pc) : list occurrence :=
  match at_ with Call => [Invoked i] | _ => [] end ++
  match at' with Done npp err => [Returned i (npp, err)] | _ => [] end.

(** A step of the translator with what the clients see of it. *)
Inductive observed (hd : hurd) (fuel : nat) (e : env) (pl : pagerlib) : system -> list occurrence -> system -> Prop :=
| see_lookup c ls k i inum at_ s' at' :
    ls !! i = Some (inum, at_) -> thread_step hd fuel e (cache_of c) inum at_ = Some (Ret (s', at')) ->
    observed hd fuel e pl (System c ls k) (seen i at_ at') (System (with_cache s' c) (<[i := (inum, at')]> ls) k)
| see_nothing c c' ls k k' :
    system_step hd fuel e pl (System c ls k) (System c' ls k') ->
    observed hd fuel e pl (System c ls k) [] (System c' ls k').

Inductive history (hd : hurd) (fuel : nat) (e : env) (pl : pagerlib) (c0 : system) : list occurrence -> system -> Prop :=
| history_nil : history hd fuel e pl c0 [] c0
| history_snoc h c ev c' :
    history hd fuel e pl c0 h c -> observed hd fuel e pl c ev c' -> history hd fuel e pl c0 (h ++ ev) c'.

(** At every moment the lookups that have returned have taken effect, and of the others
    only such as have been called: a lookup that returned before another was called
    comes before it. *)
Definition real_time (h : list occurrence) (ops : list (nat * Z * result)) : Prop :=
  forall h1, h1 `prefix_of` h -> exists o1, o1 `prefix_of` ops /\
    (forall i r, Returned i r ∈ h1 -> exists inum, (i, inum, r) ∈ o1) /\
    (forall i inum r, (i, inum, r) ∈ o1 -> Invoked i ∈ h1).

Record linearization (hd : hurd) (fuel : nat) (e : env) (inums : list Z) (M0 : gmap Z positive)
    (h : list occurrence) (ops : list (nat * Z * result)) (M : gmap Z positive) : Prop := {
  li_sequential : sequential hd fuel e M0 ops M;
  li_once : NoDup ops.*1.*1;
  li_requested i inum r : (i, inum, r) ∈ ops -> inums !! i = Some inum;
  li_order : real_time h ops }.

(** The finite map the cache represents. *)
Definition cache_map (s : nstate) : gmap Z positive :=
  list_to_map ((fun '(p, n) => (cache_id n, p)) <$> map_to_list (nodes s)).

(** The result a thread will return, from the step on that decides it. *)
Definition outcome (hd : hurd) (fuel : nat) (e : env) (inum : Z) (at_ : pc) : option result :=
  match at_ with
  | Call | Search | Create => None
  | HitLoad p | HitStore p _ | HitUnlock p | NodeLock p => Some (Some p, None)
  | ReadInode p | ReadLock p _ | Fill p _ => Some (Some p, read_error hd fuel e inum)
  | MissLoad p err | MissStore p _ err => Some (Some p, err)
  | Done npp err => Some (npp, err)
  end.

(** ** Lemmas: the map of the cache *)

Lemma cache_map_lookup s i p : cache_ok s -> cache_map s !! i = Some p <-> cached s i p.
Proof.
  intros [chain Hok]. unfold cache_map. rewrite <- elem_of_list_to_map.
  - rewrite list_elem_of_fmap. split.
    + intros ([q n] & [= -> ->] & Hn%elem_of_map_to_list). by exists n.
    + intros (n & Hn & <-). exists (p, n). split; [done|by apply elem_of_map_to_list].
  - rewrite <- list_fmap_compose. apply NoDup_fmap_2_strong; [|apply NoDup_map_to_list].
    intros [p1 n1] [p2 n2] H1%elem_of_map_to_list H2%elem_of_map_to_list Heq. cbn in Heq.
    assert (p1 = p2) as <- by (by eapply (hash_inj _ _ Hok)). by simplify_eq.
Qed.

Lemma cache_map_none s i : cache_ok s -> cache_map s !! i = None <-> forall p, ~ cached s i p.
Proof.
  intros Hok. rewrite eq_None_not_Some. split.
  - intros H p Hp. apply H. exists p. by apply cache_map_lookup.
  - intros H [p Hp]. by apply (H p), cache_map_lookup.
Qed.

Lemma cache_map_same s s' : cache_ok s -> cache_ok s' -> (forall i p, cached s' i p <-> cached s i p) -> cache_map s' = cache_map s.
Proof.
  intros Hok Hok' H. apply map_eq. intros i. apply option_eq. intros p. by rewrite !cache_map_lookup.
Qed.

Lemma cache_map_insert s s' inum np :
  cache_ok s -> cache_ok s' -> (forall p, ~ cached s inum p) ->
  (forall i q, cached s' i q <-> cached s i q \/ i = inum /\ q = np) -> cache_map s' = <[inum := np]> (cache_map s).
Proof.
  intros Hok Hok' Hno H. apply map_eq. intros i. apply option_eq. intros p.
  rewrite cache_map_lookup, H, lookup_insert_Some, cache_map_lookup by done. split.
  - intros [Hc|[-> ->]]; [right|by left]. split; [|done]. intros ->. by apply (Hno p).
  - intros [[-> ->]|[_ Hc]]; [by right|by left].
Qed.

Lemma not_cached s p : cache_ok s -> nodes s !! p = None -> forall i, cache_map s !! i <> Some p.
Proof. intros Hok Hp i (n & Hn & _)%(cache_map_lookup _ _ _ Hok). congruence. Qed.

(** ** Lemmas: a step takes effect at most once *)

Section Steps.
Context (hd : hurd) (fuel : nat) (e : env) (Hhd : HurdLaws hd).

(** The step that decides the result is the atomic lookup; no other changes the map. *)
Lemma step_effect s inum at_ s' at' :
  cache_ok s -> pc_ok fuel e s inum at_ -> thread_step hd fuel e s inum at_ = Some (Ret (s', at')) ->
  outcome hd fuel e inum at' = outcome hd fuel e inum at_ /\ cache_map s' = cache_map s \/
  outcome hd fuel e inum at_ = None /\ exists r, outcome hd fuel e inum at' = Some r /\
    lookup_spec hd fuel e (cache_map s) inum r (cache_map s').
Proof.
  intros Hok Hpc H. destruct (step_cached hd fuel e Hhd s inum at_ s' at' Hok Hpc H) as (Hok' & _ & _).
  assert (at_ <> Create -> cache_map s' = cache_map s) as Hsame.
  { intros Hat. apply cache_map_same; [done..|]. by apply (other_step hd fuel e s inum at_ s' at'). }
  destruct at_; try (pose proof (Hsame ltac:(done)) as Hmap; clear Hsame).
  2: { destruct Hok as [chain Hch]. destruct (hash_find_cached s chain inum Hch) as (head & o & Hh & Hf & Ho).
       cbn [thread_step] in H. rewrite Hh in H. cbn [of_option res_bind] in H. rewrite Hf in H. injection H as <- <-.
       destruct o as [p|]; [right|by left]. split; [done|]. eexists. split; [done|]. apply spec_hit.
       apply cache_map_lookup; [by exists chain|done]. }
  6: { right. split; [done|]. cbn [pc_ok] in Hpc. pose proof (proj2 (cache_map_none s inum Hok) Hpc) as Hnone.
       destruct (create_step hd fuel e Hhd s inum s' at' Hok Hpc H) as [[[_ Hiff] ->]|(np & -> & _ & _ & Hiff & _)].
       - eexists. split; [done|]. rewrite (cache_map_same s s' Hok Hok' Hiff). apply spec_no_memory; [done|].
         cbn [thread_step] in H. destruct (malloc_ok e sizeof_disknode); [right|by left].
         cbn [negb] in H. exists (nodes s). destruct (make_node hd (nodes s)); [|done].
         destruct (hash_insert _ _ _); by simplify_eq/=.
       - eexists. split; [done|]. rewrite (cache_map_insert s s' inum np Hok Hok' Hpc Hiff).
         apply spec_miss; [done|]. apply not_cached; [done|]. cbn [thread_step] in H.
         destruct (malloc_ok e sizeof_disknode); [|by simplify_eq/=]. cbn [negb] in H.
         destruct (make_node hd (nodes s)) as [q|] eqn:Hmk; [|by simplify_eq/=].
         destruct (hash_insert _ _ _); simplify_eq/=. by eapply make_node_fresh. }
  all: left; split; [|done]; cbn [pc_ok] in Hpc; step_inv H; cbn [outcome]; unfold read_error; try done.
  - destruct Hpc as (m & Hm & <-). simplify_eq. by rewrite H1.
  - destruct Hpc as [_ ->]. congruence.
  - destruct Hpc as [_ ->]. congruence.
Qed.

(** ** Lemmas: the invariant of a run *)

(** What is true of the history [h] and of the lookups [ops] that have taken effect. *)
Record linearized (M0 : gmap Z positive) (h : list occurrence) (ops : list (nat * Z * result)) (s : nstate)
    (ts : list (Z * pc)) : Prop := {
  lz_sequential : sequential hd fuel e M0 ops (cache_map s);
  lz_once : NoDup ops.*1.*1;
  lz_ops i inum r : (i, inum, r) ∈ ops <-> exists at_, ts !! i = Some (inum, at_) /\ outcome hd fuel e inum at_ = Some r;
  lz_invoked i inum at_ : ts !! i = Some (inum, at_) -> at_ <> Call -> Invoked i ∈ h;
  lz_returned i r : Returned i r ∈ h <-> exists inum, ts !! i = Some (inum, Done r.1 r.2);
  lz_order : real_time h ops }.

Lemma outcome_called inum at_ r : outcome hd fuel e inum at_ = Some r -> at_ <> Call.
Proof. by intros H ->. Qed.

End Steps.

Lemma elem_of_seen x i at_ at' :
  x ∈ seen i at_ at' <->
  at_ = Call /\ x = Invoked i \/ exists npp err, at' = Done npp err /\ x = Returned i (npp, err).
Proof.
  unfold seen. rewrite elem_of_app.
  assert (x ∈ match at_ with Call => [Invoked i] | _ => [] end <-> at_ = Call /\ x = Invoked i) as ->
    by (destruct at_; rewrite ?list_elem_of_singleton, ?elem_of_nil; intuition congruence).
  assert (x ∈ match at' with Done npp err => [Returned i (npp, err)] | _ => [] end <->
    exists npp err, at' = Done npp err /\ x = Returned i (npp, err)) as ->; [|done].
  destruct at'; rewrite ?list_elem_of_singleton, ?elem_of_nil; split; try done;
    try (by intros (? & ? & ? & _)); [eauto|]. by intros (? & ? & [= -> ->] & ->).
Qed.

Lemma elem_of_seen_invoked i at_ at' j : Invoked j ∈ seen i at_ at' <-> j = i /\ at_ = Call.
Proof. rewrite elem_of_seen. split; [|naive_solver]. by intros [[-> [= ->]]|(? & ? & _ & ?)]. Qed.

Lemma elem_of_seen_returned i at_ at' j r : Returned j r ∈ seen i at_ at' <-> j = i /\ at' = Done r.1 r.2.
Proof.
  rewrite elem_of_seen. split.
  - by intros [[_ ?]|(? & ? & -> & [= -> ->])].
  - intros [-> ->]. right. exists r.1, r.2. by rewrite <- surjective_pairing.
Qed.

(** A history longer by one step, and the lookups that have taken effect by then. *)
Lemma real_time_step h ev ops ops' :
  real_time h ops -> ops `prefix_of` ops' -> (length ev <= 1)%nat ->
  (forall i r, Returned i r ∈ h ++ ev -> exists inum, (i, inum, r) ∈ ops') ->
  (forall i inum r, (i, inum, r) ∈ ops' -> Invoked i ∈ h ++ ev) -> real_time (h ++ ev) ops'.
Proof.
  intros Hr Hp Hev Hret Hinv h1 Hh1.
  assert (h1 `prefix_of` h \/ h1 = h ++ ev) as [Hh| ->].
  { destruct ev as [|x [|y ev]]; cbn in Hev; [|..|lia].
    - rewrite app_nil_r in Hh1. by left.
    - destruct Hh1 as [k Hk]. induction k as [|z k _] using rev_ind; [right; by rewrite app_nil_r in Hk|].
      left. rewrite app_assoc in Hk. apply app_inj_tail in Hk as [-> _]. by exists k. }
  - destruct (Hr h1 Hh) as (o1 & Ho & H1 & H2). exists o1. split; [by etrans|done].
  - by exists ops'.
Qed.

(** What holds of some thread after one has moved. *)
Lemma moved_exists (ts : list (Z * pc)) i j x at_ at' n (P : Z -> pc -> Prop) :
  ts !! i = Some (x, at_) ->
  (exists a, <[i := (x, at')]> ts !! j = Some (n, a) /\ P n a) <->
  j = i /\ n = x /\ P x at' \/ j <> i /\ exists a, ts !! j = Some (n, a) /\ P n a.
Proof.
  intros Hi. setoid_rewrite list_lookup_insert_Some. pose proof (lookup_lt_Some _ _ _ Hi). split.
  - intros (a & [(-> & [= <- <-] & _)|[Hne Ha]] & HP); [by left|right]. split; [done|by exists a].
  - intros [(-> & -> & HP)|(Hne & a & Ha & HP)]; [exists at'|exists a]; naive_solver.
Qed.

Section Run.
Context (hd : hurd) (fuel : nat) (e : env) (Hhd : HurdLaws hd).

(** Calling and returning are different steps. *)
Lemma step_ends s inum at_ s' at' :
  thread_step hd fuel e s inum at_ = Some (Ret (s', at')) ->
  at' <> Call /\ (forall npp err, at_ <> Done npp err) /\ (at_ = Call -> forall npp err, at' <> Done npp err).
Proof. intros H. by destruct at_; step_inv H. Qed.

Lemma seen_length s inum at_ s' at' i :
  thread_step hd fuel e s inum at_ = Some (Ret (s', at')) -> (length (seen i at_ at') <= 1)%nat.
Proof. intros H. by destruct at_; step_inv H; cbn; lia. Qed.

(** The lookups that have taken effect after the step. *)
Definition effects (i : nat) (inum : Z) (at_ at' : pc) : list (nat * Z * result) :=
  match outcome hd fuel e inum at_, outcome hd fuel e inum at' with
  | None, Some r => [(i, inum, r)]
  | _, _ => []
  end.

Lemma effects_eq s i inum at_ s' at' :
  cache_ok s -> pc_ok fuel e s inum at_ -> thread_step hd fuel e s inum at_ = Some (Ret (s', at')) ->
  effects i inum at_ at' = [] /\ outcome hd fuel e inum at' = outcome hd fuel e inum at_ /\ cache_map s' = cache_map s \/
  outcome hd fuel e inum at_ = None /\ exists r, effects i inum at_ at' = [(i, inum, r)] /\
    outcome hd fuel e inum at' = Some r /\ lookup_spec hd fuel e (cache_map s) inum r (cache_map s').
Proof.
  intros Hok Hpc H. unfold effects.
  destruct (step_effect hd fuel e Hhd s inum at_ s' at' Hok Hpc H) as [[-> Hm]|(-> & r & -> & Hr)].
  - left. by destruct (outcome hd fuel e inum at_).
  - right. split; [done|]. by exists r.
Qed.

Lemma effects_ops ops s (ts : list (Z * pc)) i inum at_ s' at' j n r :
  cache_ok s -> pc_ok fuel e s inum at_ -> ts !! i = Some (inum, at_) ->
  thread_step hd fuel e s inum at_ = Some (Ret (s', at')) ->
  (forall j n r, (j, n, r) ∈ ops <-> exists a, ts !! j = Some (n, a) /\ outcome hd fuel e n a = Some r) ->
  (j, n, r) ∈ ops ++ effects i inum at_ at' <->
  exists a, <[i := (inum, at')]> ts !! j = Some (n, a) /\ outcome hd fuel e n a = Some r.
Proof.
  intros Hok Hpc Hi H Hops. rewrite (moved_exists ts i j inum at_ at' n (fun n a => outcome hd fuel e n a = Some r) Hi).
  rewrite elem_of_app, Hops. clear Hops.
  destruct (effects_eq s i inum at_ s' at' Hok Hpc H) as [(-> & -> & _)|(Hnone & r' & -> & -> & _)].
  - rewrite elem_of_nil. destruct (decide (j = i)) as [->|Hne]; [rewrite Hi|]; naive_solver.
  - rewrite list_elem_of_singleton. destruct (decide (j = i)) as [->|Hne]; [rewrite Hi|]; naive_solver.
Qed.

(** A lookup that is not decided has not taken effect. *)
Lemma undecided (ops : list (nat * Z * result)) (ts : list (Z * pc)) i inum at_ :
  (forall j n r, (j, n, r) ∈ ops <-> exists a, ts !! j = Some (n, a) /\ outcome hd fuel e n a = Some r) ->
  ts !! i = Some (inum, at_) -> outcome hd fuel e inum at_ = None -> i ∉ ops.*1.*1.
Proof.
  intros Hops Hi Ho ([j n] & -> & ([[j' n'] r] & [= -> ->] & Hr)%list_elem_of_fmap)%list_elem_of_fmap.
  apply Hops in Hr as (a & Ha & Hr). cbn in Hi. rewrite Hi in Ha. injection Ha as <- <-. congruence.
Qed.

Lemma linearized_step M0 h ops s ts i inum at_ s' at' :
  cache_ok s -> pc_ok fuel e s inum at_ -> ts !! i = Some (inum, at_) ->
  thread_step hd fuel e s inum at_ = Some (Ret (s', at')) -> linearized hd fuel e M0 h ops s ts ->
  linearized hd fuel e M0 (h ++ seen i at_ at') (ops ++ effects i inum at_ at') s' (<[i := (inum, at')]> ts).
Proof.
  intros Hok Hpc Hi H [Hseq Honce Hops Hinv Hret Hord].
  destruct (step_ends _ _ _ _ _ H) as (Hcall & Hdone & _).
  pose proof (fun j n r => effects_ops ops s ts i inum at_ s' at' j n r Hok Hpc Hi H Hops) as Hops'.
  assert (forall j n a, <[i := (inum, at')]> ts !! j = Some (n, a) -> a <> Call -> Invoked j ∈ h ++ seen i at_ at') as Hinv'.
  { intros j n a [(-> & _ & _)|[_ Hj]]%moved_lookup Ha; rewrite elem_of_app, elem_of_seen_invoked; [|left; by eapply Hinv].
    destruct at_; [by right|left; by eapply Hinv..]. }
  assert (forall j r, Returned j r ∈ h ++ seen i at_ at' <->
    exists n, <[i := (inum, at')]> ts !! j = Some (n, Done r.1 r.2)) as Hret'.
  { intros j r. rewrite elem_of_app, elem_of_seen_returned, Hret. pose proof (lookup_lt_Some _ _ _ Hi). split.
    - intros [[n Hn]|[-> ->]]; [|exists inum; by apply list_lookup_insert_eq]. exists n.
      rewrite list_lookup_insert_ne; [done|]. intros ->. rewrite Hi in Hn. injection Hn as _ Hat. by destruct (Hdone r.1 r.2).
    - intros [n [(-> & _ & ->)|[_ Hn]]%moved_lookup]; [by right|left; by exists n]. }
  split; [| |exact Hops'|exact Hinv'|exact Hret'|].
  - destruct (effects_eq s i inum at_ s' at' Hok Hpc H) as [(-> & _ & ->)|(_ & r & -> & _ & Hr)].
    + by rewrite app_nil_r.
    + by eapply sequential_snoc.
  - destruct (effects_eq s i inum at_ s' at' Hok Hpc H) as [(-> & _)|(Hnone & r & -> & _)]; [by rewrite app_nil_r|].
    rewrite !fmap_app. apply NoDup_app. split; [done|]. split; [|apply NoDup_singleton].
    intros j Hj ->%list_elem_of_singleton. eapply undecided; [exact Hops|exact Hi|exact Hnone|exact Hj].
  - apply real_time_step with ops; [done|by apply prefix_app_r|by eapply seen_length| |].
    + intros j r [n Hn]%Hret'. exists n. apply Hops'. exists (Done r.1 r.2). split; [done|]. cbn. by rewrite <- surjective_pairing.
    + intros j n r (a & Ha & Ho)%Hops'. eapply Hinv'; [exact Ha|]. by intros ->.
Qed.

(** A thread that runs alone is the atomic lookup. *)
Lemma alone_atomic inum x y :
  rtc (thread_rel hd fuel e inum) x y -> forall npp err, y.2 = Done npp err -> cache_ok x.1 -> pc_ok fuel e x.1 inum x.2 ->
  cache_ok y.1 /\
  match outcome hd fuel e inum x.2 with
  | Some r => r = (npp, err) /\ cache_map y.1 = cache_map x.1
  | None => lookup_spec hd fuel e (cache_map x.1) inum (npp, err) (cache_map y.1)
  end.
Proof.
  induction 1 as [x|[s a] [s1 a1] y Hs _ IH]; intros npp err Hy Hok Hpc; cbn [fst snd] in *; [by rewrite Hy|].
  destruct (step_cached hd fuel e Hhd s inum a s1 a1 Hok Hpc Hs) as (Hok1 & _ & _).
  destruct (IH npp err Hy Hok1 (step_pc hd fuel e Hhd s inum a s1 a1 Hok Hpc Hs)) as [Hok' IH']. split; [exact Hok'|].
  destruct (step_effect hd fuel e Hhd s inum a s1 a1 Hok Hpc Hs) as [[<- <-]|(-> & r & Ho & Hr)]; [done|].
  rewrite Ho in IH'. destruct IH' as [-> ->]. done.
Qed.

(** The translator: pagers and clients do not change the map. *)
Section WithPagers.
Context (pl : pagerlib) (Hpl : PagerLibLaws pl).

Lemma start_linearized s inums :
  linearized hd fuel e (cache_map (ns s)) [] [] (ns s) (sy_lookups (system_start s inums)).
Proof.
  cbn [system_start sy_lookups].
  assert (forall i n a, ((fun inum => (inum, Call)) <$> inums) !! i = Some (n, a) -> a = Call) as Hcall.
  { intros i n a Hi. by apply list_lookup_fmap_Some in Hi as (x & [= _ ->] & _). }
  split; [constructor|constructor| | | |].
  - intros i n r. rewrite elem_of_nil. split; [done|]. intros (a & ->%Hcall & Ho). done.
  - intros i n a Hi Ha. by destruct (Ha (Hcall i n a Hi)).
  - intros i r. rewrite elem_of_nil. split; [done|]. by intros [n ?%Hcall].
  - intros h1 Hh. exists []. split; [done|]. apply prefix_nil_inv in Hh as ->. split; intros *; by rewrite elem_of_nil.
Qed.

Lemma linearized_map M0 h ops s s' ts :
  cache_map s' = cache_map s -> linearized hd fuel e M0 h ops s ts -> linearized hd fuel e M0 h ops s' ts.
Proof. intros Hm [Hseq ? ? ? ? ?]. split; try done. by rewrite Hm. Qed.

Lemma silent_map c c' ls k k' :
  system_ok hd fuel e pl (System c ls k) -> system_step hd fuel e pl (System c ls k) (System c' ls k') ->
  cache_map (cache_of c') = cache_map (cache_of c).
Proof.
  intros [Hpg Hconf _ _] Hstep. inversion Hstep as [? ? ? i inum at_ s' at' Hi H| |]; subst; cbn [sy_paging sy_lookups] in *; [|..|done].
  - pose proof (step_rank hd fuel e _ _ _ _ _ H) as Hr. pose proof (lookup_lt_Some _ _ _ Hi) as Hlt.
    match goal with Hls : <[i := _]> _ = _ |- _ => rewrite <- Hls, list_lookup_insert_eq in Hi by done end.
    injection Hi as <-. lia.
  - pose proof (pager_step_shape pl Hpl c c' Hpg ltac:(done)) as Hshape.
    apply cache_map_same; [exact (co_cache _ _ _ _ Hconf)|eapply same_shape_cache; [done|exact (co_cache _ _ _ _ Hconf)]|].
    intros i p. by apply same_shape_cached.
Qed.

Lemma observed_step c ev c' : observed hd fuel e pl c ev c' -> system_step hd fuel e pl c c'.
Proof. intros []; [by econstructor|done]. Qed.

Lemma observed_linearized M0 h ops c ev c' :
  observed hd fuel e pl c ev c' -> system_ok hd fuel e pl c ->
  linearized hd fuel e M0 h ops (cache_of (sy_paging c)) (sy_lookups c) ->
  exists ops', linearized hd fuel e M0 (h ++ ev) ops' (cache_of (sy_paging c')) (sy_lookups c').
Proof.
  intros Hobs Hok Hlin. destruct Hobs as [c ls k i inum at_ s' at' Hi H|c c' ls k k' H]; cbn [sy_paging sy_lookups] in *.
  - destruct Hok as [_ [Hcache Hpcs _ _ _] _ _]. eexists. by eapply linearized_step; [..|exact (Hpcs _ _ _ Hi)| | |].
  - exists ops. rewrite app_nil_r. eapply linearized_map; [by eapply silent_map|done].
Qed.

Lemma history_linearized s inums h c :
  at_rest pl s -> history hd fuel e pl (system_start s inums) h c ->
  system_ok hd fuel e pl c /\
  exists ops, linearized hd fuel e (cache_map (ns s)) h ops (cache_of (sy_paging c)) (sy_lookups c).
Proof.
  intros Hrest Hh. induction Hh as [|h c ev c' _ [Hok [ops IH]] Hobs].
  - split; [by apply start_ok|]. exists []. apply start_linearized.
  - split; [eapply (system_keeps hd fuel e pl Hhd Hpl); [by eapply observed_step|done]|]. by eapply observed_linearized.
Qed.

(** Every run has a history, and a history is of a run. *)
Lemma run_history c0 c : rtc (system_step hd fuel e pl) c0 c -> exists h, history hd fuel e pl c0 h c.
Proof.
  intros H. revert c H. refine (rtc_ind_r _ c0 _ _); [exists []; constructor|]. intros c c' _ Hstep [h Hh].
  assert (exists ev, observed hd fuel e pl c ev c') as [ev Hev].
  { destruct Hstep; eexists; [by apply see_lookup|apply see_nothing..]; [by apply system_pager|by eapply system_open]. }
  exists (h ++ ev). by econstructor.
Qed.

Lemma history_run c0 h c : history hd fuel e pl c0 h c -> rtc (system_step hd fuel e pl) c0 c.
Proof. induction 1; [done|]. by eapply rtc_r, observed_step. Qed.

End WithPagers.

End Run.

(** ** Theorems *)

(** C6: Lookups are linearizable.  Take any run of the concurrent translator (lookups,
    requests for memory objects and dying pagers interleaved in any way) and the history
    of calls and returns of its lookups.  The lookups that have returned, and some of
    those that have not, can be put in an order in which each has exactly the result of an
    atomic lookup-or-insert, from the map the cache held at the start to the map it holds
    at the end, and in which a lookup that returned before another was called comes first.
    The history records exactly the results that threads hold. *)
Theorem lookups_linearizable (hd : hurd) (fuel : nat) (e : env) (pl : pagerlib) (s : pstate) (inums : list Z)
    (h : list occurrence) (c : system) `{HurdLaws hd} `{PagerLibLaws pl} :
  at_rest pl s -> history hd fuel e pl (system_start s inums) h c ->
  (exists ops, linearization hd fuel e inums (cache_map (ns s)) h ops (cache_map (cache_of (sy_paging c)))) /\
  (forall i r, Returned i r ∈ h <-> exists inum, sy_lookups c !! i = Some (inum, Done r.1 r.2)).
Proof.
  intros Hrest Hh. destruct (history_linearized hd fuel e _ pl _ s inums h c Hrest Hh) as (_ & ops & [Hseq Honce Hops _ Hret Hord]).
  split; [|exact Hret]. exists ops. split; try done. intros i n r (a & Ha & _)%Hops.
  pose proof (lookup_numbers hd fuel e pl _ _ (history_run hd fuel e pl _ _ _ Hh)) as Hn.
  apply (f_equal (lookup i)) in Hn. rewrite list_lookup_fmap, Ha in Hn. cbn in Hn.
  rewrite <- list_fmap_compose, list_lookup_fmap in Hn. by destruct (inums !! i); simplify_eq/=.
Qed.

(** C16: The sequential function is the atomic operation: whatever [diskfs_cached_lookup]
    returns, node, error and all, is what the lookup-or-insert gives on the map of the
    cache; it leaves the chains well formed, and they represent the resulting map. *)
Theorem cached_lookup_atomic (hd : hurd) (fuel : nat) (e : env) (s s' : nstate) (inum : Z) (npp : option positive)
    (err : option error_t) `{HurdLaws hd} :
  cache_ok s -> diskfs_cached_lookup hd fuel e s inum = Ret (s', npp, err) ->
  cache_ok s' /\ lookup_spec hd fuel e (cache_map s) inum (npp, err) (cache_map s').
Proof.
  intros Hok Hr. rewrite <- (run_alone_lookup hd fuel e s inum 0) in Hr. apply run_alone_steps in Hr.
  destruct (alone_atomic hd fuel e _ inum _ _ Hr npp err eq_refl Hok I) as [Hok' Hs]. split; [exact Hok'|exact Hs].
Qed.

(** ** Witnesses *)

(** Two clients look file 5 up at the same time. *)
Lemma lookups_linearizable_witness :
  exists h c ops, history (demo_hurd None) 1 sample_env demo_pagerlib (system_start empty_translator [5; 5]) h c /\
    sy_lookups c = [(5, Done (Some 1%positive) None); (5, Done (Some 1%positive) None)] /\
    Returned 1 (Some 1%positive, None) ∈ h /\
    linearization (demo_hurd None) 1 sample_env [5; 5] (cache_map empty_cache) h ops (cache_map (cache_of (sy_paging c))).
Proof.
  destruct two_clients_run as (c & Hc & Hl & _).
  destruct (run_history (demo_hurd None) 1 sample_env demo_pagerlib (system_start empty_translator [5; 5]) c) as [h Hh].
  { apply rtc_nsteps. eexists. apply (perform_steps _ _ _ _ _ _ _ Hc). }
  destruct (lookups_linearizable (demo_hurd None) 1 sample_env demo_pagerlib empty_translator [5; 5] h c empty_at_rest Hh)
    as [[ops Hops] Hret].
  exists h, c, ops. split; [exact Hh|]. split; [exact Hl|]. split; [|exact Hops].
  apply Hret. exists 5. rewrite Hl. reflexivity.
Defined.

Lemma cached_lookup_atomic_witness :
  exists s', diskfs_cached_lookup (demo_hurd None) 1 sample_env empty_cache 2 = Ret (s', Some 1%positive, None) /\
    lookup_spec (demo_hurd None) 1 sample_env (cache_map empty_cache) 2 (Some 1%positive, None) (cache_map s').
Proof.
  destruct root_lookup as (s' & di & next & _ & H & _). exists s'. split; [exact H|].
  exact (proj2 (cached_lookup_atomic (demo_hurd None) 1 sample_env empty_cache s' 2 (Some 1%positive) None empty_cache_ok H)).
Defined.
