(* ===== verification/Phase.v ===== *)
(** * Phases of overlapping calls

    A phase starts from a state of the translator between two calls (Server) and lets
    lookups, requests for memory objects and dying pagers overlap (Concurrent).  What a
    lookup has returned at any moment of it; and the state in which it comes to rest, in
    which the invariant of Server holds again. *)

From stdpp Require Import gmap relations.
From S2P Require Import Prelude Layout Disk Xtree BufCache Sample Imap FileRead DirRead Node Interleave Dir Pager Volume Translator Server Session PagerSteps PagerThreads Concurrent Linear.

(** ** Specification *)

(** Every node is referenced and no pager is being ended: what overlapping calls are
    started from. *)
Record calm (pl : pagerlib) (s : pstate) : Prop := {
  ca_references q n : nodes (ns s) !! q = Some n -> 0 < references n;
  ca_infos u np p : upis s !! u = Some (file_info np (Some p)) ->
    pager_get_port pl p <> MACH_PORT_NULL /\ exists n, nodes (ns s) !! np = Some n /\ fileinfo n = Some u }.

(** The server when the threads of a phase have done what they can. *)
Definition after (c : system) (b : bcache) : server := Server (pg_state (pg_pagers (sy_paging c))) b.

(** The node a thread is about to read. *)
Definition filling (at_ : pc) : option positive :=
  match at_ with ReadInode p | ReadLock p _ | Fill p _ => Some p | _ => None end.

(** Every node has the stat of its inode, or a thread that will fill it. *)
Definition stats_ok (w : world) (s : nstate) (ls : list (Z * pc)) : Prop :=
  forall q n, nodes s !! q = Some n -> stat_ok w n \/
    dn_stat n = None /\ exists i inum at_, ls !! i = Some (inum, at_) /\ filling at_ = Some q.

(** ** Lemmas: stats *)

(** What a lookup does to the stat of node [q]. *)
Inductive stat_step (w : world) (s : nstate) (at_ at' : pc) (q : positive) (n' : node) : Prop :=
| stat_new : nodes s !! q = None -> dn_stat n' = None -> filling at' = Some q -> stat_step w s at_ at' q n'
| stat_read : stat_ok w n' -> stat_step w s at_ at' q n'
| stat_kept n :
    nodes s !! q = Some n -> dn_stat n' = dn_stat n -> cache_id n' = cache_id n ->
    (filling at_ = Some q -> filling at' = Some q \/ (dn_stat n' = None -> stat_ok w n')) ->
    stat_step w s at_ at' q n'.

Section Stats.
Context (w : world) (Hw : WorldLaws w).

Lemma stat_step_same s s' at_ at' q n' :
  nodes s' = nodes s -> (forall p, filling at_ = Some p -> filling at' = Some p) -> nodes s' !! q = Some n' ->
  stat_step w s at_ at' q n'.
Proof. intros Heq Hf Hn'. rewrite Heq in Hn'. eapply stat_kept; [exact Hn'|done|done|]. intros H. left. by apply Hf. Qed.

Lemma stat_step_update s s' at_ at' p f q n' :
  nodes s' = nodes (update_node p f s) -> (forall n, dn_stat (f n) = dn_stat n /\ cache_id (f n) = cache_id n) ->
  filling at_ = None -> nodes s' !! q = Some n' -> stat_step w s at_ at' q n'.
Proof.
  intros Heq Hf Hat Hn'. rewrite Heq in Hn'. cbn [update_node set_nodes nodes] in Hn'.
  apply lookup_alter_Some in Hn' as [(<- & n & Hn & ->)|[Hne Hn]]; (eapply stat_kept; [exact Hn|..]);
    try apply Hf; try done; by rewrite Hat.
Qed.

Lemma lookup_stat s inum at_ s' at' q n' :
  cache_ok s -> pc_ok (w_fuel w) (w_env w) s inum at_ ->
  thread_step (w_hurd w) (w_fuel w) (w_env w) s inum at_ = Some (Ret (s', at')) -> nodes s' !! q = Some n' ->
  stat_step w s at_ at' q n'.
Proof.
  intros [chain Hok] Hpc H Hn'. pose proof (@world_catch w Hw) as Hcatch.
  destruct at_; try (step_inv H; by eapply stat_step_same); try (step_inv H; eapply stat_step_update; [..|exact Hn']; [reflexivity|by intros|reflexivity]).
  - cbn [thread_step] in H. destruct (negb (malloc_ok _ _)); [injection H as <- <-; by eapply stat_step_same|].
    destruct (make_node _ _) as [np|] eqn:Hmk; [|injection H as <- <-; by eapply stat_step_same].
    pose proof (make_node_fresh _ _ Hmk) as Hfresh.
    destruct (hash_insert_ok s chain np inum Hok Hfresh Hpc) as (s1 & Hins & _ & _ & (next & Hnp) & Hbut).
    rewrite Hins in H. injection H as <- <-. change (nodes s1 !! q = Some n') in Hn'.
    destruct (decide (q = np)) as [->|Hq].
    + rewrite Hnp in Hn'. injection Hn' as <-. by apply stat_new.
    + specialize (Hbut q Hq). rewrite Hn' in Hbut. destruct (nodes s !! q) as [n|] eqn:Hn; [|done].
      apply Some_inj in Hbut. eapply stat_kept; [exact Hn|by injection Hbut|by injection Hbut|done].
  - cbn [thread_step] in H. destruct Hpc as (n & Hn & Hid). rewrite Hn in H. cbn [of_option res_bind] in H. rewrite Hid in H.
    destruct (read_inode _ _ inum) as [di|er|f|] eqn:Hr; [injection H as <- <-; by eapply stat_step_same| |done..].
    injection H as <- <-. eapply stat_kept; [exact Hn'|done|done|]. intros [= <-]. right. rewrite Hn in Hn'. injection Hn' as <-.
    intros Hst. unfold stat_ok. by rewrite Hid, Hr.
  - cbn [thread_step] in H. rewrite Hcatch in H. destruct Hpc as ((n & Hn & Hid) & Hr). rewrite Hn in H.
    cbn [of_option res_bind] in H. injection H as <- <-. cbn [spin_unlock update_node set_nodes nodes] in Hn'.
    apply lookup_alter_Some in Hn' as [(<- & m & Hm & ->)|[Hne Hm]].
    + apply stat_read. rewrite Hn in Hm. injection Hm as <-. unfold stat_ok. cbn. by rewrite Hid, Hr.
    + eapply stat_kept; [exact Hm|done|done|]. by intros [= ->].
Qed.

Lemma stat_ok_same n n' : dn_stat n' = dn_stat n -> cache_id n' = cache_id n -> stat_ok w n -> stat_ok w n'.
Proof. unfold stat_ok. by intros -> ->. Qed.

Lemma stats_lookup s ls i inum at_ s' at' :
  cache_ok s -> pc_ok (w_fuel w) (w_env w) s inum at_ -> ls !! i = Some (inum, at_) ->
  thread_step (w_hurd w) (w_fuel w) (w_env w) s inum at_ = Some (Ret (s', at')) ->
  stats_ok w s ls -> stats_ok w s' (<[i := (inum, at')]> ls).
Proof.
  intros Hok Hpc Hi H Hst q n' Hn'.
  assert (filling at' = Some q -> dn_stat n' = None -> stat_ok w n' \/ dn_stat n' = None /\
    exists j x a, <[i := (inum, at')]> ls !! j = Some (x, a) /\ filling a = Some q) as Hhere.
  { intros Hf Hnone. right. split; [done|]. exists i, inum, at'. split; [|done].
    apply list_lookup_insert_eq. by eapply lookup_lt_Some. }
  destruct (lookup_stat s inum at_ s' at' q n' Hok Hpc H Hn') as [_ Hnone Hf|Hs|n Hn Hs Hid Hf]; [by apply Hhere|by left|].
  destruct (Hst q n Hn) as [Hn0|(Hnone & j & x & a & Hj & Ha)]; [left; by eapply stat_ok_same|].
  assert (dn_stat n' = None) as Hnone' by congruence. destruct (decide (j = i)) as [->|Hne].
  - rewrite Hi in Hj. injection Hj as <- <-. destruct (Hf Ha); [by apply Hhere|left; auto].
  - right. split; [done|]. exists j, x, a. by rewrite list_lookup_insert_ne by congruence.
Qed.

Lemma stats_shape s s' ls : same_shape s s' -> stats_ok w s ls -> stats_ok w s' ls.
Proof.
  intros Hs Hst q n' Hn'. destruct (same_shape_back _ _ _ _ Hs Hn') as (n & Hn & Heq).
  destruct (Hst q n Hn) as [H|[Hnone H]]; [left; by eapply stat_ok_shape|right]. split; [|done].
  injection Heq. congruence.
Qed.

(** A run of a phase. *)
Lemma phase_stats c c' :
  rtc (system_step (w_hurd w) (w_fuel w) (w_env w) (w_pager w)) c c' ->
  system_ok (w_hurd w) (w_fuel w) (w_env w) (w_pager w) c ->
  stats_ok w (cache_of (sy_paging c)) (sy_lookups c) -> stats_ok w (cache_of (sy_paging c')) (sy_lookups c').
Proof.
  induction 1 as [|c c1 c' Hs _ IH]; [done|]. intros Hok Hst.
  apply IH; [by eapply (system_keeps _ _ _ _ _ _ _ _ Hs)|]. clear IH.
  destruct Hs as [c ls k i inum at_ s' at' Hi H|c c1 ls k Hp|c ls k i inum np n Hi Hn Hs]; cbn [sy_paging sy_lookups] in *.
  - destruct Hok as [_ [Hcache Hpcs _ _ _] _ _]. cbn [sy_paging sy_lookups shared threads] in *.
    exact (stats_lookup _ _ _ _ _ _ _ Hcache (Hpcs _ _ _ Hi) Hi H Hst).
  - apply (stats_shape (cache_of c)); [|done]. exact (pager_step_shape (w_pager w) _ _ _ (sk_paging _ _ _ _ _ Hok) Hp).
  - done.
Qed.

End Stats.

(** ** Lemmas: phases *)

Lemma sequential_result hd fuel e M0 ops M i inum r :
  sequential hd fuel e M0 ops M -> (i, inum, r) ∈ ops -> exists M1 M2, lookup_spec hd fuel e M1 inum r M2.
Proof.
  induction 1 as [|ops M j n r' M' _ IH Hs]; [by intros ?%not_elem_of_nil|].
  rewrite elem_of_app, list_elem_of_singleton. intros [H|[= -> -> ->]]; [by apply IH|by exists M, M'].
Qed.

Section Phases.
Context (w : world) (vol : volume) (Hw : WorldLaws w) (Hvol : HoldsVolume (w_env w) (w_fuel w) vol).

Abbreviation step := (system_step (w_hurd w) (w_fuel w) (w_env w) (w_pager w)).

Lemma stat_mode n : stat_ok w n -> is_Some (dn_stat n) -> mode_ok n.
Proof.
  unfold stat_ok. intros Hst Hs. rewrite Hst in Hs. destruct (read_inode _ _ _) as [di|er|f|]; try by destruct Hs.
  exists (inode_stat (w_hurd w) (cache_id n) di). split; [done|]. cbn [inode_stat st_mode]. by destruct (S_ISDIR (di_mode di)).
Qed.

Lemma calm_rest s b : server_ok w (Server s b) -> calm (w_pager w) s -> at_rest (w_pager w) s.
Proof.
  intros [Hcache Hl Hpl Hpg _ Hst _] [Hr Hi]. cbn [sv_pager] in *. split; [done|done|by split|].
  intros q n Hn. apply stat_mode. by eapply Hst.
Qed.

Lemma object_readable i : is_Some (vol i) -> readable (w_fuel w) (w_env w) i.
Proof. intros [o Ho]. left. destruct (vol_inode w vol Hvol i o Ho) as (di & Hr & _). by exists di. Qed.

Lemma object_read_error i : is_Some (vol i) -> read_error (w_hurd w) (w_fuel w) (w_env w) i = None.
Proof.
  intros [o Ho]. destruct (vol_inode w vol Hvol i o Ho) as (di & Hr & _). unfold read_error. rewrite Hr. by apply world_catch.
Qed.

Section Run.
Context (s : pstate) (b : bcache) (inums : list Z) (c : system).
Hypothesis Hok : server_ok w (Server s b).
Hypothesis Hcalm : calm (w_pager w) s.
Hypothesis Hinums : forall inum, inum ∈ inums -> is_Some (vol inum).
Hypothesis Hrun : rtc step (system_start s inums) c.

Lemma run_system : system_ok (w_hurd w) (w_fuel w) (w_env w) (w_pager w) c.
Proof. eapply system_reachable; [apply _..|exact Hrun|]. eapply start_ok, calm_rest; [exact Hok|done]. Qed.

Lemma run_object i inum at_ : sy_lookups c !! i = Some (inum, at_) -> is_Some (vol inum).
Proof. intros Hi. eapply Hinums, lookup_requested; [exact Hrun|exact Hi]. Qed.

Lemma run_stats : stats_ok w (cache_of (sy_paging c)) (sy_lookups c).
Proof.
  apply (phase_stats w _ _ _ Hrun); [eapply start_ok, calm_rest; [exact Hok|done]|].
  intros q n Hn. left. eapply (so_stat _ _ Hok). exact Hn.
Qed.

(** A lookup that has returned a node: the node stands for its inode, and shows it once
    it has been read. *)
Lemma run_result i inum np err :
  sy_lookups c !! i = Some (inum, Done (Some np) err) ->
  err = None /\ exists n, nodes (cache_of (sy_paging c)) !! np = Some n /\ cache_id n = inum /\
    (is_Some (dn_stat n) -> shows vol n).
Proof.
  intros Hi. split.
  - destruct (run_history _ _ _ _ _ _ Hrun) as [h Hh].
    destruct (history_linearized _ _ _ _ _ _ s inums h c (calm_rest _ _ Hok Hcalm) Hh) as (_ & ops & [Hseq _ Hops _ _ _]).
    destruct (sequential_result _ _ _ _ _ _ i inum (Some np, err) Hseq) as (M1 & M2 & Hs).
    { apply Hops. by exists (Done (Some np) err). }
    inversion Hs; subst; [done|]. by eapply object_read_error, run_object.
  - destruct (co_pcs _ _ _ _ (sk_conf _ _ _ _ _ run_system) i inum _ Hi) as (n & Hn & Hid). exists n.
    split; [exact Hn|]. split; [done|]. intros Hs.
    destruct (run_stats np n Hn) as [Hst|[Hnone _]]; [by apply (stat_shows w vol)|]. rewrite Hnone in Hs. by destruct Hs.
Qed.

(** The phase has come to rest. *)
Lemma run_rests :
  (forall h, is_Some (malloc_upi (w_pager w) h)) -> ~ busy (w_hurd w) (w_fuel w) (w_env w) (w_pager w) c ->
  server_ok w (after c b) /\ calm (w_pager w) (pg_state (pg_pagers (sy_paging c))).
Proof.
  intros Hroom Hidle. pose proof run_system as Hsys. pose proof Hsys as [_ [Hcache _ _ _ Hfree] _ _].
  destruct (system_rests (w_hurd w) (w_fuel w) (w_env w) (w_pager w) _ c Hroom (@world_catch w Hw) Hsys)
    as ([Hlock Href Hpg Hinf] & _ & Hend); [intros i inum at_ Hi; by eapply object_readable, run_object|done|].
  split; [|by split]. unfold after. split; cbn [sv_pager sv_buffers].
  - exact Hcache.
  - destruct (refcnt_lock (ns (pg_state (pg_pagers (sy_paging c))))) eqn:Hl; [|done]. exfalso.
    destruct (Hfree (@world_catch w Hw) Hl) as (i & inum & at_ & Hi & Hh).
    by destruct (Hend i inum at_ Hi) as [(npp & err & ->)|(p & m & -> & _)].
  - exact Hlock.
  - exact Hpg.
  - intros np n Hn. specialize (Href np n Hn). lia.
  - intros np n Hn. destruct (run_stats np n Hn) as [Hst|(_ & i & inum & at_ & Hi & Hf)]; [done|].
    by destruct (Hend i inum at_ Hi) as [(npp & err & ->)|(p & m & -> & _)].
  - exact (so_buffers _ _ Hok).
Qed.

End Run.

End Phases.
