(* ===== verification/Walkers.v ===== *)
(** * Clients that walk paths at the same time

    Every client walks a path from the root as libdiskfs does for it: it locks the root,
    looks the first name up while it holds the mutex of the directory, gives up that
    mutex when it has the node, and goes on from there.  Walks are interleaved at the
    steps of [diskfs_lookup_hard] (LookupSteps); they do not block each other for ever,
    and each ends where its path leads. *)

From stdpp Require Import gmap relations.
From S2P Require Import Prelude Layout Disk Xtree BufCache Sample Imap FileRead DirRead Node Interleave Dir LookupSteps Pager Volume Translator Server Session PagerSteps PagerThreads Concurrent Linear Phase.

(** ** Definitions *)

(** A client that waits for the mutex of the root; has a node and its mutex, and names
    still to look up; is in [diskfs_lookup_hard]; or has come to an end. *)
Inductive walker :=
| Waits (names : list (list Z))
| Has (np : positive) (names : list (list Z))
| Looks (dp : positive) (name : list Z) (names : list (list Z)) (at_ : hpc)
| Ends (npp : option positive) (err : option error_t).

Definition walker_step (w : world) (root : positive) (s : nstate) (x : walker) : option (res (nstate * walker)) :=
  match x with
  | Waits names =>
      match nodes s !! root with
      | None => Some (Fault NullDeref)
      | Some n => if locked n then None else Some (Ret (update_node root (set_locked true) s, Has root names))
      end
  | Has np [] => Some (Ret (mutex_unlock np s, Ends (Some np) None))
  | Has dp (name :: names) => Some (Ret (s, Looks dp name names HCall))
  | Looks dp name names (HDone npp err) =>
      Some (let s := mutex_unlock dp s in
            match err, mjoin npp with
            | Some err, _ => Ret (s, Ends None (Some err))
            | None, Some np => Ret (s, Has np names)
            | None, None => Fault NullDeref
            end)
  | Looks dp name names at_ =>
      match hard_step (w_diskfs w) (w_hurd w) (w_fuel w) (w_env w) (Some root) dp name (LOOKUP (w_diskfs w)) (Some None) s at_ with
      | None => None
      | Some r => Some (let* '(s, at_) := r in Ret (s, Looks dp name names at_))
      end
  | Ends _ _ => None
  end.

Record walking := Walking { wk_nodes : nstate; wk_walkers : list walker }.

Inductive walking_step (w : world) (root : positive) : walking -> walking -> Prop :=
| walker_moves s xs i x s' x' :
    xs !! i = Some x -> walker_step w root s x = Some (Ret (s', x')) ->
    walking_step w root (Walking s xs) (Walking s' (<[i := x']> xs)).

(** ** Specification *)

(** No directory is below itself. *)
Definition acyclic (vol : volume) : Prop :=
  exists depth : Z -> nat, forall i ds name d, vol i = Some (VDir ds) -> resolve ds name = Some d ->
    (depth i < depth (d_inumber d))%nat.

(** The client is in possession of the mutex of [p]. *)
Definition possesses (p : positive) (x : walker) : Prop :=
  match x with
  | Has np _ => p = np
  | Looks dp _ _ at_ =>
      p = dp \/ match at_ with HLook _ _ (Done (Some q) _) | HDone (Some (Some q)) _ => p = q | _ => False end
  | _ => False
  end.

(** The lookup of the node cache a client is in; none counts as one that has ended. *)
Definition cache_lookup (x : walker) : Z * pc :=
  match x with
  | Looks _ _ _ (HLook inum _ at_) => (inum, at_)
  | _ => (0, Done None (Some ENOMEM))
  end.

(** The most steps a client can still make. *)
Definition hard_rank (at_ : hpc) : nat :=
  match at_ with HCall => 12 | HLook _ _ at_ => 3 + Interleave.rank at_ | HRelock _ => 2 | HDone _ _ => 1 end.

Definition steps_left (x : walker) : nat :=
  match x with
  | Waits names => 2 + 14 * length names
  | Has _ names => 1 + 14 * length names
  | Looks _ _ names at_ => 1 + hard_rank at_ + 14 * length names
  | Ends _ _ => 0
  end.

(** Where a client is, and that its goal is still ahead. *)
Definition walker_ok (w : world) (vol : volume) (root : positive) (s : nstate) (goal : option Z) (x : walker) : Prop :=
  match x with
  | Waits names => exists i, cached s i root /\ path_ok vol i names /\ resolve_path vol i names = goal
  | Has np names => exists i, cached s i np /\ path_ok vol i names /\ resolve_path vol i names = goal
  | Looks dp name names at_ =>
      exists i ds, cached s i dp /\ path_ok vol i (name :: names) /\ resolve_path vol i (name :: names) = goal /\
        vol i = Some (VDir ds) /\
        match at_ with
        | HCall => True
        | HLook inum k at_ => k = Plain /\ (exists d, resolve ds name = Some d /\ inum = d_inumber d) /\
            forall r, outcome (w_hurd w) (w_fuel w) (w_env w) inum at_ = Some r -> exists p, r = (Some p, None)
        | HRelock _ => False
        | HDone npp err =>
            match resolve ds name with
            | Some d => exists np, npp = Some (Some np) /\ err = None /\ cached s (d_inumber d) np
            | None => npp = Some None /\ err = Some ENOENT
            end
        end
  | Ends npp err =>
      match goal with
      | Some i => exists np, npp = Some np /\ err = None /\ cached s i np
      | None => npp = None /\ err = Some ENOENT
      end
  end.

(** What the walks leave of the nodes of [s0]. *)
Record walk_frame (s0 s : nstate) : Prop := {
  wf_kept q n : nodes s0 !! q = Some n -> exists n', nodes s !! q = Some n' /\ cache_id n' = cache_id n /\
    fileinfo n' = fileinfo n /\ light_references n' = light_references n /\ (is_Some (dn_stat n) -> is_Some (dn_stat n'));
  wf_new q n' : nodes s !! q = Some n' -> nodes s0 !! q = None -> light_references n' = 0 /\ fileinfo n' = None }.

Record walking_ok (w : world) (vol : volume) (root : positive) (s0 : nstate) (goals : list (option Z)) (c : walking) : Prop := {
  wo_conf : conf_ok (w_hurd w) (w_fuel w) (w_env w) (Config (wk_nodes c) (cache_lookup <$> wk_walkers c));
  wo_loads i inum at_ : (cache_lookup <$> wk_walkers c) !! i = Some (inum, at_) -> load_ok at_;
  wo_references q n : nodes (wk_nodes c) !! q = Some n -> 0 < references n;
  wo_frame : walk_frame s0 (wk_nodes c);
  wo_stats : stats_ok w (wk_nodes c) (cache_lookup <$> wk_walkers c);
  wo_locks p n : nodes (wk_nodes c) !! p = Some n -> locked n = true -> exists x, x ∈ wk_walkers c /\ possesses p x;
  wo_walkers : Forall2 (walker_ok w vol root (wk_nodes c)) goals (wk_walkers c) }.

(** ** Lemmas: frames *)

#[export] Instance walk_frame_preorder : PreOrder walk_frame.
Proof.
  split; [split; [intros q n Hn; by exists n|congruence]|].
  intros s1 s2 s3 [Hk Hnew] [Hk' Hnew']. split.
  - intros q n Hn. destruct (Hk q n Hn) as (n' & Hn' & Hi & Hf & Hl & Hs).
    destruct (Hk' q n' Hn') as (n'' & Hn'' & Hi' & Hf' & Hl' & Hs'). exists n''. split_and!; try congruence. auto.
  - intros q n'' Hn'' Hnone. destruct (nodes s2 !! q) as [n'|] eqn:Hn'; [|by apply (Hnew' q)].
    destruct (Hnew q n' Hn' Hnone) as [Hl Hf]. destruct (Hk' q n' Hn') as (m & Hm & _ & Hf' & Hl' & _).
    rewrite Hn'' in Hm. injection Hm as <-. split; congruence.
Qed.

Lemma walk_frame_update s p f :
  (forall n, cache_id (f n) = cache_id n /\ fileinfo (f n) = fileinfo n /\ light_references (f n) = light_references n /\
     dn_stat (f n) = dn_stat n) -> walk_frame s (update_node p f s).
Proof.
  intros Hf. split; cbn [update_node set_nodes nodes]; intros q n Hn.
  - destruct (decide (p = q)) as [->|Hq].
    + exists (f n). rewrite lookup_alter_eq, Hn. destruct (Hf n) as (Hi & Hfi & Hl & Hs). rewrite Hs. by split_and!.
    + exists n. by rewrite lookup_alter_ne by done.
  - intros Hnone. destruct (decide (p = q)) as [->|Hq];
      [by rewrite lookup_alter_eq, Hnone in Hn|rewrite lookup_alter_ne in Hn by done; congruence].
Qed.

(** Locking and unlocking. *)
Lemma shape_lock s p b : same_shape s (update_node p (set_locked b) s).
Proof. by apply same_shape_update. Qed.

Lemma walk_frame_lock s p b : walk_frame s (update_node p (set_locked b) s).
Proof. by apply walk_frame_update. Qed.

Lemma references_lock s p b q n :
  (forall q n, nodes s !! q = Some n -> 0 < references n) ->
  nodes (update_node p (set_locked b) s) !! q = Some n -> 0 < references n.
Proof.
  intros Hr Hn. cbn [update_node set_nodes nodes] in Hn.
  apply lookup_alter_Some in Hn as [(<- & m & Hm & ->)|[_ Hm]]; [exact (Hr _ m Hm)|exact (Hr _ n Hm)].
Qed.

(** A thread that is not in a lookup starts or ends one. *)
Lemma conf_quiet hd fuel e s s' ts i n a n' a' :
  conf_ok hd fuel e (Config s ts) -> same_shape s s' -> ts !! i = Some (n, a) -> holds a = false ->
  a' = Call \/ a' = Done None (Some ENOMEM) -> conf_ok hd fuel e (Config s' (<[i := (n', a')]> ts)).
Proof.
  intros Hok Hs Hi Ha Ha'. apply (conf_frame hd fuel e s s' ts Hs) in Hok as [Hcache Hpcs Hexcl Hheld Hfree].
  cbn [shared threads] in *. assert (holds a' = false) as Hh by (by destruct Ha' as [->| ->]).
  split; cbn [shared threads]; [done|..].
  - intros j x b [(-> & -> & ->)|[_ Hj]]%moved_lookup; [by destruct Ha' as [->| ->]|by eapply Hpcs].
  - intros j k x b y b' [(-> & -> & ->)|[_ Hj]]%moved_lookup [(-> & -> & ->)|[_ Hk]]%moved_lookup; try congruence.
    by eapply Hexcl.
  - intros j x b [(-> & -> & ->)|[_ Hj]]%moved_lookup; [congruence|by eapply Hheld].
  - intros Hc Hl. destruct (Hfree Hc Hl) as (j & x & b & Hj & Hb). exists j, x, b. split; [|done].
    rewrite list_lookup_insert_ne; [done|]. intros ->. congruence.
Qed.

Lemma stats_quiet w s s' ts i n a n' a' :
  stats_ok w s ts -> same_shape s s' -> ts !! i = Some (n, a) -> filling a = None ->
  stats_ok w s' (<[i := (n', a')]> ts).
Proof.
  intros Hst Hs Hi Ha q m Hm. destruct (stats_shape w s s' ts Hs Hst q m Hm) as [H|(Hnone & j & x & b & Hj & Hb)]; [by left|].
  right. split; [done|]. exists j, x, b. split; [|done]. rewrite list_lookup_insert_ne; [done|]. intros ->. congruence.
Qed.

(** ** Lemmas: the search of a directory of the volume *)

Section Walk.
Context (w : world) (vol : volume) (root : positive) (s0 : nstate) (goals : list (option Z)).
Context (Hw : WorldLaws w) (Hvol : HoldsVolume (w_env w) (w_fuel w) vol).
Context (Hmem : forall h, is_Some (make_node (w_hurd w) h)).

Abbreviation hd := (w_hurd w).
Abbreviation fuel := (w_fuel w).
Abbreviation e := (w_env w).
Abbreviation hstep dp name s at_ := (hard_step (w_diskfs w) hd fuel e (Some root) dp name (LOOKUP (w_diskfs w)) (Some None) s at_).

Lemma path_next i name names ds d :
  path_ok vol i (name :: names) -> vol i = Some (VDir ds) -> resolve ds name = Some d ->
  path_ok vol (d_inumber d) names /\ is_Some (vol (d_inumber d)).
Proof.
  intros (ds' & Hv & _ & _ & _ & _ & _ & Hnext) Hv' Hd. rewrite Hv in Hv'. injection Hv' as ->.
  specialize (Hnext d Hd). split; [done|]. destruct names as [|name' names]; [done|]. destruct Hnext as (ds' & -> & _). by eexists.
Qed.

Lemma dirscan_in_volume i name names ds :
  path_ok vol i (name :: names) -> vol i = Some (VDir ds) ->
  dirscan fuel e i name None =
  match resolve ds name with
  | Some d => Ret (Some (d_inumber d), None)
  | None => Ret (Some (u64 (-1)), Some ENOENT)
  end.
Proof.
  intros Hpath Hv. pose proof Hpath as (ds' & Hv' & Hne & Hname & Hlen & Hdot & Hall & _). rewrite Hv in Hv'. injection Hv' as <-.
  destruct (vol_dir _ _ Hv) as (di & Hr & Hd & Hc).
  rewrite (dirscan_ok fuel e (new_node i None) di fuel ds) by (done || apply _). cbv zeta. rewrite Hdot.
  destruct (resolve ds name) as [d|] eqn:Hres.
  - rewrite (dir_lookup_resolve _ _ _ d) by done. destruct (path_next i name names ds d Hpath Hv Hres) as [_ [o Ho]].
    pose proof (vol_number _ _ Ho). replace (_ =? u64 (-1)) with false; [done|]. change (u64 (-1)) with (2 ^ 64 - 1). lia.
  - by rewrite (dir_lookup_unresolved name ds).
Qed.

Lemma call_step s dp i name names ds :
  cached s i dp -> path_ok vol i (name :: names) -> vol i = Some (VDir ds) ->
  hstep dp name s HCall =
  Some (Ret (s, match resolve ds name with
                | Some d => HLook (d_inumber d) Plain Call
                | None => HDone (Some None) (Some ENOENT)
                end)).
Proof.
  intros (dn & Hn & Hid) Hpath Hv. cbn [hard_step]. rewrite Hn. cbn [of_option res_bind].
  destruct (lookup_type_tests (w_diskfs w) (LOOKUP (w_diskfs w)) ltac:(by left)) as (-> & -> & ->). cbv zeta.
  rewrite Hid, (dirscan_in_volume i name names ds Hpath Hv).
  destruct Hpath as (ds' & _ & _ & _ & _ & Hdot & _). unfold is_dot in Hdot.
  destruct (resolve ds name) as [d|]; [|done]. cbn [res_bind]. rewrite Hdot. by rewrite !andb_false_r.
Qed.

(** The steps a client makes that is on its way. *)
Inductive move (s : nstate) : walker -> nstate -> walker -> Prop :=
| move_root names n :
    nodes s !! root = Some n -> locked n = false ->
    move s (Waits names) (update_node root (set_locked true) s) (Has root names)
| move_last np : move s (Has np []) (mutex_unlock np s) (Ends (Some np) None)
| move_first dp name names : move s (Has dp (name :: names)) s (Looks dp name names HCall)
| move_found dp name names ds d i :
    cached s i dp -> vol i = Some (VDir ds) -> resolve ds name = Some d ->
    move s (Looks dp name names HCall) s (Looks dp name names (HLook (d_inumber d) Plain Call))
| move_absent dp name names ds i :
    cached s i dp -> vol i = Some (VDir ds) -> resolve ds name = None ->
    move s (Looks dp name names HCall) s (Looks dp name names (HDone (Some None) (Some ENOENT)))
| move_cache dp name names inum a s' a' :
    thread_step hd fuel e s inum a = Some (Ret (s', a')) ->
    move s (Looks dp name names (HLook inum Plain a)) s' (Looks dp name names (HLook inum Plain a'))
| move_result dp name names inum np :
    move s (Looks dp name names (HLook inum Plain (Done (Some np) None))) s (Looks dp name names (HDone (Some (Some np)) None))
| move_on dp name names np :
    move s (Looks dp name names (HDone (Some (Some np)) None)) (mutex_unlock dp s) (Has np names)
| move_away dp name names :
    move s (Looks dp name names (HDone (Some None) (Some ENOENT))) (mutex_unlock dp s) (Ends None (Some ENOENT)).

Lemma look_step s dp name inum a :
  (forall np err, a <> Done np err) ->
  hstep dp name s (HLook inum Plain a) =
  match thread_step hd fuel e s inum a with
  | None => None
  | Some r => Some (let* '(s, a) := r in Ret (s, HLook inum Plain a))
  end.
Proof. intros Ha. destruct a; try done. by edestruct Ha. Qed.

Lemma done_or_not (a : pc) : (exists np err, a = Done np err) \/ forall np err, a <> Done np err.
Proof. destruct a; eauto; by right. Qed.

(** A client on its way waits, or has come to its end, or makes such a step. *)
Lemma walker_progress s goal x :
  cache_ok s -> (forall inum a, cache_lookup x = (inum, a) -> pc_ok fuel e s inum a) -> walker_ok w vol root s goal x ->
  match walker_step w root s x with
  | None =>
      match x with
      | Waits _ => exists n, nodes s !! root = Some n /\ locked n = true
      | Looks _ _ _ (HLook inum Plain a) => thread_step hd fuel e s inum a = None /\ forall np err, a <> Done np err
      | Ends _ _ => True
      | _ => False
      end
  | Some r => exists s' x', r = Ret (s', x') /\ move s x s' x'
  end.
Proof.
  intros Hok Hpc Hx. destruct x as [names|np [|name names]|dp name names at_|npp err]; cbn [walker_step].
  - destruct Hx as (i & (n & Hn & _) & _). rewrite Hn. destruct (locked n) eqn:Hl; [by exists n|].
    do 2 eexists. split; [done|]. by eapply move_root.
  - do 2 eexists. split; [done|]. apply move_last.
  - do 2 eexists. split; [done|]. apply move_first.
  - destruct Hx as (i & ds & Hdp & Hpath & _ & Hv & Hat). destruct at_ as [|inum k a|npp|npp err].
    + rewrite (call_step s dp i name names ds) by done. do 2 eexists. split; [done|].
      destruct (resolve ds name) eqn:Hr; [by eapply move_found|by eapply move_absent].
    + destruct Hat as (-> & (d & Hd & ->) & Hout). destruct (done_or_not a) as [(np & err & ->)|Ha].
      * cbn [hard_step]. destruct (Hout _ eq_refl) as (p & [= -> ->]). do 2 eexists. split; [done|]. apply move_result.
      * rewrite look_step by done.
        destruct (thread_step hd fuel e s (d_inumber d) a) as [r|] eqn:Hs; [|done].
        destruct (step_no_fault hd fuel e _ s (d_inumber d) a r Hok (Hpc _ _ eq_refl)) as (s' & a' & ->);
          [|done|do 2 eexists; split; [done|by apply move_cache]].
        destruct (path_next _ _ _ _ _ Hpath Hv Hd) as [_ Ho]. by apply (object_readable w vol).
    + done.
    + destruct (resolve ds name) as [d|] eqn:Hr.
      * destruct Hat as (np & -> & -> & _). do 2 eexists. split; [done|]. apply move_on.
      * destruct Hat as [-> ->]. do 2 eexists. split; [done|]. apply move_away.
  - done.
Qed.

Lemma move_less s x s' x' : move s x s' x' -> (steps_left x' < steps_left x)%nat.
Proof.
  intros []; cbn [steps_left hard_rank length Interleave.rank]; try lia.
  pose proof (step_rank hd fuel e s inum a s'0 a' ltac:(done)). lia.
Qed.

(** A step of a lookup locks no node but the one it returns. *)
Lemma thread_locks s inum a s' a' q n' :
  cache_ok s -> pc_ok fuel e s inum a -> thread_step hd fuel e s inum a = Some (Ret (s', a')) ->
  nodes s' !! q = Some n' -> locked n' = true ->
  a' = Done (Some q) None \/ exists n, nodes s !! q = Some n /\ locked n = true.
Proof.
  intros [chain Hok] Hpc H Hn' Hl.
  assert (forall p f, (forall n, locked (f n) = locked n) -> nodes (update_node p f s) !! q = Some n' ->
    exists n, nodes s !! q = Some n /\ locked n = true) as Hup.
  { intros p f Hf Hq. cbn [update_node set_nodes nodes] in Hq.
    apply lookup_alter_Some in Hq as [(<- & n & Hn & ->)|[_ Hn]]; [exists n; by rewrite <- (Hf n)|by exists n']. }
  destruct a; try (step_inv H; right; by exists n'); try (step_inv H; right; eapply Hup; [|exact Hn']; done).
  - step_inv H. destruct (decide (p = q)) as [->|Hq]; [by left|right]. cbn [update_node set_nodes nodes] in Hn'.
    rewrite lookup_alter_ne in Hn' by done. by exists n'.
  - right. cbn [thread_step] in H. destruct (negb (malloc_ok _ _)); [injection H as <- <-; by exists n'|].
    destruct (make_node _ _) as [np|] eqn:Hmk; [|injection H as <- <-; by exists n'].
    pose proof (make_node_fresh _ _ Hmk) as Hfresh.
    destruct (hash_insert_ok s chain np inum Hok Hfresh Hpc) as (s1 & Hins & _ & _ & (next & Hnp) & Hbut).
    rewrite Hins in H. injection H as <- <-. change (nodes s1 !! q = Some n') in Hn'.
    destruct (decide (q = np)) as [->|Hq]; [rewrite Hnp in Hn'; by injection Hn' as <-|].
    specialize (Hbut q Hq). rewrite Hn' in Hbut. destruct (nodes s !! q) as [n|] eqn:Hn; [|done].
    apply Some_inj in Hbut. exists n. split; [done|]. injection Hbut. congruence.
  - step_inv H; right; [by exists n'|eapply Hup; [|exact Hn']; done].
Qed.

Lemma move_locks s x s' x' p n' :
  cache_ok s -> (forall inum a, cache_lookup x = (inum, a) -> pc_ok fuel e s inum a) -> move s x s' x' ->
  nodes s' !! p = Some n' -> locked n' = true ->
  possesses p x' \/ exists n, nodes s !! p = Some n /\ locked n = true /\ (possesses p x -> possesses p x').
Proof.
  intros Hok Hpc H Hn' Hl.
  assert (forall q b, nodes (update_node q (set_locked b) s) !! p = Some n' -> p = q /\ b = true \/ p <> q /\ nodes s !! p = Some n') as Hset.
  { intros q b Hq. cbn [update_node set_nodes nodes] in Hq.
    apply lookup_alter_Some in Hq as [(-> & n & _ & ->)|[Hne Hn]]; [by left|by right]. }
  destruct H; cbn [possesses cache_lookup] in *.
  - destruct (Hset _ _ Hn') as [[-> _]|[_ Hn]]; [by left|right; by exists n'].
  - destruct (Hset _ _ Hn') as [[_ ?]|[Hne Hn]]; [done|right; by exists n'].
  - right. exists n'. split_and!; auto.
  - right. exists n'. split_and!; try done; naive_solver.
  - right. exists n'. split_and!; try done; naive_solver.
  - destruct (thread_locks _ _ _ _ _ _ _ Hok (Hpc _ _ eq_refl) H Hn' Hl) as [->|(n & Hn & Hln)]; [left; by right|].
    right. exists n. split_and!; try done. intros [->|Hp]; [by left|]. by destruct a.
  - right. exists n'. by split_and!.
  - destruct (Hset _ _ Hn') as [[_ ?]|[Hne Hn]]; [done|right; exists n'; split_and!; try done; naive_solver].
  - destruct (Hset _ _ Hn') as [[_ ?]|[Hne Hn]]; [done|right; exists n'; split_and!; try done; naive_solver].
Qed.

(** ** Lemmas: goals *)

Lemma walker_ok_mono s s' goal x :
  (forall i q, cached s i q -> cached s' i q) -> walker_ok w vol root s goal x -> walker_ok w vol root s' goal x.
Proof.
  intros Hm. destruct x as [names|np names|dp name names at_|npp err]; cbn [walker_ok].
  - intros (i & Hc & H). exists i. split; [by apply Hm|done].
  - intros (i & Hc & H). exists i. split; [by apply Hm|done].
  - intros (i & ds & Hc & Hp & Hg & Hv & Hat). exists i, ds. split; [by apply Hm|]. split_and!; try done.
    destruct at_ as [| | |npp err]; try done. destruct (resolve ds name); [|done].
    destruct Hat as (np & ? & ? & Hc'). exists np. split_and!; auto.
  - destruct goal; [|done]. intros (np & ? & ? & Hc). exists np. split_and!; auto.
Qed.

(** What the atomic lookup gives for an object of the volume. *)
Lemma spec_object M inum r M' : is_Some (vol inum) -> lookup_spec hd fuel e M inum r M' -> exists p, r = (Some p, None).
Proof.
  intros Ho H. inversion H as [p| p |? Hm]; subst; [by exists p|exists p; by rewrite (object_read_error w vol Hw Hvol)|].
  destruct Hm as [Hm|[h Hh]]; [|destruct (Hmem h) as [? Hs]; congruence]. by rewrite wf_malloc in Hm.
Qed.

Lemma same_node s i j p : cached s i p -> cached s j p -> i = j.
Proof. intros (n & Hn & Hi) (m & Hm & Hj). congruence. Qed.

Lemma move_ok s goal x s' x' :
  cache_ok s -> (forall inum a, cache_lookup x = (inum, a) -> pc_ok fuel e s inum a) ->
  (forall i q, cached s i q -> cached s' i q) -> move s x s' x' ->
  walker_ok w vol root s goal x -> walker_ok w vol root s' goal x'.
Proof.
  intros Hok Hpc Hm H Hx. apply (walker_ok_mono s s' goal x'); [exact Hm|]. destruct H; cbn [walker_ok cache_lookup] in *.
  - done.
  - destruct Hx as (i & Hc & _ & <-). by exists np.
  - destruct Hx as (i & Hc & Hp & Hg). pose proof Hp as (ds & Hv & _). by exists i, ds.
  - destruct Hx as (j & ds' & Hc & Hp & Hg & Hv & _). rewrite (same_node s i j dp) in * by done. simplify_eq.
    exists j, ds. split_and!; try done. by exists d.
  - destruct Hx as (j & ds' & Hc & Hp & Hg & Hv & _). rewrite (same_node s i j dp) in * by done. simplify_eq.
    exists j, ds. split_and!; try done. by rewrite H1.
  - destruct Hx as (i & ds & Hc & Hp & Hg & Hv & _ & (d & Hd & ->) & Hout). exists i, ds. split_and!; try done; [by exists d|].
    intros r Hr. destruct (step_effect hd fuel e _ s _ a s' a' Hok (Hpc _ _ eq_refl) H) as [[Heq _]|(_ & r' & Hr' & Hs)].
    + apply Hout. congruence.
    + rewrite Hr in Hr'. injection Hr' as <-. eapply spec_object; [|exact Hs]. by eapply path_next.
  - destruct Hx as (i & ds & Hc & Hp & Hg & Hv & _ & (d & Hd & ->) & _). exists i, ds. split_and!; try done. rewrite Hd.
    exists np. split_and!; try done. exact (Hpc _ _ eq_refl).
  - destruct Hx as (i & ds & Hc & Hp & Hg & Hv & Hat). cbn [resolve_path] in Hg. rewrite Hv in Hg.
    destruct (resolve ds name) as [d|] eqn:Hd; [|by destruct Hat]. destruct Hat as (np' & [= <-] & _ & Hnp).
    exists (d_inumber d). split; [done|]. split; [by eapply path_next|done].
  - destruct Hx as (i & ds & Hc & Hp & Hg & Hv & Hat). cbn [resolve_path] in Hg. rewrite Hv in Hg.
    destruct (resolve ds name) as [d|]; [by destruct Hat as (np' & ? & _)|]. cbn in Hg. by rewrite <- Hg.
Qed.

(** ** Lemmas: the invariant *)

(** A step is one of a lookup of the node cache, or one that locks or unlocks at most. *)
Lemma move_kind s x s' x' :
  move s x s' x' ->
  (exists inum a a', cache_lookup x = (inum, a) /\ cache_lookup x' = (inum, a') /\
     thread_step hd fuel e s inum a = Some (Ret (s', a'))) \/
  (s' = s \/ exists p b, s' = update_node p (set_locked b) s) /\
  (exists n a n' a', cache_lookup x = (n, a) /\ cache_lookup x' = (n', a') /\ holds a = false /\ filling a = None /\
     (a' = Call \/ a' = Done None (Some ENOMEM))).
Proof.
  intros []; [right|right|right|right|right|left; by eexists _, _, _|right..];
    (split; [(by left) || (right; by eexists _, _)|]); do 4 eexists; split_and!; try done; auto.
Qed.

Lemma thread_frame s inum a s' a' :
  cache_ok s -> pc_ok fuel e s inum a -> load_ok a -> (forall q n, nodes s !! q = Some n -> 0 < references n) ->
  thread_step hd fuel e s inum a = Some (Ret (s', a')) ->
  walk_frame s s' /\ (forall q n, nodes s' !! q = Some n -> 0 < references n) /\ load_ok a'.
Proof.
  intros Hok Hpc Hload Hr H. destruct (lookup_frames hd fuel e _ s inum a s' a' Hok Hpc Hload Hr H) as [[Hkept Hnew] Hl].
  destruct (step_cached hd fuel e _ s inum a s' a' Hok Hpc H) as (_ & Hc & _).
  split; [split|split; [|done]].
  - intros q n Hn. destruct (Hkept q n Hn) as (n' & Hn' & Hf & Hlt & _ & Hst). exists n'.
    destruct (Hc (cache_id n) q) as (m & Hm & Hid); [by exists n|]. rewrite Hn' in Hm. injection Hm as <-.
    split_and!; try done. destruct Hst as [->|(st & -> & _)]; [done|by eexists].
  - intros q n' Hn' Hnone. destruct (Hnew q n' Hn' Hnone) as (_ & ? & ? & _). done.
  - intros q n' Hn'. destruct (nodes s !! q) as [n|] eqn:Hn; [|by apply (Hnew q n')].
    destruct (Hkept q n Hn) as (m & Hm & _ & _ & Href & _). congruence.
Qed.

Lemma moved_proj (xs : list walker) (i : nat) x' : cache_lookup <$> <[i := x']> xs = <[i := cache_lookup x']> (cache_lookup <$> xs).
Proof. apply list_fmap_insert. Qed.

Lemma move_shared s xs i x s' x' :
  walking_ok w vol root s0 goals (Walking s xs) -> xs !! i = Some x -> move s x s' x' ->
  conf_ok hd fuel e (Config s' (cache_lookup <$> <[i := x']> xs)) /\
  (forall j inum a, (cache_lookup <$> <[i := x']> xs) !! j = Some (inum, a) -> load_ok a) /\
  (forall q n, nodes s' !! q = Some n -> 0 < references n) /\ walk_frame s s' /\
  stats_ok w s' (cache_lookup <$> <[i := x']> xs).
Proof.
  intros [Hconf Hloads Hrefs _ Hst _ _] Hi H. cbn [wk_nodes wk_walkers] in *. rewrite moved_proj.
  assert ((cache_lookup <$> xs) !! i = Some (cache_lookup x)) as Hpi by (by rewrite list_lookup_fmap, Hi).
  destruct (move_kind s x s' x' H) as [(inum & a & a' & Hx & -> & Hs)|(Hs & n & a & n' & a' & Hx & -> & Ha & Hf & Ha')]; rewrite Hx in Hpi.
  - pose proof (co_pcs _ _ _ _ Hconf i inum a Hpi) as Hpc. pose proof (co_cache _ _ _ _ Hconf) as Hcache.
    destruct (thread_frame s inum a s' a' Hcache Hpc (Hloads i inum a Hpi) Hrefs Hs) as (Hfr & Hr & Hl).
    split; [eapply (conf_step_ok hd fuel e _ (Config s _)); [exact Hconf|by econstructor]|].
    split; [|split; [exact Hr|split; [exact Hfr|by eapply stats_lookup]]].
    intros j m b [(-> & -> & ->)|[_ Hj]]%moved_lookup; [done|by eapply Hloads].
  - assert (same_shape s s') as Hsh by (destruct Hs as [->|(p & b & ->)]; [done|apply shape_lock]).
    split; [by eapply conf_quiet|]. split; [|split; [|split; [|by eapply stats_quiet]]].
    + intros j m b [(-> & -> & ->)|[_ Hj]]%moved_lookup; [by destruct Ha' as [->| ->]|by eapply Hloads].
    + destruct Hs as [->|(p & b & ->)]; [done|]. intros q m. by apply references_lock.
    + destruct Hs as [->|(p & b & ->)]; [done|apply walk_frame_lock].
Qed.

Lemma walk_frame_cached s s' j q : walk_frame s s' -> cached s j q -> cached s' j q.
Proof.
  intros [Hk _] (n & Hn & Hi). destruct (Hk q n Hn) as (n' & Hn' & Hi' & _). exists n'. split; [done|congruence].
Qed.

Lemma walker_lookup_ok s xs i x :
  walking_ok w vol root s0 goals (Walking s xs) -> xs !! i = Some x ->
  cache_ok s /\ (forall inum a, cache_lookup x = (inum, a) -> pc_ok fuel e s inum a) /\
  exists goal, goals !! i = Some goal /\ walker_ok w vol root s goal x.
Proof.
  intros [Hconf _ _ _ _ _ Hall] Hi. cbn [wk_nodes wk_walkers] in *. split; [exact (co_cache _ _ _ _ Hconf)|]. split.
  - intros inum a Hx. apply (co_pcs _ _ _ _ Hconf i). cbn [threads]. by rewrite list_lookup_fmap, Hi, <- Hx.
  - destruct (Forall2_lookup_r _ _ _ _ _ Hall Hi) as (goal & Hg & Hx). by exists goal.
Qed.

Lemma walking_keeps c c' :
  walking_step w root c c' -> walking_ok w vol root s0 goals c -> walking_ok w vol root s0 goals c'.
Proof.
  intros Hstep Hok. destruct Hstep as [s xs i x s' x' Hi H].
  destruct (walker_lookup_ok s xs i x Hok Hi) as (Hcache & Hpc & goal & Hgoal & Hx).
  pose proof (walker_progress s goal x Hcache Hpc Hx) as Hp. rewrite H in Hp. destruct Hp as (? & ? & [= <- <-] & Hmove).
  destruct (move_shared s xs i x s' x' Hok Hi Hmove) as (Hconf & Hloads & Hrefs & Hframe & Hst).
  destruct Hok as [_ _ _ Hframe0 _ Hlocks Hall]. cbn [wk_nodes wk_walkers] in *.
  pose proof (lookup_lt_Some _ _ _ Hi) as Hlt.
  split; cbn [wk_nodes wk_walkers]; [exact Hconf|exact Hloads|exact Hrefs|by etrans|exact Hst|..].
  - intros p n' Hn' Hl. destruct (move_locks s x s' x' p n' Hcache Hpc Hmove Hn' Hl) as [Hx'|(n & Hn & Hln & Himp)].
    { exists x'. split; [|done]. eapply list_elem_of_lookup_2, list_lookup_insert_eq, Hlt. }
    destruct (Hlocks p n Hn Hln) as (y & [j Hj]%list_elem_of_lookup & Hy). destruct (decide (j = i)) as [->|Hne].
    + rewrite Hi in Hj. injection Hj as <-. exists x'. split; [|by apply Himp].
      eapply list_elem_of_lookup_2, list_lookup_insert_eq, Hlt.
    + exists y. split; [|done]. apply list_elem_of_lookup_2 with j. by rewrite list_lookup_insert_ne.
  - rewrite <- (list_insert_id goals i goal) by done. apply Forall2_insert.
    + eapply Forall2_impl; [exact Hall|]. intros g y. apply walker_ok_mono. intros j q. by apply walk_frame_cached.
    + eapply move_ok; [exact Hcache|exact Hpc| |exact Hmove|exact Hx]. intros j q. by apply walk_frame_cached.
Qed.

(** ** Lemmas: no deadlock *)

(** The depth of the node a client waits for, when it waits for one. *)
Definition wait_depth (depth : Z -> nat) (x : walker) : option nat :=
  match x with
  | Waits _ => Some 0%nat
  | Looks _ _ _ (HLook inum _ (NodeLock _)) => Some (S (depth inum))
  | _ => None
  end.

Section Stuck.
Context (s : nstate) (xs : list walker) (depth : Z -> nat).
Hypothesis Hok : walking_ok w vol root s0 goals (Walking s xs).
Hypothesis Hstuck : forall c, ~ walking_step w root (Walking s xs) c.

(** A client that is not at its end waits. *)
Lemma stuck_step i x :
  xs !! i = Some x ->
  match x with
  | Waits _ => exists n, nodes s !! root = Some n /\ locked n = true
  | Looks _ _ _ (HLook inum Plain a) => thread_step hd fuel e s inum a = None /\ forall np err, a <> Done np err
  | Ends _ _ => True
  | _ => False
  end.
Proof.
  intros Hi. destruct (walker_lookup_ok s xs i x Hok Hi) as (Hcache & Hpc & goal & _ & Hx).
  pose proof (walker_progress s goal x Hcache Hpc Hx) as Hp. destruct (walker_step w root s x) as [r|] eqn:Hr; [|exact Hp].
  destruct Hp as (s' & x' & -> & _). by destruct (Hstuck _ (walker_moves w root s xs i x s' x' Hi Hr)).
Qed.

Lemma stuck_unlocked : refcnt_lock s = false.
Proof.
  destruct (refcnt_lock s) eqn:Hl; [|done]. exfalso.
  destruct (co_free _ _ _ _ (wo_conf _ _ _ _ _ _ Hok) (@world_catch w Hw) Hl) as (i & inum & a & Hi & Ha).
  cbn [threads wk_walkers] in Hi. apply list_lookup_fmap_Some in Hi as (x & Hx & Hi).
  pose proof (stuck_step i x Hi) as Hs. destruct x as [| |dp name names [|m k b| |]|]; cbn in Hx; simplify_eq; try done.
  destruct k; try done. destruct Hs as [Hs _]. by destruct b.
Qed.

Lemma stuck_waits i x :
  xs !! i = Some x ->
  (exists npp err, x = Ends npp err) \/
  exists d q n, wait_depth depth x = Some d /\ nodes s !! q = Some n /\ locked n = true /\ (d <= S (depth (cache_id n)))%nat.
Proof.
  intros Hi. pose proof (stuck_step i x Hi) as Hs. pose proof stuck_unlocked as Hl.
  destruct x as [names| |dp name names at_|npp err]; [|done| |by left; eauto].
  - right. destruct Hs as (n & Hn & Hln). exists 0%nat, root, n. split_and!; try done. lia.
  - right. destruct at_ as [|inum [] a| |]; try done. destruct Hs as [Hs Hd].
    destruct (walker_lookup_ok s xs i _ Hok Hi) as (_ & Hpc & _). specialize (Hpc inum a eq_refl).
    destruct a; cbn [thread_step] in Hs; rewrite ?Hl in Hs; try done; [|by edestruct Hd].
    destruct Hpc as (n & Hn & Hid). rewrite Hn in Hs. exists (S (depth inum)), p, n. split_and!; try done.
    + by destruct (locked n).
    + by rewrite Hid.
Qed.

(** Whoever has the mutex another client waits for, waits for a deeper one. *)
Lemma stuck_deeper i x d :
  (forall j ds name c, vol j = Some (VDir ds) -> resolve ds name = Some c -> (depth j < depth (d_inumber c))%nat) ->
  xs !! i = Some x -> wait_depth depth x = Some d ->
  exists j y d', xs !! j = Some y /\ wait_depth depth y = Some d' /\ (d < d')%nat.
Proof.
  intros Hacyclic Hi Hd. destruct (stuck_waits i x Hi) as [(npp & err & ->)|(d' & q & n & Hd' & Hn & Hln & Hle)]; [done|].
  rewrite Hd in Hd'. injection Hd' as <-.
  destruct (wo_locks _ _ _ _ _ _ Hok q n Hn Hln) as (y & [j Hj]%list_elem_of_lookup & Hy). cbn [wk_walkers] in Hj.
  pose proof (stuck_step j y Hj) as Hs. destruct (walker_lookup_ok s xs j y Hok Hj) as (_ & _ & goal & _ & Hyok).
  destruct y as [| |dp name names at_|]; try done. destruct at_ as [|inum [] a| |]; try done.
  destruct (stuck_waits j _ Hj) as [(npp & err & ?)|(d' & q' & n' & Hd' & _)]; [done|].
  exists j, (Looks dp name names (HLook inum Plain a)), d'. split; [done|]. split; [done|].
  cbn [wait_depth] in Hd'. destruct a; try done. injection Hd' as <-. destruct Hy as [->|[]].
  destruct Hyok as (i' & ds & (m & Hm & Hid) & _ & _ & Hv & _ & (c & Hc & ->) & _).
  rewrite Hn in Hm. injection Hm as <-. pose proof (Hacyclic i' ds name c Hv Hc). rewrite Hid in Hle. lia.
Qed.

Lemma stuck_ends :
  (forall j ds name c, vol j = Some (VDir ds) -> resolve ds name = Some c -> (depth j < depth (d_inumber c))%nat) ->
  forall i x, xs !! i = Some x -> exists npp err, x = Ends npp err.
Proof.
  intros Hacyclic i x Hi. destruct (stuck_waits i x Hi) as [?|(d & _ & _ & Hd & _)]; [done|exfalso].
  assert (forall k, exists j y d', xs !! j = Some y /\ wait_depth depth y = Some d' /\ (k <= d')%nat) as Hup.
  { induction k as [|k (j & y & d' & Hj & Hy & Hk)]; [exists i, x, d; split_and!; try done; lia|].
    destruct (stuck_deeper j y d' Hacyclic Hj Hy) as (j' & y' & d'' & ? & ? & ?). exists j', y', d''. split_and!; try done. lia. }
  set (ds := (fun y => default 0%nat (wait_depth depth y)) <$> xs).
  destruct (Hup (S (max_list ds))) as (j & y & d' & Hj & Hy & Hk).
  assert (d' ∈ ds) as Hin by (apply list_elem_of_fmap; exists y; rewrite Hy; split; [done|by eapply list_elem_of_lookup_2]).
  pose proof (max_list_elem_of_le d' ds Hin). lia.
Qed.

End Stuck.

(** ** Lemmas: runs *)

Lemma walking_steps_ok c c' :
  rtc (walking_step w root) c c' -> walking_ok w vol root s0 goals c -> walking_ok w vol root s0 goals c'.
Proof. induction 1; [done|]. intros Hok. by eapply IHrtc, walking_keeps. Qed.

Lemma walking_less c c' :
  walking_step w root c c' -> walking_ok w vol root s0 goals c ->
  (sum_list_with steps_left (wk_walkers c') < sum_list_with steps_left (wk_walkers c))%nat.
Proof.
  intros Hstep Hok. destruct Hstep as [s xs i x s' x' Hi H].
  destruct (walker_lookup_ok s xs i x Hok Hi) as (Hcache & Hpc & goal & _ & Hx).
  pose proof (walker_progress s goal x Hcache Hpc Hx) as Hp. rewrite H in Hp. destruct Hp as (? & ? & [= <- <-] & Hmove).
  pose proof (move_less _ _ _ _ Hmove). pose proof (sum_list_with_insert steps_left xs i x x' Hi). cbn [wk_walkers]. lia.
Qed.

Lemma walking_length k c c' :
  nsteps (walking_step w root) k c c' -> walking_ok w vol root s0 goals c ->
  (k + sum_list_with steps_left (wk_walkers c') <= sum_list_with steps_left (wk_walkers c))%nat.
Proof.
  induction 1 as [|k c c1 c' H1 _ IH]; intros Hok; [lia|].
  pose proof (walking_less _ _ H1 Hok). pose proof (IH (walking_keeps _ _ H1 Hok)). lia.
Qed.

Lemma walking_no_fault s xs i x r :
  walking_ok w vol root s0 goals (Walking s xs) -> xs !! i = Some x -> walker_step w root s x = Some r ->
  exists s' x', r = Ret (s', x').
Proof.
  intros Hok Hi H. destruct (walker_lookup_ok s xs i x Hok Hi) as (Hcache & Hpc & goal & _ & Hx).
  pose proof (walker_progress s goal x Hcache Hpc Hx) as Hp. rewrite H in Hp. destruct Hp as (s' & x' & -> & _). by exists s', x'.
Qed.

End Walk.

(** ** Lemmas: walks of a translator *)

Section Walks.
Context (w : world) (vol : volume) (root : positive) (s : pstate) (b : bcache) (rn : node) (paths : list (list (list Z))).
Context (Hw : WorldLaws w) (Hvol : HoldsVolume (w_env w) (w_fuel w) vol).
Context (Hmem : forall h, is_Some (make_node (w_hurd w) h)).
Hypothesis Hok : server_ok w (Server s b).
Hypothesis Hrefs : forall q n, nodes (ns s) !! q = Some n -> 0 < references n.
Hypothesis Hidle : idle (ns s).
Hypothesis Hroot : nodes (ns s) !! root = Some rn.
Hypothesis Hpaths : forall names, names ∈ paths -> path_ok vol (cache_id rn) names.

Definition walks : walking := Walking (ns s) (Waits <$> paths).
Definition walk_goals : list (option Z) := resolve_path vol (cache_id rn) <$> paths.

Lemma walks_start : walking_ok w vol root (ns s) walk_goals walks.
Proof.
  assert (forall i n a, (cache_lookup <$> (Waits <$> paths)) !! i = Some (n, a) -> a = Done None (Some ENOMEM)) as Hnone.
  { intros i n a Hi. rewrite <- list_fmap_compose in Hi. by apply list_lookup_fmap_Some in Hi as (x & [= _ ->] & _). }
  split; cbn [walks wk_nodes wk_walkers].
  - split; cbn [shared threads]; [exact (so_cache _ _ Hok)|..].
    + intros i n a ->%Hnone. done.
    + intros i j n a n' a' ->%Hnone. done.
    + intros i n a ->%Hnone. done.
    + intros _ Hl. pose proof (so_refcnt_lock _ _ Hok) as Hl'. cbn [sv_pager] in Hl'. congruence.
  - intros i n a ->%Hnone. done.
  - exact Hrefs.
  - done.
  - intros q n Hn. left. exact (so_stat _ _ Hok q n Hn).
  - intros p n Hn Hl. by rewrite (Hidle p n Hn) in Hl.
  - apply Forall2_fmap, Forall_Forall2_diag, Forall_forall. intros names Hin. cbn [walker_ok].
    exists (cache_id rn). split; [by exists rn|]. split; [by apply Hpaths|done].
Qed.

(** The pagers fit the nodes that the walks leave. *)
Lemma frame_pager_ok s' : walk_frame (ns s) s' -> pager_ok (set_ns s' s).
Proof.
  intros [Hk Hnew]. destruct (so_pager _ _ Hok) as [Hfi Hlive Hlight]. cbn [sv_pager] in *.
  split; cbn [set_ns ns upis].
  - intros np n' u Hn' Hu. destruct (nodes (ns s) !! np) as [n|] eqn:Hn.
    + destruct (Hk np n Hn) as (m & Hm & _ & Hf & _). cbn [set_ns ns] in Hn'. rewrite Hn' in Hm. injection Hm as <-.
      apply (Hfi np n u); [done|congruence].
    + destruct (Hnew np n' Hn' Hn) as [_ Hf]. congruence.
  - intros u upi Hu Ht. destruct (Hlive u upi Hu Ht) as (np & n & p & -> & Hn & Hs).
    destruct (Hk np n Hn) as (n' & Hn' & _ & _ & _ & Hst). exists np, n', p. auto.
  - intros np n' Hn'. destruct (nodes (ns s) !! np) as [n|] eqn:Hn.
    + destruct (Hk np n Hn) as (m & Hm & _ & _ & Hl & _). rewrite Hn' in Hm. injection Hm as <-. rewrite Hl. by apply Hlight.
    + destruct (Hnew np n' Hn' Hn) as [-> _]. symmetry. apply pagers_of_zero. intros u upi Hu [Ht Hnp].
      destruct (Hlive u upi Hu Ht) as (q & n & p & -> & Hq & _). cbn in Hnp. congruence.
Qed.

Lemma waits_left : sum_list_with steps_left (Waits <$> paths) = sum_list_with (fun names => 2 + 14 * length names)%nat paths.
Proof. clear. by induction paths as [|names l IH]; [|cbn; rewrite IH]. Qed.

(** When nobody can go on. *)
Lemma walks_end c :
  acyclic vol ->
  rtc (walking_step w root) walks c -> (forall c', ~ walking_step w root c c') ->
  idle (wk_nodes c) /\ server_ok w (Server (set_ns (wk_nodes c) s) b) /\
  (forall q n, nodes (wk_nodes c) !! q = Some n -> 0 < references n) /\
  forall i names, paths !! i = Some names ->
    match resolve_path vol (cache_id rn) names with
    | Some inum => exists np n, wk_walkers c !! i = Some (Ends (Some np) None) /\ nodes (wk_nodes c) !! np = Some n /\
        cache_id n = inum /\ shows vol n
    | None => wk_walkers c !! i = Some (Ends None (Some ENOENT))
    end.
Proof.
  intros [depth Hacyclic] Hrun Hstuck. pose proof (walking_steps_ok w vol root (ns s) walk_goals Hw Hvol Hmem _ _ Hrun walks_start) as Hwok.
  destruct c as [s' xs]. cbn [wk_nodes wk_walkers].
  pose proof (stuck_ends w vol root (ns s) walk_goals Hw Hvol s' xs depth Hwok Hstuck Hacyclic) as Hends.
  pose proof (stuck_unlocked w vol root (ns s) walk_goals Hw Hvol s' xs Hwok Hstuck) as Hl.
  destruct Hwok as [Hconf _ Hr Hframe Hst Hlocks Hall]. cbn [wk_nodes wk_walkers] in *.
  assert (forall q n, nodes s' !! q = Some n -> stat_ok w n) as Hstat.
  { intros q n Hn. destruct (Hst q n Hn) as [?|(_ & i & inum & a & Hi & Hf)]; [done|exfalso].
    apply list_lookup_fmap_Some in Hi as (x & Hx & Hi). destruct (Hends i x Hi) as (npp & err & ->).
    cbn in Hx. injection Hx as _ ->. done. }
  split; [|split; [|split; [exact Hr|]]].
  - intros q n Hn. destruct (locked n) eqn:Hln; [exfalso|done].
    destruct (Hlocks q n Hn Hln) as (x & [i Hi]%list_elem_of_lookup & Hx). by destruct (Hends i x Hi) as (npp & err & ->).
  - split; cbn [sv_pager sv_buffers set_ns ns]; [exact (co_cache _ _ _ _ Hconf)|exact Hl|exact (so_pagelock _ _ Hok)| | | |].
    + by apply frame_pager_ok.
    + intros q n Hn. specialize (Hr q n Hn). lia.
    + exact Hstat.
    + exact (so_buffers _ _ Hok).
  - intros i names Hi. assert (walk_goals !! i = Some (resolve_path vol (cache_id rn) names)) as Hg
      by (unfold walk_goals; by rewrite list_lookup_fmap, Hi).
    destruct (Forall2_lookup_l _ _ _ _ _ Hall Hg) as (x & Hx & Hxok). destruct (Hends i x Hx) as (npp & err & ->).
    cbn [walker_ok] in Hxok. destruct (resolve_path vol (cache_id rn) names) as [inum|]; [|by destruct Hxok as [-> ->]].
    destruct Hxok as (np & -> & -> & n & Hn & Hid). exists np, n. split_and!; try done.
    apply (stat_shows w vol); [done..|]. by eapply Hstat.
Qed.

End Walks.

(** ** Lemmas: a walk to the end *)

Definition can_move (w : world) (root : positive) (s : nstate) (x : walker) : bool :=
  match walker_step w root s x with Some (Ret _) => true | _ => false end.

Lemma step_or_stuck w root c : (exists c', walking_step w root c c') \/ forall c', ~ walking_step w root c c'.
Proof.
  destruct c as [s xs]. destruct (decide (Exists (fun x => can_move w root s x = true) xs)) as [He|Hn].
  - left. apply Exists_exists in He as (x & [i Hi]%list_elem_of_lookup & Hx). unfold can_move in Hx.
    destruct (walker_step w root s x) as [[[s' x']|er|f|]|] eqn:Hs; try done. eexists. by eapply walker_moves.
  - right. intros c' Hstep. apply Hn. inversion Hstep as [s1 xs1 i x s' x' Hi Hs]; subst. apply Exists_exists. exists x.
    split; [by eapply list_elem_of_lookup_2|]. unfold can_move. by rewrite Hs.
Qed.

Lemma walking_completes w vol root s0 goals c :
  WorldLaws w -> HoldsVolume (w_env w) (w_fuel w) vol -> (forall h, is_Some (make_node (w_hurd w) h)) ->
  walking_ok w vol root s0 goals c ->
  exists k c', nsteps (walking_step w root) k c c' /\ forall c'', ~ walking_step w root c' c''.
Proof.
  intros Hw Hvol Hmem. remember (sum_list_with steps_left (wk_walkers c)) as m eqn:Hm. revert c Hm.
  induction (lt_wf m) as [m _ IH]. intros c -> Hok. destruct (step_or_stuck w root c) as [[c1 H1]|Hstuck].
  - destruct (IH _ (walking_less w vol root s0 goals Hw Hvol c c1 H1 Hok) c1 eq_refl
      (walking_keeps w vol root s0 goals Hw Hvol Hmem c c1 H1 Hok)) as (k & c' & Hk & Hc').
    exists (S k), c'. split; [by eapply nsteps_l|done].
  - exists 0%nat, c. split; [constructor|done].
Qed.

Lemma resolve_in ds name d : resolve ds name = Some d -> d ∈ ds.
Proof.
  unfold resolve. destruct (list_find _ ds) as [[k d']|] eqn:Hf; [|done]. intros [= <-].
  apply list_find_Some in Hf as (Hk & _). by eapply list_elem_of_lookup_2.
Qed.

Lemma sample_acyclic : acyclic sample_volume.
Proof.
  exists (fun i => if i =? 2 then 0%nat else if i =? 8 then 1%nat else 2%nat). intros i ds name d Hv Hd%resolve_in.
  unfold sample_volume in Hv. destruct (i =? 2); [|destruct (i =? 8); [|by repeat case_match]]; injection Hv as <-;
    apply list_elem_of_In in Hd; cbn [In sample_root_dir sample_tree_dir] in Hd; naive_solver lia.
Qed.

(** ** Lemmas: one client at a time *)

Section Owners.
Context (w : world) (vol : volume) (root : positive) (Hw : WorldLaws w) (Hvol : HoldsVolume (w_env w) (w_fuel w) vol).

Definition walker_rel : relation (nstate * walker) := fun x y => walker_step w root x.1 x.2 = Some (Ret y).

Lemma walker_alone x y :
  rtc walker_rel x y -> forall xs i, xs !! i = Some x.2 ->
  rtc (walking_step w root) (Walking x.1 xs) (Walking y.1 (<[i := y.2]> xs)).
Proof.
  induction 1 as [x|[s a] [s1 a1] y Hs _ IH]; intros xs i Hi; cbn [fst snd] in *; [by rewrite list_insert_id|].
  eapply rtc_l; [by eapply walker_moves|]. rewrite <- (list_insert_insert_eq xs i y.2 a1).
  apply IH, list_lookup_insert_eq. by eapply lookup_lt_Some.
Qed.

Lemma walker_looks dp name names inum x y :
  rtc (thread_rel (w_hurd w) (w_fuel w) (w_env w) inum) x y ->
  rtc walker_rel (x.1, Looks dp name names (HLook inum Plain x.2)) (y.1, Looks dp name names (HLook inum Plain y.2)).
Proof.
  induction 1 as [x|[s a] [s1 a1] y Hs _ IH]; [done|]. eapply rtc_l; [|exact IH]. unfold walker_rel, thread_rel in *.
  cbn [fst snd walker_step] in *. destruct (done_or_not a) as [(np & err & ->)|Ha]; [done|].
  rewrite look_step by done. by rewrite Hs.
Qed.

(** A client looks one name up in the root, and nobody else moves. *)
Lemma walk_name s rn name ds d s2 np :
  nodes s !! root = Some rn -> locked rn = false -> path_ok vol (cache_id rn) [name] ->
  vol (cache_id rn) = Some (VDir ds) -> resolve ds name = Some d ->
  rtc (thread_rel (w_hurd w) (w_fuel w) (w_env w) (d_inumber d)) (update_node root (set_locked true) s, Call) (s2, Done (Some np) None) ->
  rtc walker_rel (s, Waits [name]) (mutex_unlock root s2, Has np []).
Proof.
  intros Hn Hl Hpath Hv Hd Hrun. set (s1 := update_node root (set_locked true) s) in *.
  assert (cached s1 (cache_id rn) root) as Hroot by (exists (set_locked true rn); split; [by apply updated|done]).
  eapply (rtc_l _ _ (s1, Has root [name])); [unfold walker_rel; cbn; by rewrite Hn, Hl|].
  eapply (rtc_l _ _ (s1, Looks root name [] HCall)); [done|].
  eapply (rtc_l _ _ (s1, Looks root name [] (HLook (d_inumber d) Plain Call))).
  { unfold walker_rel. cbn [fst snd walker_step].
    rewrite (call_step w vol root Hw Hvol s1 root (cache_id rn) name [] ds Hroot Hpath Hv), Hd. done. }
  etrans; [exact (walker_looks root name [] (d_inumber d) _ _ Hrun)|]. cbn [fst snd].
  eapply (rtc_l _ _ (s2, Looks root name [] (HDone (Some (Some np)) None))); [done|]. by apply rtc_once.
Qed.

End Owners.

(** ** Theorems *)

(** C27: A mutex with two owners.  The first lookup of a number returns its node unlocked, and
    the next finds it unlocked and locks it: two clients that look the same name up one
    after another, each with the mutex of the root while it does, are both left with the
    node, each as if it had the node's mutex. *)
Theorem two_owners (w : world) (vol : volume) (root np : positive) (s : nstate) (rn : node) (name : list Z) (ds : list dent)
    (d : dent) :
  WorldLaws w -> HoldsVolume (w_env w) (w_fuel w) vol -> cache_ok s -> refcnt_lock s = false ->
  nodes s !! root = Some rn -> locked rn = false -> path_ok vol (cache_id rn) [name] ->
  vol (cache_id rn) = Some (VDir ds) -> resolve ds name = Some d -> (forall p, ~ cached s (d_inumber d) p) ->
  make_node (w_hurd w) (nodes (update_node root (set_locked true) s)) = Some np ->
  exists c n, rtc (walking_step w root) (Walking s [Waits [name]; Waits [name]]) c /\
    wk_walkers c = [Has np []; Has np []] /\ nodes (wk_nodes c) !! np = Some n /\ cache_id n = d_inumber d.
Proof.
  intros Hw Hvol Hok Hl Hn Hlk Hpath Hv Hd Hno Hmk. set (s1 := update_node root (set_locked true) s) in *.
  pose proof (shape_lock s root true) as Hshape. fold s1 in Hshape.
  pose proof (updated s root (set_locked true) rn Hn : nodes s1 !! root = _) as Hn1.
  destruct (path_next vol _ _ _ _ _ Hpath Hv Hd) as [_ [o Ho]]. destruct (vol_inode w vol Hvol _ _ Ho) as (di & Hr & _).
  destruct (lookup_new_file (w_hurd w) (w_fuel w) (w_env w) s1 (d_inumber d) np di) as (s2 & n & Heq & Hsame & Hnp & Hid & _ & _ & _ & Hok2 & Hl2 & Hlk2);
    [by eapply same_shape_cache|done|apply wf_malloc| |done|by apply world_catch|done|].
  { intros p Hp. apply (Hno p). by apply (same_shape_cached s s1). }
  rewrite <- (run_alone_lookup _ _ _ _ _ 0) in Heq. apply run_alone_steps in Heq.
  pose proof (walk_name w vol root Hw Hvol s rn name ds d s2 np Hn Hlk Hpath Hv Hd Heq) as HA.
  set (s3 := mutex_unlock root s2) in *. assert (root <> np) as Hne.
  { intros ->. apply make_node_fresh in Hmk. congruence. }
  assert (exists rn2, nodes s2 !! root = Some rn2 /\ cache_id rn2 = cache_id rn) as (rn2 & Hn2 & Hid2).
  { specialize (Hsame root Hne). rewrite Hn1 in Hsame. destruct (nodes s2 !! root) as [m|]; [|done].
    apply Some_inj in Hsame. exists m. split; [done|]. injection Hsame. cbn. congruence. }
  pose proof (updated s2 root (set_locked false) rn2 Hn2 : nodes s3 !! root = Some (set_locked false rn2)) as Hn3.
  set (s4 := update_node root (set_locked true) s3).
  assert (nodes s4 !! np = Some n) as Hnp4 by (cbn; by rewrite !lookup_alter_ne by done).
  assert (cache_ok s4) as Hok4 by (eapply same_shape_cache; [etrans; [apply (shape_lock s2 root false)|apply shape_lock]|done]).
  pose proof (hit_steps (w_hurd w) (w_fuel w) (w_env w) s4 (d_inumber d) np n Hok4 Hl2 Hnp4 Hid Hlk2) as HB.
  rewrite <- Hid2 in Hpath, Hv.
  pose proof (walk_name w vol root Hw Hvol s3 (set_locked false rn2) name ds d _ np Hn3 eq_refl Hpath Hv Hd HB) as HB'.
  eexists _, (set_locked true (add_reference 1 n)). split; [etrans; [exact (walker_alone w root _ _ HA [Waits [name]; Waits [name]] 0 eq_refl)|
    exact (walker_alone w root _ _ HB' [Has np []; Waits [name]] 1 eq_refl)]|]. split; [done|].
  cbn [wk_nodes fst mutex_unlock update_node set_nodes nodes]. rewrite lookup_alter_ne by done.
  split; [by rewrite !lookup_alter_eq, Hnp4|exact Hid].
Qed.

(** ** Witness *)

(** "tree" in the root, right after start-up. *)
Lemma two_owners_witness :
  exists root s np c, rtc (walking_step (demo_world_of roomy_hurd) root)
      (Walking s [Waits [[0x74; 0x72; 0x65; 0x65]]; Waits [[0x74; 0x72; 0x65; 0x65]]]) c /\
    wk_walkers c = [Has np []; Has np []] /\ cached (wk_nodes c) 8 np.
Proof.
  destruct (boots roomy_hurd (fresh (∅ : gset positive))) as ([s b] & n0 & Hb & Hn0 & Hid0 & _ & _ & _ & _ & _ & Hother & Hlk);
    [apply _|reflexivity|cbn; by rewrite dom_empty_L|]. set (root := fresh (∅ : gset positive)) in *. cbn [sv_pager] in *.
  pose proof (demo_world_of_laws roomy_hurd _ eq_refl) as Hw.
  pose proof (reachable_ok _ _ _ _ _ _ Hb (serves_nil _ _ _)) as Hok.
  destruct (sample_path [0x61; 0x6C; 0x70; 0x68; 0x61]) as (ds & Hv & Hne & Hname & Hlen & Hdot & Hall & Hnext); [by left|].
  assert (resolve ds [0x74; 0x72; 0x65; 0x65] = Some (Dent [0x74; 0x72; 0x65; 0x65] 8)) as Hd
    by (vm_compute in Hv; injection Hv as <-; reflexivity).
  assert (path_ok sample_volume (cache_id n0) [[0x74; 0x72; 0x65; 0x65]]) as Hpath.
  { rewrite Hid0. exists ds. split_and!; try done. intros d' Hd'. rewrite Hd in Hd'. injection Hd' as <-. by eexists. }
  rewrite <- Hid0 in Hv.
  destruct (two_owners (demo_world_of roomy_hurd) sample_volume root (fresh (dom (nodes (update_node root (set_locked true) (ns s))))) (ns s) n0 _ ds _ Hw sample_holds (so_cache _ _ Hok)
    (so_refcnt_lock _ _ Hok) Hn0 Hlk Hpath Hv Hd) as (c & n & Hrun & Hc & Hn & Hid); [|reflexivity|].
  - intros q (m & Hm & Hmid). destruct (decide (q = root)) as [->|Hq]; [|by rewrite Hother in Hm].
    rewrite Hn0 in Hm. injection Hm as <-. rewrite Hid0 in Hmid. discriminate Hmid.
  - eexists root, (ns s), _, c. split; [exact Hrun|]. split; [exact Hc|]. exists n. split; [exact Hn|exact Hid].
Defined.
