(* ===== verification/Epochs.v ===== *)
(** * The life of the translator

    Calls that are handled one after another (Server), phases in which lookups,
    requests for memory objects and dying pagers overlap (Phase), and phases in which
    clients walk paths at the same time (Walkers), in any order and number. *)

From stdpp Require Import gmap relations.
From S2P Require Import Prelude Layout Disk Xtree BufCache Sample Imap FileRead DirRead Node Interleave Dir LookupSteps Pager Volume Translator Server Session Service PagerSteps PagerThreads Concurrent Linear Phase Walkers.

(** ** Specification *)

(** Either one call; or a phase: lookups of objects of the volume start at the same
    time, clients ask for memory objects, pagers die, and everybody goes on until nobody
    can; or clients walk paths from the root until nobody can go on. *)
Inductive epoch (w : world) (root : option positive) (vol : volume) : server -> server -> Prop :=
| epoch_call ev sv sv' : serve w root ev sv sv' -> epoch w root vol sv sv'
| epoch_phase s b inums c :
    calm (w_pager w) s -> (forall inum, inum ∈ inums -> is_Some (vol inum)) ->
    rtc (system_step (w_hurd w) (w_fuel w) (w_env w) (w_pager w)) (system_start s inums) c ->
    ~ busy (w_hurd w) (w_fuel w) (w_env w) (w_pager w) c ->
    epoch w root vol (Server s b) (after c b)
| epoch_walks s b r rn paths c :
    root = Some r -> (forall q n, nodes (ns s) !! q = Some n -> 0 < references n) -> idle (ns s) ->
    nodes (ns s) !! r = Some rn -> (forall names, names ∈ paths -> path_ok vol (cache_id rn) names) ->
    rtc (walking_step w r) (walks s paths) c -> (forall c', ~ walking_step w r c c') ->
    epoch w root vol (Server s b) (Server (set_ns (wk_nodes c) s) b).

(** ** Lemmas *)

Section Epochs.
Context (w : world) (vol : volume) (root : option positive).
Context (Hw : WorldLaws w) (Hvol : HoldsVolume (w_env w) (w_fuel w) vol) (Htree : acyclic vol).
Context (Hmem : forall h, is_Some (make_node (w_hurd w) h)) (Hroom : forall h, is_Some (malloc_upi (w_pager w) h)).

Lemma epochs_ok sv sv' : rtc (epoch w root vol) sv sv' -> server_ok w sv -> server_ok w sv'.
Proof.
  induction 1 as [|sv sv1 sv2 Hs _ IH]; [done|]. intros Hok. apply IH. clear IH.
  destruct Hs as [ev sv sv1 Hs|s b inums c|s b r rn paths c _ Hr Hidle Hrn Hpaths Hrun Hstuck].
  - by eapply (serve_ok w root).
  - by eapply run_rests.
  - by apply (walks_end w vol r s b rn paths Hw Hvol Hmem Hok Hr Hidle Hrn Hpaths c Htree Hrun Hstuck).
Qed.

Lemma epochs_reachable_ok sv0 sv : booted w root sv0 -> rtc (epoch w root vol) sv0 sv -> server_ok w sv.
Proof. intros Hb He. apply (epochs_ok sv0); [done..|]. exact (reachable_ok _ _ _ _ _ _ Hb (serves_nil _ _ _)). Qed.

End Epochs.

(** ** Theorems *)

(** C2: The contract of the translator, with calls that overlap.  Start from the state
    [main] leaves, and go through any number of epochs: single calls, phases in which
    lookups, requests for memory objects and dying pagers are interleaved in any way
    until nobody can go on, and phases in which clients walk paths at the same time.  Then the invariant of the translator holds, and every
    request the libraries may make next returns with the answer the abstract volume
    gives, and ends another epoch. *)
Theorem epochs_served (w : world) (abi : dirent_abi) (root : option positive) (vol : volume) (sv0 sv : server) (req : request) :
  WorldLaws w -> HoldsVolume (w_env w) (w_fuel w) vol -> DirentLaws abi -> StoreLaws (w_env w) (w_store w) ->
  vm_page_size (w_hurd w) = 4096 -> (forall h, is_Some (make_node (w_hurd w) h)) ->
  (forall h, is_Some (malloc_upi (w_pager w) h)) -> (forall n, is_Some (pager_create (w_pager w) n)) ->
  acyclic vol -> booted w root sv0 -> rtc (epoch w root vol) sv0 sv ->
  server_ok w sv /\
  (allowed w abi vol sv req ->
   exists sv' rep, handle w abi root sv req = Ret (sv', rep) /\ answers (w_env w) abi vol sv sv' req rep /\
     rtc (epoch w root vol) sv0 sv').
Proof.
  intros Hw Hvol Habi Hst Hvm Hmem Hupi Hpagers Htree Hb He.
  pose proof (epochs_reachable_ok w vol root Hw Hvol Htree Hmem Hupi sv0 sv Hb He) as Hok.
  split; [done|]. intros Hreq.
  destruct (request_served w abi root vol Hw Hvol Habi Hst Hvm Hmem Hupi Hpagers sv req Hok Hreq)
    as (sv' & rep & Heq & Hans & Hstep).
  exists sv', rep. split; [done|]. split; [done|]. destruct Hstep as [->|[ev Hev]]; [done|].
  eapply rtc_r; [exact He|by eapply epoch_call].
Qed.

(** C7: What overlapping lookups give.  At every moment of a phase that starts from any
    reachable state in which the nodes are referenced and no pager is dying, every lookup
    of an object of the volume that has returned a node has returned success and the node
    of that object, which shows its type and size as soon as it has been read; and when
    the phase has come to rest all nodes have been read and another phase can start. *)
Theorem phase_results (w : world) (root : option positive) (vol : volume) (sv0 : server) (s : pstate) (b : bcache)
    (inums : list Z) (c : system) :
  WorldLaws w -> HoldsVolume (w_env w) (w_fuel w) vol -> acyclic vol -> (forall h, is_Some (make_node (w_hurd w) h)) ->
  (forall h, is_Some (malloc_upi (w_pager w) h)) -> booted w root sv0 -> rtc (epoch w root vol) sv0 (Server s b) -> calm (w_pager w) s ->
  (forall inum, inum ∈ inums -> is_Some (vol inum)) ->
  rtc (system_step (w_hurd w) (w_fuel w) (w_env w) (w_pager w)) (system_start s inums) c ->
  (forall i inum np err, sy_lookups c !! i = Some (inum, Done (Some np) err) ->
     err = None /\ exists n, nodes (cache_of (sy_paging c)) !! np = Some n /\ cache_id n = inum /\
       (is_Some (dn_stat n) -> shows vol n)) /\
  (~ busy (w_hurd w) (w_fuel w) (w_env w) (w_pager w) c ->
     calm (w_pager w) (pg_state (pg_pagers (sy_paging c))) /\
     forall np n, nodes (cache_of (sy_paging c)) !! np = Some n -> shows vol n).
Proof.
  intros Hw Hvol Htree Hmem Hroom Hb He Hcalm Hinums Hrun.
  pose proof (epochs_reachable_ok w vol root Hw Hvol Htree Hmem Hroom sv0 _ Hb He) as Hok.
  split; [intros i inum np err; by eapply run_result|]. intros Hidle.
  destruct (run_rests w vol Hw Hvol s b inums c Hok Hcalm Hinums Hrun Hroom Hidle) as [Hok' Hcalm']. split; [done|].
  intros np n Hn. exact (stat_shows w vol Hvol n (so_stat _ _ Hok' np n Hn)).
Qed.

(** C3: Walking paths at the same time.  From every reachable state in which the nodes are
    referenced and unlocked, on a volume whose directories form no cycle, any number of
    clients walk any paths, each holding the mutex of the directory it looks a name up
    in.  However their steps are interleaved, no client faults; they take at most 2 steps
    each and 14 for every name; they do not block each other for ever; and when nobody
    can go on every client has the node of the object its path denotes in the volume, or
    ENOENT, all mutexes are free and the invariant of the translator holds. *)
Theorem concurrent_walks (w : world) (root : positive) (vol : volume) (sv0 : server) (s : pstate) (b : bcache) (rn : node)
    (paths : list (list (list Z))) (k : nat) (c : walking) :
  WorldLaws w -> HoldsVolume (w_env w) (w_fuel w) vol -> acyclic vol -> (forall h, is_Some (make_node (w_hurd w) h)) ->
  (forall h, is_Some (malloc_upi (w_pager w) h)) ->
  booted w (Some root) sv0 -> rtc (epoch w (Some root) vol) sv0 (Server s b) ->
  (forall q n, nodes (ns s) !! q = Some n -> 0 < references n) -> idle (ns s) -> nodes (ns s) !! root = Some rn ->
  (forall names, names ∈ paths -> path_ok vol (cache_id rn) names) ->
  nsteps (walking_step w root) k (walks s paths) c ->
  (forall i x r, wk_walkers c !! i = Some x -> walker_step w root (wk_nodes c) x = Some r -> exists s' x', r = Ret (s', x')) /\
  (k <= sum_list_with (fun names => 2 + 14 * length names) paths)%nat /\
  ((forall c', ~ walking_step w root c c') ->
   idle (wk_nodes c) /\ server_ok w (Server (set_ns (wk_nodes c) s) b) /\
   forall i names, paths !! i = Some names ->
     match resolve_path vol (cache_id rn) names with
     | Some inum => exists np n, wk_walkers c !! i = Some (Ends (Some np) None) /\ nodes (wk_nodes c) !! np = Some n /\
         cache_id n = inum /\ shows vol n
     | None => wk_walkers c !! i = Some (Ends None (Some ENOENT))
     end).
Proof.
  intros Hw Hvol Htree Hmem Hroom Hb He Hrefs Hidle Hroot Hpaths Hk.
  pose proof (epochs_reachable_ok w vol (Some root) Hw Hvol Htree Hmem Hroom sv0 _ Hb He) as Hok.
  pose proof (walks_start w vol root s b rn paths Hok Hrefs Hidle Hroot Hpaths) as Hstart.
  assert (rtc (walking_step w root) (walks s paths) c) as Hrun by (apply rtc_nsteps; by exists k).
  split; [|split].
  - intros i x r Hi H. pose proof (walking_steps_ok w vol root (ns s) _ Hw Hvol Hmem _ _ Hrun Hstart) as Hwok.
    destruct c as [s' xs]. exact (walking_no_fault w vol root (ns s) _ Hw Hvol s' xs i x r Hwok Hi H).
  - pose proof (walking_length w vol root (ns s) _ Hw Hvol Hmem k _ _ Hk Hstart) as Hlen. cbn [walks wk_walkers] in Hlen.
    rewrite waits_left in Hlen. lia.
  - intros Hstuck. destruct (walks_end w vol root s b rn paths Hw Hvol Hmem Hok Hrefs Hidle Hroot Hpaths c Htree Hrun Hstuck)
      as (Hfree & Hsv & _ & Hends). split; [exact Hfree|]. split; [exact Hsv|exact Hends].
Qed.

(** ** Witnesses *)

(** A phase of two lookups of file 5, right after start-up. *)
Lemma demo_phase :
  exists root s b np c, booted (demo_world_of roomy_hurd) (Some root) (Server s b) /\ calm demo_pagerlib s /\
    rtc (system_step roomy_hurd 2 sample_env demo_pagerlib) (system_start s [5; 5]) c /\
    sy_lookups c = [(5, Done (Some np) None); (5, Done (Some np) None)] /\
    ~ busy roomy_hurd 2 sample_env demo_pagerlib c /\ forall q, ~ cached (cache_of (sy_paging c)) 8 q.
Proof.
  destruct (boots roomy_hurd (fresh (∅ : gset positive))) as ([s b] & n0 & Hb & Hn0 & Hid0 & Href0 & _ & _ & _ & Hu & Hother & _);
    [apply _|reflexivity|cbn; by rewrite dom_empty_L|]. set (root := fresh (∅ : gset positive)) in *. cbn [sv_pager] in *.
  pose proof (demo_world_of_laws roomy_hurd _ eq_refl) as Hw.
  assert (server_ok (demo_world_of roomy_hurd) (Server s b)) as Hok by exact (reachable_ok _ _ _ _ _ _ Hb (serves_nil _ _ _)).
  assert (forall q n, nodes (ns s) !! q = Some n -> n = n0) as Hall.
  { intros q n Hn. destruct (decide (q = root)) as [->|Hq]; [congruence|]. by rewrite Hother in Hn. }
  destruct (sample_inode_fuel 2 5 ltac:(lia) ltac:(lia)) as (di & Hr & _).
  destruct (lookup_new_file roomy_hurd 2 sample_env (ns s) 5 (fresh (dom (nodes (ns s)))) di (so_cache _ _ Hok)
    (so_refcnt_lock _ _ Hok) eq_refl) as (s1 & n & Hl & Hsame & Hn & Hid & _ & _ & _ & Hok1 & Hl1 & Hlk);
    [intros p (m & Hm & Hmid); rewrite (Hall p m Hm), Hid0 in Hmid; discriminate Hmid|reflexivity|reflexivity|exact Hr|].
  set (np := fresh (dom (nodes (ns s)))) in *.
  rewrite <- (run_alone_lookup roomy_hurd 2 sample_env (ns s) 5 0) in Hl. apply run_alone_steps in Hl.
  pose proof (hit_steps roomy_hurd 2 sample_env s1 5 np n Hok1 Hl1 Hn Hid Hlk) as H2.
  pose proof (lift_steps _ _ _ _ _ _ Hl [(5, Call); (5, Call)] 0%nat eq_refl) as L1.
  pose proof (lift_steps _ _ _ _ _ _ H2 [(5, Done (Some np) None); (5, Call)] 1%nat eq_refl) as L2.
  exists root, s, b, np. eexists. split; [exact Hb|]. split; [|split; [|split; [|split]]].
  - split; [intros q m Hm; rewrite (Hall q m Hm), Href0; reflexivity|]. intros u q p Hq. rewrite Hu in Hq.
    apply lookup_singleton_Some in Hq as [_ Hq]. discriminate Hq.
  - exact (lookups_run roomy_hurd 2 sample_env demo_pagerlib _ _ (rtc_trans _ _ _ L1 L2) (filemap_requests s []) 0 eq_refl).
  - reflexivity.
  - intros [(i & t & at_ & st' & at' & Hi & _)|(i & inum & at_ & s' & at' & Hi & H)]; [by destruct i|].
    destruct i as [|[|i]]; cbn in Hi; [injection Hi as <- <-; discriminate H..|discriminate Hi].
  - intros q (m & Hm & Hmid). change (nodes (update_node np (set_locked true) (update_node np (add_reference 1) s1)) !! q = Some m) in Hm.
    destruct (decide (q = np)) as [->|Hq].
    + rewrite (updated _ np _ _ (updated s1 np _ _ Hn)) in Hm. injection Hm as <-. cbn in Hmid. congruence.
    + cbn [update_node set_nodes nodes] in Hm. rewrite !lookup_alter_ne in Hm by congruence. specialize (Hsame q Hq).
      rewrite Hm in Hsame. destruct (nodes (ns s) !! q) as [m0|] eqn:Hm0; [|discriminate Hsame].
      apply Some_inj in Hsame. injection Hsame as Hids _. rewrite (Hall q m0 Hm0), Hid0 in Hids. congruence.
Qed.

Lemma five_in_volume inum : inum ∈ [5; 5] -> is_Some (sample_volume inum).
Proof. intros Hi. apply list_elem_of_In in Hi. destruct Hi as [<-|[<-|[]]]; by eexists. Qed.

Lemma epochs_served_witness :
  exists root s b np c sv' np', sy_lookups c = [(5, Done (Some np) None); (5, Done (Some np) None)] /\
    epoch (demo_world_of roomy_hurd) (Some root) sample_volume (Server s b) (after c b) /\
    handle (demo_world_of roomy_hurd) demo_abi (Some root) (after c b) (CachedLookup 8) = Ret (sv', RNode np') /\
    stands_for sample_volume sv' np' 8.
Proof.
  destruct demo_phase as (root & s & b & np & c & Hb & Hcalm & Hrun & Hl & Hidle & Hno).
  pose proof (demo_world_of_laws roomy_hurd _ eq_refl) as Hw.
  assert (forall h, is_Some (make_node roomy_hurd h)) as Hmem by (intros h; by eexists).
  assert (forall h, is_Some (malloc_upi demo_pagerlib h)) as Hupi by (intros h; cbn; repeat case_match; by eexists).
  assert (forall n, is_Some (pager_create demo_pagerlib n)) as Hpagers by (intros n; by eexists).
  assert (epoch (demo_world_of roomy_hurd) (Some root) sample_volume (Server s b) (after c b)) as He
    by (eapply epoch_phase; [exact Hcalm|exact five_in_volume|exact Hrun|exact Hidle]).
  destruct (epochs_served (demo_world_of roomy_hurd) demo_abi (Some root) sample_volume (Server s b) (after c b)
    (CachedLookup 8) Hw sample_holds _ _ eq_refl Hmem Hupi Hpagers sample_acyclic Hb (rtc_once _ _ He)) as [_ Hserve].
  destruct Hserve as (sv' & rep & Heq & (np' & -> & Hs) & _).
  { split; [by eexists|]. intros q n Hn Hid. destruct (Hno q). by exists n. }
  exists root, s, b, np, c, sv', np'. split; [exact Hl|]. split; [exact He|]. split; [exact Heq|exact Hs].
Defined.

Lemma phase_results_witness :
  exists s np c n, rtc (system_step roomy_hurd 2 sample_env demo_pagerlib) (system_start s [5; 5]) c /\
    sy_lookups c = [(5, Done (Some np) None); (5, Done (Some np) None)] /\
    nodes (cache_of (sy_paging c)) !! np = Some n /\ cache_id n = 5 /\ shows sample_volume n.
Proof.
  destruct demo_phase as (root & s & b & np & c & Hb & Hcalm & Hrun & Hl & Hidle & _).
  pose proof (demo_world_of_laws roomy_hurd _ eq_refl) as Hw.
  assert (forall h, is_Some (make_node roomy_hurd h)) as Hmem by (intros h; by eexists).
  assert (forall h, is_Some (malloc_upi demo_pagerlib h)) as Hupi by (intros h; cbn; repeat case_match; by eexists).
  destruct (phase_results (demo_world_of roomy_hurd) (Some root) sample_volume (Server s b) s b [5; 5] c Hw sample_holds sample_acyclic
    Hmem Hupi Hb (rtc_refl _ _) Hcalm five_in_volume Hrun) as [Hres Hend].
  destruct (Hres 0%nat 5 np None) as (_ & n & Hn & Hid & _); [by rewrite Hl|].
  exists s, np, c, n. split; [exact Hrun|]. split; [exact Hl|]. split; [exact Hn|]. split; [exact Hid|].
  exact (proj2 (Hend Hidle) np n Hn).
Defined.

(** Three clients walk "tree/alpha", "tree/beta" and "tree/alpha" right after start-up. *)
Lemma concurrent_walks_witness :
  exists root s k c np, nsteps (walking_step (demo_world_of roomy_hurd) root) k
      (walks s ((fun name => [[0x74; 0x72; 0x65; 0x65]; name]) <$>
        [[0x61; 0x6C; 0x70; 0x68; 0x61]; [0x62; 0x65; 0x74; 0x61]; [0x61; 0x6C; 0x70; 0x68; 0x61]])) c /\
    (k <= 90)%nat /\ wk_walkers c !! 0%nat = Some (Ends (Some np) None) /\ cached (wk_nodes c) 5 np /\
    wk_walkers c !! 1%nat = Some (Ends None (Some ENOENT)).
Proof.
  destruct (boots roomy_hurd (fresh (∅ : gset positive))) as ([s b] & n0 & Hb & Hn0 & Hid0 & Href0 & _ & _ & _ & _ & Hother & Hlk);
    [apply _|reflexivity|cbn; by rewrite dom_empty_L|]. set (root := fresh (∅ : gset positive)) in *.
  pose proof (booted_idle _ _ _ Hn0 Hother Hlk) as Hidle. cbn [sv_pager] in *.
  pose proof (demo_world_of_laws roomy_hurd _ eq_refl) as Hw.
  assert (forall h, is_Some (make_node roomy_hurd h)) as Hmem by (intros h; by eexists).
  assert (forall h, is_Some (malloc_upi demo_pagerlib h)) as Hupi by (intros h; cbn; repeat case_match; by eexists).
  set (paths := _ <$> _ : list (list (list Z))).
  assert (forall names, names ∈ paths -> path_ok sample_volume (cache_id n0) names) as Hpaths.
  { intros names Hin. rewrite Hid0. apply list_elem_of_In in Hin.
    destruct Hin as [<-|[<-|[<-|[]]]]; apply sample_path; cbn; tauto. }
  assert (forall q n, nodes (ns s) !! q = Some n -> 0 < references n) as Hrefs.
  { intros q n Hn. destruct (decide (q = root)) as [->|Hq]; [|by rewrite Hother in Hn].
    rewrite Hn0 in Hn. injection Hn as <-. by rewrite Href0. }
  pose proof (reachable_ok _ _ _ _ _ _ Hb (serves_nil _ _ _)) as Hok.
  destruct (walking_completes (demo_world_of roomy_hurd) sample_volume root (ns s) _ (walks s paths) Hw sample_holds Hmem
    (walks_start (demo_world_of roomy_hurd) sample_volume root s b n0 paths Hok Hrefs Hidle Hn0 Hpaths)) as (k & c & Hk & Hstuck).
  destruct (concurrent_walks (demo_world_of roomy_hurd) root sample_volume (Server s b) s b n0 paths k c Hw sample_holds sample_acyclic
    Hmem Hupi Hb (rtc_refl _ _) Hrefs Hidle Hn0 Hpaths Hk) as (_ & Hlen & Hend).
  destruct (Hend Hstuck) as (_ & _ & Hres). rewrite Hid0 in Hres.
  pose proof (Hres 0%nat _ eq_refl) as H0. pose proof (Hres 1%nat _ eq_refl) as H1.
  vm_compute (resolve_path _ _ _) in H0. vm_compute (resolve_path _ _ _) in H1.
  destruct H0 as (np & n & H0 & Hn & Hid & _). exists root, s, k, c, np.
  split; [exact Hk|]. split; [exact Hlen|]. split; [exact H0|]. split; [by exists n|exact H1].
Defined.
